(** * SNANA FITS data format: a shallow embedding of [sntools_dataformat_fits.c]

    The C file keeps its state in process-wide globals and aborts the
    process through [errmsg(SEV_FATAL,...)].  The embedding threads one
    record of globals through a small state-and-abort monad; the fields of
    that record carry the names of the C globals, and every function below
    carries the name of the C function it transcribes.

    The cfitsio engine is an external collaborator.  It is modelled as an
    ideal typed cell store: [fits_write_col] stores one typed value at
    (column, row), [fits_read_col_*] returns what was stored. *)

From Stdlib Require Import ZArith Ascii String List Bool Lia.
From Stdlib Require Import Floats.SpecFloat.
From stdpp Require Import base gmap strings pretty.

Local Open Scope Z_scope.

(** ** C scalars *)

(** Two's-complement wrap-around of a [w]-bit signed integer. *)
Definition wrap (w z : Z) : Z := (z + 2 ^ (w - 1)) mod 2 ^ w - 2 ^ (w - 1).

Definition int_cast (z : Z) : Z := wrap 32 z.        (* (int)       *)
Definition short_cast (z : Z) : Z := wrap 16 z.      (* (short int) *)
Definition longlong_cast (z : Z) : Z := wrap 64 z.   (* (long long) *)

Definition INT_MAX : Z := 2 ^ 31 - 1.
Definition INT_MIN : Z := - 2 ^ 31.

Definition in_int (z : Z) : Prop := INT_MIN <= z <= INT_MAX.
Definition in_short (z : Z) : Prop := - 2 ^ 15 <= z <= 2 ^ 15 - 1.
Definition in_longlong (z : Z) : Prop := - 2 ^ 63 <= z <= 2 ^ 63 - 1.

(** [float] and [double] are IEEE binary32 and binary64 values, written in
    the [spec_float] form of the standard library. *)
Definition float := spec_float.
Definition double := spec_float.

Definition double_of_Z (z : Z) : double := binary_normalize 53 1024 z 0 false.

Definition double_of_float (x : float) : double :=
  match x with
  | S754_finite s m e => binary_round 53 1024 s m e
  | _ => x
  end.

Definition float_of_double (x : double) : float :=
  match x with
  | S754_finite s m e => binary_round 24 128 s m e
  | _ => x
  end.

(** Truncation toward zero, as in [(int)x] and [(long long)x] for a value
    in range. *)
Definition Z_of_double (x : double) : Z :=
  match x with
  | S754_finite s m e =>
      let a := match e with
               | Z0 => Zpos m
               | Zpos p => Zpos m * 2 ^ Zpos p
               | Zneg p => Zpos m / 2 ^ Zpos p
               end in
      if s then - a else a
  | _ => 0
  end.

(** C arrays are total functions from the index; [upd] is the assignment
    [a[i] = v]. *)
Definition upd {A : Type} (a : Z -> A) (i : Z) (v : A) : Z -> A :=
  fun j => if Z.eqb j i then v else a j.

(** ** The state-and-abort monad *)

(** [Fatal] is the outcome of [errmsg(SEV_FATAL, 0, fnam, c1err, c2err)]:
    the process stops; the globals are kept as they stand at the abort. *)
Inductive result (S A : Type) : Type :=
| Ok (a : A) (s : S)
| Fatal (fnam c1err c2err : string) (s : S).
Arguments Ok {S A} a s.
Arguments Fatal {S A} fnam c1err c2err s.

Definition M (S A : Type) : Type := S -> result S A.

Definition ret {S A} (a : A) : M S A := fun s => Ok a s.

Definition bind {S A B} (m : M S A) (k : A -> M S B) : M S B :=
  fun s => match m s with
           | Ok a s' => k a s'
           | Fatal f c1 c2 s' => Fatal f c1 c2 s'
           end.

Definition gets {S A} (f : S -> A) : M S A := fun s => Ok (f s) s.
Definition modify {S} (f : S -> S) : M S unit := fun s => Ok tt (f s).
Definition errmsg_FATAL {S A} (fnam c1err c2err : string) : M S A :=
  fun s => Fatal fnam c1err c2err s.

Declare Scope monad_scope.
Delimit Scope monad_scope with monad.
Notation "x <- c1 ;; c2" := (bind c1 (fun x => c2))
  (at level 100, c1 at next level, right associativity) : monad_scope.
Notation "c1 ;;; c2" := (bind c1 (fun _ => c2))
  (at level 100, right associativity) : monad_scope.
Local Open Scope monad_scope.

Definition when {S} (b : bool) (m : M S unit) : M S unit :=
  if b then m else ret tt.

Definition is_Ok {S A} (r : result S A) : bool :=
  match r with Ok _ _ => true | Fatal _ _ _ _ => false end.

Definition is_Fatal {S A} (r : result S A) : bool := negb (is_Ok r).

Definition fatal_in {S A} (fn : string) (r : result S A) : Prop :=
  match r with Ok _ _ => False | Fatal f _ _ _ => f = fn end.

(** [for (i = lo; ...; i++)] with a known trip count, and the same loop
    carrying a local accumulator. *)
Fixpoint for_loop {S} (n : nat) (i : Z) (body : Z -> M S unit) : M S unit :=
  match n with
  | O => ret tt
  | S n' => body i ;;; for_loop n' (i + 1) body
  end.

Fixpoint for_fold {S A} (n : nat) (i : Z) (body : Z -> A -> M S A) (a : A)
  : M S A :=
  match n with
  | O => ret a
  | S n' => a' <- body i a ;; for_fold n' (i + 1) body a'
  end.

(** Trip count of [for (i = lo; i <= hi; i++)]. *)
Definition trips (lo hi : Z) : nat := Z.to_nat (hi - lo + 1).

(** ** C strings *)

Definition strcmp0 (a b : string) : bool := String.eqb a b.  (* strcmp(a,b)==0 *)
Definition strlen (a : string) : Z := Z.of_nat (String.length a).
Definition char_str (c : ascii) : string := String c EmptyString.  (* "%c" *)

(** [sprintf(clast, "%c", ptrForm[LEN-1])]: the last character as a string.
    On an empty form the C code reads before the buffer; no column is ever
    declared with an empty form, and the model returns the empty string. *)
Fixpoint lastchar (s : string) : string :=
  match s with
  | EmptyString => EmptyString
  | String c EmptyString => char_str c
  | String _ s' => lastchar s'
  end.

(** Modelled from the spec: [catVarList_with_comma] lives in sntools.c, which
    is not part of this file; the spec has string values concatenated into a
    single comma-delimited output buffer. *)
Definition catVarList_with_comma (varList addVarName : string) : string :=
  if strlen varList >? 0 then varList +:+ "," +:+ addVarName
  else varList +:+ addVarName.

(** ** The table store (cfitsio) *)

(** One stored value, tagged with the cfitsio datatype it was written as. *)
Inductive cell : Type :=
| TSTRING (s : string)
| TDOUBLE (d : double)
| TFLOAT (f : float)
| TINT (j : Z)
| TSHORT (i : Z)
| TLONGLONG (k : Z).

(** A binary table: the TFIELDS, TTYPEn, TFORMn and NAXIS2 keys and the
    cells, keyed by (column, row), both counted from 1. *)
Record fitsfile : Type := Build_fitsfile {
  TFIELDS : Z;
  TTYPE : Z -> string;
  TFORM : Z -> string;
  NAXIS2 : Z;
  CELLS : gmap (Z * Z) cell
}.

Definition fits_empty : fitsfile :=
  Build_fitsfile 0 (fun _ => EmptyString) (fun _ => EmptyString) 0 ∅.

(** [fits_create_tbl(fp, BINARY_TBL, 0, ncol, &ptrName[1], &ptrForm[1], ...)]. *)
Definition fits_create_tbl (ncol : Z) (names forms : Z -> string) : fitsfile :=
  Build_fitsfile ncol names forms 0 ∅.

(** [fits_write_col(fp, datatype, colnum, firstrow, 1, 1, &value, &istat)]:
    one cell; the table grows to hold the row.  A column or row outside the
    table is a cfitsio error, reported through [istat]. *)
Definition fits_write_col (fp : fitsfile) (colnum firstrow : Z) (v : cell)
  : fitsfile * Z :=
  if negb ((1 <=? colnum) && (colnum <=? TFIELDS fp)) then (fp, 302)
  else if negb (1 <=? firstrow) then (fp, 307)
  else (Build_fitsfile (TFIELDS fp) (TTYPE fp) (TFORM fp)
          (Z.max (NAXIS2 fp) firstrow)
          (<[(colnum, firstrow) := v]> (CELLS fp)), 0).

Definition fits_read_cell (fp : fitsfile) (icol row : Z) : option cell :=
  CELLS fp !! (icol, row).

(** ** Globals *)

Inductive IFORM : Type :=
| IFORM_A | IFORM_1J | IFORM_1I | IFORM_1E | IFORM_1D | IFORM_1K.

(** [SNFITSIO_TABLEDEF[itype]]: [ptrName[i]] and [ptrForm[i]] point at
    [name[i]] and [form[i]], so they are not kept apart. *)
Record TABLEDEF : Type := Build_TABLEDEF {
  name : Z -> string;
  form : Z -> string;
  iform : Z -> option IFORM
}.

(** [WR_SNFITSIO_TABLEVAL[itype]]. *)
Record WR_TABLEVAL : Type := Build_WR_TABLEVAL {
  NROW : Z;
  COLNUM_LOOKUP : Z -> Z;
  value_A : string;
  value_1D : double;
  value_1E : float;
  value_1J : Z;
  value_1I : Z;
  value_1K : Z
}.

(** [RD_SNFITSIO_TABLEVAL[itype]] with the buffers
    [RD_SNFITSIO_TABLEVAL_A[itype]], ..., indexed by sparse column and row. *)
Record RD_TABLEVAL : Type := Build_RD_TABLEVAL {
  NPAR : IFORM -> Z;
  IPAR : IFORM -> Z -> Z;
  IPARINV : IFORM -> Z -> Z;
  TABLEVAL_A : Z -> Z -> string;
  TABLEVAL_1J : Z -> Z -> Z;
  TABLEVAL_1I : Z -> Z -> Z;
  TABLEVAL_1E : Z -> Z -> float;
  TABLEVAL_1D : Z -> Z -> double;
  TABLEVAL_1K : Z -> Z -> Z
}.

(** Modelled from the spec: the SNDATA struct is declared in sntools.h, which
    is not part of this file; the spec treats it as an opaque data bag the
    core reads fields from and writes fields into.  Members are looked up by
    their C name, one family per C type; [_arr] members are arrays. *)
Record SNDATA_t : Type := Build_SNDATA_t {
  sn_int : string -> Z;
  sn_longlong : string -> Z;
  sn_float : string -> float;
  sn_double : string -> double;
  sn_string : string -> string;
  sn_bool_arr : string -> Z -> bool;
  sn_int_arr : string -> Z -> Z;
  sn_longlong_arr : string -> Z -> Z;
  sn_float_arr : string -> Z -> float;
  sn_double_arr : string -> Z -> double;
  sn_string_arr : string -> Z -> string;
  sn_float_arr2 : string -> Z -> Z -> float
}.

(** Modelled from the spec: the GENSPEC struct (sntools_spectrograph.h), in
    the same way. *)
Record GENSPEC_t : Type := Build_GENSPEC_t {
  gs_int : string -> Z;
  gs_int_arr : string -> Z -> Z;
  gs_double_arr : string -> Z -> double;
  gs_double_arr2 : string -> Z -> Z -> double
}.

Record globals : Type := Build_globals {
  NPAR_SNFITSIO : Z -> Z;
  SNFITSIO_TABLEDEF : Z -> TABLEDEF;
  fp_snfitsFile : Z -> fitsfile;
  snfitsFile : Z -> Z -> string;
  IFILE_SNFITSIO : Z;
  IPAR_SNFITSIO_SNID : Z;
  IPAR_SNFITSIO_FAKE : Z;
  IPAR_SNFITSIO_NOBS : Z;
  IPAR_SNFITSIO_PTROBS_MIN : Z;
  IPAR_SNFITSIO_PTROBS_MAX : Z;
  SNFITSIO_DATAFLAG : bool;
  SNFITSIO_SIMFLAG_SNANA : bool;
  SNFITSIO_SIMFLAG_MAGOBS : bool;
  SNFITSIO_SIMFLAG_SNRMON : bool;
  SNFITSIO_SIMFLAG_MODELPAR : bool;
  SNFITSIO_SIMFLAG_NBR_LIST : bool;
  SNFITSIO_SIMFLAG_SPECTROGRAPH : bool;
  SNFITSIO_COMPACT_FLAG : bool;
  WR_SNFITSIO_TABLEVAL : Z -> WR_TABLEVAL;
  SNDATA : SNDATA_t;
  SNDATA_FILTER_NDEF : Z;
  SNDATA_FILTER_MAP : Z -> Z;
  GENSPEC : GENSPEC_t;
  HOSTLIB_IVAR_NBR_LIST : Z;
  RD_SNFITSIO_TABLEVAL : Z -> RD_TABLEVAL;
  NFILE_SNFITSIO : Z;
  NSNLC_SNFITSIO : Z -> Z;
  NSNLC_SNFITSIO_SUM : Z -> Z;
  ISNFIRST_SNFITSIO : Z;
  MXOBS_SNFITSIO : Z;
  MALLOC_LEN_SNFITSIO : Z -> Z;
  NEP_RDMASK_SNFITSIO_PARVAL : Z;
  RDMASK_SNFITSIO_PARVAL : Z -> Z;
  (** the containers on disk, by partition and table kind *)
  FILES : Z -> Z -> fitsfile;
  (** lines printed so far, oldest first *)
  STDOUT : list string;
  (** instrumentation double: calls of [IPAR_SNFITSIO] so far *)
  NCALL_IPAR_SNFITSIO : Z
}.

(** Field assignment.  [setter eta proj] builds [fun v r => r with proj := v]
    from the eta-expansion of the record. *)
Ltac setter eta proj :=
  let t := eval cbv delta [eta] in eta in
  match eval pattern proj in t with
  | ?f _ =>
      let s := eval cbv beta in (fun v r => f (fun _ => v) r) in exact s
  end.

Definition eta_TABLEDEF (t : TABLEDEF) : TABLEDEF :=
  Build_TABLEDEF (name t) (form t) (iform t).
Definition set_name := ltac:(setter eta_TABLEDEF name).
Definition set_form := ltac:(setter eta_TABLEDEF form).
Definition set_iform := ltac:(setter eta_TABLEDEF iform).

Definition eta_WR_TABLEVAL (t : WR_TABLEVAL) : WR_TABLEVAL :=
  Build_WR_TABLEVAL (NROW t) (COLNUM_LOOKUP t) (value_A t) (value_1D t)
    (value_1E t) (value_1J t) (value_1I t) (value_1K t).
Definition set_NROW := ltac:(setter eta_WR_TABLEVAL NROW).
Definition set_COLNUM_LOOKUP := ltac:(setter eta_WR_TABLEVAL COLNUM_LOOKUP).
Definition set_value_A := ltac:(setter eta_WR_TABLEVAL value_A).
Definition set_value_1D := ltac:(setter eta_WR_TABLEVAL value_1D).
Definition set_value_1E := ltac:(setter eta_WR_TABLEVAL value_1E).
Definition set_value_1J := ltac:(setter eta_WR_TABLEVAL value_1J).
Definition set_value_1I := ltac:(setter eta_WR_TABLEVAL value_1I).
Definition set_value_1K := ltac:(setter eta_WR_TABLEVAL value_1K).

Definition eta_RD_TABLEVAL (t : RD_TABLEVAL) : RD_TABLEVAL :=
  Build_RD_TABLEVAL (NPAR t) (IPAR t) (IPARINV t) (TABLEVAL_A t)
    (TABLEVAL_1J t) (TABLEVAL_1I t) (TABLEVAL_1E t) (TABLEVAL_1D t)
    (TABLEVAL_1K t).
Definition set_NPAR := ltac:(setter eta_RD_TABLEVAL NPAR).
Definition set_IPAR := ltac:(setter eta_RD_TABLEVAL IPAR).
Definition set_IPARINV := ltac:(setter eta_RD_TABLEVAL IPARINV).
Definition set_TABLEVAL_A := ltac:(setter eta_RD_TABLEVAL TABLEVAL_A).
Definition set_TABLEVAL_1J := ltac:(setter eta_RD_TABLEVAL TABLEVAL_1J).
Definition set_TABLEVAL_1I := ltac:(setter eta_RD_TABLEVAL TABLEVAL_1I).
Definition set_TABLEVAL_1E := ltac:(setter eta_RD_TABLEVAL TABLEVAL_1E).
Definition set_TABLEVAL_1D := ltac:(setter eta_RD_TABLEVAL TABLEVAL_1D).
Definition set_TABLEVAL_1K := ltac:(setter eta_RD_TABLEVAL TABLEVAL_1K).

Definition eta_SNDATA_t (t : SNDATA_t) : SNDATA_t :=
  Build_SNDATA_t (sn_int t) (sn_longlong t) (sn_float t) (sn_double t)
    (sn_string t) (sn_bool_arr t) (sn_int_arr t) (sn_longlong_arr t)
    (sn_float_arr t) (sn_double_arr t) (sn_string_arr t) (sn_float_arr2 t).
Definition set_sn_bool_arr := ltac:(setter eta_SNDATA_t sn_bool_arr).
Definition set_sn_float_arr := ltac:(setter eta_SNDATA_t sn_float_arr).
Definition set_sn_double_arr := ltac:(setter eta_SNDATA_t sn_double_arr).
Definition set_sn_string_arr := ltac:(setter eta_SNDATA_t sn_string_arr).

Definition eta_globals (g : globals) : globals :=
  Build_globals (NPAR_SNFITSIO g) (SNFITSIO_TABLEDEF g) (fp_snfitsFile g)
    (snfitsFile g) (IFILE_SNFITSIO g) (IPAR_SNFITSIO_SNID g)
    (IPAR_SNFITSIO_FAKE g) (IPAR_SNFITSIO_NOBS g)
    (IPAR_SNFITSIO_PTROBS_MIN g) (IPAR_SNFITSIO_PTROBS_MAX g)
    (SNFITSIO_DATAFLAG g) (SNFITSIO_SIMFLAG_SNANA g)
    (SNFITSIO_SIMFLAG_MAGOBS g) (SNFITSIO_SIMFLAG_SNRMON g)
    (SNFITSIO_SIMFLAG_MODELPAR g) (SNFITSIO_SIMFLAG_NBR_LIST g)
    (SNFITSIO_SIMFLAG_SPECTROGRAPH g) (SNFITSIO_COMPACT_FLAG g)
    (WR_SNFITSIO_TABLEVAL g) (SNDATA g) (SNDATA_FILTER_NDEF g)
    (SNDATA_FILTER_MAP g) (GENSPEC g) (HOSTLIB_IVAR_NBR_LIST g)
    (RD_SNFITSIO_TABLEVAL g)
    (NFILE_SNFITSIO g) (NSNLC_SNFITSIO g) (NSNLC_SNFITSIO_SUM g)
    (ISNFIRST_SNFITSIO g) (MXOBS_SNFITSIO g) (MALLOC_LEN_SNFITSIO g)
    (NEP_RDMASK_SNFITSIO_PARVAL g) (RDMASK_SNFITSIO_PARVAL g) (FILES g)
    (STDOUT g) (NCALL_IPAR_SNFITSIO g).
Definition set_NPAR_SNFITSIO := ltac:(setter eta_globals NPAR_SNFITSIO).
Definition set_SNFITSIO_TABLEDEF := ltac:(setter eta_globals SNFITSIO_TABLEDEF).
Definition set_fp_snfitsFile := ltac:(setter eta_globals fp_snfitsFile).
Definition set_IFILE_SNFITSIO := ltac:(setter eta_globals IFILE_SNFITSIO).
Definition set_IPAR_SNFITSIO_SNID := ltac:(setter eta_globals IPAR_SNFITSIO_SNID).
Definition set_IPAR_SNFITSIO_FAKE := ltac:(setter eta_globals IPAR_SNFITSIO_FAKE).
Definition set_IPAR_SNFITSIO_NOBS := ltac:(setter eta_globals IPAR_SNFITSIO_NOBS).
Definition set_IPAR_SNFITSIO_PTROBS_MIN :=
  ltac:(setter eta_globals IPAR_SNFITSIO_PTROBS_MIN).
Definition set_IPAR_SNFITSIO_PTROBS_MAX :=
  ltac:(setter eta_globals IPAR_SNFITSIO_PTROBS_MAX).
Definition set_SNFITSIO_DATAFLAG := ltac:(setter eta_globals SNFITSIO_DATAFLAG).
Definition set_SNFITSIO_SIMFLAG_SNANA :=
  ltac:(setter eta_globals SNFITSIO_SIMFLAG_SNANA).
Definition set_SNFITSIO_SIMFLAG_MAGOBS :=
  ltac:(setter eta_globals SNFITSIO_SIMFLAG_MAGOBS).
Definition set_SNFITSIO_SIMFLAG_NBR_LIST :=
  ltac:(setter eta_globals SNFITSIO_SIMFLAG_NBR_LIST).
Definition set_SNFITSIO_SIMFLAG_SPECTROGRAPH :=
  ltac:(setter eta_globals SNFITSIO_SIMFLAG_SPECTROGRAPH).
Definition set_WR_SNFITSIO_TABLEVAL :=
  ltac:(setter eta_globals WR_SNFITSIO_TABLEVAL).
Definition set_SNDATA := ltac:(setter eta_globals SNDATA).
Definition set_RD_SNFITSIO_TABLEVAL :=
  ltac:(setter eta_globals RD_SNFITSIO_TABLEVAL).
Definition set_NFILE_SNFITSIO := ltac:(setter eta_globals NFILE_SNFITSIO).
Definition set_NSNLC_SNFITSIO := ltac:(setter eta_globals NSNLC_SNFITSIO).
Definition set_NSNLC_SNFITSIO_SUM :=
  ltac:(setter eta_globals NSNLC_SNFITSIO_SUM).
Definition set_ISNFIRST_SNFITSIO := ltac:(setter eta_globals ISNFIRST_SNFITSIO).
Definition set_MXOBS_SNFITSIO := ltac:(setter eta_globals MXOBS_SNFITSIO).
Definition set_MALLOC_LEN_SNFITSIO :=
  ltac:(setter eta_globals MALLOC_LEN_SNFITSIO).
Definition set_NEP_RDMASK_SNFITSIO_PARVAL :=
  ltac:(setter eta_globals NEP_RDMASK_SNFITSIO_PARVAL).
Definition set_RDMASK_SNFITSIO_PARVAL :=
  ltac:(setter eta_globals RDMASK_SNFITSIO_PARVAL).
Definition set_FILES := ltac:(setter eta_globals FILES).
Definition set_STDOUT := ltac:(setter eta_globals STDOUT).
Definition set_NCALL_IPAR_SNFITSIO :=
  ltac:(setter eta_globals NCALL_IPAR_SNFITSIO).

(** [printf]: one line appended to the output. *)
Definition printf (line : string) : M globals unit :=
  modify (fun g => set_STDOUT (STDOUT g ++ [line]) g).

(** Zeroed structs, as [memset] or static storage leaves them;
    [COLNUM_LOOKUP] is reset to [-1] by [WR_SNFITSIO_INIT]. *)
Definition SNDATA_zero : SNDATA_t :=
  {| sn_int := fun _ => 0;
     sn_longlong := fun _ => 0;
     sn_float := fun _ => S754_zero false;
     sn_double := fun _ => S754_zero false;
     sn_string := fun _ => EmptyString;
     sn_bool_arr := fun _ _ => false;
     sn_int_arr := fun _ _ => 0;
     sn_longlong_arr := fun _ _ => 0;
     sn_float_arr := fun _ _ => S754_zero false;
     sn_double_arr := fun _ _ => S754_zero false;
     sn_string_arr := fun _ _ => EmptyString;
     sn_float_arr2 := fun _ _ _ => S754_zero false |}.

Definition GENSPEC_zero : GENSPEC_t :=
  {| gs_int := fun _ => 0;
     gs_int_arr := fun _ _ => 0;
     gs_double_arr := fun _ _ => S754_zero false;
     gs_double_arr2 := fun _ _ _ => S754_zero false |}.

Definition WR_TABLEVAL_init : WR_TABLEVAL :=
  {| NROW := 0; COLNUM_LOOKUP := fun _ => -1;
     value_A := EmptyString; value_1D := S754_zero false;
     value_1E := S754_zero false; value_1J := 0; value_1I := 0;
     value_1K := 0 |}.

Definition RD_TABLEVAL_init : RD_TABLEVAL :=
  {| NPAR := fun _ => 0; IPAR := fun _ _ => 0; IPARINV := fun _ _ => 0;
     TABLEVAL_A := fun _ _ => EmptyString; TABLEVAL_1J := fun _ _ => 0;
     TABLEVAL_1I := fun _ _ => 0; TABLEVAL_1E := fun _ _ => S754_zero false;
     TABLEVAL_1D := fun _ _ => S754_zero false; TABLEVAL_1K := fun _ _ => 0 |}.

(** State a computation ends in, returning or aborting. *)
Definition run {A} (m : M globals A) (g : globals) : globals :=
  match m g with
  | Ok _ g' => g'
  | Fatal _ _ _ g' => g'
  end.

(** The value returned by a computation, if it does not abort. *)
Definition value {A} (m : M globals A) (g : globals) : option A :=
  match m g with
  | Ok a _ => Some a
  | Fatal _ _ _ _ => None
  end.

(** ** Constants *)

(** Constants and tables of sntools.h and sntools_dataformat_fits.h, which
    are not part of this file, are parameters of the development. *)
Class constants : Type := Build_constants {
  MXPAR_SNFITSIO : Z;
  MXEPOCH : Z;
  MXHOSTGAL : Z;
  SNFITSIO_EOE_MARKER : double;
  FILTERSTRING : Z -> ascii;
  snfitsType : Z -> string;
  MODEL_SALT2 : Z;
  MODEL_MLCS2k2 : Z;
  MODEL_SNOOPY : Z;
  MODEL_SIMSED : Z;
  MODEL_BYOSED : Z;
  MODEL_SNEMO : Z;
  MODEL_LCLIB : Z
}.

(** Table kinds.  The loops [for (itype=0; itype<=1; itype++)] over "HEAD and
    PHOT" and [for (itype=0; itype<NTYPE; itype++)] with [NTYPE = 2] fix the
    first two; the spectrum kinds take the next two. *)
Definition ITYPE_SNFITSIO_HEAD : Z := 0.
Definition ITYPE_SNFITSIO_PHOT : Z := 1.
Definition ITYPE_SNFITSIO_SPEC : Z := 2.
Definition ITYPE_SNFITSIO_SPECTMP : Z := 3.

(** [#define MXPARREQ_SNFITSIO 20], inside [check_required_headkeys]. *)
Definition MXPARREQ_SNFITSIO : Z := 20.

Section Model.
Context {K : constants}.

(** ** Column registry *)

(** The scan [for (ipar = 1; ipar <= NPAR; ipar++)] of [IPAR_SNFITSIO]. *)
Fixpoint IPAR_scan (names : Z -> string) (parName : string) (ipar : Z)
  (n : nat) : option Z :=
  match n with
  | O => None
  | S n' =>
      if strcmp0 (names ipar) parName then Some ipar
      else IPAR_scan names parName (ipar + 1) n'
  end.

Definition IPAR_SNFITSIO (OPT : Z) (parName : string) (itype : Z)
  : M globals Z :=
  modify (fun g => set_NCALL_IPAR_SNFITSIO (NCALL_IPAR_SNFITSIO g + 1) g) ;;;
  NPAR <- gets (fun g => NPAR_SNFITSIO g itype) ;;
  names <- gets (fun g => name (SNFITSIO_TABLEDEF g itype)) ;;
  match IPAR_scan names parName 1 (trips 1 NPAR) with
  | Some ipar => ret ipar
  | None =>
      if OPT =? 0 then ret (-9)
      else
        file <- gets (fun g => snfitsFile g (IFILE_SNFITSIO g) itype) ;;
        errmsg_FATAL "IPAR_SNFITSIO"
          ("Could not find IPAR for parName='" +:+ parName +:+ "'")
          ("Check parameter names in " +:+ file +:+ " ")
  end.

Definition wr_snfitsio_addCol (tform name_ : string) (itype : Z)
  : M globals unit :=
  (* increment global parameter counter *)
  modify (fun g =>
    set_NPAR_SNFITSIO
      (upd (NPAR_SNFITSIO g) itype (int_cast (NPAR_SNFITSIO g itype + 1))) g) ;;;
  NPAR <- gets (fun g => NPAR_SNFITSIO g itype) ;;
  when (MXPAR_SNFITSIO <=? NPAR)
    (errmsg_FATAL "wr_snfitsio_addCol"
       ("NPAR_SNFITSIO[" +:+ snfitsType itype +:+ "] = " +:+ pretty NPAR
          +:+ " exceeds bound")
       ("Current table par-name=" +:+ name_ +:+ "  and  tform=" +:+ tform)) ;;;
  modify (fun g =>
    let t := SNFITSIO_TABLEDEF g itype in
    let t := set_name (upd (name t) NPAR name_) t in
    let t := set_form (upd (form t) NPAR tform) t in
    set_SNFITSIO_TABLEDEF (upd (SNFITSIO_TABLEDEF g) itype t) g).

(** ** Required header keys *)

(** Body of the reporting loop of [check_required_headkeys]. *)
Definition required_report (REQUIRED_HEADKEYS : Z -> string) (ireq NERR : Z)
  : M globals Z :=
  let ptrReq := REQUIRED_HEADKEYS ireq in
  i <- IPAR_SNFITSIO 0 ptrReq ITYPE_SNFITSIO_HEAD ;;
  if i <? 0 then
    printf (" ERROR: missing required header key '" +:+ ptrReq +:+ "' ") ;;;
    ret (NERR + 1)
  else ret NERR.

Definition check_required_headkeys : M globals unit :=
  let itype := ITYPE_SNFITSIO_HEAD in
  let NREQ := 0 in
  let REQUIRED_HEADKEYS : Z -> string := fun _ => EmptyString in
  (* hard-wire list of required keys *)
  let NREQ := NREQ + 1 in
  let REQUIRED_HEADKEYS := upd REQUIRED_HEADKEYS NREQ "SNID" in
  i <- IPAR_SNFITSIO 0 (REQUIRED_HEADKEYS NREQ) itype ;;
  modify (set_IPAR_SNFITSIO_SNID i) ;;;
  let NREQ := NREQ + 1 in
  let REQUIRED_HEADKEYS := upd REQUIRED_HEADKEYS NREQ "FAKE" in
  i <- IPAR_SNFITSIO 0 (REQUIRED_HEADKEYS NREQ) itype ;;
  modify (set_IPAR_SNFITSIO_FAKE i) ;;;
  let NREQ := NREQ + 1 in
  let REQUIRED_HEADKEYS := upd REQUIRED_HEADKEYS NREQ "NOBS" in
  i <- IPAR_SNFITSIO 0 (REQUIRED_HEADKEYS NREQ) itype ;;
  modify (set_IPAR_SNFITSIO_NOBS i) ;;;
  let NREQ := NREQ + 1 in
  let REQUIRED_HEADKEYS := upd REQUIRED_HEADKEYS NREQ "PTROBS_MIN" in
  i <- IPAR_SNFITSIO 0 (REQUIRED_HEADKEYS NREQ) itype ;;
  modify (set_IPAR_SNFITSIO_PTROBS_MIN i) ;;;
  let NREQ := NREQ + 1 in
  let REQUIRED_HEADKEYS := upd REQUIRED_HEADKEYS NREQ "PTROBS_MAX" in
  i <- IPAR_SNFITSIO 0 (REQUIRED_HEADKEYS NREQ) itype ;;
  modify (set_IPAR_SNFITSIO_PTROBS_MAX i) ;;;
  when (MXPARREQ_SNFITSIO <=? NREQ)
    (errmsg_FATAL "check_required_headkeys"
       ("NREQ = " +:+ pretty NREQ +:+ " exceeds bound.")
       ("Check MXPARREQ_SNFITSIO = " +:+ pretty MXPARREQ_SNFITSIO)) ;;;
  (* Check that all required header keys were found;
     print non-existant keys to screen. *)
  NERR <- for_fold (trips 1 NREQ) 1 (required_report REQUIRED_HEADKEYS) 0 ;;
  (* abort if any required keys are missing. *)
  when (0 <? NERR)
    (errmsg_FATAL "check_required_headkeys"
       ("Missing " +:+ pretty NERR +:+ " required headers keys.")
       "See list printed avove.").

(** ** Write side *)

(** [snfitsio_errorCheck(comment, status)]. *)
Definition snfitsio_errorCheck (comment : string) (status : Z)
  : M globals unit :=
  when (negb (status =? 0))
    (errmsg_FATAL "snfitsio_errorCheck" comment "Check cfitsio routines.").

(** [fits_write_col] on the table open under [itype]; returns [istat]. *)
Definition fits_write_col_M (itype colnum firstrow : Z) (v : cell)
  : M globals Z :=
  fun g =>
    let '(fp, istat) := fits_write_col (fp_snfitsFile g itype) colnum firstrow v in
    Ok istat (set_fp_snfitsFile (upd (fp_snfitsFile g) itype fp) g).

(** [COLNUM] is always [&WR_SNFITSIO_TABLEVAL[t].COLNUM_LOOKUP[LOC]]; the
    pointer is the pair [(t, LOC)]. *)
Definition deref_COLNUM (COLNUM : Z * Z) (g : globals) : Z :=
  COLNUM_LOOKUP (WR_SNFITSIO_TABLEVAL g (fst COLNUM)) (snd COLNUM).

Definition assign_COLNUM (COLNUM : Z * Z) (v : Z) (g : globals) : globals :=
  let t := WR_SNFITSIO_TABLEVAL g (fst COLNUM) in
  set_WR_SNFITSIO_TABLEVAL
    (upd (WR_SNFITSIO_TABLEVAL g) (fst COLNUM)
       (set_COLNUM_LOOKUP (upd (COLNUM_LOOKUP t) (snd COLNUM) v) t)) g.

(** The body of [wr_snfitsio_fillTable] from [firstrow = ...] on, with
    [colnum = *COLNUM] read. *)
Definition fillTable_colnum (colnum : Z) (parName : string) (itype : Z)
  : M globals unit :=
  firstrow <- gets (fun g => NROW (WR_SNFITSIO_TABLEVAL g itype)) ;;
  ptrForm <- gets (fun g => form (SNFITSIO_TABLEDEF g itype) colnum) ;;
  let clast := lastchar ptrForm in
  tv <- gets (fun g => WR_SNFITSIO_TABLEVAL g itype) ;;
  istat <-
    (if strcmp0 clast "A" then
       let A := value_A tv in
       let ALLOW_BLANK := strcmp0 parName "SUBSURVEY" in
       when ((strlen A =? 0) && negb ALLOW_BLANK)
         (errmsg_FATAL "wr_snfitsio_fillTable"
            ("Cannot write " +:+ parName +:+ "='' (blank string)")
            ("to colnum=" +:+ pretty colnum +:+ " of table="
               +:+ snfitsType itype)) ;;;
       fits_write_col_M itype colnum firstrow (TSTRING A)
     else if strcmp0 ptrForm "1D" then
       fits_write_col_M itype colnum firstrow (TDOUBLE (value_1D tv))
     else if strcmp0 ptrForm "1E" then
       fits_write_col_M itype colnum firstrow (TFLOAT (value_1E tv))
     else if strcmp0 ptrForm "1J" then
       fits_write_col_M itype colnum firstrow (TINT (value_1J tv))
     else if strcmp0 ptrForm "1I" then
       fits_write_col_M itype colnum firstrow (TSHORT (value_1I tv))
     else if strcmp0 ptrForm "1K" then
       fits_write_col_M itype colnum firstrow (TLONGLONG (value_1K tv))
     else
       errmsg_FATAL "wr_snfitsio_fillTable"
         ("Unrecognized Form = '" +:+ ptrForm +:+ "' for param='" +:+ parName
            +:+ "' ")
         "Check valid forms in cfitsio guide.") ;;
  snfitsio_errorCheck
    ("fits_write_col for " +:+ snfitsType itype +:+ "-param: " +:+ parName)
    istat.

Definition wr_snfitsio_fillTable (COLNUM : Z * Z) (parName : string)
  (itype : Z) : M globals unit :=
  c <- gets (deref_COLNUM COLNUM) ;;
  (if c <? 0 then
     i <- IPAR_SNFITSIO 1 parName itype ;; modify (assign_COLNUM COLNUM i)
   else ret tt) ;;;
  colnum <- gets (deref_COLNUM COLNUM) ;;
  fillTable_colnum colnum parName itype.

(** The value put in [WR_SNFITSIO_TABLEVAL[itype].value_X] before a call of
    [wr_snfitsio_fillTable].  [value_1I] is a [short]: an [int] assigned to
    it is narrowed, with or without a written cast. *)
Inductive staged : Type :=
| st_A (s : string)
| st_1D (d : double)
| st_1E (f : float)
| st_1J (j : Z)
| st_1I (i : Z)
| st_1K (k : Z).

Definition stage (itype : Z) (v : staged) : M globals unit :=
  modify (fun g =>
    let t := WR_SNFITSIO_TABLEVAL g itype in
    let t' := match v with
              | st_A s => set_value_A s t
              | st_1D d => set_value_1D d t
              | st_1E f => set_value_1E f t
              | st_1J j => set_value_1J j t
              | st_1I i => set_value_1I (short_cast i) t
              | st_1K k => set_value_1K k t
              end in
    set_WR_SNFITSIO_TABLEVAL (upd (WR_SNFITSIO_TABLEVAL g) itype t') g).

(** One occurrence of the pattern
    [LOC++ ; ptrColnum = &...COLNUM_LOOKUP[LOC] ; ...value_X = v ;
     wr_snfitsio_fillTable(ptrColnum, parName, itype)]; returns [LOC]. *)
Definition fill_field (itype : Z) (LOC : Z) (f : string * staged)
  : M globals Z :=
  let LOC := int_cast (LOC + 1) in
  stage itype (snd f) ;;;
  wr_snfitsio_fillTable (itype, LOC) (fst f) itype ;;;
  ret LOC.

Fixpoint fill_fields (itype : Z) (LOC : Z) (fs : list (string * staged))
  : M globals Z :=
  match fs with
  | [] => ret LOC
  | f :: fs' => LOC' <- fill_field itype LOC f ;; fill_fields itype LOC' fs'
  end.

(** [WR_SNFITSIO_TABLEVAL[itype].NROW++]. *)
Definition NROW_incr (itype : Z) : M globals unit :=
  modify (fun g =>
    let t := WR_SNFITSIO_TABLEVAL g itype in
    set_WR_SNFITSIO_TABLEVAL
      (upd (WR_SNFITSIO_TABLEVAL g) itype
         (set_NROW (int_cast (NROW t + 1)) t)) g).

(** *** Row contents *)

(** [for (ifilt=0; ifilt < SNDATA_FILTER.NDEF; ifilt++)] with
    [ifilt_obs = SNDATA_FILTER.MAP[ifilt]] and the column name
    [sprintf(parName, "<prefix>%c", FILTERSTRING[ifilt_obs])]. *)
Definition filter_loop {A} (g : globals) (f : Z -> Z -> A) : list A :=
  map (fun ifilt => f ifilt (SNDATA_FILTER_MAP g ifilt))
    (seqZ 0 (SNDATA_FILTER_NDEF g)).

Definition filter_name (prefix : string) (ifilt_obs : Z) : string :=
  prefix +:+ char_str (FILTERSTRING ifilt_obs).

Definition filter_fields (g : globals) (prefix : string)
  (val : Z -> Z -> float) : list (string * staged) :=
  filter_loop g (fun ifilt ifilt_obs =>
    (filter_name prefix ifilt_obs, st_1E (val ifilt ifilt_obs))).

(** [for (ipar=lo; ipar < lo+n; ipar++)] over a keyword list and its values. *)
Definition keyword_fields (lo n : Z) (key : Z -> string) (val : Z -> staged)
  : list (string * staged) :=
  map (fun ipar => (key ipar, val ipar)) (seqZ lo n).

(** Body of the [igal] loop of [wr_snfitsio_update_head]. *)
Definition hostgal_fields (g : globals) (igal : Z) : list (string * staged) :=
  let sn := SNDATA g in
  let PREFIX := if 0 <? igal then "HOSTGAL" +:+ pretty (igal + 1)
                else "HOSTGAL" in
  [ (PREFIX +:+ "_OBJID", st_1K (sn_longlong_arr sn "HOSTGAL_OBJID" igal));
    (PREFIX +:+ "_PHOTOZ", st_1E (sn_float_arr sn "HOSTGAL_PHOTOZ" igal));
    (PREFIX +:+ "_PHOTOZ_ERR",
       st_1E (sn_float_arr sn "HOSTGAL_PHOTOZ_ERR" igal));
    (PREFIX +:+ "_SPECZ", st_1E (sn_float_arr sn "HOSTGAL_SPECZ" igal));
    (PREFIX +:+ "_SPECZ_ERR", st_1E (sn_float_arr sn "HOSTGAL_SPECZ_ERR" igal));
    (PREFIX +:+ "_RA", st_1D (sn_double_arr sn "HOSTGAL_RA" igal));
    (PREFIX +:+ "_DEC", st_1D (sn_double_arr sn "HOSTGAL_DEC" igal));
    (PREFIX +:+ "_SNSEP", st_1E (sn_float_arr sn "HOSTGAL_SNSEP" igal));
    (PREFIX +:+ "_DDLR", st_1E (sn_float_arr sn "HOSTGAL_DDLR" igal));
    (PREFIX +:+ "_LOGMASS",
       st_1E (sn_float_arr sn "HOSTGAL_LOGMASS_OBS" igal));
    (PREFIX +:+ "_LOGMASS_ERR",
       st_1E (sn_float_arr sn "HOSTGAL_LOGMASS_ERR" igal));
    (PREFIX +:+ "_sSFR", st_1E (sn_float_arr sn "HOSTGAL_sSFR" igal));
    (PREFIX +:+ "_sSFR_ERR", st_1E (sn_float_arr sn "HOSTGAL_sSFR_ERR" igal)) ]
  ++ filter_fields g (PREFIX +:+ "_MAG_")
       (fun ifilt _ => sn_float_arr2 sn "HOSTGAL_MAG" igal ifilt)
  ++ filter_fields g (PREFIX +:+ "_MAGERR_")
       (fun ifilt _ => sn_float_arr2 sn "HOSTGAL_MAGERR" igal ifilt).

(** The fields [wr_snfitsio_update_head] writes before its test
    [if ( !SNFITSIO_SIMFLAG_SNANA ) { return ; }], in order. *)
Definition head_fields (g : globals) (PTROBS_MIN PTROBS_MAX : Z)
  : list (string * staged) :=
  let sn := SNDATA g in
  let i1 m := (m, st_1E (sn_float sn m)) in
  (if negb (sn_int sn "SUBSURVEY_FLAG" =? 0)
   then [ ("SUBSURVEY", st_A (sn_string sn "SUBSURVEY_NAME")) ] else [])
  ++ [ ("SNID", st_A (sn_string sn "CCID"));
       ("IAUC", st_A (sn_string sn "IAUC_NAME"));
       ("FAKE", st_1I (sn_int sn "FAKE")) ]
  ++ (if negb (SNFITSIO_SIMFLAG_SNANA g)
      then [ ("MASK_FLUXCOR_SNANA", st_1I (sn_int sn "MASK_FLUXCOR")) ]
      else [])
  ++ [ ("RA", st_1D (sn_double sn "RA"));
       ("DEC", st_1D (sn_double sn "DEC"));
       ("PIXSIZE", st_1E (sn_float sn "PIXSIZE"));
       ("NXPIX", st_1I (sn_int sn "NXPIX"));
       ("NYPIX", st_1I (sn_int sn "NYPIX"));
       ("SNTYPE", st_1J (sn_int sn "SNTYPE"));
       ("NOBS", st_1J (sn_int sn "NOBS"));
       ("PTROBS_MIN", st_1J PTROBS_MIN);
       ("PTROBS_MAX", st_1J PTROBS_MAX);
       i1 "MWEBV"; i1 "MWEBV_ERR";
       i1 "REDSHIFT_HELIO"; i1 "REDSHIFT_HELIO_ERR";
       i1 "REDSHIFT_FINAL"; i1 "REDSHIFT_FINAL_ERR" ]
  ++ (if SNFITSIO_DATAFLAG g
      then [ ("REDSHIFT_QUALITYFLAG",
              st_1I (sn_int sn "REDSHIFT_QUALITYFLAG")) ]
      else [])
  ++ [ i1 "VPEC"; i1 "VPEC_ERR" ]
  (* ---------- HOST -------------- *)
  ++ (let NHOSTGAL := if SNFITSIO_SIMFLAG_NBR_LIST g then MXHOSTGAL else 1 in
      [ ("HOSTGAL_NMATCH", st_1I (sn_int_arr sn "HOSTGAL_NMATCH" 0));
        ("HOSTGAL_NMATCH2", st_1I (sn_int_arr sn "HOSTGAL_NMATCH" 1)) ]
      ++ concat (map (hostgal_fields g) (seqZ 0 NHOSTGAL)))
  ++ filter_fields g "HOSTGAL_SB_FLUXCAL_"
       (fun ifilt _ => sn_float_arr sn "HOSTGAL_SB_FLUXCAL" ifilt)
  ++ [ i1 "HOSTGAL_CONFUSION";
       ("PEAKMJD", st_1E (sn_float sn "SEARCH_PEAKMJD"));
       ("SEARCH_TYPE", st_1J (sn_int sn "SEARCH_TYPE")) ]
  (* optional PRIVATE variables *)
  ++ keyword_fields 1 (sn_int sn "NVAR_PRIVATE")
       (sn_string_arr sn "PRIVATE_KEYWORD")
       (fun ivar => st_1D (sn_double_arr sn "PRIVATE_VALUE" ivar)).

(** The fields it writes after that test, for a full SNANA simulation. *)
Definition head_fields_sim (g : globals) : list (string * staged) :=
  let sn := SNDATA g in
  let i1 m := (m, st_1E (sn_float sn m)) in
  let MODEL := sn_int sn "SIM_MODEL_INDEX" in
  [ ("SIM_MODEL_NAME", st_A (sn_string sn "SIM_MODEL_NAME"));
    ("SIM_MODEL_INDEX", st_1I (sn_int sn "SIM_MODEL_INDEX"));
    ("SIM_TYPE_INDEX", st_1I (sn_int sn "SIM_TYPE_INDEX"));
    ("SIM_TYPE_NAME", st_A (sn_string sn "SIM_TYPE_NAME"));
    ("SIM_TEMPLATE_INDEX", st_1J (sn_int sn "SIM_TEMPLATE_INDEX"));
    ("SIM_LIBID", st_1J (sn_int sn "SIM_LIBID"));
    ("SIM_NGEN_LIBID", st_1J (sn_int sn "SIM_NGEN_LIBID"));
    ("SIM_NOBS_UNDEFINED", st_1J (sn_int sn "SIM_NOBS_UNDEFINED"));
    ("SIM_SEARCHEFF_MASK", st_1J (sn_int sn "SIM_SEARCHEFF_MASK"));
    i1 "SIM_REDSHIFT_HELIO"; i1 "SIM_REDSHIFT_CMB"; i1 "SIM_REDSHIFT_HOST";
    ("SIM_REDSHIFT_FLAG", st_1I (sn_int sn "SIM_REDSHIFT_FLAG"));
    ("SIM_HOSTLIB_GALID", st_1K (sn_longlong sn "SIM_HOSTLIB_GALID"));
    i1 "SIM_VPEC" ]
  (* selected HOSTLIB properties *)
  ++ keyword_fields 0 (sn_int sn "NPAR_SIM_HOSTLIB")
       (sn_string_arr sn "SIM_HOSTLIB_KEYWORD")
       (fun ipar => st_1E (sn_float_arr sn "SIM_HOSTLIB_PARVAL" ipar))
  ++ [ i1 "SIM_DLMU"; i1 "SIM_LENSDMU";
       ("SIM_RA", st_1D (sn_double sn "SIM_RA"));
       ("SIM_DEC", st_1D (sn_double sn "SIM_DEC"));
       i1 "SIM_MWEBV"; i1 "SIM_PEAKMJD"; i1 "SIM_MAGSMEAR_COH";
       i1 "SIM_AV"; i1 "SIM_RV" ]
  ++ (if MODEL =? MODEL_SALT2
      then [ i1 "SIM_SALT2x0"; i1 "SIM_SALT2x1"; i1 "SIM_SALT2c";
             i1 "SIM_SALT2mB"; i1 "SIM_SALT2alpha"; i1 "SIM_SALT2beta";
             i1 "SIM_SALT2gammaDM" ]
      else [])
  ++ (if MODEL =? MODEL_MLCS2k2 then [ i1 "SIM_DELTA" ] else [])
  ++ (if MODEL =? MODEL_SNOOPY then [ i1 "SIM_STRETCH" ] else [])
  ++ (if (MODEL =? MODEL_SIMSED) && SNFITSIO_SIMFLAG_MODELPAR g
      then ("SIMSED_SALT2x0", st_1E (sn_float sn "SIM_SALT2x0"))
           :: keyword_fields 0 (sn_int sn "NPAR_SIMSED")
                (sn_string_arr sn "SIMSED_KEYWORD")
                (fun ipar => st_1E (sn_float_arr sn "SIMSED_PARVAL" ipar))
      else [])
  ++ (if (MODEL =? MODEL_BYOSED) || (MODEL =? MODEL_SNEMO)
      then keyword_fields 0 (sn_int sn "NPAR_PySEDMODEL")
             (sn_string_arr sn "PySEDMODEL_KEYWORD")
             (fun ipar => st_1E (sn_float_arr sn "PySEDMODEL_PARVAL" ipar))
      else [])
  ++ (if (MODEL =? MODEL_LCLIB) && SNFITSIO_SIMFLAG_MODELPAR g
      then keyword_fields 0 (sn_int sn "NPAR_LCLIB")
             (sn_string_arr sn "LCLIB_KEYWORD")
             (fun ipar => st_1E (sn_float_arr sn "LCLIB_PARVAL" ipar))
      else [])
  (* now do filter-dependent stuf *)
  ++ filter_fields g "SIM_PEAKMAG_"
       (fun _ ifilt_obs => sn_float_arr sn "SIM_PEAKMAG" ifilt_obs)
  ++ (if MODEL =? MODEL_LCLIB
      then filter_fields g "SIM_TEMPLATEMAG_"
             (fun _ ifilt_obs => sn_float_arr sn "SIM_TEMPLATEMAG" ifilt_obs)
      else [])
  ++ filter_fields g "SIM_EXPOSURE_"
       (fun _ ifilt_obs => sn_float_arr sn "SIM_EXPOSURE_TIME" ifilt_obs)
  ++ (if negb (sn_int sn "SIM_HOSTLIB_MSKOPT" =? 0)
      then filter_fields g "SIM_GALFRAC_"
             (fun _ ifilt_obs => sn_float_arr sn "SIM_GALFRAC" ifilt_obs)
      else [])
  (* strong lens params *)
  ++ (if negb (sn_int sn "SIM_SL_FLAG" =? 0)
      then [ ("SIM_STRONGLENS_ID", st_1J (sn_int sn "SIM_SL_IDLENS"));
             ("SIM_STRONGLENS_z", st_1E (sn_float sn "SIM_SL_zLENS"));
             ("SIM_STRONGLENS_TDELAY", st_1E (sn_float sn "SIM_SL_TDELAY"));
             ("SIM_STRONGLENS_MAGSHIFT",
                st_1E (sn_float sn "SIM_SL_MAGSHIFT"));
             ("SIM_STRONGLENS_NIMG", st_1I (sn_int sn "SIM_SL_NIMG"));
             ("SIM_STRONGLENS_IMGNUM", st_1I (sn_int sn "SIM_SL_IMGNUM")) ]
      else [])
  ++ [ ("SIM_SUBSAMPLE_INDEX", st_1I (sn_int sn "SUBSAMPLE_INDEX")) ].

(** The fields of one Photometry row, [wr_snfitsio_update_phot(ep)]. *)
Definition phot_fields (g : globals) (ep : Z) : list (string * staged) :=
  let sn := SNDATA g in
  let e1 n m := (n, st_1E (sn_float_arr sn m ep)) in
  let WRFULL := negb (SNFITSIO_COMPACT_FLAG g) in
  [ ("MJD", st_1D (sn_double_arr sn "MJD" ep));
    ("BAND", st_A (sn_string_arr sn "FILTCHAR" ep));
    ("CCDNUM", st_1I (sn_int_arr sn "CCDNUM" ep));
    ("FIELD", st_A (sn_string_arr sn "FIELDNAME" ep));
    ("PHOTFLAG", st_1J (sn_int_arr sn "PHOTFLAG" ep));
    e1 "PHOTPROB" "PHOTPROB";
    e1 "FLUXCAL" "FLUXCAL";
    e1 "FLUXCALERR" "FLUXCAL_ERRTOT" ]
  ++ (if negb (sn_int sn "NEA_PSF_UNIT" =? 0)
      then [ e1 "PSF_NEA" "PSF_NEA" ]
      else [ e1 "PSF_SIG1" "PSF_SIG1"; e1 "PSF_SIG2" "PSF_SIG2";
             e1 "PSF_RATIO" "PSF_RATIO" ])
  ++ [ e1 "SKY_SIG" "SKY_SIG" ]
  ++ (if WRFULL then [ e1 "SKY_SIG_T" "SKY_SIG_T"; e1 "RDNOISE" "READNOISE" ]
      else [])
  ++ [ e1 "ZEROPT" "ZEROPT" ]
  ++ (if WRFULL then [ e1 "ZEROPT_ERR" "ZEROPT_ERR"; e1 "GAIN" "GAIN" ]
      else [])
  ++ (if 0 <? sn_int sn "NXPIX" then [ e1 "XPIX" "XPIX"; e1 "YPIX" "YPIX" ]
      else [])
  ++ (if SNFITSIO_SIMFLAG_SNANA g || SNFITSIO_SIMFLAG_MAGOBS g
      then [ e1 "SIM_MAGOBS" "SIMEPOCH_MAG" ] else [])
  ++ (if SNFITSIO_SIMFLAG_SNANA g && WRFULL
      then [ e1 "SIM_FLUXCAL_HOSTERR" "SIMEPOCH_FLUXCAL_HOSTERR" ] else [])
  ++ (if SNFITSIO_SIMFLAG_SNRMON g
      then [ e1 (sn_string sn "VARNAME_SNRMON") "SIMEPOCH_SNRMON" ] else []).

(** *** Row writers *)

Definition wr_snfitsio_update_head : M globals unit :=
  let itype := ITYPE_SNFITSIO_HEAD in
  NROW_incr itype ;;;
  (* calculate obs-pointer for photometry fits file. *)
  PTROBS_MIN <- gets (fun g =>
    int_cast (NROW (WR_SNFITSIO_TABLEVAL g ITYPE_SNFITSIO_PHOT) + 1)) ;;
  NOBS <- gets (fun g => sn_int (SNDATA g) "NOBS") ;;
  let PTROBS_MAX := int_cast (int_cast (PTROBS_MIN - 1) + NOBS) in
  fs <- gets (fun g => head_fields g PTROBS_MIN PTROBS_MAX) ;;
  LOC <- fill_fields itype 0 fs ;;
  SIMFLAG_SNANA <- gets SNFITSIO_SIMFLAG_SNANA ;;
  if negb SIMFLAG_SNANA then ret tt
  else
    fs <- gets head_fields_sim ;;
    fill_fields itype LOC fs ;;;
    (* make sure that required keys exist. *)
    check_required_headkeys.

Definition wr_snfitsio_update_phot (ep : Z) : M globals unit :=
  let itype := ITYPE_SNFITSIO_PHOT in
  NROW_incr itype ;;;
  fs <- gets (fun g => phot_fields g ep) ;;
  fill_fields itype 0 fs ;;;
  ret tt.

(** Double constants of [wr_snfitsio_update_spec]. *)
Definition d_30 : double := double_of_Z 30.
Definition d_1000 : double := double_of_Z 1000.
Definition d_1 : double := double_of_Z 1.
Definition d_0 : double := S754_zero false.
Definition d_half : double := binary_normalize 53 1024 1 (-1) false.

Definition wr_snfitsio_update_spec (imjd : Z) : M globals unit :=
  gs <- gets GENSPEC ;;
  let NBLAM_TOT := gs_int gs "NBLAM_TOT" in
  let NBLAM_WR := gs_int_arr gs "NBLAM_VALID" imjd in
  (* Bail if no spectrum *)
  if negb (gs_int_arr gs "SKIP" imjd =? 0) then ret tt
  else
    PTRSPEC_MIN <- gets (fun g =>
      int_cast (NROW (WR_SNFITSIO_TABLEVAL g ITYPE_SNFITSIO_SPECTMP) + 1)) ;;
    let PTRSPEC_MAX := int_cast (int_cast (PTRSPEC_MIN - 1) + NBLAM_WR) in
    (* update summary table (one row per spectrum) *)
    let itype := ITYPE_SNFITSIO_SPEC in
    NROW_incr itype ;;;
    CCID <- gets (fun g => sn_string (SNDATA g) "CCID") ;;
    fill_fields itype 0
      [ ("SNID", st_A CCID);
        ("MJD", st_1D (gs_double_arr gs "MJD_LIST" imjd));
        ("Texpose",
           st_1E (float_of_double (gs_double_arr gs "TEXPOSE_LIST" imjd)));
        ("SNR_COMPUTE",
           st_1E (float_of_double (gs_double_arr gs "SNR_COMPUTE_LIST" imjd)));
        ("LAMMIN_SNR",
           st_1E (float_of_double (gs_double_arr2 gs "LAMOBS_SNR_LIST" imjd 0)));
        ("LAMMAX_SNR",
           st_1E (float_of_double (gs_double_arr2 gs "LAMOBS_SNR_LIST" imjd 1)));
        ("NBIN_LAM", st_1I NBLAM_WR);
        ("PTRSPEC_MIN", st_1J PTRSPEC_MIN);
        ("PTRSPEC_MAX", st_1J PTRSPEC_MAX) ] ;;;
    (* update spectrum table *)
    let itype := ITYPE_SNFITSIO_SPECTMP in
    SIMFLAG_SNANA <- gets SNFITSIO_SIMFLAG_SNANA ;;
    (* loop over all lambda bins, but only write out ones with defined flux. *)
    for_loop (trips 0 NBLAM_TOT) 0 (fun ilam =>
      let '(ILAM, GENFLAM, FLAM, FLAMERR, WARP) :=
        if ilam <? NBLAM_TOT then
          let WARP := gs_double_arr2 gs "FLAMWARP_LIST" imjd ilam in
          (ilam,
           gs_double_arr2 gs "GENFLAM_LIST" imjd ilam,
           gs_double_arr2 gs "FLAM_LIST" imjd ilam,
           gs_double_arr2 gs "FLAMERR_LIST" imjd ilam,
           if SFltb d_30 WARP then d_30 else WARP)
        else
          (* end-of-event marker *)
          (777, d_1, SNFITSIO_EOE_MARKER, SNFITSIO_EOE_MARKER, d_1) in
      if SFleb FLAMERR d_0 then ret tt   (* skip unphysical values *)
      else
        NROW_incr ITYPE_SNFITSIO_SPECTMP ;;;
        fill_fields itype 0
          ([ ("LAMINDEX", st_1I ILAM);
             ("FLAM", st_1E (float_of_double FLAM));
             ("FLAMERR", st_1E (float_of_double FLAMERR)) ]
           ++ (if SIMFLAG_SNANA
               then [ ("SIM_FLAM", st_1E (float_of_double GENFLAM)) ] else [])
           ++ (if negb (gs_int gs "USE_WARP" =? 0)
               then [ ("SIM_WARP",
                       st_1I (int_cast (Z_of_double
                                (SFadd 53 1024 (SFmul 53 1024 WARP d_1000)
                                   d_half)))) ]
               else [])) ;;;
        ret tt).

(** Assignment to one element of a per-epoch member of SNDATA:
    [SNDATA.m[ep] = v]. *)
Definition SNDATA_upd_bool (m : string) (ep : Z) (v : bool) (sn : SNDATA_t)
  : SNDATA_t :=
  set_sn_bool_arr (fun m' =>
    if strcmp0 m' m then upd (sn_bool_arr sn m) ep v else sn_bool_arr sn m') sn.
Definition SNDATA_upd_double (m : string) (ep : Z) (v : double)
  (sn : SNDATA_t) : SNDATA_t :=
  set_sn_double_arr (fun m' =>
    if strcmp0 m' m then upd (sn_double_arr sn m) ep v
    else sn_double_arr sn m') sn.
Definition SNDATA_upd_float (m : string) (ep : Z) (v : float) (sn : SNDATA_t)
  : SNDATA_t :=
  set_sn_float_arr (fun m' =>
    if strcmp0 m' m then upd (sn_float_arr sn m) ep v
    else sn_float_arr sn m') sn.
Definition SNDATA_upd_string (m : string) (ep : Z) (v : string)
  (sn : SNDATA_t) : SNDATA_t :=
  set_sn_string_arr (fun m' =>
    if strcmp0 m' m then upd (sn_string_arr sn m) ep v
    else sn_string_arr sn m') sn.

Definition modify_SNDATA (f : SNDATA_t -> SNDATA_t) : M globals unit :=
  modify (fun g => set_SNDATA (f (SNDATA g)) g).

Definition SNDATA_set_bool (m : string) (ep : Z) (v : bool) : M globals unit :=
  modify_SNDATA (SNDATA_upd_bool m ep v).
Definition SNDATA_set_double (m : string) (ep : Z) (v : double)
  : M globals unit :=
  modify_SNDATA (SNDATA_upd_double m ep v).
Definition SNDATA_set_float (m : string) (ep : Z) (v : float)
  : M globals unit :=
  modify_SNDATA (SNDATA_upd_float m ep v).
Definition SNDATA_set_string (m : string) (ep : Z) (v : string)
  : M globals unit :=
  modify_SNDATA (SNDATA_upd_string m ep v).

(** Body of the epoch loop of [WR_SNFITSIO_UPDATE]. *)
Definition UPDATE_epoch (NEPOCH ep NUSE_EPOCH : Z) : M globals Z :=
  w <- gets (fun g => sn_bool_arr (SNDATA g) "OBSFLAG_WRITE" ep) ;;
  if negb w then ret NUSE_EPOCH
  else
    wr_snfitsio_update_phot ep ;;;
    ret (if ep <=? NEPOCH then int_cast (NUSE_EPOCH + 1) else NUSE_EPOCH).

(** The end-of-event epoch [WR_SNFITSIO_UPDATE] builds at [ep]. *)
Definition UPDATE_EOE (ep : Z) : M globals unit :=
  SNDATA_set_bool "OBSFLAG_WRITE" ep true ;;;
  SNDATA_set_double "MJD" ep SNFITSIO_EOE_MARKER ;;;
  SNDATA_set_float "FLUXCAL" ep (float_of_double SNFITSIO_EOE_MARKER) ;;;
  SNDATA_set_float "FLUXCAL_ERRTOT" ep (float_of_double SNFITSIO_EOE_MARKER) ;;;
  SNDATA_set_string "FILTCHAR" ep "-" ;;;
  SNDATA_set_string "FIELDNAME" ep "XXXX" ;;;
  SNDATA_set_string "TELESCOPE" ep "XXXX".

Definition WR_SNFITSIO_UPDATE : M globals unit :=
  (* ----------- START WITH HEADER -------------- *)
  wr_snfitsio_update_head ;;;
  (* start by filling end-of-event marker *)
  NEPOCH <- gets (fun g => sn_int (SNDATA g) "NEPOCH") ;;
  let ep := int_cast (NEPOCH + 1) in    (* artificial epoch for EOE *)
  UPDATE_EOE ep ;;;
  (* loop over epochs and fill fits table. *)
  NUSE_EPOCH <-
    for_fold (trips 1 (int_cast (NEPOCH + 1))) 1 (UPDATE_epoch NEPOCH) 0 ;;
  (* make sure that NUSE_EPOCH matches the expected
     Number of observations (NOBS) *)
  NOBS <- gets (fun g => sn_int (SNDATA g) "NOBS") ;;
  when (negb (NUSE_EPOCH =? NOBS))
    (errmsg_FATAL "WR_SNFITSIO_UPDATE"
       ("NUSE_EPOCH=" +:+ pretty NUSE_EPOCH +:+ " != NOBS=" +:+ pretty NOBS)
       ("SNDATA.NEPOCH=" +:+ pretty NEPOCH)) ;;;
  (* check for optional spectra *)
  SPECTROGRAPH <- gets SNFITSIO_SIMFLAG_SPECTROGRAPH ;;
  if SPECTROGRAPH then
    NMJD_TOT <- gets (fun g => gs_int (GENSPEC g) "NMJD_TOT") ;;
    for_loop (trips 0 (NMJD_TOT - 1)) 0 wr_snfitsio_update_spec
  else ret tt.

(** ** Schema builder *)

(** A run of [wr_snfitsio_addCol(tform, name, itype)] calls. *)
Fixpoint addCols (itype : Z) (cols : list (string * string))
  : M globals unit :=
  match cols with
  | [] => ret tt
  | (tform, name_) :: cols' =>
      wr_snfitsio_addCol tform name_ itype ;;; addCols itype cols'
  end.

Definition filter_cols (g : globals) (prefix : string)
  : list (string * string) :=
  filter_loop g (fun _ ifilt_obs => ("1E", filter_name prefix ifilt_obs)).

Definition keyword_cols (tform : string) (lo n : Z) (key : Z -> string)
  : list (string * string) :=
  map (fun ipar => (tform, key ipar)) (seqZ lo n).

(** [fits_create_tbl] on the table open under [itype], then
    [snfitsio_errorCheck]; the store accepts every declaration. *)
Definition create_tbl (itype : Z) (TBLname : string) : M globals unit :=
  modify (fun g =>
    let ncol := NPAR_SNFITSIO g itype in
    let t := SNFITSIO_TABLEDEF g itype in
    set_fp_snfitsFile
      (upd (fp_snfitsFile g) itype (fits_create_tbl ncol (name t) (form t)))
      g) ;;;
  snfitsio_errorCheck ("fits_create_tbl for " +:+ TBLname) 0.

(** Columns of [wr_snfitsio_init_head] up to the first host galaxy. *)
Definition head_cols_1 (g : globals) : list (string * string) :=
  let sn := SNDATA g in
  (if negb (sn_int sn "SUBSURVEY_FLAG" =? 0) then [ ("40A", "SUBSURVEY") ]
   else [])
  ++ [ ("16A", "SNID"); ("16A", "IAUC"); ("1I", "FAKE") ]
  ++ (if negb (SNFITSIO_SIMFLAG_SNANA g) then [ ("1I", "MASK_FLUXCOR_SNANA") ]
      else [])
  ++ [ ("1D", "RA"); ("1D", "DEC"); ("1E", "PIXSIZE"); ("1I", "NXPIX");
       ("1I", "NYPIX"); ("1J", "SNTYPE");
       ("1J", "NOBS"); ("1J", "PTROBS_MIN"); ("1J", "PTROBS_MAX");
       ("1E", "MWEBV"); ("1E", "MWEBV_ERR");
       ("1E", "REDSHIFT_HELIO"); ("1E", "REDSHIFT_HELIO_ERR");
       ("1E", "REDSHIFT_FINAL"); ("1E", "REDSHIFT_FINAL_ERR") ]
  ++ (if SNFITSIO_DATAFLAG g then [ ("1I", "REDSHIFT_QUALITYFLAG") ] else [])
  ++ [ ("1E", "VPEC"); ("1E", "VPEC_ERR");
       ("1I", "HOSTGAL_NMATCH"); ("1I", "HOSTGAL_NMATCH2");
       ("1K", "HOSTGAL_OBJID");
       ("1E", "HOSTGAL_PHOTOZ"); ("1E", "HOSTGAL_PHOTOZ_ERR");
       ("1E", "HOSTGAL_SPECZ"); ("1E", "HOSTGAL_SPECZ_ERR");
       ("1D", "HOSTGAL_RA"); ("1D", "HOSTGAL_DEC");
       ("1E", "HOSTGAL_SNSEP"); ("1E", "HOSTGAL_DDLR");
       ("1E", "HOSTGAL_CONFUSION");
       ("1E", "HOSTGAL_LOGMASS"); ("1E", "HOSTGAL_LOGMASS_ERR");
       ("1E", "HOSTGAL_sSFR"); ("1E", "HOSTGAL_sSFR_ERR") ]
  ++ filter_cols g "HOSTGAL_MAG_"
  ++ filter_cols g "HOSTGAL_MAGERR_".

(** Its remaining columns, declared once [SNFITSIO_SIMFLAG_NBR_LIST] is set. *)
Definition head_cols_2 (g : globals) : list (string * string) :=
  let sn := SNDATA g in
  let MODEL := sn_int sn "SIM_MODEL_INDEX" in
  (if SNFITSIO_SIMFLAG_NBR_LIST g
   then [ ("1K", "HOSTGAL2_OBJID");
          ("1E", "HOSTGAL2_PHOTOZ"); ("1E", "HOSTGAL2_PHOTOZ_ERR");
          ("1E", "HOSTGAL2_SPECZ"); ("1E", "HOSTGAL2_SPECZ_ERR");
          ("1D", "HOSTGAL2_RA"); ("1D", "HOSTGAL2_DEC");
          ("1E", "HOSTGAL2_SNSEP"); ("1E", "HOSTGAL2_DDLR");
          ("1E", "HOSTGAL2_LOGMASS"); ("1E", "HOSTGAL2_LOGMASS_ERR");
          ("1E", "HOSTGAL2_sSFR"); ("1E", "HOSTGAL2_sSFR_ERR") ]
        ++ filter_cols g "HOSTGAL2_MAG_"
        ++ filter_cols g "HOSTGAL2_MAGERR_"
   else [])
  ++ filter_cols g "HOSTGAL_SB_FLUXCAL_"
  ++ [ ("1E", "PEAKMJD"); ("1J", "SEARCH_TYPE") ]
  ++ keyword_cols "1D" 1 (sn_int sn "NVAR_PRIVATE")
       (sn_string_arr sn "PRIVATE_KEYWORD")
  ++ (if SNFITSIO_SIMFLAG_SNANA g
      then
        [ ("32A", "SIM_MODEL_NAME"); ("1I", "SIM_MODEL_INDEX");
          ("1I", "SIM_TYPE_INDEX"); ("8A", "SIM_TYPE_NAME");
          ("1J", "SIM_TEMPLATE_INDEX"); ("1J", "SIM_LIBID");
          ("1J", "SIM_NGEN_LIBID"); ("1J", "SIM_NOBS_UNDEFINED");
          ("1J", "SIM_SEARCHEFF_MASK");
          ("1E", "SIM_REDSHIFT_HELIO"); ("1E", "SIM_REDSHIFT_CMB");
          ("1E", "SIM_REDSHIFT_HOST"); ("1I", "SIM_REDSHIFT_FLAG");
          ("1E", "SIM_VPEC"); ("1K", "SIM_HOSTLIB_GALID") ]
        ++ keyword_cols "1E" 0 (sn_int sn "NPAR_SIM_HOSTLIB")
             (sn_string_arr sn "SIM_HOSTLIB_KEYWORD")
        ++ [ ("1E", "SIM_DLMU"); ("1E", "SIM_LENSDMU");
             ("1D", "SIM_RA"); ("1D", "SIM_DEC");
             ("1E", "SIM_MWEBV"); ("1E", "SIM_PEAKMJD");
             ("1E", "SIM_MAGSMEAR_COH");
             ("1E", "SIM_AV"); ("1E", "SIM_RV") ]
        ++ (if MODEL =? MODEL_SALT2
            then [ ("1E", "SIM_SALT2x0"); ("1E", "SIM_SALT2x1");
                   ("1E", "SIM_SALT2c"); ("1E", "SIM_SALT2mB");
                   ("1E", "SIM_SALT2alpha"); ("1E", "SIM_SALT2beta");
                   ("1E", "SIM_SALT2gammaDM") ]
            else [])
        ++ (if MODEL =? MODEL_MLCS2k2 then [ ("1E", "SIM_DELTA") ] else [])
        ++ (if MODEL =? MODEL_SNOOPY then [ ("1E", "SIM_STRETCH") ] else [])
        ++ (if (MODEL =? MODEL_SIMSED) && SNFITSIO_SIMFLAG_MODELPAR g
            then ("1E", "SIMSED_SALT2x0")
                 :: keyword_cols "1E" 0 (sn_int sn "NPAR_SIMSED")
                      (sn_string_arr sn "SIMSED_KEYWORD")
            else [])
        ++ (if (MODEL =? MODEL_BYOSED) || (MODEL =? MODEL_SNEMO)
            then keyword_cols "1E" 0 (sn_int sn "NPAR_PySEDMODEL")
                   (sn_string_arr sn "PySEDMODEL_KEYWORD")
            else [])
        ++ (if (MODEL =? MODEL_LCLIB) && SNFITSIO_SIMFLAG_MODELPAR g
            then keyword_cols "1E" 0 (sn_int sn "NPAR_LCLIB")
                   (sn_string_arr sn "LCLIB_KEYWORD")
            else [])
        ++ filter_cols g "SIM_PEAKMAG_"
        ++ (if MODEL =? MODEL_LCLIB then filter_cols g "SIM_TEMPLATEMAG_"
            else [])
        ++ filter_cols g "SIM_EXPOSURE_"
        ++ (if negb (sn_int sn "SIM_HOSTLIB_MSKOPT" =? 0)
            then filter_cols g "SIM_GALFRAC_" else [])
        ++ (if negb (sn_int sn "SIM_SL_FLAG" =? 0)
            then [ ("1J", "SIM_STRONGLENS_ID"); ("1E", "SIM_STRONGLENS_z");
                   ("1E", "SIM_STRONGLENS_TDELAY");
                   ("1E", "SIM_STRONGLENS_MAGSHIFT");
                   ("1I", "SIM_STRONGLENS_NIMG");
                   ("1I", "SIM_STRONGLENS_IMGNUM") ]
            else [])
      else [])
  ++ (if SNFITSIO_SIMFLAG_SNANA g then [ ("1I", "SIM_SUBSAMPLE_INDEX") ]
      else []).

Definition wr_snfitsio_init_head : M globals unit :=
  let itype := ITYPE_SNFITSIO_HEAD in
  cols <- gets head_cols_1 ;;
  addCols itype cols ;;;
  (* store 2nd HOSTGAL for 1) data or 2) sim with NBR_LIST in HOSTLIB *)
  modify (fun g =>
    set_SNFITSIO_SIMFLAG_NBR_LIST
      (negb (SNFITSIO_SIMFLAG_SNANA g) || (0 <? HOSTLIB_IVAR_NBR_LIST g)) g) ;;;
  cols <- gets head_cols_2 ;;
  addCols itype cols ;;;
  (* create header table. *)
  create_tbl itype "Header".

Definition phot_cols (g : globals) : list (string * string) :=
  let sn := SNDATA g in
  let WRFULL := negb (SNFITSIO_COMPACT_FLAG g) in
  [ ("1D", "MJD"); ("2A", "BAND"); ("1I", "CCDNUM"); ("12A", "FIELD");
    ("1J", "PHOTFLAG"); ("1E", "PHOTPROB");
    ("1E", "FLUXCAL"); ("1E", "FLUXCALERR") ]
  ++ (if negb (sn_int sn "NEA_PSF_UNIT" =? 0)
      then [ ("1E", "PSF_NEA") ]
      else [ ("1E", "PSF_SIG1"); ("1E", "PSF_SIG2"); ("1E", "PSF_RATIO") ])
  ++ [ ("1E", "SKY_SIG") ]
  ++ (if WRFULL then [ ("1E", "SKY_SIG_T"); ("1E", "RDNOISE") ] else [])
  ++ [ ("1E", "ZEROPT") ]
  ++ (if WRFULL then [ ("1E", "ZEROPT_ERR"); ("1E", "GAIN") ] else [])
  ++ (if 0 <? sn_int sn "NXPIX" then [ ("1E", "XPIX"); ("1E", "YPIX") ]
      else [])
  ++ (if SNFITSIO_SIMFLAG_SNANA g || SNFITSIO_SIMFLAG_MAGOBS g
      then [ ("1E", "SIM_MAGOBS") ] else [])
  ++ (if SNFITSIO_SIMFLAG_SNANA g && WRFULL
      then [ ("1E", "SIM_FLUXCAL_HOSTERR") ] else [])
  ++ (if SNFITSIO_SIMFLAG_SNRMON g
      then [ ("1E", sn_string sn "VARNAME_SNRMON") ] else []).

Definition wr_snfitsio_init_phot : M globals unit :=
  let itype := ITYPE_SNFITSIO_PHOT in
  cols <- gets phot_cols ;;
  addCols itype cols ;;;
  create_tbl itype "Photometry".

(** ** Read side *)

Definition formIndex_snfitsio (form_ : string) : M globals IFORM :=
  let lastchar_ := lastchar form_ in
  if strcmp0 lastchar_ "A" then ret IFORM_A
  else if strcmp0 form_ "1J" then ret IFORM_1J
  else if strcmp0 form_ "1I" then ret IFORM_1I
  else if strcmp0 form_ "1E" then ret IFORM_1E
  else if strcmp0 form_ "1D" then ret IFORM_1D
  else if strcmp0 form_ "1K" then ret IFORM_1K
  else errmsg_FATAL "formIndex_snfitsio"
         ("Unrecognized fits-form '" +:+ form_ +:+ "'") "Check fits table.".

Definition IFORM_eqb (a b : IFORM) : bool :=
  match a, b with
  | IFORM_A, IFORM_A | IFORM_1J, IFORM_1J | IFORM_1I, IFORM_1I
  | IFORM_1E, IFORM_1E | IFORM_1D, IFORM_1D | IFORM_1K, IFORM_1K => true
  | _, _ => false
  end.

(** Assignment [a[iform][i] = v] in an array indexed by form. *)
Definition updF {A} (a : IFORM -> A) (f : IFORM) (v : A) : IFORM -> A :=
  fun f' => if IFORM_eqb f' f then v else a f'.

Definition modify_RD (itype : Z) (f : RD_TABLEVAL -> RD_TABLEVAL)
  : M globals unit :=
  modify (fun g =>
    set_RD_SNFITSIO_TABLEVAL
      (upd (RD_SNFITSIO_TABLEVAL g) itype (f (RD_SNFITSIO_TABLEVAL g itype)))
      g).

Definition modify_TABLEDEF (itype : Z) (f : TABLEDEF -> TABLEDEF)
  : M globals unit :=
  modify (fun g =>
    set_SNFITSIO_TABLEDEF
      (upd (SNFITSIO_TABLEDEF g) itype (f (SNFITSIO_TABLEDEF g itype))) g).

(** The scan of [IPARFORM_SNFITSIO] over the columns of one form. *)
Fixpoint IPARFORM_scan (names : Z -> string) (IPAR_ : Z -> Z)
  (parName : string) (ipar : Z) (n : nat) : option Z :=
  match n with
  | O => None
  | S n' =>
      let icol := IPAR_ ipar in
      if strcmp0 (names icol) parName then Some ipar
      else IPARFORM_scan names IPAR_ parName (ipar + 1) n'
  end.

Definition IPARFORM_SNFITSIO (OPT : Z) (iform_ : IFORM) (parName : string)
  (itype : Z) : M globals Z :=
  rd <- gets (fun g => RD_SNFITSIO_TABLEVAL g itype) ;;
  names <- gets (fun g => name (SNFITSIO_TABLEDEF g itype)) ;;
  match IPARFORM_scan names (IPAR rd iform_) parName 1
          (trips 1 (NPAR rd iform_)) with
  | Some ipar => ret ipar
  | None =>
      if OPT =? 0 then ret (-9)
      else
        file <- gets (fun g => snfitsFile g (IFILE_SNFITSIO g) itype) ;;
        errmsg_FATAL "IPARFORM_SNFITSIO"
          ("Could not find IPAR(iform) for parName='" +:+ parName +:+ "'")
          ("Check parameter names in " +:+ file +:+ " ")
  end.

(** [rd_snfitsio_open]: the tables of partition [ifile] become the open
    ones.  The container-level keys (SURVEY, FILTERS, DATATYPE, PHOTFILE,
    ...) are outside the modelled store; the modelled containers hold a
    Header and a Photometry table and no SPECFILE key, for which the C code
    clears [SNFITSIO_SIMFLAG_SPECTROGRAPH]. *)
Definition rd_snfitsio_open (ifile : Z) (photflag_open : bool)
  : M globals unit :=
  modify (fun g =>
    set_fp_snfitsFile
      (upd (fp_snfitsFile g) ITYPE_SNFITSIO_HEAD
         (FILES g ifile ITYPE_SNFITSIO_HEAD)) g) ;;;
  modify (set_SNFITSIO_SIMFLAG_SPECTROGRAPH false) ;;;
  when photflag_open
    (modify (fun g =>
       set_fp_snfitsFile
         (upd (fp_snfitsFile g) ITYPE_SNFITSIO_PHOT
            (FILES g ifile ITYPE_SNFITSIO_PHOT)) g)) ;;;
  (* read Number of rows (NAXIS2) in header file *)
  modify (fun g =>
    set_NSNLC_SNFITSIO
      (upd (NSNLC_SNFITSIO g) ifile
         (NAXIS2 (fp_snfitsFile g ITYPE_SNFITSIO_HEAD))) g).

(** [rd_snfitsio_tblpar]: the columns of the open table are entered in the
    registry and numbered per form.  The progress lines that the C code
    prints for the table and for each column are not part of the model. *)
Definition rd_snfitsio_tblpar (ifile itype : Z) : M globals unit :=
  NCOLUMN <- gets (fun g => TFIELDS (fp_snfitsFile g itype)) ;;
  modify (fun g =>
    set_NPAR_SNFITSIO (upd (NPAR_SNFITSIO g) itype (int_cast NCOLUMN)) g) ;;;
  modify_RD itype (set_NPAR (fun _ => 0)) ;;;
  (* loop over colum TTYPE[1-NFIELD] and count how many
     float, double, int ...  Also store column name *)
  for_loop (trips 1 NCOLUMN) 1 (fun icol =>
    fp <- gets (fun g => fp_snfitsFile g itype) ;;
    modify_TABLEDEF itype (fun t => set_name (upd (name t) icol (TTYPE fp icol)) t) ;;;
    modify_TABLEDEF itype (fun t => set_form (upd (form t) icol (TFORM fp icol)) t) ;;;
    (* keep track of how many header parameters are of each form *)
    iform_ <- formIndex_snfitsio (TFORM fp icol) ;;
    modify_TABLEDEF itype
      (fun t => set_iform (upd (iform t) icol (Some iform_)) t) ;;;
    modify_RD itype
      (fun rd => set_NPAR (updF (NPAR rd) iform_ (int_cast (NPAR rd iform_ + 1)))
                   rd) ;;;
    modify_RD itype (fun rd =>
      let npar := NPAR rd iform_ in
      let rd := set_IPAR (updF (IPAR rd) iform_ (upd (IPAR rd iform_) npar icol))
                  rd in
      set_IPARINV
        (updF (IPARINV rd) iform_ (upd (IPARINV rd iform_) icol npar)) rd)) ;;;
  (* make sure that required keys exist. *)
  when (itype =? ITYPE_SNFITSIO_HEAD) check_required_headkeys.

(** [rd_snfitsio_free] and [rd_snfitsio_malloc]: the buffers are total
    functions here, so only the allocated length is tracked. *)
Definition rd_snfitsio_free (ifile itype : Z) : M globals unit :=
  LEN <- gets (fun g => MALLOC_LEN_SNFITSIO g itype) ;;
  if LEN <=? 0 then ret tt
  else modify (fun g =>
         set_MALLOC_LEN_SNFITSIO (upd (MALLOC_LEN_SNFITSIO g) itype 0) g).

Definition rd_snfitsio_malloc (ifile itype LEN : Z) : M globals unit :=
  len <- gets (fun g => MALLOC_LEN_SNFITSIO g itype) ;;
  when (0 <? len) (rd_snfitsio_free ifile itype) ;;;
  let LEN_LOCAL := if LEN =? 0 then 10 else LEN in
  modify (fun g =>
    set_MALLOC_LEN_SNFITSIO (upd (MALLOC_LEN_SNFITSIO g) itype LEN_LOCAL) g).

(** One element of a [fits_read_col_*] request, stored at [buf[ipar][J]].
    A cell that was never written, or holds another datatype, leaves the
    buffer as it is; [rd_snfitsio_tblcol] does not look at [istat]. *)
Definition load_cell (iform_ : IFORM) (ipar J : Z) (c : option cell)
  (rd : RD_TABLEVAL) : RD_TABLEVAL :=
  let put {A} (b : Z -> Z -> A) (v : A) := upd b ipar (upd (b ipar) J v) in
  match iform_, c with
  | IFORM_A, Some (TSTRING s) => set_TABLEVAL_A (put (TABLEVAL_A rd) s) rd
  | IFORM_1J, Some (TINT j) => set_TABLEVAL_1J (put (TABLEVAL_1J rd) j) rd
  | IFORM_1I, Some (TSHORT i) => set_TABLEVAL_1I (put (TABLEVAL_1I rd) i) rd
  | IFORM_1E, Some (TFLOAT f) => set_TABLEVAL_1E (put (TABLEVAL_1E rd) f) rd
  | IFORM_1D, Some (TDOUBLE d) => set_TABLEVAL_1D (put (TABLEVAL_1D rd) d) rd
  | IFORM_1K, Some (TLONGLONG k) => set_TABLEVAL_1K (put (TABLEVAL_1K rd) k) rd
  | _, _ => rd
  end.

(** [fits_read_col_*(fp, icol, FIRSTROW, 1, NROW, ..., &buf[ipar][1], ...)]:
    the cells of [n] rows from [firstRow + k] on, to the buffer entries from
    [1 + k] on. *)
Fixpoint fits_read_col (fp : fitsfile) (iform_ : IFORM) (ipar icol : Z)
  (firstRow k : Z) (n : nat) (rd : RD_TABLEVAL) : RD_TABLEVAL :=
  match n with
  | O => rd
  | S n' =>
      fits_read_col fp iform_ ipar icol firstRow (k + 1) n'
        (load_cell iform_ ipar (1 + k) (fits_read_cell fp icol (firstRow + k))
           rd)
  end.

Definition rd_snfitsio_tblcol (itype icol firstRow lastRow : Z)
  : M globals unit :=
  fp <- gets (fun g => fp_snfitsFile g itype) ;;
  let NROW_ := lastRow - firstRow + 1 in
  oiform <- gets (fun g => iform (SNFITSIO_TABLEDEF g itype) icol) ;;
  match oiform with
  | None =>
      errmsg_FATAL "rd_snfitsio_tblcol" "Invalid iform"
        ("itype=" +:+ pretty itype +:+ "  icol=" +:+ pretty icol)
  | Some iform_ =>
      (* get sparse ipar for this form. *)
      ipar <- gets (fun g => IPARINV (RD_SNFITSIO_TABLEVAL g itype) iform_ icol) ;;
      modify_RD itype
        (fits_read_col fp iform_ ipar icol firstRow 0 (Z.to_nat NROW_))
  end.

Definition rd_snfitsio_head (ifile : Z) : M globals unit :=
  let itype := ITYPE_SNFITSIO_HEAD in
  NSNLC <- gets (fun g => NSNLC_SNFITSIO g ifile) ;;
  NCOL <- gets (fun g => NPAR_SNFITSIO g itype) ;;
  for_loop (trips 1 NCOL) 1 (fun icol =>
    rd_snfitsio_tblcol itype icol 1 NSNLC) ;;;
  (* find largest NOBS = MXOBS_SNFITSIO *)
  ipar <- IPARFORM_SNFITSIO 1 IFORM_1J "NOBS" itype ;;
  modify (set_MXOBS_SNFITSIO 0) ;;;
  for_loop (trips 1 NSNLC) 1 (fun isn =>
    NOBS <- gets (fun g =>
              TABLEVAL_1J (RD_SNFITSIO_TABLEVAL g itype) ipar isn) ;;
    MXOBS <- gets MXOBS_SNFITSIO ;;
    when (MXOBS <? NOBS) (modify (set_MXOBS_SNFITSIO NOBS))).

Definition rd_snfitsio_file (ifile : Z) : M globals unit :=
  modify (set_MXOBS_SNFITSIO 0) ;;;
  (* open header fits-file and the phot fits-file *)
  rd_snfitsio_open ifile true ;;;
  (* read table parNames and forms *)
  rd_snfitsio_tblpar ifile ITYPE_SNFITSIO_HEAD ;;;
  rd_snfitsio_tblpar ifile ITYPE_SNFITSIO_PHOT ;;;
  (* allocate memory for header *)
  NSNLC <- gets (fun g => NSNLC_SNFITSIO g ifile) ;;
  rd_snfitsio_malloc ifile ITYPE_SNFITSIO_HEAD NSNLC ;;;
  (* read/store header info for each SN *)
  rd_snfitsio_head ifile ;;;
  (* allocate lightcurve [PHOT] memory after reading header. *)
  MXOBS <- gets MXOBS_SNFITSIO ;;
  rd_snfitsio_malloc ifile ITYPE_SNFITSIO_PHOT MXOBS.

(** [RD_SNFITSIO_CLOSE(SNFITSIO_PHOT_VERSION)], as [RD_SNFITSIO_PARVAL]
    calls it: the version test compares the global with itself, and closing
    a table of the store cannot fail. *)
Definition RD_SNFITSIO_CLOSE : M globals unit :=
  ifile <- gets IFILE_SNFITSIO ;;
  rd_snfitsio_free ifile ITYPE_SNFITSIO_HEAD ;;;
  rd_snfitsio_free ifile ITYPE_SNFITSIO_PHOT.

(** [rd_snfitsio_specFile]: returns at once when
    [SNFITSIO_SIMFLAG_SPECTROGRAPH] is clear, as it is after
    [rd_snfitsio_open] on the modelled containers. *)
Definition rd_snfitsio_specFile (ifile : Z) : M globals unit := ret tt.

(** [RD_SNFITSIO_PREP] with [MSKOPT = 0], from the reset of
    [IFILE_SNFITSIO] on.  The version lookup and the list of files are
    outside the modelled store: [NFILE_SNFITSIO] and the containers are
    those of the state, and the banner is not printed.  Returns the total
    number of records. *)
Definition RD_SNFITSIO_PREP : M globals Z :=
  modify (set_IFILE_SNFITSIO 0) ;;;
  modify (set_NSNLC_SNFITSIO (fun _ => 0)) ;;;
  modify (set_NSNLC_SNFITSIO_SUM (fun _ => 0)) ;;;
  (* set default mask to read all epochs *)
  modify (set_NEP_RDMASK_SNFITSIO_PARVAL 0) ;;;
  modify (set_RDMASK_SNFITSIO_PARVAL (fun _ => 1)) ;;;
  (* loop over all header files to get total number of SN. *)
  NFILE <- gets NFILE_SNFITSIO ;;
  NSNLC_SNFITSIO_TOT <-
    for_fold (trips 1 NFILE) 1 (fun ifile TOT =>
      rd_snfitsio_open ifile false ;;;
      NSNLC <- gets (fun g => NSNLC_SNFITSIO g ifile) ;;
      let TOT := int_cast (TOT + NSNLC) in
      modify (fun g =>
        set_NSNLC_SNFITSIO_SUM (upd (NSNLC_SNFITSIO_SUM g) ifile TOT) g) ;;;
      ret TOT) 0 ;;
  (* open and read the first HEADER file *)
  modify (set_IFILE_SNFITSIO 1) ;;;
  modify (set_ISNFIRST_SNFITSIO 1) ;;;           (* first ISN in file *)
  rd_snfitsio_file 1 ;;;
  rd_snfitsio_specFile 1 ;;;
  ret NSNLC_SNFITSIO_TOT.

(** Body of the loop of [SET_RDMASK_SNFITSIO]. *)
Definition SET_RDMASK_entry (mask : Z -> Z) (ep : Z) : M globals unit :=
  let JVAL := mask ep in
  (* make sure that each  mask value is 0 or 1 *)
  when (negb (JVAL =? 0) && negb (JVAL =? 1))
    (errmsg_FATAL "SET_RDMASK_SNFITSIO"
       ("Invalid MASK = " +:+ pretty JVAL +:+ " at ep=" +:+ pretty ep)
       "        ") ;;;
  modify (fun g =>
    set_RDMASK_SNFITSIO_PARVAL (upd (RDMASK_SNFITSIO_PARVAL g) ep JVAL) g).

Definition SET_RDMASK_SNFITSIO (NEP : Z) (mask : Z -> Z) : M globals unit :=
  when (MXEPOCH <=? NEP)
    (errmsg_FATAL "SET_RDMASK_SNFITSIO"
       ("NEP = " +:+ pretty NEP +:+ " at exceeds bound.")
       ("Check MXEPOCH = " +:+ pretty MXEPOCH)) ;;;
  modify (set_NEP_RDMASK_SNFITSIO_PARVAL NEP) ;;;
  if NEP =? 0 then ret tt
  else for_loop (trips 0 (NEP - 1)) 0 (SET_RDMASK_entry mask).

(** The partition whose cumulative range holds [isn]; [-9] if none. *)
Fixpoint find_ifile (SUM : Z -> Z) (isn : Z) (itmp : Z) (n : nat) (ifile : Z)
  : Z :=
  match n with
  | O => ifile
  | S n' =>
      find_ifile SUM isn (itmp + 1) n'
        (if (SUM (itmp - 1) <? isn) && (isn <=? SUM itmp) then itmp else ifile)
  end.

(** Locals of the output loop of [RD_SNFITSIO_PARVAL]. *)
Record parval_acc : Type := Build_parval_acc {
  acc_NSTORE : Z;
  acc_NEP_MASK : Z;
  acc_parList : Z -> double;
  acc_parString : string
}.

(** The search over HEAD and PHOT: [Some (itype, icol)] at the first table
    kind with a column named [parName]. *)
Definition PARVAL_search (parName : string) : M globals (option (Z * Z)) :=
  icol <- IPAR_SNFITSIO 0 parName 0 ;;
  if 0 <? icol then ret (Some (0, icol))
  else
    icol <- IPAR_SNFITSIO 0 parName 1 ;;
    if 0 <? icol then ret (Some (1, icol)) else ret None.

(** [RD_SNFITSIO_PARVAL], first block: check if we read the current fits
    file, or need to open the next one. *)
Definition PARVAL_open (isn : Z) : M globals unit :=
  ifile <- gets (fun g =>
    find_ifile (NSNLC_SNFITSIO_SUM g) isn 1 (trips 1 (NFILE_SNFITSIO g)) (-9)) ;;
  IFILE <- gets IFILE_SNFITSIO ;;
  when (negb (ifile =? IFILE))
    (RD_SNFITSIO_CLOSE ;;;
     modify (set_IFILE_SNFITSIO ifile) ;;;       (* update global file index *)
     modify (set_ISNFIRST_SNFITSIO isn) ;;;      (* first ISN in file *)
     rd_snfitsio_file ifile ;;;                  (* open next fits file. *)
     rd_snfitsio_specFile ifile).

(** The block [if ( itype == ITYPE_SNFITSIO_PHOT ) ... else ...]: reads the
    epoch range of a PHOT column from the fits file; returns JMIN and
    JMAX. *)
Definition PARVAL_range (isn isn_file : Z) (parName : string)
  (itype icol : Z) : M globals (Z * Z) :=
  if itype =? ITYPE_SNFITSIO_PHOT then
    IPTR <- gets (fun g =>
      IPARINV (RD_SNFITSIO_TABLEVAL g ITYPE_SNFITSIO_HEAD) IFORM_1J) ;;
    firstRow <- gets (fun g =>
      TABLEVAL_1J (RD_SNFITSIO_TABLEVAL g ITYPE_SNFITSIO_HEAD)
        (IPTR (IPAR_SNFITSIO_PTROBS_MIN g)) isn_file) ;;
    lastRow <- gets (fun g =>
      TABLEVAL_1J (RD_SNFITSIO_TABLEVAL g ITYPE_SNFITSIO_HEAD)
        (IPTR (IPAR_SNFITSIO_PTROBS_MAX g)) isn_file) ;;
    rd_snfitsio_tblcol itype icol firstRow lastRow ;;;
    let NPARVAL := int_cast (int_cast (lastRow - firstRow) + 1) in
    (* make sure that the size of the epoch mask is the same
       as the number of observations. *)
    NEP_RDMASK <- gets NEP_RDMASK_SNFITSIO_PARVAL ;;
    when ((0 <? NEP_RDMASK) && negb (NEP_RDMASK =? NPARVAL))
      (errmsg_FATAL "RD_SNFITSIO_PARVAL"
         ("NEP_RDMASK = " +:+ pretty NEP_RDMASK +:+ " but NOBS="
            +:+ pretty NPARVAL)
         ("isn=" +:+ pretty isn +:+ "  parName=" +:+ parName)) ;;;
    ret (1, NPARVAL)
  else ret (isn_file, isn_file).

(** Body of the output loop: one stored element [J] to the output arrays,
    unless the mask drops it. *)
Definition PARVAL_store (parName : string) (itype : Z)
  (oiform : option IFORM) (ipar : Z) (J : Z) (acc : parval_acc)
  : M globals parval_acc :=
  g <- gets id ;;
  (* check mask only for photometry and only if mask is set. *)
  if (itype =? ITYPE_SNFITSIO_PHOT)
     && negb (NEP_RDMASK_SNFITSIO_PARVAL g =? 0)
     && (RDMASK_SNFITSIO_PARVAL g (J - 1) =? 0)
  then ret acc
  else
    let NSTORE := acc_NSTORE acc in
    let rd := RD_SNFITSIO_TABLEVAL g itype in
    let put v := upd (acc_parList acc) NSTORE v in
    acc' <-
      match oiform with
      | Some IFORM_A =>
          let C_VAL := TABLEVAL_A rd ipar J in
          when (strcmp0 parName "FLT" || strcmp0 parName "BAND")
            (SNDATA_set_string "FILTCHAR" (NSTORE + 1) C_VAL) ;;;
          when (strcmp0 parName "FIELD")
            (SNDATA_set_string "FIELDNAME" (NSTORE + 1) C_VAL) ;;;
          ret (Build_parval_acc NSTORE (acc_NEP_MASK acc)
                 (acc_parList acc)
                 (catVarList_with_comma (acc_parString acc) C_VAL))
      | Some IFORM_1J =>
          ret (Build_parval_acc NSTORE (acc_NEP_MASK acc)
                 (put (double_of_Z (TABLEVAL_1J rd ipar J)))
                 (acc_parString acc))
      | Some IFORM_1I =>
          ret (Build_parval_acc NSTORE (acc_NEP_MASK acc)
                 (put (double_of_Z (TABLEVAL_1I rd ipar J)))
                 (acc_parString acc))
      | Some IFORM_1E =>
          ret (Build_parval_acc NSTORE (acc_NEP_MASK acc)
                 (put (double_of_float (TABLEVAL_1E rd ipar J)))
                 (acc_parString acc))
      | Some IFORM_1D =>
          ret (Build_parval_acc NSTORE (acc_NEP_MASK acc)
                 (put (TABLEVAL_1D rd ipar J)) (acc_parString acc))
      | Some IFORM_1K =>
          ret (Build_parval_acc NSTORE (acc_NEP_MASK acc)
                 (put (double_of_Z (TABLEVAL_1K rd ipar J)))
                 (acc_parString acc))
      | None => ret acc
      end ;;
    (* NEP_MASK++ before the store, NSTORE++ after it *)
    ret (Build_parval_acc (int_cast (NSTORE + 1))
           (int_cast (acc_NEP_MASK acc + 1))
           (acc_parList acc') (acc_parString acc')).

(** From the label [FOUND_COLUMN] to the end. *)
Definition PARVAL_column (isn isn_file : Z) (parName : string)
  (parList : Z -> double) (parString : string) (itype icol iptr : Z)
  : M globals (Z * (Z -> double) * string * Z) :=
  oiform <- gets (fun g => iform (SNFITSIO_TABLEDEF g itype) icol) ;;
  ipar <- gets (fun g =>
    match oiform with
    | Some f => IPARINV (RD_SNFITSIO_TABLEVAL g itype) f icol
    | None => 0
    end) ;;
  (* if type is PHOT then read the epoch range from the fits file. *)
  range <- PARVAL_range isn isn_file parName itype icol ;;
  let '(JMIN, JMAX) := range in
  (* read from stored array and load output array *)
  acc <-
    for_fold (trips JMIN JMAX) JMIN (PARVAL_store parName itype oiform ipar)
      (Build_parval_acc 0 0 parList parString) ;;
  if acc_NEP_MASK acc =? 0
  then ret (-9, acc_parList acc, acc_parString acc, iptr)
  else ret (acc_NSTORE acc, acc_parList acc, acc_parString acc, iptr).

(** From [isn_file = ...] on: the pointer test, the search and the read. *)
Definition PARVAL_read (isn : Z) (parName : string) (parList : Z -> double)
  (parString : string) (iptr : Z)
  : M globals (Z * (Z -> double) * string * Z) :=
  (* get local 'isn_file' index within this file *)
  isn_file <- gets (fun g =>
    int_cast (isn - NSNLC_SNFITSIO_SUM g (IFILE_SNFITSIO g - 1))) ;;
  ISNFIRST <- gets ISNFIRST_SNFITSIO ;;
  let iptr := if isn =? ISNFIRST then -9 else iptr in
  let iptr_local := iptr in
  if iptr_local =? -999 then ret (0, parList, parString, iptr)
  else
    (* search list of all param-names *)
    found <- PARVAL_search parName ;;
    match found with
    | None =>
        (* return flag that this param does not exist *)
        ret (0, parList, parString, -999)
    | Some (itype, icol) =>
        PARVAL_column isn isn_file parName parList parString itype icol
          (int_cast (icol + itype * MXPAR_SNFITSIO))
    end.

(** Returns the function value, [parList], [parString] and [*iptr]. *)
Definition RD_SNFITSIO_PARVAL (isn : Z) (parName : string)
  (parList : Z -> double) (iptr : Z)
  : M globals (Z * (Z -> double) * string * Z) :=
  (* init output args *)
  let parList := upd parList 0 (double_of_Z (-9)) in
  let parString := EmptyString in
  PARVAL_open isn ;;;
  PARVAL_read isn parName parList parString iptr.

(** The typed entry points. *)
Definition RD_SNFITSIO_DBL (isn : Z) (parName : string)
  (parList : Z -> double) (ipar : Z) : M globals (Z * (Z -> double) * Z) :=
  r <- RD_SNFITSIO_PARVAL isn parName parList ipar ;;
  let '(NRD, parList, _, ipar) := r in
  ret (NRD, parList, ipar).

Definition RD_SNFITSIO_STR (isn : Z) (parName : string) (ipar : Z)
  : M globals (Z * string * Z) :=
  r <- RD_SNFITSIO_PARVAL isn parName (fun _ => d_0) ipar ;;
  let '(NRD, _, parString, ipar) := r in
  ret (NRD, parString, ipar).

(** [for ( i=0; i < NRD; i++ ) { parList[i] = (T)tmp8[i] ; }]. *)
Fixpoint cast_loop {A} (conv : double -> A) (tmp8 : Z -> double)
  (parList : Z -> A) (i : Z) (n : nat) : Z -> A :=
  match n with
  | O => parList
  | S n' => cast_loop conv tmp8 (upd parList i (conv (tmp8 i))) (i + 1) n'
  end.


Definition RD_SNFITSIO_SHT (isn : Z) (parName : string) (parList : Z -> Z)
  (ipar : Z) : M globals (Z * (Z -> Z) * Z) :=
  r <- RD_SNFITSIO_PARVAL isn parName (fun _ => d_0) ipar ;;
  let '(NRD, tmp8, _, ipar) := r in
  ret (NRD, cast_loop Z_of_double tmp8 parList 0 (Z.to_nat NRD), ipar).


End Model.

(** ** Specification vocabulary *)

Section Vocabulary.
Context {K : constants}.

(** Column found for [parName] by the linear scan over the declared names of
    table [itype]. *)
Definition column_of (g : globals) (itype : Z) (parName : string) : option Z :=
  IPAR_scan (name (SNFITSIO_TABLEDEF g itype)) parName 1
    (trips 1 (NPAR_SNFITSIO g itype)).

(** The five required header columns, in the order they are checked. *)
(** The value of [IPAR_SNFITSIO(0, key, itype)]. *)
Definition IPAR_of (g : globals) (itype : Z) (key : string) : Z :=
  match column_of g itype key with
  | Some c => c
  | None => -9
  end.

(** The cached columns of the required keys are the same in both
    states. *)
Definition keeps_required (g g' : globals) : Prop :=
  IPAR_SNFITSIO_SNID g' = IPAR_SNFITSIO_SNID g /\
  IPAR_SNFITSIO_FAKE g' = IPAR_SNFITSIO_FAKE g /\
  IPAR_SNFITSIO_NOBS g' = IPAR_SNFITSIO_NOBS g /\
  IPAR_SNFITSIO_PTROBS_MIN g' = IPAR_SNFITSIO_PTROBS_MIN g /\
  IPAR_SNFITSIO_PTROBS_MAX g' = IPAR_SNFITSIO_PTROBS_MAX g.

(** The cached columns of the required keys, in the order of the keys. *)
Definition required_cols (g : globals) : Z * Z * Z * Z * Z :=
  (IPAR_SNFITSIO_SNID g, IPAR_SNFITSIO_FAKE g, IPAR_SNFITSIO_NOBS g,
   IPAR_SNFITSIO_PTROBS_MIN g, IPAR_SNFITSIO_PTROBS_MAX g).

Definition REQUIRED : list string :=
  [ "SNID"; "FAKE"; "NOBS"; "PTROBS_MIN"; "PTROBS_MAX" ]%string.

Definition is_missing (g : globals) (key : string) : bool :=
  match column_of g ITYPE_SNFITSIO_HEAD key with
  | Some _ => false
  | None => true
  end.

Definition missing_keys (g : globals) : list string :=
  List.filter (is_missing g) REQUIRED.

Definition missing_line (key : string) : string :=
  " ERROR: missing required header key '" +:+ key +:+ "' ".

(** Number of epochs [ep] in [lo .. lo+n-1] whose write flag is set. *)
Fixpoint count_write (w : Z -> bool) (lo : Z) (n : nat) : Z :=
  match n with
  | O => 0
  | S n' => (if w lo then 1 else 0) + count_write w (lo + 1) n'
  end.

Definition NUSE_of (g : globals) : Z :=
  let sn := SNDATA g in
  count_write (sn_bool_arr sn "OBSFLAG_WRITE") 1
    (Z.to_nat (sn_int sn "NEPOCH")).

(** The cell [wr_snfitsio_fillTable] stores for a staged value in a column
    whose form agrees with it. *)
Definition cell_of (v : staged) : cell :=
  match v with
  | st_A s => TSTRING s
  | st_1D d => TDOUBLE d
  | st_1E f => TFLOAT f
  | st_1J j => TINT j
  | st_1I i => TSHORT (short_cast i)
  | st_1K k => TLONGLONG k
  end.

(** The staged value is of the kind the column form [tform] selects. *)
Definition form_agrees (tform : string) (v : staged) : bool :=
  match v with
  | st_A _ => strcmp0 (lastchar tform) "A"
  | st_1D _ => negb (strcmp0 (lastchar tform) "A") && strcmp0 tform "1D"
  | st_1E _ => negb (strcmp0 (lastchar tform) "A") && strcmp0 tform "1E"
  | st_1J _ => negb (strcmp0 (lastchar tform) "A") && strcmp0 tform "1J"
  | st_1I _ => negb (strcmp0 (lastchar tform) "A") && strcmp0 tform "1I"
  | st_1K _ => negb (strcmp0 (lastchar tform) "A") && strcmp0 tform "1K"
  end.

(** The cell [wr_snfitsio_fillTable] builds for a column of form [tform]
    from the staged values; [None] for an unrecognized form. *)
Definition cell_by_form (tform : string) (tv : WR_TABLEVAL) : option cell :=
  if strcmp0 (lastchar tform) "A" then Some (TSTRING (value_A tv))
  else if strcmp0 tform "1D" then Some (TDOUBLE (value_1D tv))
  else if strcmp0 tform "1E" then Some (TFLOAT (value_1E tv))
  else if strcmp0 tform "1J" then Some (TINT (value_1J tv))
  else if strcmp0 tform "1I" then Some (TSHORT (value_1I tv))
  else if strcmp0 tform "1K" then Some (TLONGLONG (value_1K tv))
  else None.

Definition blank_cell (x : cell) : bool :=
  match x with
  | TSTRING s => strlen s =? 0
  | _ => false
  end.

(** The column a call of [wr_snfitsio_fillTable] writes to: the cached one
    if there is one, else the one the scan finds. *)
Definition resolve (g : globals) (COLNUM : Z * Z) (parName : string)
  (itype : Z) : option Z :=
  let c := deref_COLNUM COLNUM g in
  if c <? 0 then column_of g itype parName else Some c.

(** The staging area of table [itype] once [v] is staged. *)
Definition staged_tv (g : globals) (itype : Z) (v : staged) : WR_TABLEVAL :=
  let t := WR_SNFITSIO_TABLEVAL g itype in
  match v with
  | st_A s => set_value_A s t
  | st_1D d => set_value_1D d t
  | st_1E f => set_value_1E f t
  | st_1J j => set_value_1J j t
  | st_1I i => set_value_1I (short_cast i) t
  | st_1K k => set_value_1K k t
  end.

(** The part of the globals that writing rows and checking the required
    keys never assigns: everything but the open tables, the staging area,
    the cached required-column numbers, the output and the call counter. *)
Definition wr_rest (g : globals) : globals :=
  set_fp_snfitsFile (fun _ => fits_empty)
    (set_WR_SNFITSIO_TABLEVAL (fun _ => WR_TABLEVAL_init)
       (set_NCALL_IPAR_SNFITSIO 0
          (set_STDOUT []
             (set_IPAR_SNFITSIO_SNID 0
                (set_IPAR_SNFITSIO_FAKE 0
                   (set_IPAR_SNFITSIO_NOBS 0
                      (set_IPAR_SNFITSIO_PTROBS_MIN 0
                         (set_IPAR_SNFITSIO_PTROBS_MAX 0 g)))))))).

(** [g'] differs from [g] at most in the rows, the row counter and the
    staging area of table [itype] (and in what [wr_rest] masks). *)
Definition wr_frame (itype : Z) (g g' : globals) : Prop :=
  wr_rest g' = wr_rest g /\
  (forall t, t <> itype ->
     fp_snfitsFile g' t = fp_snfitsFile g t /\
     WR_SNFITSIO_TABLEVAL g' t = WR_SNFITSIO_TABLEVAL g t) /\
  TFIELDS (fp_snfitsFile g' itype) = TFIELDS (fp_snfitsFile g itype) /\
  TTYPE (fp_snfitsFile g' itype) = TTYPE (fp_snfitsFile g itype) /\
  TFORM (fp_snfitsFile g' itype) = TFORM (fp_snfitsFile g itype).

(** The same, with the row counter of [itype] kept. *)
Definition row_frame (itype : Z) (g g' : globals) : Prop :=
  wr_frame itype g g' /\
  NROW (WR_SNFITSIO_TABLEVAL g' itype) = NROW (WR_SNFITSIO_TABLEVAL g itype).

(** Table [t] is left as it is: its rows, row counter and staging area. *)
Definition keeps (t : Z) (g g' : globals) : Prop :=
  wr_rest g' = wr_rest g /\
  fp_snfitsFile g' t = fp_snfitsFile g t /\
  WR_SNFITSIO_TABLEVAL g' t = WR_SNFITSIO_TABLEVAL g t.

(** Every run of [m], returning or aborting, ends in a state related by [R]
    to the one it started from. *)
Definition follows {A} (R : globals -> globals -> Prop) (m : M globals A)
  : Prop :=
  forall g, R g (run m g).

(** SNDATA with the end-of-event epoch built at [ep]. *)
Definition EOE_SNDATA (ep : Z) (sn : SNDATA_t) : SNDATA_t :=
  SNDATA_upd_string "TELESCOPE" ep "XXXX"
    (SNDATA_upd_string "FIELDNAME" ep "XXXX"
       (SNDATA_upd_string "FILTCHAR" ep "-"
          (SNDATA_upd_float "FLUXCAL_ERRTOT" ep
             (float_of_double SNFITSIO_EOE_MARKER)
             (SNDATA_upd_float "FLUXCAL" ep
                (float_of_double SNFITSIO_EOE_MARKER)
                (SNDATA_upd_double "MJD" ep SNFITSIO_EOE_MARKER
                   (SNDATA_upd_bool "OBSFLAG_WRITE" ep true sn)))))).

(** The cached column numbers of table [itype] at the positions after
    [LOC] agree with [names]: an entry is unresolved (negative) or is the
    column the scan finds for the name written at that position. *)
Fixpoint cache_ok (g : globals) (itype LOC : Z) (names : list string)
  : bool :=
  match names with
  | [] => true
  | n :: ns =>
      let c := COLNUM_LOOKUP (WR_SNFITSIO_TABLEVAL g itype) (LOC + 1) in
      ((c <? 0)
       || match column_of g itype n with
          | Some c' => c =? c'
          | None => false
          end)
      && cache_ok g itype (LOC + 1) ns
  end.

(** The column declared under the name of a field has the form of the value
    staged for it. *)
Definition field_ok (g : globals) (itype : Z) (f : string * staged) : bool :=
  match column_of g itype (fst f) with
  | Some c => form_agrees (form (SNFITSIO_TABLEDEF g itype) c) (snd f)
  | None => true
  end.

Definition schema_ok (g : globals) (itype : Z) (fs : list (string * staged))
  : bool :=
  forallb (field_ok g itype) fs.

(** The cells of row [row] after the fields [fs] are written, in order. *)
Fixpoint fill_cells (g : globals) (itype row : Z)
  (fs : list (string * staged)) (m : gmap (Z * Z) cell) : gmap (Z * Z) cell :=
  match fs with
  | [] => m
  | f :: fs' =>
      fill_cells g itype row fs'
        match column_of g itype (fst f) with
        | Some c => <[(c, row) := cell_of (snd f)]> m
        | None => m
        end
  end.

(** No name occurs twice. *)
Fixpoint nodupb (l : list string) : bool :=
  match l with
  | [] => true
  | x :: l' => negb (existsb (strcmp0 x) l') && nodupb l'
  end.

(** The Photometry cells after one row per epoch of [eps] is written below
    row [row], in order. *)
Fixpoint phot_rows (g : globals) (row : Z) (eps : list Z)
  (m : gmap (Z * Z) cell) : gmap (Z * Z) cell :=
  match eps with
  | [] => m
  | ep :: eps' =>
      phot_rows g (row + 1) eps'
        (fill_cells g ITYPE_SNFITSIO_PHOT (row + 1) (phot_fields g ep) m)
  end.

(** The epochs [lo .. lo+n-1] whose write flag is set, in order. *)
Fixpoint written (w : Z -> bool) (lo : Z) (n : nat) : list Z :=
  match n with
  | O => []
  | S n' => if w lo then lo :: written w (lo + 1) n' else written w (lo + 1) n'
  end.

(** A row of fields can be written to table [itype]: the cache and the
    declared forms fit, no name occurs twice, the position counter stays
    an [int]. *)
Definition row_ok (g : globals) (itype : Z) (fs : list (string * staged))
  : bool :=
  cache_ok g itype 0 (map fst fs) && schema_ok g itype fs
  && nodupb (map fst fs) && (Z.of_nat (length fs) <=? INT_MAX).

(** Two rows of fields with the same names and the same kinds of value. *)
Definition same_shape (fs fs' : list (string * staged)) : Prop :=
  Forall2 (fun f f' =>
             fst f = fst f' /\
             forall tform, form_agrees tform (snd f)
                           = form_agrees tform (snd f')) fs fs'.

(** Same flags and same scalar members of SNDATA: the rows written have
    the same names. *)
Definition same_config (g g' : globals) : Prop :=
  SNFITSIO_COMPACT_FLAG g' = SNFITSIO_COMPACT_FLAG g /\
  SNFITSIO_SIMFLAG_SNANA g' = SNFITSIO_SIMFLAG_SNANA g /\
  SNFITSIO_SIMFLAG_MAGOBS g' = SNFITSIO_SIMFLAG_MAGOBS g /\
  SNFITSIO_SIMFLAG_SNRMON g' = SNFITSIO_SIMFLAG_SNRMON g /\
  sn_int (SNDATA g') = sn_int (SNDATA g) /\
  sn_string (SNDATA g') = sn_string (SNDATA g).

(** The fields of one Header row, [wr_snfitsio_update_head]. *)
Definition head_row (g : globals) (PTROBS_MIN PTROBS_MAX : Z)
  : list (string * staged) :=
  head_fields g PTROBS_MIN PTROBS_MAX
  ++ (if SNFITSIO_SIMFLAG_SNANA g then head_fields_sim g else []).

(** The writer is ready for the Header row of the record in SNDATA: the
    counters stay [int]s and the row can be written. *)
Definition head_ready (g : globals) : Prop :=
  let NEPOCH := sn_int (SNDATA g) "NEPOCH" in
  let NOBS := sn_int (SNDATA g) "NOBS" in
  let h0 := NROW (WR_SNFITSIO_TABLEVAL g ITYPE_SNFITSIO_HEAD) in
  let r0 := NROW (WR_SNFITSIO_TABLEVAL g ITYPE_SNFITSIO_PHOT) in
  0 <= NEPOCH < INT_MAX /\ 0 <= h0 < INT_MAX /\
  0 <= r0 /\ r0 + NEPOCH + 1 <= INT_MAX /\
  row_ok g ITYPE_SNFITSIO_HEAD (head_row g (r0 + 1) (r0 + NOBS)) = true.

(** The open partition and its first record are the same in both states. *)
Definition same_partition (g g' : globals) : Prop :=
  ISNFIRST_SNFITSIO g' = ISNFIRST_SNFITSIO g /\
  IFILE_SNFITSIO g' = IFILE_SNFITSIO g.

(** The body of the column loop of [rd_snfitsio_tblpar], by itself. *)
Definition tblpar_column (itype icol : Z) : M globals unit :=
  fp <- gets (fun g => fp_snfitsFile g itype) ;;
  modify_TABLEDEF itype (fun t => set_name (upd (name t) icol (TTYPE fp icol)) t) ;;;
  modify_TABLEDEF itype (fun t => set_form (upd (form t) icol (TFORM fp icol)) t) ;;;
  iform_ <- formIndex_snfitsio (TFORM fp icol) ;;
  modify_TABLEDEF itype
    (fun t => set_iform (upd (iform t) icol (Some iform_)) t) ;;;
  modify_RD itype
    (fun rd => set_NPAR (updF (NPAR rd) iform_ (int_cast (NPAR rd iform_ + 1)))
                 rd) ;;;
  modify_RD itype (fun rd =>
    let npar := NPAR rd iform_ in
    let rd := set_IPAR (updF (IPAR rd) iform_ (upd (IPAR rd iform_) npar icol))
                rd in
    set_IPARINV
      (updF (IPARINV rd) iform_ (upd (IPARINV rd iform_) icol npar)) rd).

(** The form index that [formIndex_snfitsio] returns; [None] where it
    stops the run. *)
Definition form_index (tform : string) : option IFORM :=
  if strcmp0 (lastchar tform) "A" then Some IFORM_A
  else if strcmp0 tform "1J" then Some IFORM_1J
  else if strcmp0 tform "1I" then Some IFORM_1I
  else if strcmp0 tform "1E" then Some IFORM_1E
  else if strcmp0 tform "1D" then Some IFORM_1D
  else if strcmp0 tform "1K" then Some IFORM_1K
  else None.

(** Table [itype] of the reader is indexed for the columns [1 .. k] of the
    table [fp]: names, forms and form indices are those of the table, and
    [IPARINV] numbers the columns of each form in the order of the
    columns, with [IPAR] as its inverse. *)
Definition indexed (fp : fitsfile) (g : globals) (itype k : Z) : Prop :=
  let t := SNFITSIO_TABLEDEF g itype in
  let rd := RD_SNFITSIO_TABLEVAL g itype in
  (forall f, 0 <= NPAR rd f <= k) /\
  (forall icol, 1 <= icol <= k ->
    name t icol = TTYPE fp icol /\ form t icol = TFORM fp icol /\
    exists f,
      form_index (TFORM fp icol) = Some f /\ iform t icol = Some f /\
      1 <= IPARINV rd f icol <= NPAR rd f /\
      IPAR rd f (IPARINV rd f icol) = icol) /\
  (forall f ipar, 1 <= ipar <= NPAR rd f ->
    1 <= IPAR rd f ipar <= k /\
    iform t (IPAR rd f ipar) = Some f /\
    IPARINV rd f (IPAR rd f ipar) = ipar) /\
  forall f i j, 1 <= i -> i < j -> j <= NPAR rd f ->
    IPAR rd f i < IPAR rd f j.

(** Everything but the registry and the read buffers of table [itype] is
    the same in both states. *)
Definition index_frame (itype : Z) (g g' : globals) : Prop :=
  set_SNFITSIO_TABLEDEF (SNFITSIO_TABLEDEF g)
    (set_RD_SNFITSIO_TABLEVAL (RD_SNFITSIO_TABLEVAL g) g') = g /\
  forall t, t <> itype ->
    SNFITSIO_TABLEDEF g' t = SNFITSIO_TABLEDEF g t /\
    RD_SNFITSIO_TABLEVAL g' t = RD_SNFITSIO_TABLEVAL g t.

(** A cell of the datatype that [load_cell] takes for a column of form
    [f]. *)
Definition cell_has_form (f : IFORM) (c : cell) : bool :=
  match f, c with
  | IFORM_A, TSTRING _ | IFORM_1J, TINT _ | IFORM_1I, TSHORT _
  | IFORM_1E, TFLOAT _ | IFORM_1D, TDOUBLE _ | IFORM_1K, TLONGLONG _ => true
  | _, _ => false
  end.

(** Entry [J] of the read buffer of form [f], as a cell. *)
Definition buffer_cell (rd : RD_TABLEVAL) (f : IFORM) (ipar J : Z) : cell :=
  match f with
  | IFORM_A => TSTRING (TABLEVAL_A rd ipar J)
  | IFORM_1J => TINT (TABLEVAL_1J rd ipar J)
  | IFORM_1I => TSHORT (TABLEVAL_1I rd ipar J)
  | IFORM_1E => TFLOAT (TABLEVAL_1E rd ipar J)
  | IFORM_1D => TDOUBLE (TABLEVAL_1D rd ipar J)
  | IFORM_1K => TLONGLONG (TABLEVAL_1K rd ipar J)
  end.

(** The read buffers of table [itype] hold the cells of the rows [1 .. n]
    of the columns [1 .. k] of the table [fp]. *)
Definition buffered (fp : fitsfile) (g : globals) (itype k n : Z) : Prop :=
  let t := SNFITSIO_TABLEDEF g itype in
  let rd := RD_SNFITSIO_TABLEVAL g itype in
  forall icol f J c,
    1 <= icol <= k -> iform t icol = Some f -> 1 <= J <= n ->
    fits_read_cell fp icol J = Some c -> cell_has_form f c = true ->
    buffer_cell rd f (IPARINV rd f icol) J = c.

(** Between [g] and [g'] only the read buffers of table [itype] and
    [MXOBS_SNFITSIO] may differ; the numbering of the columns is kept. *)
Definition buffers_frame (itype : Z) (g g' : globals) : Prop :=
  set_MXOBS_SNFITSIO (MXOBS_SNFITSIO g)
    (set_RD_SNFITSIO_TABLEVAL (RD_SNFITSIO_TABLEVAL g) g') = g /\
  (forall t, t <> itype ->
     RD_SNFITSIO_TABLEVAL g' t = RD_SNFITSIO_TABLEVAL g t) /\
  NPAR (RD_SNFITSIO_TABLEVAL g' itype) = NPAR (RD_SNFITSIO_TABLEVAL g itype) /\
  IPAR (RD_SNFITSIO_TABLEVAL g' itype) = IPAR (RD_SNFITSIO_TABLEVAL g itype) /\
  IPARINV (RD_SNFITSIO_TABLEVAL g' itype)
  = IPARINV (RD_SNFITSIO_TABLEVAL g itype).

(** The column of the table [fp] that a scan for [parName] arrives at. *)
Definition table_column (fp : fitsfile) (parName : string) : option Z :=
  IPAR_scan (TTYPE fp) parName 1 (Z.to_nat (TFIELDS fp)).

(** The number of columns fits an [int] and every column has one of the six
    forms. *)
Definition forms_known (fp : fitsfile) : bool :=
  (0 <=? TFIELDS fp) && (TFIELDS fp <=? INT_MAX) &&
  forallb (fun icol =>
             match form_index (TFORM fp icol) with
             | Some _ => true
             | None => false
             end)
    (seqZ 1 (TFIELDS fp)).

(** A Header table that [rd_snfitsio_file] accepts: known forms, the
    required keys among its columns, and [NOBS] of the form [1J]. *)
Definition head_table_ok (fp : fitsfile) : bool :=
  forms_known fp &&
  forallb (fun key =>
             match table_column fp key with
             | Some _ => true
             | None => false
             end)
    REQUIRED &&
  match table_column fp "NOBS" with
  | Some c =>
      match form_index (TFORM fp c) with
      | Some IFORM_1J => true
      | _ => false
      end
  | None => false
  end.

(** What opening a partition never assigns: the store, the partition
    table, the open partition's index and first record, and the mask. *)
Definition kept_by_open (g g' : globals) : Prop :=
  FILES g' = FILES g /\
  NFILE_SNFITSIO g' = NFILE_SNFITSIO g /\
  NSNLC_SNFITSIO_SUM g' = NSNLC_SNFITSIO_SUM g /\
  IFILE_SNFITSIO g' = IFILE_SNFITSIO g /\
  ISNFIRST_SNFITSIO g' = ISNFIRST_SNFITSIO g /\
  NEP_RDMASK_SNFITSIO_PARVAL g' = NEP_RDMASK_SNFITSIO_PARVAL g /\
  RDMASK_SNFITSIO_PARVAL g' = RDMASK_SNFITSIO_PARVAL g.

(** Partition [ifile], with the Header table [H] and the Photometry table
    [P], is open and read: both tables are registered and indexed, the rows
    of the Header table are in the read buffers, and the required columns
    are cached. *)
Definition loaded (g : globals) (ifile : Z) (H P : fitsfile) : Prop :=
  let col := IPAR_of g ITYPE_SNFITSIO_HEAD in
  fp_snfitsFile g ITYPE_SNFITSIO_HEAD = H /\
  fp_snfitsFile g ITYPE_SNFITSIO_PHOT = P /\
  NSNLC_SNFITSIO g ifile = NAXIS2 H /\
  NPAR_SNFITSIO g ITYPE_SNFITSIO_HEAD = TFIELDS H /\
  NPAR_SNFITSIO g ITYPE_SNFITSIO_PHOT = TFIELDS P /\
  indexed H g ITYPE_SNFITSIO_HEAD (TFIELDS H) /\
  indexed P g ITYPE_SNFITSIO_PHOT (TFIELDS P) /\
  buffered H g ITYPE_SNFITSIO_HEAD (TFIELDS H) (NAXIS2 H) /\
  required_cols g
  = (col "SNID", col "FAKE", col "NOBS", col "PTROBS_MIN", col "PTROBS_MAX").



(** The body of the loop of [RD_SNFITSIO_PREP] over the partitions. *)
Definition PREP_count (ifile TOT : Z) : M globals Z :=
  rd_snfitsio_open ifile false ;;;
  NSNLC <- gets (fun g => NSNLC_SNFITSIO g ifile) ;;
  let TOT := int_cast (TOT + NSNLC) in
  modify (fun g =>
    set_NSNLC_SNFITSIO_SUM (upd (NSNLC_SNFITSIO_SUM g) ifile TOT) g) ;;;
  ret TOT.

(** The number of rows of the Header tables of the partitions
    [lo .. lo + n - 1] of the store [F]. *)
Fixpoint NSNLC_sum (F : Z -> Z -> fitsfile) (lo : Z) (n : nat) : Z :=
  match n with
  | O => 0
  | S n' => NAXIS2 (F lo ITYPE_SNFITSIO_HEAD) + NSNLC_sum F (lo + 1) n'
  end.

(** The number of records in the partitions [1 .. k]. *)
Definition NSNLC_upto (F : Z -> Z -> fitsfile) (k : Z) : Z :=
  NSNLC_sum F 1 (Z.to_nat k).

(** What the loop of [RD_SNFITSIO_PREP] over the partitions never assigns:
    everything but the open tables, the spectrograph flag and the record
    counts. *)
Definition prep_rest (g : globals) : globals :=
  set_fp_snfitsFile (fun _ => fits_empty)
    (set_SNFITSIO_SIMFLAG_SPECTROGRAPH false
       (set_NSNLC_SNFITSIO (fun _ => 0)
          (set_NSNLC_SNFITSIO_SUM (fun _ => 0) g))).

(** What [RD_SNFITSIO_PARVAL] puts into [parList] for a numeric cell: the
    value converted to [double]. *)
Definition cell_double (c : cell) : double :=
  match c with
  | TSTRING _ => d_0
  | TDOUBLE d => d
  | TFLOAT f => double_of_float f
  | TINT j => double_of_Z j
  | TSHORT i => double_of_Z i
  | TLONGLONG k => double_of_Z k
  end.



Definition cell_string (c : cell) : string :=
  match c with
  | TSTRING s => s
  | _ => EmptyString
  end.

(** The output of [RD_SNFITSIO_PARVAL] with one more cell stored: a string
    joins [parString], a number goes to [parList[NSTORE]]. *)
Definition store_cell (c : cell) (acc : parval_acc) : parval_acc :=
  match c with
  | TSTRING s =>
      Build_parval_acc (int_cast (acc_NSTORE acc + 1))
        (int_cast (acc_NEP_MASK acc + 1)) (acc_parList acc)
        (catVarList_with_comma (acc_parString acc) s)
  | _ =>
      Build_parval_acc (int_cast (acc_NSTORE acc + 1))
        (int_cast (acc_NEP_MASK acc + 1))
        (upd (acc_parList acc) (acc_NSTORE acc) (cell_double c))
        (acc_parString acc)
  end.


(** The read buffers and the mask are the same in both states. *)
Definition rd_keeps (g g' : globals) : Prop :=
  RD_SNFITSIO_TABLEVAL g' = RD_SNFITSIO_TABLEVAL g /\
  NEP_RDMASK_SNFITSIO_PARVAL g' = NEP_RDMASK_SNFITSIO_PARVAL g /\
  RDMASK_SNFITSIO_PARVAL g' = RDMASK_SNFITSIO_PARVAL g.




(** The first [n] entries of an output array. *)
Definition prefix {A} (a : Z -> A) (n : Z) : list A := map a (seqZ 0 n).

(** Two states with the same column registry. *)
Definition same_tables (g g' : globals) : Prop :=
  NPAR_SNFITSIO g' = NPAR_SNFITSIO g /\
  SNFITSIO_TABLEDEF g' = SNFITSIO_TABLEDEF g.

End Vocabulary.

(** ** Sample data *)

(** Sample values for the constants of the missing headers. *)
Definition sample_constants : constants :=
  {| MXPAR_SNFITSIO := 400;
     MXEPOCH := 5000;
     MXHOSTGAL := 2;
     SNFITSIO_EOE_MARKER := double_of_Z (-777);
     FILTERSTRING := fun i =>
       match i with
       | 1 => "u" | 2 => "g" | 3 => "r" | 4 => "i" | 5 => "z" | _ => "?"
       end%char;
     snfitsType := fun itype =>
       match itype with
       | 0 => "HEAD" | 1 => "PHOT" | 2 => "SPEC" | 3 => "SPECTMP" | _ => EmptyString
       end%string;
     MODEL_SALT2 := 6;
     MODEL_MLCS2k2 := 3;
     MODEL_SNOOPY := 4;
     MODEL_SIMSED := 7;
     MODEL_BYOSED := 8;
     MODEL_SNEMO := 9;
     MODEL_LCLIB := 12 |}.

(** The globals of a real-data run as the resets at the top of
    [WR_SNFITSIO_INIT] leave them: no column declared, no row written,
    [COLNUM_LOOKUP] all [-1], one filter [g]. *)
Definition globals_init : globals :=
  {| NPAR_SNFITSIO := fun _ => 0;
     SNFITSIO_TABLEDEF := fun _ =>
       {| name := fun _ => EmptyString; form := fun _ => EmptyString;
          iform := fun _ => None |};
     fp_snfitsFile := fun _ => fits_empty;
     snfitsFile := fun _ _ => EmptyString;
     IFILE_SNFITSIO := 1;
     IPAR_SNFITSIO_SNID := 0; IPAR_SNFITSIO_FAKE := 0;
     IPAR_SNFITSIO_NOBS := 0; IPAR_SNFITSIO_PTROBS_MIN := 0;
     IPAR_SNFITSIO_PTROBS_MAX := 0;
     SNFITSIO_DATAFLAG := true;
     SNFITSIO_SIMFLAG_SNANA := false;
     SNFITSIO_SIMFLAG_MAGOBS := false;
     SNFITSIO_SIMFLAG_SNRMON := false;
     SNFITSIO_SIMFLAG_MODELPAR := false;
     SNFITSIO_SIMFLAG_NBR_LIST := false;
     SNFITSIO_SIMFLAG_SPECTROGRAPH := false;
     SNFITSIO_COMPACT_FLAG := false;
     WR_SNFITSIO_TABLEVAL := fun _ => WR_TABLEVAL_init;
     SNDATA := SNDATA_zero;
     SNDATA_FILTER_NDEF := 1;
     SNDATA_FILTER_MAP := fun _ => 2;
     GENSPEC := GENSPEC_zero;
     HOSTLIB_IVAR_NBR_LIST := 0;
     RD_SNFITSIO_TABLEVAL := fun _ => RD_TABLEVAL_init;
     NFILE_SNFITSIO := 0;
     NSNLC_SNFITSIO := fun _ => 0;
     NSNLC_SNFITSIO_SUM := fun _ => 0;
     ISNFIRST_SNFITSIO := 0;
     MXOBS_SNFITSIO := 0;
     MALLOC_LEN_SNFITSIO := fun _ => 0;
     NEP_RDMASK_SNFITSIO_PARVAL := 0;
     RDMASK_SNFITSIO_PARVAL := fun _ => 1;
     FILES := fun _ _ => fits_empty;
     STDOUT := [];
     NCALL_IPAR_SNFITSIO := 0 |}.

(** A sample record of a real-data run with a sub-survey column: three
    epochs, the second one not to be written, so two observations. *)
Definition sample_SNDATA : SNDATA_t :=
  {| sn_int := fun m =>
       if strcmp0 m "NOBS" then 2
       else if strcmp0 m "NEPOCH" then 3
       else if strcmp0 m "SUBSURVEY_FLAG" then 1
       else if strcmp0 m "FAKE" then 70000
       else 0;
     sn_longlong := fun _ => 0;
     sn_float := fun _ => S754_zero false;
     sn_double := fun _ => S754_zero false;
     sn_string := fun m =>
       if strcmp0 m "CCID" then "SN01"
       else if strcmp0 m "SUBSURVEY_NAME" then EmptyString
       else "NULL";
     sn_bool_arr := fun _ ep => negb (ep =? 2);
     sn_int_arr := fun _ ep => ep;
     sn_longlong_arr := fun _ _ => 2 ^ 53 + 1;
     sn_float_arr := fun _ ep => double_of_Z ep;
     sn_double_arr := fun _ ep => double_of_Z (50000 + ep);
     sn_string_arr := fun m ep =>
       if strcmp0 m "FILTCHAR" then "g" else "F" +:+ pretty ep;
     sn_float_arr2 := fun _ _ _ => S754_zero false |}.

(** The writer after [wr_snfitsio_init_head] and [wr_snfitsio_init_phot]
    on the sample record: both tables declared and created, no row yet. *)
Definition sample_writer : globals :=
  run (wr_snfitsio_init_head (K := sample_constants) ;;;
       wr_snfitsio_init_phot (K := sample_constants))
    (set_SNDATA sample_SNDATA globals_init).

(** The same with a first Header row opened and nothing staged. *)
Definition sample_writer_row1 : globals :=
  run (NROW_incr ITYPE_SNFITSIO_HEAD) sample_writer.

(** The sample record written twice: two records of two observations. *)
Definition sample_written_1 : globals :=
  run (WR_SNFITSIO_UPDATE (K := sample_constants)) sample_writer.

Definition sample_written_2 : globals :=
  run (WR_SNFITSIO_UPDATE (K := sample_constants))
    (set_SNDATA sample_SNDATA sample_written_1).

(** A sample record of five epochs, all of them written. *)
Definition sample_SNDATA_5 : SNDATA_t :=
  {| sn_int := fun m =>
       if strcmp0 m "NOBS" then 5
       else if strcmp0 m "NEPOCH" then 5
       else sn_int sample_SNDATA m;
     sn_longlong := sn_longlong sample_SNDATA;
     sn_float := sn_float sample_SNDATA;
     sn_double := sn_double sample_SNDATA;
     sn_string := fun m =>
       if strcmp0 m "CCID" then "SN05" else sn_string sample_SNDATA m;
     sn_bool_arr := fun _ _ => true;
     sn_int_arr := sn_int_arr sample_SNDATA;
     sn_longlong_arr := sn_longlong_arr sample_SNDATA;
     sn_float_arr := sn_float_arr sample_SNDATA;
     sn_double_arr := sn_double_arr sample_SNDATA;
     sn_string_arr := sn_string_arr sample_SNDATA;
     sn_float_arr2 := sn_float_arr2 sample_SNDATA |}.

(** Three records written: two of two observations, one of five. *)
Definition sample_written_3 : globals :=
  run (WR_SNFITSIO_UPDATE (K := sample_constants))
    (set_SNDATA sample_SNDATA_5 sample_written_2).

(** The store with the written tables as its one partition. *)
Definition sample_disk (ifile itype : Z) : fitsfile :=
  if ifile =? 1 then fp_snfitsFile sample_written_3 itype else fits_empty.

(** A reader on that store after [RD_SNFITSIO_PREP]: partition 1 is open
    and record 1 is its first record. *)
Definition sample_reader : globals :=
  run RD_SNFITSIO_PREP
    (set_FILES sample_disk (set_NFILE_SNFITSIO 1 globals_init)).

(** The reader after [rd_snfitsio_tblpar] on a Header table whose column
    12, [NOBS], is declared of the form [1I]. *)
Definition sample_reader_NOBS_1I : globals :=
  let fp := fp_snfitsFile sample_reader ITYPE_SNFITSIO_HEAD in
  run (rd_snfitsio_tblpar 1 ITYPE_SNFITSIO_HEAD)
    (set_fp_snfitsFile
       (upd (fp_snfitsFile sample_reader) ITYPE_SNFITSIO_HEAD
          (Build_fitsfile (TFIELDS fp) (TTYPE fp) (upd (TFORM fp) 12 "1I")
             (NAXIS2 fp) (CELLS fp)))
       sample_reader).

(** A store of two partitions: the tables after the first record was
    written, and the tables after all three were. *)
Definition sample_disk_2 (ifile itype : Z) : fitsfile :=
  if ifile =? 1 then fp_snfitsFile sample_written_1 itype
  else if ifile =? 2 then fp_snfitsFile sample_written_3 itype
  else fits_empty.

(** A reader on that store after [RD_SNFITSIO_PREP]: partition 1 is open. *)
Definition sample_reader_2 : globals :=
  run RD_SNFITSIO_PREP
    (set_FILES sample_disk_2 (set_NFILE_SNFITSIO 2 globals_init)).

(** That reader with column 3 of its Photometry table declared of the form
    [1B]. *)
Definition sample_reader_1B : globals :=
  let fp := fp_snfitsFile sample_reader ITYPE_SNFITSIO_PHOT in
  set_fp_snfitsFile
    (upd (fp_snfitsFile sample_reader) ITYPE_SNFITSIO_PHOT
       (Build_fitsfile (TFIELDS fp) (TTYPE fp) (upd (TFORM fp) 3 "1B")
          (NAXIS2 fp) (CELLS fp)))
    sample_reader.





(** * Properties *)

Section Basics.

Lemma upd_eq {A : Type} (a : Z -> A) i v : upd a i v i = v.
Proof. unfold upd. now rewrite Z.eqb_refl. Qed.

Lemma upd_ne {A : Type} (a : Z -> A) i j v : j <> i -> upd a i v j = a j.
Proof. unfold upd. intros H. apply Z.eqb_neq in H. now rewrite H. Qed.

Lemma strcmp0_true a b : strcmp0 a b = true <-> a = b.
Proof. unfold strcmp0. apply String.eqb_eq. Qed.

Lemma strcmp0_false a b : strcmp0 a b = false <-> a <> b.
Proof. unfold strcmp0. apply String.eqb_neq. Qed.

Lemma strcmp0_refl a : strcmp0 a a = true.
Proof. now apply strcmp0_true. Qed.

Lemma int_cast_id z : in_int z -> int_cast z = z.
Proof.
  unfold in_int, INT_MIN, INT_MAX, int_cast, wrap. intros H.
  rewrite Z.mod_small; lia.
Qed.

Lemma short_cast_id z : in_short z -> short_cast z = z.
Proof.
  unfold in_short, short_cast, wrap. intros H.
  rewrite Z.mod_small; lia.
Qed.

Lemma int_cast_range z : in_int (int_cast z).
Proof.
  unfold in_int, INT_MIN, INT_MAX, int_cast, wrap.
  pose proof (Z.mod_pos_bound (z + 2 ^ (32 - 1)) (2 ^ 32)). lia.
Qed.

Lemma short_cast_range z : in_short (short_cast z).
Proof.
  unfold in_short, short_cast, wrap.
  pose proof (Z.mod_pos_bound (z + 2 ^ (16 - 1)) (2 ^ 16)). lia.
Qed.

(** The scan returns the first column, counted from [lo], whose name is
    [parName]. *)
Lemma IPAR_scan_Some names parName n : forall lo c,
  IPAR_scan names parName lo n = Some c ->
  lo <= c < lo + Z.of_nat n /\ names c = parName /\
  forall j, lo <= j < c -> names j <> parName.
Proof.
  induction n as [|n IH]; intros lo c; simpl; [discriminate|].
  destruct (strcmp0 (names lo) parName) eqn:E.
  - intros [= <-]. apply strcmp0_true in E. repeat split; try lia; auto.
  - intros H. apply IH in H as (Hr & Hn & Hf). apply strcmp0_false in E.
    repeat split; try lia; auto.
    intros j Hj. destruct (Z.eq_dec j lo) as [->|]; auto. apply Hf. lia.
Qed.

Lemma IPAR_scan_None names parName n : forall lo,
  IPAR_scan names parName lo n = None ->
  forall j, lo <= j < lo + Z.of_nat n -> names j <> parName.
Proof.
  induction n as [|n IH]; intros lo; simpl; [intros _ j; lia|].
  destruct (strcmp0 (names lo) parName) eqn:E; [discriminate|].
  intros H j Hj. apply strcmp0_false in E.
  destruct (Z.eq_dec j lo) as [->|]; auto. apply (IH _ H). lia.
Qed.

Lemma IPAR_scan_complete names parName n : forall lo j,
  lo <= j < lo + Z.of_nat n -> names j = parName ->
  exists c, IPAR_scan names parName lo n = Some c /\ c <= j.
Proof.
  induction n as [|n IH]; intros lo j Hj Hn; simpl; [lia|].
  destruct (strcmp0 (names lo) parName) eqn:E.
  - exists lo. split; auto. lia.
  - apply strcmp0_false in E.
    destruct (IH (lo + 1) j) as (c & Hc & Hle); auto.
    + destruct (Z.eq_dec j lo) as [->|]; [congruence|lia].
    + eauto.
Qed.

Lemma is_Ok_inv {S A} (r : result S A) :
  is_Ok r = true -> exists a s, r = Ok a s.
Proof. destruct r; [eauto | discriminate]. Qed.

Lemma is_Ok_run (m : M globals unit) g :
  is_Ok (m g) = true -> m g = Ok tt (run m g).
Proof. unfold run. destruct (m g) as [[] g'|]; [reflexivity | discriminate]. Qed.

End Basics.

Section Registry.
Context {K : constants}.

(** [IPAR_SNFITSIO] is the scan [column_of], counted once. *)
Lemma IPAR_SNFITSIO_eq OPT parName itype g :
  IPAR_SNFITSIO OPT parName itype g =
  let g1 := set_NCALL_IPAR_SNFITSIO (NCALL_IPAR_SNFITSIO g + 1) g in
  match column_of g itype parName with
  | Some c => Ok c g1
  | None =>
      if OPT =? 0 then Ok (-9) g1
      else Fatal "IPAR_SNFITSIO"
             ("Could not find IPAR for parName='" +:+ parName +:+ "'")
             ("Check parameter names in "
                +:+ snfitsFile g (IFILE_SNFITSIO g) itype +:+ " ") g1
  end.
Proof.
  unfold IPAR_SNFITSIO, column_of, bind, modify, gets, ret, errmsg_FATAL.
  cbn. destruct (IPAR_scan _ _ _ _); [reflexivity|].
  destruct (OPT =? 0); reflexivity.
Qed.

Lemma column_of_range g itype parName c :
  column_of g itype parName = Some c ->
  1 <= c <= NPAR_SNFITSIO g itype /\
  name (SNFITSIO_TABLEDEF g itype) c = parName.
Proof.
  unfold column_of, trips. intros H. apply IPAR_scan_Some in H as (Hr & Hn & _).
  split; auto. lia.
Qed.

End Registry.

Section Declare.
Context {K : constants}.

(** C9 (as the code has it): [wr_snfitsio_addCol] aborts exactly when the
    incremented column count reaches [MXPAR_SNFITSIO]; otherwise the column
    takes the next ordinal of its table kind, whatever its name, the empty
    name included, and the columns declared before are untouched. *)
Theorem addCol_next_ordinal tform name_ itype g :
  let n := int_cast (NPAR_SNFITSIO g itype + 1) in
  if MXPAR_SNFITSIO <=? n
  then fatal_in "wr_snfitsio_addCol" (wr_snfitsio_addCol tform name_ itype g)
  else exists g',
         wr_snfitsio_addCol tform name_ itype g = Ok tt g' /\
         NPAR_SNFITSIO g' itype = n /\
         name (SNFITSIO_TABLEDEF g' itype) n = name_ /\
         form (SNFITSIO_TABLEDEF g' itype) n = tform /\
         forall j, j <> n ->
           name (SNFITSIO_TABLEDEF g' itype) j
             = name (SNFITSIO_TABLEDEF g itype) j /\
           form (SNFITSIO_TABLEDEF g' itype) j
             = form (SNFITSIO_TABLEDEF g itype) j.
Proof.
  intros n. unfold wr_snfitsio_addCol, bind, modify, gets, when, ret,
    errmsg_FATAL. cbn. rewrite upd_eq. fold n.
  destruct (MXPAR_SNFITSIO <=? n) eqn:E; cbn; [reflexivity|].
  eexists; split; [reflexivity|]. cbn. rewrite !upd_eq. cbn. rewrite !upd_eq.
  repeat split; auto; rewrite upd_ne by auto; reflexivity.
Qed.

End Declare.

(** C9, counterexample: on the initial globals a column declared with the
    empty name is accepted; it becomes column 1 of the Header table. *)
Lemma addCol_accepts_empty_name :
  exists g',
    wr_snfitsio_addCol (K := sample_constants) "1J" EmptyString
      ITYPE_SNFITSIO_HEAD globals_init = Ok tt g' /\
    NPAR_SNFITSIO g' ITYPE_SNFITSIO_HEAD = 1 /\
    name (SNFITSIO_TABLEDEF g' ITYPE_SNFITSIO_HEAD) 1 = EmptyString.
Proof. eexists. split; [reflexivity|]. split; reflexivity. Qed.

(** The ordinal rule at the first declaration of the sample run. *)
Lemma addCol_next_ordinal_witness :
  exists g',
    wr_snfitsio_addCol (K := sample_constants) "16A" "SNID"
      ITYPE_SNFITSIO_HEAD globals_init = Ok tt g' /\
    NPAR_SNFITSIO g' ITYPE_SNFITSIO_HEAD = 1 /\
    name (SNFITSIO_TABLEDEF g' ITYPE_SNFITSIO_HEAD) 1 = "SNID"%string.
Proof.
  destruct (addCol_next_ordinal (K := sample_constants) "16A" "SNID"
              ITYPE_SNFITSIO_HEAD globals_init) as (g' & He & Hn & Hname & _).
  exists g'. repeat split; assumption.
Defined.

Section Mask.
Context {K : constants}.

Lemma mask_loop_valid mask n : forall lo g,
  (forall ep, lo <= ep < lo + Z.of_nat n -> mask ep = 0 \/ mask ep = 1) ->
  exists g',
    for_loop n lo (SET_RDMASK_entry mask) g = Ok tt g' /\
    NEP_RDMASK_SNFITSIO_PARVAL g' = NEP_RDMASK_SNFITSIO_PARVAL g /\
    (forall ep, lo <= ep < lo + Z.of_nat n ->
       RDMASK_SNFITSIO_PARVAL g' ep = mask ep) /\
    (forall ep, ~ lo <= ep < lo + Z.of_nat n ->
       RDMASK_SNFITSIO_PARVAL g' ep = RDMASK_SNFITSIO_PARVAL g ep).
Proof.
  induction n as [|n IH]; intros lo g Hv.
  - exists g. cbn. repeat split; auto. intros; lia.
  - cbn [for_loop]. unfold bind at 1. unfold SET_RDMASK_entry at 1.
    unfold bind, when, modify, errmsg_FATAL, ret.
    assert (Hlo : mask lo = 0 \/ mask lo = 1) by (apply Hv; lia).
    replace (negb (mask lo =? 0) && negb (mask lo =? 1)) with false
      by (destruct Hlo as [-> | ->]; reflexivity).
    destruct (IH (lo + 1)
      (set_RDMASK_SNFITSIO_PARVAL (upd (RDMASK_SNFITSIO_PARVAL g) lo (mask lo)) g))
      as (g' & He & Hn & Hin & Hout).
    { intros ep Hep. apply Hv. lia. }
    exists g'. split; [exact He|]. split; [exact Hn|]. split.
    + intros ep Hep. destruct (Z.eq_dec ep lo) as [->|Hne].
      * rewrite Hout by lia. cbn. apply upd_eq.
      * apply Hin. lia.
    + intros ep Hep. rewrite Hout by lia. cbn. apply upd_ne. lia.
Qed.

Lemma mask_loop_invalid mask n : forall lo g,
  (exists ep, lo <= ep < lo + Z.of_nat n /\ mask ep <> 0 /\ mask ep <> 1) ->
  fatal_in "SET_RDMASK_SNFITSIO" (for_loop n lo (SET_RDMASK_entry mask) g).
Proof.
  induction n as [|n IH]; intros lo g (ep & Hep & H0 & H1); [lia|].
  cbn [for_loop]. unfold bind at 1. unfold SET_RDMASK_entry at 1.
  unfold bind, when, modify, errmsg_FATAL, ret.
  destruct (negb (mask lo =? 0) && negb (mask lo =? 1)) eqn:E; [reflexivity|].
  apply IH. exists ep. repeat split; auto; try lia.
  destruct (Z.eq_dec ep lo) as [->|]; [|lia].
  apply andb_false_iff in E as [E|E]; apply negb_false_iff, Z.eqb_eq in E;
    contradiction.
Qed.

(** C10: [SET_RDMASK_SNFITSIO] aborts when [NEP] reaches [MXEPOCH]; aborts
    when one of the first [NEP] mask entries is neither 0 nor 1; with
    [NEP = 0] it only records the length 0, whatever the mask argument, and
    stores no entry; with a valid mask it stores the length and the first
    [NEP] entries. *)
Theorem SET_RDMASK_SNFITSIO_checks NEP mask g :
  (MXEPOCH <= NEP ->
     fatal_in "SET_RDMASK_SNFITSIO" (SET_RDMASK_SNFITSIO NEP mask g)) /\
  (NEP < MXEPOCH ->
     (exists ep, 0 <= ep < NEP /\ mask ep <> 0 /\ mask ep <> 1) ->
     fatal_in "SET_RDMASK_SNFITSIO" (SET_RDMASK_SNFITSIO NEP mask g)) /\
  (NEP = 0 -> 0 < MXEPOCH ->
     SET_RDMASK_SNFITSIO NEP mask g
       = Ok tt (set_NEP_RDMASK_SNFITSIO_PARVAL 0 g)) /\
  (NEP < MXEPOCH ->
     (forall ep, 0 <= ep < NEP -> mask ep = 0 \/ mask ep = 1) ->
     exists g',
       SET_RDMASK_SNFITSIO NEP mask g = Ok tt g' /\
       NEP_RDMASK_SNFITSIO_PARVAL g' = NEP /\
       forall ep, 0 <= ep < NEP -> RDMASK_SNFITSIO_PARVAL g' ep = mask ep).
Proof.
  unfold SET_RDMASK_SNFITSIO.
  repeat split.
  - intros H. unfold bind, when, errmsg_FATAL.
    apply Z.leb_le in H. rewrite H. reflexivity.
  - intros H Hbad. unfold bind at 1, when at 1, ret.
    apply Z.leb_gt in H. rewrite H. unfold bind at 1, modify at 1.
    destruct (NEP =? 0) eqn:E0.
    { apply Z.eqb_eq in E0. destruct Hbad as (ep & Hep & _). lia. }
    apply (mask_loop_invalid mask).
    destruct Hbad as (ep & Hep & Hb). exists ep. split; auto.
    unfold trips. lia.
  - intros -> H. unfold bind, when, modify, ret.
    apply Z.leb_gt in H. rewrite H. reflexivity.
  - intros H Hv. unfold bind at 1, when at 1, ret.
    apply Z.leb_gt in H. rewrite H. unfold bind at 1, modify at 1.
    destruct (NEP =? 0) eqn:E0.
    { apply Z.eqb_eq in E0. subst NEP. eexists; split; [reflexivity|].
      split; [reflexivity|]. intros; lia. }
    destruct (mask_loop_valid mask (trips 0 (NEP - 1)) 0
                (set_NEP_RDMASK_SNFITSIO_PARVAL NEP g))
      as (g' & He & Hn & Hin & _).
    { intros ep Hep. apply Hv. unfold trips in Hep. lia. }
    exists g'. split; [exact He|]. split; [exact Hn|].
    intros ep Hep. apply Hin. unfold trips. lia.
Qed.

End Mask.

(** The four cases of the mask check on the initial globals: a length
    at the bound, an entry 2, the length 0 and the mask 1,0,1. *)
Lemma SET_RDMASK_SNFITSIO_checks_witness :
  fatal_in "SET_RDMASK_SNFITSIO"
    (SET_RDMASK_SNFITSIO (K := sample_constants) 5000 (fun _ => 1)
       globals_init) /\
  fatal_in "SET_RDMASK_SNFITSIO"
    (SET_RDMASK_SNFITSIO (K := sample_constants) 3
       (fun ep => if ep =? 1 then 2 else 1) globals_init) /\
  SET_RDMASK_SNFITSIO (K := sample_constants) 0 (fun _ => 7) globals_init
    = Ok tt (set_NEP_RDMASK_SNFITSIO_PARVAL 0 globals_init) /\
  exists g',
    SET_RDMASK_SNFITSIO (K := sample_constants) 3
      (fun ep => if ep =? 1 then 0 else 1) globals_init = Ok tt g' /\
    NEP_RDMASK_SNFITSIO_PARVAL g' = 3 /\
    RDMASK_SNFITSIO_PARVAL g' 1 = 0.
Proof.
  split; [|split; [|split]].
  - destruct (SET_RDMASK_SNFITSIO_checks (K := sample_constants) 5000
                (fun _ => 1) globals_init) as (H & _).
    apply H. simpl. lia.
  - destruct (SET_RDMASK_SNFITSIO_checks (K := sample_constants) 3
                (fun ep => if ep =? 1 then 2 else 1) globals_init)
      as (_ & H & _).
    apply H; [simpl; lia|]. exists 1. simpl. lia.
  - destruct (SET_RDMASK_SNFITSIO_checks (K := sample_constants) 0
                (fun _ => 7) globals_init) as (_ & _ & H & _).
    apply H; [reflexivity|]. simpl; lia.
  - destruct (SET_RDMASK_SNFITSIO_checks (K := sample_constants) 3
                (fun ep => if ep =? 1 then 0 else 1) globals_init)
      as (_ & _ & _ & H).
    destruct H as (g' & He & Hn & Hm).
    + simpl; lia.
    + intros ep Hep. destruct (ep =? 1); auto.
    + exists g'. split; [exact He|]. split; [exact Hn|].
      apply (Hm 1). lia.
Defined.

Section Required.
Context {K : constants}.

Lemma column_of_set_IPAR g itype key :
  forall g', NPAR_SNFITSIO g' = NPAR_SNFITSIO g ->
             SNFITSIO_TABLEDEF g' = SNFITSIO_TABLEDEF g ->
             column_of g' itype key = column_of g itype key.
Proof. intros g' H1 H2. unfold column_of. now rewrite H1, H2. Qed.

Lemma bind_Ok {A B} (m : M globals A) (k : A -> M globals B) g a g1 :
  m g = Ok a g1 -> bind m k g = k a g1.
Proof. unfold bind. now intros ->. Qed.

Lemma bind_Fatal {A B} (m : M globals A) (k : A -> M globals B) g f c1 c2 g1 :
  m g = Fatal f c1 c2 g1 -> bind m k g = Fatal f c1 c2 g1.
Proof. unfold bind. now intros ->. Qed.

Lemma bind_assoc {A B C} (m : M globals A) (f : A -> M globals B)
  (k : B -> M globals C) g :
  bind (bind m f) k g = bind m (fun a => bind (f a) k) g.
Proof. unfold bind. destruct (m g); reflexivity. Qed.

Lemma column_of_same g g' itype key :
  same_tables g g' -> column_of g' itype key = column_of g itype key.
Proof. intros [H1 H2]. unfold column_of. now rewrite H1, H2. Qed.

Lemma is_missing_col g key :
  match column_of g ITYPE_SNFITSIO_HEAD key with
  | Some c => (c <? 0) = false
  | None => True
  end.
Proof.
  destruct (column_of _ _ _) eqn:E; [|exact I].
  apply column_of_range in E. apply Z.ltb_ge. lia.
Qed.

(** One lookup-and-store step of [check_required_headkeys]. *)
Lemma required_store_step g key (setter : Z -> globals -> globals) :
  (forall v h, same_tables h (setter v h) /\ STDOUT (setter v h) = STDOUT h) ->
  forall g', same_tables g g' ->
  exists g'',
    bind (IPAR_SNFITSIO 0 key ITYPE_SNFITSIO_HEAD)
      (fun i => modify (setter i)) g' = Ok tt g'' /\
    same_tables g g'' /\ STDOUT g'' = STDOUT g'.
Proof.
  intros Hs g' Hg'. unfold bind. rewrite IPAR_SNFITSIO_eq. cbv zeta.
  set (g1 := set_NCALL_IPAR_SNFITSIO _ g').
  assert (H1 : same_tables g g1) by (destruct Hg'; split; assumption).
  assert (H2 : STDOUT g1 = STDOUT g') by reflexivity.
  destruct (column_of g' _ key) as [c|]; cbn; unfold modify;
    (eexists; split; [reflexivity|]);
    match goal with |- context [setter ?v g1] =>
      destruct (Hs v g1) as [[Ha Hb] Hc] end;
    (split; [split; [rewrite Ha; apply H1 | rewrite Hb; apply H1]
            | rewrite Hc; exact H2]).
Qed.

(** The reporting loop of [check_required_headkeys], from any index. *)
Lemma required_report_loop g (REQ : Z -> string) n : forall lo NERR g',
  same_tables g g' ->
  let missing :=
    List.filter (is_missing g) (map REQ (seqZ lo (Z.of_nat n))) in
  exists g'',
    for_fold n lo (required_report REQ)
      NERR g'
    = Ok (NERR + Z.of_nat (length missing)) g'' /\
    same_tables g g'' /\
    STDOUT g'' = STDOUT g' ++ map missing_line missing.
Proof.
  induction n as [|n IH]; intros lo NERR g' Hg'.
  - cbn. exists g'. rewrite Z.add_0_r, app_nil_r. auto.
  - rewrite Nat2Z.inj_succ, seqZ_cons by lia.
    replace (Z.pred (Z.succ (Z.of_nat n))) with (Z.of_nat n) by lia.
    cbn [map for_fold]. unfold bind at 1. unfold required_report at 1.
    cbv zeta. unfold bind at 1. rewrite IPAR_SNFITSIO_eq. cbv zeta.
    rewrite (column_of_same g g') by assumption.
    set (g1 := set_NCALL_IPAR_SNFITSIO _ g').
    assert (H1 : same_tables g g1) by (destruct Hg'; split; assumption).
    cbn [List.filter].
    pose proof (is_missing_col g (REQ lo)) as Hc.
    assert (Hm : is_missing g (REQ lo)
                 = match column_of g ITYPE_SNFITSIO_HEAD (REQ lo) with
                   | Some _ => false | None => true end) by reflexivity.
    destruct (column_of g _ (REQ lo)) as [c|]; rewrite Hm.
    + cbv beta iota. rewrite Hc.
      destruct (IH (Z.succ lo) NERR g1 H1) as (g'' & He & Hs & Ho).
      replace (lo + 1) with (Z.succ lo) by lia.
      exists g''. split; [exact He|]. split; [exact Hs|]. exact Ho.
    + cbn [Z.eqb Z.ltb Z.compare]. cbv beta iota.
      unfold printf, bind, modify, ret.
      set (g2 := set_STDOUT _ g1).
      assert (H2 : same_tables g g2) by (destruct H1; split; assumption).
      destruct (IH (Z.succ lo) (NERR + 1) g2 H2) as (g'' & He & Hs & Ho).
      replace (lo + 1) with (Z.succ lo) by lia.
      exists g''. split.
      { etransitivity; [exact He|]. f_equal. cbn [length]. lia. }
      split; [exact Hs|]. rewrite Ho. subst g2 g1. cbn.
      rewrite <- app_assoc. reflexivity.
Qed.

(** One lookup-and-store step, taken on the goal. *)
Ltac store_step g Hs :=
  match goal with
  | |- context [bind (IPAR_SNFITSIO 0 ?key _)
                  (fun i => bind (modify (?setter i)) ?k) ?g0] =>
      rewrite <- (bind_assoc (IPAR_SNFITSIO 0 key ITYPE_SNFITSIO_HEAD)
                    (fun i => modify (setter i)) k g0);
      let g1 := fresh "g" in
      let He := fresh "He" in
      let Hs1 := fresh "Hs" in
      let Ho := fresh "Ho" in
      destruct (required_store_step g key setter
                  ltac:(intros; repeat split; reflexivity) g0 Hs)
        as (g1 & He & Hs1 & Ho);
      rewrite (bind_Ok _ _ _ _ _ He); clear He
  end.

(** C4: [check_required_headkeys] prints one line for every required
    column that is absent by name, all of them and in the order SNID, FAKE,
    NOBS, PTROBS_MIN, PTROBS_MAX, and only then aborts; it returns normally,
    printing nothing, exactly when none is absent. *)
Theorem check_required_headkeys_reports_all g :
  exists g',
    STDOUT g' = STDOUT g ++ map missing_line (missing_keys g) /\
    check_required_headkeys g =
      match missing_keys g with
      | [] => Ok tt g'
      | _ :: _ =>
          Fatal "check_required_headkeys"
            ("Missing " +:+ pretty (Z.of_nat (length (missing_keys g)))
               +:+ " required headers keys.")
            "See list printed avove." g'
      end.
Proof.
  unfold check_required_headkeys. cbv zeta.
  assert (Hsame : forall g0, same_tables g0 g0) by (intros; split; reflexivity).
  store_step g (Hsame g).
  repeat match goal with
         | Hs : same_tables g ?g0 |- context [bind _ _ ?g0] =>
             store_step g Hs; clear Hs
         end.
  change (MXPARREQ_SNFITSIO <=? 0 + 1 + 1 + 1 + 1 + 1) with false.
  unfold when at 1. unfold bind at 1, ret at 1.
  change (trips 1 (0 + 1 + 1 + 1 + 1 + 1)) with 5%nat.
  match goal with
  | Hs : same_tables g ?g0 |- _ =>
      destruct (required_report_loop g
                  (upd (upd (upd (upd (upd (fun _ => EmptyString) (0 + 1) "SNID")
                     (0 + 1 + 1) "FAKE") (0 + 1 + 1 + 1) "NOBS")
                     (0 + 1 + 1 + 1 + 1) "PTROBS_MIN")
                     (0 + 1 + 1 + 1 + 1 + 1) "PTROBS_MAX")
                  5 1 0 g0 Hs) as (g' & He & _ & Hout)
  end.
  change (map _ (seqZ 1 (Z.of_nat 5))) with REQUIRED in He, Hout.
  fold (missing_keys g) in He, Hout.
  exists g'. split; [congruence|].
  rewrite (bind_Ok _ _ _ _ _ He). unfold when, errmsg_FATAL, ret.
  destruct (missing_keys g) as [|k l]; [reflexivity|].
  replace (0 <? 0 + Z.of_nat (length (k :: l))) with true
    by (symmetry; apply Z.ltb_lt; cbn [length]; lia).
  reflexivity.
Qed.

End Required.

(** ** Frames *)

Section Follows.
Context (R : globals -> globals -> Prop).
Hypothesis R_refl : forall g, R g g.
Hypothesis R_trans : forall a b c, R a b -> R b c -> R a c.

Lemma follows_ret {A} (a : A) : follows R (ret a).
Proof. intros g. apply R_refl. Qed.

Lemma follows_gets {A} (h : globals -> A) : follows R (gets h).
Proof. intros g. apply R_refl. Qed.

Lemma follows_errmsg {A} a b c : follows R (@errmsg_FATAL globals A a b c).
Proof. intros g. apply R_refl. Qed.

Lemma follows_modify (h : globals -> globals) :
  (forall g, R g (h g)) -> follows R (modify h).
Proof. intros H g. apply H. Qed.

Lemma follows_bind {A B} (m : M globals A) (k : A -> M globals B) :
  follows R m -> (forall a, follows R (k a)) -> follows R (bind m k).
Proof.
  intros Hm Hk g. specialize (Hm g). unfold run, bind in *.
  destruct (m g) as [a g1|? ? ? g1]; [|exact Hm].
  specialize (Hk a g1). unfold run in Hk. eapply R_trans; eauto.
Qed.

Lemma follows_when b (m : M globals unit) :
  follows R m -> follows R (when b m).
Proof. intros H. destruct b; [exact H | apply follows_ret]. Qed.

Lemma follows_if {A} (b : bool) (m1 m2 : M globals A) :
  follows R m1 -> follows R m2 -> follows R (if b then m1 else m2).
Proof. destruct b; auto. Qed.

Lemma follows_for_loop n (body : Z -> M globals unit) :
  (forall i, follows R (body i)) ->
  forall lo, follows R (for_loop n lo body).
Proof.
  intros Hb. induction n as [|n IH]; intros lo; cbn [for_loop].
  - apply follows_ret.
  - apply follows_bind; [apply Hb | intros _; apply IH].
Qed.

Lemma follows_for_fold {A} n (body : Z -> A -> M globals A) :
  (forall i a, follows R (body i a)) ->
  forall lo a, follows R (for_fold n lo body a).
Proof.
  intros Hb. induction n as [|n IH]; intros lo a; cbn [for_fold].
  - apply follows_ret.
  - apply follows_bind; [apply Hb | intros a'; apply IH].
Qed.

End Follows.

Lemma follows_weaken {A} (R R' : globals -> globals -> Prop) (m : M globals A) :
  (forall g g', R g g' -> R' g g') -> follows R m -> follows R' m.
Proof. intros H Hm g. apply H, Hm. Qed.

Lemma run_bind {A B} (m : M globals A) (k : A -> M globals B) g :
  run (bind m k) g =
  match m g with
  | Ok a g1 => run (k a) g1
  | Fatal _ _ _ g1 => g1
  end.
Proof. unfold run, bind. destruct (m g); reflexivity. Qed.

Lemma run_Ok {A} (m : M globals A) g a g' : m g = Ok a g' -> run m g = g'.
Proof. unfold run. now intros ->. Qed.

Lemma wr_frame_refl itype g : wr_frame itype g g.
Proof. repeat split. Qed.

Lemma wr_frame_trans itype a b c :
  wr_frame itype a b -> wr_frame itype b c -> wr_frame itype a c.
Proof.
  intros (H1 & H2 & H3 & H4 & H5) (H1' & H2' & H3' & H4' & H5').
  split; [congruence|]. split; [|repeat split; congruence].
  intros t Ht. destruct (H2 t Ht) as [Ha Hb], (H2' t Ht) as [Ha' Hb'].
  split; congruence.
Qed.

Lemma row_frame_refl itype g : row_frame itype g g.
Proof. split; [apply wr_frame_refl | reflexivity]. Qed.

Lemma row_frame_trans itype a b c :
  row_frame itype a b -> row_frame itype b c -> row_frame itype a c.
Proof.
  intros [H1 H2] [H1' H2']. split; [eapply wr_frame_trans; eauto | congruence].
Qed.

Lemma keeps_refl t g : keeps t g g.
Proof. repeat split. Qed.

Lemma keeps_trans t a b c : keeps t a b -> keeps t b c -> keeps t a c.
Proof. intros (H1 & H2 & H3) (H1' & H2' & H3'). repeat split; congruence. Qed.

Lemma wr_frame_keeps itype t g g' :
  t <> itype -> wr_frame itype g g' -> keeps t g g'.
Proof.
  intros Ht (H1 & H2 & _). destruct (H2 t Ht). repeat split; assumption.
Qed.

Create HintDb frames.
#[local] Hint Resolve wr_frame_refl wr_frame_trans row_frame_refl
  row_frame_trans keeps_refl keeps_trans : frames.

(** Splits a goal [follows R m] along the structure of [m]; [leaf] closes
    the calls and assignments it arrives at. *)
Ltac follows_go leaf :=
  repeat
    lazymatch goal with
    | |- follows _ (ret _) => solve [apply follows_ret; auto with frames]
    | |- follows _ (gets _) => solve [apply follows_gets; auto with frames]
    | |- follows _ (errmsg_FATAL _ _ _) =>
        solve [apply follows_errmsg; auto with frames]
    | |- follows _ (bind _ _) =>
        apply follows_bind; [solve [eauto with frames] | | intros ?]
    | |- follows _ (when _ _) =>
        apply follows_when; [solve [auto with frames] |]
    | |- follows _ (if _ then _ else _) => apply follows_if
    | |- follows _ (for_loop _ _ _) =>
        apply follows_for_loop;
          [solve [auto with frames] | solve [eauto with frames] | intros ?]
    | |- follows _ (for_fold _ _ _ _) =>
        apply follows_for_fold;
          [solve [auto with frames] | solve [eauto with frames] | intros ? ?]
    | |- follows _ (match ?x with _ => _ end) => destruct x
    | |- follows _ _ => solve [leaf]
    end.

Section Fill.
Context {K : constants}.

(** [wr_snfitsio_fillTable] once the column is known: one cell built by the
    column's form, refused if blank, stored at the current row. *)
Lemma fillTable_colnum_eq colnum parName itype g :
  fillTable_colnum colnum parName itype g =
  let tv := WR_SNFITSIO_TABLEVAL g itype in
  let tform := form (SNFITSIO_TABLEDEF g itype) colnum in
  match cell_by_form tform tv with
  | None =>
      Fatal "wr_snfitsio_fillTable"
        ("Unrecognized Form = '" +:+ tform +:+ "' for param='" +:+ parName
           +:+ "' ")
        "Check valid forms in cfitsio guide." g
  | Some x =>
      if blank_cell x && negb (strcmp0 parName "SUBSURVEY") then
        Fatal "wr_snfitsio_fillTable"
          ("Cannot write " +:+ parName +:+ "='' (blank string)")
          ("to colnum=" +:+ pretty colnum +:+ " of table="
             +:+ snfitsType itype) g
      else
        let r := fits_write_col (fp_snfitsFile g itype) colnum (NROW tv) x in
        let g' := set_fp_snfitsFile (upd (fp_snfitsFile g) itype (fst r)) g in
        if snd r =? 0 then Ok tt g'
        else Fatal "snfitsio_errorCheck"
               ("fits_write_col for " +:+ snfitsType itype +:+ "-param: "
                  +:+ parName)
               "Check cfitsio routines." g'
  end.
Proof.
  unfold fillTable_colnum, cell_by_form, snfitsio_errorCheck,
    fits_write_col_M, bind, gets, when, ret, errmsg_FATAL. cbv zeta.
  set (tform := form (SNFITSIO_TABLEDEF g itype) colnum).
  set (tv := WR_SNFITSIO_TABLEVAL g itype).
  destruct (strcmp0 (lastchar tform) "A").
  { cbn [blank_cell].
    destruct ((strlen (value_A tv) =? 0) && negb (strcmp0 parName "SUBSURVEY"));
      [reflexivity|].
    destruct (fits_write_col _ _ _ _) as [fp istat]. cbn [fst snd].
    destruct (istat =? 0); reflexivity. }
  repeat match goal with
         | |- context [if strcmp0 tform ?s then _ else _] =>
             destruct (strcmp0 tform s);
               [cbn [blank_cell andb];
                destruct (fits_write_col _ _ _ _) as [fp istat]; cbn [fst snd];
                destruct (istat =? 0); reflexivity|]
         end.
  reflexivity.
Qed.

(** [wr_snfitsio_fillTable]: the column is the cached one, or is searched
    for by name and cached. *)
Lemma wr_snfitsio_fillTable_eq COLNUM parName itype g :
  wr_snfitsio_fillTable COLNUM parName itype g =
  if deref_COLNUM COLNUM g <? 0 then
    let g1 := set_NCALL_IPAR_SNFITSIO (NCALL_IPAR_SNFITSIO g + 1) g in
    match column_of g itype parName with
    | Some c => fillTable_colnum c parName itype (assign_COLNUM COLNUM c g1)
    | None =>
        Fatal "IPAR_SNFITSIO"
          ("Could not find IPAR for parName='" +:+ parName +:+ "'")
          ("Check parameter names in "
             +:+ snfitsFile g (IFILE_SNFITSIO g) itype +:+ " ") g1
    end
  else fillTable_colnum (deref_COLNUM COLNUM g) parName itype g.
Proof.
  unfold wr_snfitsio_fillTable. unfold bind at 1, gets at 1.
  destruct (deref_COLNUM COLNUM g <? 0).
  - unfold bind at 1. unfold bind at 1. rewrite IPAR_SNFITSIO_eq. cbv zeta.
    destruct (column_of g itype parName) as [c|]; [|reflexivity].
    cbn [Z.eqb]. unfold modify, bind, gets.
    replace (deref_COLNUM COLNUM (assign_COLNUM COLNUM c _)) with c;
      [reflexivity|].
    unfold deref_COLNUM, assign_COLNUM. cbn. rewrite upd_eq. cbn.
    now rewrite upd_eq.
  - reflexivity.
Qed.

(** Closes [row_frame itype g g'] and the like for a [g'] that is [g] with
    fields assigned. *)
Ltac frame_solve :=
  unfold row_frame, wr_frame, keeps; cbn;
  repeat match goal with
         | |- _ /\ _ => split
         | |- forall _, _ => intros
         end;
  rewrite ?upd_eq; try rewrite !upd_ne by congruence; try reflexivity.

Lemma follows_IPAR_SNFITSIO R OPT parName itype :
  (forall g, R g g) -> (forall a b c, R a b -> R b c -> R a c) ->
  (forall g v, R g (set_NCALL_IPAR_SNFITSIO v g)) ->
  follows R (IPAR_SNFITSIO OPT parName itype).
Proof.
  intros Hr Ht H. unfold IPAR_SNFITSIO.
  apply follows_bind; [exact Ht | apply follows_modify; intros; apply H|].
  intros _. apply follows_bind; [exact Ht | now apply follows_gets|].
  intros NPAR. apply follows_bind; [exact Ht | now apply follows_gets|].
  intros names. destruct (IPAR_scan _ _ _ _); [now apply follows_ret|].
  apply follows_if; [now apply follows_ret|].
  apply follows_bind; [exact Ht | now apply follows_gets|].
  intros file. now apply follows_errmsg.
Qed.

Lemma row_frame_IPAR_SNFITSIO itype OPT parName t :
  follows (row_frame itype) (IPAR_SNFITSIO OPT parName t).
Proof.
  apply follows_IPAR_SNFITSIO; eauto with frames. intros. frame_solve.
Qed.

Lemma row_frame_stage itype v : follows (row_frame itype) (stage itype v).
Proof.
  apply follows_modify. intros g. frame_solve. destruct v; reflexivity.
Qed.

Lemma row_frame_assign_COLNUM itype L c g :
  row_frame itype g (assign_COLNUM (itype, L) c g).
Proof. unfold assign_COLNUM. frame_solve. Qed.

Lemma row_frame_fits_write_col_M itype colnum firstrow x :
  follows (row_frame itype) (fits_write_col_M itype colnum firstrow x).
Proof.
  intros g. unfold run, fits_write_col_M, fits_write_col.
  destruct (negb _); [frame_solve|]. destruct (negb _); frame_solve.
Qed.

Lemma row_frame_fillTable_colnum itype colnum parName :
  follows (row_frame itype) (fillTable_colnum colnum parName itype).
Proof.
  unfold fillTable_colnum, snfitsio_errorCheck.
  follows_go ltac:(apply row_frame_fits_write_col_M).
Qed.

Lemma row_frame_fillTable itype L parName :
  follows (row_frame itype) (wr_snfitsio_fillTable (itype, L) parName itype).
Proof.
  unfold wr_snfitsio_fillTable.
  follows_go ltac:(idtac; lazymatch goal with
    | |- follows _ (IPAR_SNFITSIO _ _ _) => apply row_frame_IPAR_SNFITSIO
    | |- follows _ (fillTable_colnum _ _ _) => apply row_frame_fillTable_colnum
    | |- follows _ (modify _) =>
        apply follows_modify; intros g; apply row_frame_assign_COLNUM
    end).
Qed.

Lemma row_frame_fill_field itype LOC f :
  follows (row_frame itype) (fill_field itype LOC f).
Proof.
  unfold fill_field.
  follows_go ltac:(idtac; lazymatch goal with
    | |- follows _ (stage _ _) => apply row_frame_stage
    | |- follows _ (wr_snfitsio_fillTable _ _ _) => apply row_frame_fillTable
    end).
Qed.

Lemma row_frame_fill_fields itype fs : forall LOC,
  follows (row_frame itype) (fill_fields itype LOC fs).
Proof.
  induction fs as [|f fs IH]; intros LOC; cbn [fill_fields];
    follows_go ltac:(idtac; lazymatch goal with
      | |- follows _ (fill_field _ _ _) => apply row_frame_fill_field
      | |- follows _ (fill_fields _ _ _) => apply IH
      end).
Qed.

Lemma row_frame_check_required_headkeys :
  follows (row_frame ITYPE_SNFITSIO_HEAD) check_required_headkeys.
Proof.
  unfold check_required_headkeys, required_report, printf. cbv zeta.
  follows_go ltac:(idtac; lazymatch goal with
    | |- follows _ (IPAR_SNFITSIO _ _ _) => apply row_frame_IPAR_SNFITSIO
    | |- follows _ (modify _) => apply follows_modify; intros; frame_solve
    end).
Qed.

Lemma wr_frame_NROW_incr itype : follows (wr_frame itype) (NROW_incr itype).
Proof. apply follows_modify. intros g. frame_solve. Qed.

Lemma NROW_NROW_incr itype g :
  NROW (WR_SNFITSIO_TABLEVAL (run (NROW_incr itype) g) itype)
  = int_cast (NROW (WR_SNFITSIO_TABLEVAL g itype) + 1).
Proof. cbn. now rewrite upd_eq. Qed.

Lemma wr_rest_SNDATA g g' : wr_rest g' = wr_rest g -> SNDATA g' = SNDATA g.
Proof. intros H. exact (f_equal SNDATA H). Qed.

Lemma wr_rest_flags g g' :
  wr_rest g' = wr_rest g ->
  SNFITSIO_SIMFLAG_SPECTROGRAPH g' = SNFITSIO_SIMFLAG_SPECTROGRAPH g /\
  SNFITSIO_SIMFLAG_SNANA g' = SNFITSIO_SIMFLAG_SNANA g /\
  GENSPEC g' = GENSPEC g.
Proof.
  intros H. repeat split.
  - exact (f_equal SNFITSIO_SIMFLAG_SPECTROGRAPH H).
  - exact (f_equal SNFITSIO_SIMFLAG_SNANA H).
  - exact (f_equal GENSPEC H).
Qed.

Lemma wr_rest_tables g g' : wr_rest g' = wr_rest g -> same_tables g g'.
Proof.
  intros H. split.
  - exact (f_equal NPAR_SNFITSIO H).
  - exact (f_equal SNFITSIO_TABLEDEF H).
Qed.

Lemma row_frame_wr_frame itype g g' : row_frame itype g g' -> wr_frame itype g g'.
Proof. now intros [H _]. Qed.

(** Caching a column number touches nothing but [COLNUM_LOOKUP]. *)
Lemma WR_assign_COLNUM COLNUM c g itype :
  let t := WR_SNFITSIO_TABLEVAL (assign_COLNUM COLNUM c g) itype in
  let t0 := WR_SNFITSIO_TABLEVAL g itype in
  NROW t = NROW t0 /\ value_A t = value_A t0 /\ value_1D t = value_1D t0 /\
  value_1E t = value_1E t0 /\ value_1J t = value_1J t0 /\
  value_1I t = value_1I t0 /\ value_1K t = value_1K t0.
Proof.
  unfold assign_COLNUM. cbn. unfold upd.
  destruct (itype =? COLNUM.1) eqn:E; [|repeat split].
  apply Z.eqb_eq in E. subst. repeat split.
Qed.

Lemma cell_by_form_assign COLNUM c g itype tform :
  cell_by_form tform (WR_SNFITSIO_TABLEVAL (assign_COLNUM COLNUM c g) itype)
  = cell_by_form tform (WR_SNFITSIO_TABLEVAL g itype).
Proof.
  destruct (WR_assign_COLNUM COLNUM c g itype) as (_ & HA & HD & HE & HJ & HI & HK).
  unfold cell_by_form. now rewrite HA, HD, HE, HJ, HI, HK.
Qed.

(** C6: a write to a string column (form ending in [A]) with the empty
    string staged aborts in [wr_snfitsio_fillTable] and stores nothing,
    unless the parameter name is exactly SUBSURVEY, for which the empty
    string is stored at the current row of the column. *)
Theorem fillTable_blank_string COLNUM parName itype g c :
  resolve g COLNUM parName itype = Some c ->
  strcmp0 (lastchar (form (SNFITSIO_TABLEDEF g itype) c)) "A" = true ->
  value_A (WR_SNFITSIO_TABLEVAL g itype) = EmptyString ->
  let r := wr_snfitsio_fillTable COLNUM parName itype g in
  let row := NROW (WR_SNFITSIO_TABLEVAL g itype) in
  if strcmp0 parName "SUBSURVEY" then
    1 <= c <= TFIELDS (fp_snfitsFile g itype) -> 1 <= row ->
    exists g',
      r = Ok tt g' /\
      CELLS (fp_snfitsFile g' itype) !! (c, row) = Some (TSTRING EmptyString)
  else
    fatal_in "wr_snfitsio_fillTable" r /\
    fp_snfitsFile (run (wr_snfitsio_fillTable COLNUM parName itype) g)
      = fp_snfitsFile g.
Proof.
  intros Hres HA Hblank r row. subst r. unfold run.
  rewrite wr_snfitsio_fillTable_eq. unfold resolve in Hres.
  assert (Hcol : forall g1,
    SNFITSIO_TABLEDEF g1 = SNFITSIO_TABLEDEF g ->
    fp_snfitsFile g1 = fp_snfitsFile g ->
    cell_by_form (form (SNFITSIO_TABLEDEF g itype) c)
      (WR_SNFITSIO_TABLEVAL g1 itype) = Some (TSTRING EmptyString) ->
    NROW (WR_SNFITSIO_TABLEVAL g1 itype) = row ->
    if strcmp0 parName "SUBSURVEY" then
      1 <= c <= TFIELDS (fp_snfitsFile g itype) -> 1 <= row ->
      exists g',
        fillTable_colnum c parName itype g1 = Ok tt g' /\
        CELLS (fp_snfitsFile g' itype) !! (c, row)
          = Some (TSTRING EmptyString)
    else
      fatal_in "wr_snfitsio_fillTable" (fillTable_colnum c parName itype g1) /\
      fp_snfitsFile
        match fillTable_colnum c parName itype g1 with
        | Ok _ g' => g'
        | Fatal _ _ _ g' => g'
        end = fp_snfitsFile g).
  { intros g1 Ht Hfp Hc Hrow. rewrite fillTable_colnum_eq. cbv zeta.
    rewrite Ht, Hc, Hfp, Hrow. cbn [blank_cell strlen String.length Z.of_nat Z.eqb andb].
    destruct (strcmp0 parName "SUBSURVEY"); cbn [negb].
    - intros Hc1 Hr1. unfold fits_write_col.
      replace ((1 <=? c) && (c <=? TFIELDS (fp_snfitsFile g itype))) with true
        by (symmetry; apply andb_true_iff; split; apply Z.leb_le; lia).
      replace (1 <=? row) with true by (symmetry; apply Z.leb_le; lia).
      cbn. eexists; split; [reflexivity|]. cbn. rewrite upd_eq. cbn.
      apply lookup_insert_eq.
    - split; [reflexivity | exact Hfp]. }
  assert (HcA : cell_by_form (form (SNFITSIO_TABLEDEF g itype) c)
                  (WR_SNFITSIO_TABLEVAL g itype) = Some (TSTRING EmptyString)).
  { unfold cell_by_form. now rewrite HA, Hblank. }
  destruct (deref_COLNUM COLNUM g <? 0).
  - cbv zeta. rewrite Hres.
    apply Hcol; try reflexivity.
    + rewrite cell_by_form_assign. exact HcA.
    + etransitivity; [apply (WR_assign_COLNUM COLNUM c _ itype)|reflexivity].
  - injection Hres as ->. apply Hcol; auto.
Qed.

End Fill.

(** The blank sub-survey name of the sample record is stored in column 1
    of the first Header row; a blank SNID is refused. *)
Lemma fillTable_blank_string_witness :
  (exists g',
     wr_snfitsio_fillTable (K := sample_constants) (ITYPE_SNFITSIO_HEAD, 1)
       "SUBSURVEY" ITYPE_SNFITSIO_HEAD sample_writer_row1 = Ok tt g' /\
     CELLS (fp_snfitsFile g' ITYPE_SNFITSIO_HEAD) !! (1, 1)
       = Some (TSTRING EmptyString)) /\
  fatal_in "wr_snfitsio_fillTable"
    (wr_snfitsio_fillTable (K := sample_constants) (ITYPE_SNFITSIO_HEAD, 2)
       "SNID" ITYPE_SNFITSIO_HEAD sample_writer_row1).
Proof.
  split.
  - apply (fillTable_blank_string (K := sample_constants)
             (ITYPE_SNFITSIO_HEAD, 1) "SUBSURVEY" ITYPE_SNFITSIO_HEAD
             sample_writer_row1 1);
      [reflexivity | reflexivity | reflexivity | vm_compute; split; congruence
      | vm_compute; congruence].
  - apply (fillTable_blank_string (K := sample_constants)
             (ITYPE_SNFITSIO_HEAD, 2) "SNID" ITYPE_SNFITSIO_HEAD
             sample_writer_row1 2); reflexivity.
Defined.

Section Cells.
Context {K : constants}.

Lemma cell_by_form_agrees tform v g itype :
  form_agrees tform v = true ->
  cell_by_form tform (staged_tv g itype v) = Some (cell_of v).
Proof.
  unfold form_agrees, cell_by_form, staged_tv.
  destruct v; cbn; intros H;
    try (apply andb_true_iff in H as [H1 H2]; apply negb_true_iff in H1;
         rewrite H1; apply strcmp0_true in H2; subst tform; reflexivity).
  now rewrite H.
Qed.

Lemma cell_by_form_values tform t t' :
  value_A t' = value_A t -> value_1D t' = value_1D t ->
  value_1E t' = value_1E t -> value_1J t' = value_1J t ->
  value_1I t' = value_1I t -> value_1K t' = value_1K t ->
  cell_by_form tform t' = cell_by_form tform t.
Proof. unfold cell_by_form. now intros -> -> -> -> -> ->. Qed.

(** [wr_snfitsio_fillTable] on a known column, when it returns: the cell
    is within the table and stored at the current row. *)
Lemma fillTable_colnum_Ok c parName itype g g' x :
  fillTable_colnum c parName itype g = Ok tt g' ->
  cell_by_form (form (SNFITSIO_TABLEDEF g itype) c)
    (WR_SNFITSIO_TABLEVAL g itype) = Some x ->
  let fp := fp_snfitsFile g itype in
  let row := NROW (WR_SNFITSIO_TABLEVAL g itype) in
  1 <= c <= TFIELDS fp /\ 1 <= row /\
  g' = set_fp_snfitsFile
         (upd (fp_snfitsFile g) itype
            (Build_fitsfile (TFIELDS fp) (TTYPE fp) (TFORM fp)
               (Z.max (NAXIS2 fp) row) (<[(c, row) := x]> (CELLS fp)))) g.
Proof.
  rewrite fillTable_colnum_eq. cbv zeta. intros H Hx. rewrite Hx in H.
  destruct (blank_cell x && _); [discriminate|].
  unfold fits_write_col in H.
  destruct ((1 <=? c) && (c <=? TFIELDS (fp_snfitsFile g itype))) eqn:Ec;
    cbn [negb fst snd Z.eqb] in H; [|discriminate].
  destruct (1 <=? NROW (WR_SNFITSIO_TABLEVAL g itype)) eqn:Er;
    cbn [negb fst snd Z.eqb] in H; [|discriminate].
  injection H as <-. apply andb_true_iff in Ec as [E1 E2].
  apply Z.leb_le in E1, E2, Er. repeat split; assumption.
Qed.

Lemma stage_eq itype v g :
  stage itype v g
  = Ok tt (set_WR_SNFITSIO_TABLEVAL
             (upd (WR_SNFITSIO_TABLEVAL g) itype (staged_tv g itype v)) g).
Proof. unfold stage, modify, staged_tv. destruct v; reflexivity. Qed.

Lemma staged_tv_proj g itype v :
  NROW (staged_tv g itype v) = NROW (WR_SNFITSIO_TABLEVAL g itype) /\
  COLNUM_LOOKUP (staged_tv g itype v)
    = COLNUM_LOOKUP (WR_SNFITSIO_TABLEVAL g itype).
Proof. unfold staged_tv. destruct v; split; reflexivity. Qed.

(** One staged write, when it returns and the cache entry and the column
    form are right: the value is stored as [cell_of] says, in the column
    declared under the field's name, which is now cached. *)
Lemma fill_field_Ok itype LOC n v g LOC' g' :
  fill_field itype LOC (n, v) g = Ok LOC' g' ->
  0 <= LOC < INT_MAX ->
  cache_ok g itype LOC [n] = true ->
  field_ok g itype (n, v) = true ->
  LOC' = LOC + 1 /\
  exists c,
    column_of g itype n = Some c /\
    let row := NROW (WR_SNFITSIO_TABLEVAL g itype) in
    CELLS (fp_snfitsFile g' itype)
      = <[(c, row) := cell_of v]> (CELLS (fp_snfitsFile g itype)) /\
    NAXIS2 (fp_snfitsFile g' itype)
      = Z.max (NAXIS2 (fp_snfitsFile g itype)) row /\
    1 <= row /\ 1 <= c <= TFIELDS (fp_snfitsFile g itype) /\
    (forall j, COLNUM_LOOKUP (WR_SNFITSIO_TABLEVAL g' itype) j
               = if j =? LOC + 1 then c
                 else COLNUM_LOOKUP (WR_SNFITSIO_TABLEVAL g itype) j).
Proof.
  intros H HL Hc Hf. unfold fill_field in H. cbv zeta in H.
  cbn [fst snd] in H.
  rewrite int_cast_id in H by (unfold in_int, INT_MIN, INT_MAX in *; lia).
  unfold bind at 1 in H. rewrite stage_eq in H.
  set (gs := set_WR_SNFITSIO_TABLEVAL _ g) in H.
  unfold bind at 1 in H.
  destruct (wr_snfitsio_fillTable _ n itype gs) as [[] g1|] eqn:E;
    [|discriminate].
  injection H as <- <-. split; [reflexivity|].
  rewrite wr_snfitsio_fillTable_eq in E.
  destruct (staged_tv_proj g itype v) as [HsN HsC].
  assert (Hgs : WR_SNFITSIO_TABLEVAL gs itype = staged_tv g itype v)
    by (subst gs; cbn; apply upd_eq).
  assert (Hd : deref_COLNUM (itype, LOC + 1) gs
               = COLNUM_LOOKUP (WR_SNFITSIO_TABLEVAL g itype) (LOC + 1)).
  { unfold deref_COLNUM. cbn [fst snd]. now rewrite Hgs, HsC. }
  rewrite Hd in E.
  change (column_of gs itype n) with (column_of g itype n) in E.
  cbn [cache_ok] in Hc. rewrite andb_true_r in Hc.
  unfold field_ok in Hf. cbn [fst snd] in Hf.
  (* both ways of finding the column end in the same write *)
  assert (Hw : forall c g2,
    column_of g itype n = Some c ->
    fillTable_colnum c n itype g2 = Ok tt g1 ->
    SNFITSIO_TABLEDEF g2 = SNFITSIO_TABLEDEF g ->
    fp_snfitsFile g2 = fp_snfitsFile g ->
    (NROW (WR_SNFITSIO_TABLEVAL g2 itype)
       = NROW (WR_SNFITSIO_TABLEVAL g itype) /\
     cell_by_form (form (SNFITSIO_TABLEDEF g itype) c)
       (WR_SNFITSIO_TABLEVAL g2 itype) = Some (cell_of v)) ->
    (forall j, COLNUM_LOOKUP (WR_SNFITSIO_TABLEVAL g2 itype) j
               = if j =? LOC + 1 then c
                 else COLNUM_LOOKUP (WR_SNFITSIO_TABLEVAL g itype) j) ->
    exists c0,
      column_of g itype n = Some c0 /\
      CELLS (fp_snfitsFile g1 itype)
        = <[(c0, NROW (WR_SNFITSIO_TABLEVAL g itype)) := cell_of v]>
            (CELLS (fp_snfitsFile g itype)) /\
      NAXIS2 (fp_snfitsFile g1 itype)
        = Z.max (NAXIS2 (fp_snfitsFile g itype))
            (NROW (WR_SNFITSIO_TABLEVAL g itype)) /\
      1 <= NROW (WR_SNFITSIO_TABLEVAL g itype) /\
      1 <= c0 <= TFIELDS (fp_snfitsFile g itype) /\
      (forall j, COLNUM_LOOKUP (WR_SNFITSIO_TABLEVAL g1 itype) j
                 = if j =? LOC + 1 then c0
                   else COLNUM_LOOKUP (WR_SNFITSIO_TABLEVAL g itype) j)).
  { intros c g2 Hcol Hfill Ht Hfp [Hrow Hcell] Hcache.
    apply (fillTable_colnum_Ok _ _ _ _ _ (cell_of v)) in Hfill;
      [|rewrite Ht; exact Hcell].
    cbv zeta in Hfill. rewrite Hfp, Hrow in Hfill.
    destruct Hfill as (Hc1 & Hr1 & ->).
    exists c. split; [exact Hcol|]. cbn. rewrite upd_eq. cbn.
    repeat split; try assumption; try lia. }
  destruct (COLNUM_LOOKUP (WR_SNFITSIO_TABLEVAL g itype) (LOC + 1) <? 0)
    eqn:Eneg.
  - cbv zeta in E. destruct (column_of g itype n) as [c|] eqn:Ecol;
      [|discriminate].
    apply (Hw c _ eq_refl E); try reflexivity.
    + split.
      * etransitivity;
          [apply (WR_assign_COLNUM (itype, LOC + 1) c _ itype)|].
        change (NROW (WR_SNFITSIO_TABLEVAL gs itype)
                = NROW (WR_SNFITSIO_TABLEVAL g itype)).
        now rewrite Hgs.
      * rewrite cell_by_form_assign.
        change (cell_by_form (form (SNFITSIO_TABLEDEF g itype) c)
                  (WR_SNFITSIO_TABLEVAL gs itype) = Some (cell_of v)).
        rewrite Hgs. now apply cell_by_form_agrees.
    + intros j. unfold assign_COLNUM. cbn. rewrite upd_eq. cbn.
      rewrite upd_eq. rewrite HsC. reflexivity.
  - cbn [orb] in Hc.
    destruct (column_of g itype n) as [c|] eqn:Ecol; [|discriminate].
    apply Z.eqb_eq in Hc. rewrite Hc in E.
    apply (Hw c _ eq_refl E); try reflexivity.
    + split; [now rewrite Hgs|]. rewrite Hgs. now apply cell_by_form_agrees.
    + intros j. rewrite Hgs, HsC. destruct (j =? LOC + 1) eqn:Ej; [|reflexivity].
      apply Z.eqb_eq in Ej. now subst j.
Qed.

Lemma cache_ok_ext g g' itype names : forall LOC,
  same_tables g g' ->
  (forall j, LOC < j <= LOC + Z.of_nat (length names) ->
     COLNUM_LOOKUP (WR_SNFITSIO_TABLEVAL g' itype) j
     = COLNUM_LOOKUP (WR_SNFITSIO_TABLEVAL g itype) j) ->
  cache_ok g' itype LOC names = cache_ok g itype LOC names.
Proof.
  induction names as [|n ns IH]; intros LOC Hs Hj; [reflexivity|].
  cbn [cache_ok length] in *. rewrite (column_of_same g g') by assumption.
  rewrite Hj by lia. f_equal. apply IH; [assumption|].
  intros j H. apply Hj. lia.
Qed.

Lemma schema_ok_ext g g' itype fs :
  same_tables g g' -> schema_ok g' itype fs = schema_ok g itype fs.
Proof.
  intros Hs. unfold schema_ok.
  induction fs as [|f fs IH]; [reflexivity|]. cbn [forallb]. rewrite IH.
  f_equal. unfold field_ok.
  rewrite (column_of_same g g') by assumption. destruct Hs as [_ ->].
  reflexivity.
Qed.

Lemma fill_cells_ext g g' itype row fs : forall m,
  same_tables g g' -> fill_cells g' itype row fs m = fill_cells g itype row fs m.
Proof.
  induction fs as [|f fs IH]; intros m Hs; [reflexivity|].
  cbn [fill_cells]. rewrite (column_of_same g g') by assumption. now apply IH.
Qed.

Lemma row_frame_tables itype g g' : row_frame itype g g' -> same_tables g g'.
Proof. intros [[H _] _]. now apply wr_rest_tables. Qed.

(** A run of staged writes, when it returns: the row holds the cells of
    the fields, the cache holds their columns. *)
Lemma fill_fields_Ok itype fs : forall LOC g LOC' g',
  fill_fields itype LOC fs g = Ok LOC' g' ->
  0 <= LOC -> LOC + Z.of_nat (length fs) <= INT_MAX ->
  cache_ok g itype LOC (map fst fs) = true ->
  schema_ok g itype fs = true ->
  let row := NROW (WR_SNFITSIO_TABLEVAL g itype) in
  let fp := fp_snfitsFile g itype in
  LOC' = LOC + Z.of_nat (length fs) /\
  CELLS (fp_snfitsFile g' itype) = fill_cells g itype row fs (CELLS fp) /\
  NAXIS2 (fp_snfitsFile g' itype)
    = match fs with [] => NAXIS2 fp | _ :: _ => Z.max (NAXIS2 fp) row end /\
  (forall j, ~ LOC < j <= LOC + Z.of_nat (length fs) ->
     COLNUM_LOOKUP (WR_SNFITSIO_TABLEVAL g' itype) j
     = COLNUM_LOOKUP (WR_SNFITSIO_TABLEVAL g itype) j) /\
  cache_ok g' itype LOC (map fst fs) = true /\
  Forall (fun f => exists c, column_of g itype (fst f) = Some c) fs /\
  row_frame itype g g'.
Proof.
  induction fs as [|[n v] fs IH]; intros LOC g LOC' g' H HL Hlen Hc Hs row fp.
  - injection H as <- <-. cbn. repeat split; try lia. constructor.
  - cbn [fill_fields] in H. unfold bind at 1 in H.
    pose proof (row_frame_fill_field itype LOC (n, v) g) as HF.
    destruct (fill_field itype LOC (n, v) g) as [L1 g1|] eqn:E1;
      [|discriminate].
    rewrite (run_Ok _ _ _ _ E1) in HF.
    cbn [map fst cache_ok] in Hc. apply andb_true_iff in Hc as [Hc1 Hc2].
    cbn [schema_ok forallb] in Hs. apply andb_true_iff in Hs as [Hs1 Hs2].
    cbn [length] in Hlen.
    apply fill_field_Ok in E1;
      [|unfold INT_MAX in *; lia
       |cbn [cache_ok]; now rewrite Hc1
       |exact Hs1].
    destruct E1 as (-> & c & Hcol & Hcells & Hnax & Hrow & Hcr & Hcache).
    pose proof (row_frame_tables _ _ _ HF) as Ht.
    destruct HF as [HFw HFn].
    apply IH in H; try lia.
    + cbv zeta in H. rewrite HFn in H.
      destruct H as (-> & Hcells' & Hnax' & Hcache' & Hok' & Hex' & HF').
      split; [cbn [length]; lia|].
      split.
      { rewrite Hcells', Hcells. cbn [fill_cells fst snd]. rewrite Hcol.
        now apply fill_cells_ext. }
      split.
      { rewrite Hnax', Hnax. destruct fs; [reflexivity|]. fold row fp. lia. }
      split.
      { intros j Hj. rewrite Hcache' by (cbn [length] in Hj; lia).
        rewrite Hcache. destruct (j =? LOC + 1) eqn:Ej; [|reflexivity].
        apply Z.eqb_eq in Ej. cbn [length] in Hj. lia. }
      split.
      { cbn [map fst cache_ok]. rewrite Hok', andb_true_r.
        rewrite Hcache' by lia. rewrite Hcache, Z.eqb_refl.
        rewrite (column_of_same g g')
          by (eapply row_frame_tables, row_frame_trans;
              [split; eassumption | exact HF']).
        rewrite Hcol, Z.eqb_refl. apply orb_true_r. }
      split.
      { constructor; [exists c; exact Hcol|].
        eapply Forall_impl; [exact Hex'|]. intros f [c' Hc'].
        exists c'. now rewrite <- (column_of_same g g1). }
      eapply row_frame_trans; [split; eassumption | exact HF'].
    + rewrite <- Hc2. apply cache_ok_ext; [assumption|].
      intros j Hj. rewrite Hcache.
      destruct (j =? LOC + 1) eqn:Ej; [|reflexivity].
      apply Z.eqb_eq in Ej. lia.
    + rewrite <- Hs2. now apply schema_ok_ext.
Qed.

End Cells.

Section Update.
Context {K : constants}.

Lemma wr_frame_update_head :
  follows (wr_frame ITYPE_SNFITSIO_HEAD) wr_snfitsio_update_head.
Proof.
  unfold wr_snfitsio_update_head. cbv zeta.
  follows_go ltac:(idtac; lazymatch goal with
    | |- follows _ (NROW_incr _) => apply wr_frame_NROW_incr
    | |- follows _ (fill_fields _ _ _) =>
        apply (follows_weaken (row_frame ITYPE_SNFITSIO_HEAD));
          [apply row_frame_wr_frame | apply row_frame_fill_fields]
    | |- follows _ check_required_headkeys =>
        apply (follows_weaken (row_frame ITYPE_SNFITSIO_HEAD));
          [apply row_frame_wr_frame | apply row_frame_check_required_headkeys]
    end).
Qed.

Lemma wr_frame_update_phot ep :
  follows (wr_frame ITYPE_SNFITSIO_PHOT) (wr_snfitsio_update_phot ep).
Proof.
  unfold wr_snfitsio_update_phot. cbv zeta.
  follows_go ltac:(idtac; lazymatch goal with
    | |- follows _ (NROW_incr _) => apply wr_frame_NROW_incr
    | |- follows _ (fill_fields _ _ _) =>
        apply (follows_weaken (row_frame ITYPE_SNFITSIO_PHOT));
          [apply row_frame_wr_frame | apply row_frame_fill_fields]
    end).
Qed.

(** A Photometry row written is one more row counted, whether the write
    returns or aborts. *)
Lemma NROW_update_phot ep g :
  NROW (WR_SNFITSIO_TABLEVAL (run (wr_snfitsio_update_phot ep) g)
          ITYPE_SNFITSIO_PHOT)
  = int_cast (NROW (WR_SNFITSIO_TABLEVAL g ITYPE_SNFITSIO_PHOT) + 1).
Proof.
  unfold wr_snfitsio_update_phot. cbv zeta. rewrite run_bind.
  change (NROW_incr ITYPE_SNFITSIO_PHOT g)
    with (Ok tt (run (NROW_incr ITYPE_SNFITSIO_PHOT) g)).
  set (g1 := run (NROW_incr ITYPE_SNFITSIO_PHOT) g).
  rewrite <- (NROW_NROW_incr ITYPE_SNFITSIO_PHOT g). fold g1.
  assert (H : follows (row_frame ITYPE_SNFITSIO_PHOT)
                (fs <- gets (fun g0 => phot_fields g0 ep) ;;
                 fill_fields ITYPE_SNFITSIO_PHOT 0 fs ;;; ret tt)%monad).
  { follows_go ltac:(apply row_frame_fill_fields). }
  apply (H g1).
Qed.

Lemma count_write_bound w n : forall lo,
  0 <= count_write w lo n <= Z.of_nat n.
Proof.
  induction n as [|n IH]; intros lo; cbn [count_write]; [lia|].
  specialize (IH (lo + 1)). destruct (w lo); lia.
Qed.

Lemma count_write_ext w w' n : forall lo,
  (forall ep, lo <= ep < lo + Z.of_nat n -> w ep = w' ep) ->
  count_write w lo n = count_write w' lo n.
Proof.
  induction n as [|n IH]; intros lo H; cbn [count_write]; [reflexivity|].
  rewrite (H lo) by lia. rewrite (IH (lo + 1)); [reflexivity|].
  intros ep Hep. apply H. lia.
Qed.

Lemma count_write_snoc w n : forall lo,
  count_write w lo (S n)
  = count_write w lo n + (if w (lo + Z.of_nat n) then 1 else 0).
Proof.
  induction n as [|n IH]; intros lo.
  - cbn [count_write]. replace (lo + Z.of_nat 0) with lo by (cbn; lia).
    destruct (w lo); reflexivity.
  - change (count_write w lo (S (S n)))
      with ((if w lo then 1 else 0) + count_write w (lo + 1) (S n)).
    rewrite IH. cbn [count_write].
    replace (lo + 1 + Z.of_nat n) with (lo + Z.of_nat (S n)) by lia. lia.
Qed.

(** The epoch loop of [WR_SNFITSIO_UPDATE], when it returns: it has counted
    the flagged epochs up to [NEPOCH] and written one row for every flagged
    epoch. *)
Lemma UPDATE_epoch_loop NEPOCH n : forall lo a g a' g',
  0 <= a -> a + Z.of_nat n <= INT_MAX ->
  0 <= NROW (WR_SNFITSIO_TABLEVAL g ITYPE_SNFITSIO_PHOT) ->
  NROW (WR_SNFITSIO_TABLEVAL g ITYPE_SNFITSIO_PHOT) + Z.of_nat n <= INT_MAX ->
  for_fold n lo (UPDATE_epoch NEPOCH) a g = Ok a' g' ->
  let w := sn_bool_arr (SNDATA g) "OBSFLAG_WRITE" in
  a' = a + count_write (fun ep => w ep && (ep <=? NEPOCH)) lo n /\
  NROW (WR_SNFITSIO_TABLEVAL g' ITYPE_SNFITSIO_PHOT)
    = NROW (WR_SNFITSIO_TABLEVAL g ITYPE_SNFITSIO_PHOT) + count_write w lo n /\
  wr_frame ITYPE_SNFITSIO_PHOT g g'.
Proof.
  induction n as [|n IH]; intros lo a g a' g' Ha Han Hr Hrn H w.
  - injection H as <- <-. cbn [count_write].
    split; [lia | split; [lia | apply wr_frame_refl]].
  - cbn [for_fold] in H. unfold bind at 1 in H.
    unfold UPDATE_epoch at 1 in H. unfold bind at 1, gets at 1 in H.
    fold w in H. cbn [count_write].
    assert (Hin : INT_MIN <= 0) by (unfold INT_MIN; lia).
    destruct (w lo) eqn:Ew; cbn [negb andb] in H |- *.
    + unfold bind at 1 in H.
      pose proof (NROW_update_phot lo g) as HN.
      pose proof (wr_frame_update_phot lo g) as HF.
      destruct (wr_snfitsio_update_phot lo g) as [[] g1|] eqn:E1;
        [|discriminate].
      rewrite (run_Ok _ _ _ _ E1) in HN, HF.
      rewrite int_cast_id in HN by (unfold in_int; lia).
      pose proof (wr_rest_SNDATA _ _ (proj1 HF)) as HS.
      unfold ret at 1 in H. apply IH in H; try lia.
      * rewrite HS in H. fold w in H. destruct H as (H1 & H2 & H3).
        split; [|split; [lia | eapply wr_frame_trans; eauto]].
        rewrite H1. destruct (lo <=? NEPOCH).
        -- rewrite int_cast_id by (unfold in_int; lia). lia.
        -- lia.
      * destruct (lo <=? NEPOCH); [|lia].
        rewrite int_cast_id by (unfold in_int; lia). lia.
      * destruct (lo <=? NEPOCH); [|lia].
        rewrite int_cast_id by (unfold in_int; lia). lia.
    + unfold ret at 1 in H. apply IH in H; try lia.
      fold w in H. destruct H as (H1 & H2 & H3).
      split; [lia | split; [lia | exact H3]].
Qed.

(** The end-of-event epoch is built in SNDATA; nothing else is assigned. *)
Lemma UPDATE_EOE_eq ep g :
  UPDATE_EOE ep g = Ok tt (set_SNDATA (EOE_SNDATA ep (SNDATA g)) g).
Proof. reflexivity. Qed.

Lemma EOE_SNDATA_scalars ep sn :
  sn_int (EOE_SNDATA ep sn) = sn_int sn /\
  sn_string (EOE_SNDATA ep sn) = sn_string sn /\
  sn_int_arr (EOE_SNDATA ep sn) = sn_int_arr sn.
Proof. repeat split. Qed.

Lemma EOE_SNDATA_flag ep sn e :
  sn_bool_arr (EOE_SNDATA ep sn) "OBSFLAG_WRITE" e
  = if e =? ep then true else sn_bool_arr sn "OBSFLAG_WRITE" e.
Proof. reflexivity. Qed.

Lemma EOE_SNDATA_marker ep sn :
  sn_double_arr (EOE_SNDATA ep sn) "MJD" ep = SNFITSIO_EOE_MARKER /\
  sn_float_arr (EOE_SNDATA ep sn) "FLUXCAL" ep
    = float_of_double SNFITSIO_EOE_MARKER /\
  sn_float_arr (EOE_SNDATA ep sn) "FLUXCAL_ERRTOT" ep
    = float_of_double SNFITSIO_EOE_MARKER /\
  sn_string_arr (EOE_SNDATA ep sn) "FILTCHAR" ep = "-"%string /\
  sn_string_arr (EOE_SNDATA ep sn) "FIELDNAME" ep = "XXXX"%string.
Proof.
  unfold EOE_SNDATA, SNDATA_upd_string, SNDATA_upd_float, SNDATA_upd_double,
    SNDATA_upd_bool.
  repeat split; cbn; apply upd_eq.
Qed.

Lemma SNDATA_upd_double_other m ep v sn m' e :
  e <> ep ->
  sn_double_arr (SNDATA_upd_double m ep v sn) m' e = sn_double_arr sn m' e.
Proof.
  intros He. cbn [SNDATA_upd_double set_sn_double_arr sn_double_arr].
  destruct (strcmp0 m' m) eqn:E; [|reflexivity].
  apply strcmp0_true in E. subst. now apply upd_ne.
Qed.

Lemma SNDATA_upd_float_other m ep v sn m' e :
  e <> ep ->
  sn_float_arr (SNDATA_upd_float m ep v sn) m' e = sn_float_arr sn m' e.
Proof.
  intros He. cbn [SNDATA_upd_float set_sn_float_arr sn_float_arr].
  destruct (strcmp0 m' m) eqn:E; [|reflexivity].
  apply strcmp0_true in E. subst. now apply upd_ne.
Qed.

Lemma SNDATA_upd_string_other m ep v sn m' e :
  e <> ep ->
  sn_string_arr (SNDATA_upd_string m ep v sn) m' e = sn_string_arr sn m' e.
Proof.
  intros He. cbn [SNDATA_upd_string set_sn_string_arr sn_string_arr].
  destruct (strcmp0 m' m) eqn:E; [|reflexivity].
  apply strcmp0_true in E. subst. now apply upd_ne.
Qed.

(** The real epochs are as they were. *)
Lemma EOE_SNDATA_other ep sn m e :
  e <> ep ->
  sn_double_arr (EOE_SNDATA ep sn) m e = sn_double_arr sn m e /\
  sn_float_arr (EOE_SNDATA ep sn) m e = sn_float_arr sn m e /\
  sn_string_arr (EOE_SNDATA ep sn) m e = sn_string_arr sn m e.
Proof.
  intros He. unfold EOE_SNDATA. split; [|split].
  - change (sn_double_arr (SNDATA_upd_double "MJD" ep SNFITSIO_EOE_MARKER
              (SNDATA_upd_bool "OBSFLAG_WRITE" ep true sn)) m e
            = sn_double_arr sn m e).
    now rewrite SNDATA_upd_double_other.
  - set (s0 := SNDATA_upd_double _ _ _ _).
    change (sn_float_arr
              (SNDATA_upd_float "FLUXCAL_ERRTOT" ep
                 (float_of_double SNFITSIO_EOE_MARKER)
                 (SNDATA_upd_float "FLUXCAL" ep
                    (float_of_double SNFITSIO_EOE_MARKER) s0)) m e
            = sn_float_arr sn m e).
    now rewrite !SNDATA_upd_float_other.
  - set (s0 := SNDATA_upd_float "FLUXCAL_ERRTOT" _ _ _).
    rewrite !SNDATA_upd_string_other by assumption. reflexivity.
Qed.

(** The counts of the epoch loop as [WR_SNFITSIO_UPDATE] runs it: flagged
    real epochs, and rows, the end-of-event one included. *)
Lemma count_write_EOE (w : Z -> bool) NEPOCH :
  0 <= NEPOCH ->
  let wE := fun e => if e =? NEPOCH + 1 then true else w e in
  count_write (fun ep => wE ep && (ep <=? NEPOCH)) 1 (Z.to_nat (NEPOCH + 1))
    = count_write w 1 (Z.to_nat NEPOCH) /\
  count_write wE 1 (Z.to_nat (NEPOCH + 1))
    = count_write w 1 (Z.to_nat NEPOCH) + 1.
Proof.
  intros H wE. replace (Z.to_nat (NEPOCH + 1)) with (S (Z.to_nat NEPOCH)) by lia.
  rewrite !count_write_snoc. rewrite Z2Nat.id by lia.
  replace (1 + NEPOCH <=? NEPOCH) with false by (symmetry; apply Z.leb_gt; lia).
  rewrite andb_false_r.
  assert (HE : wE (1 + NEPOCH) = true).
  { unfold wE. now replace (1 + NEPOCH =? NEPOCH + 1) with true
      by (symmetry; apply Z.eqb_eq; lia). }
  rewrite HE.
  split.
  - rewrite Z.add_0_r. apply count_write_ext. intros ep Hep.
    rewrite Z2Nat.id in Hep by lia. unfold wE.
    replace (ep =? NEPOCH + 1) with false by (symmetry; apply Z.eqb_neq; lia).
    replace (ep <=? NEPOCH) with true by (symmetry; apply Z.leb_le; lia).
    apply andb_true_r.
  - f_equal. apply count_write_ext. intros ep Hep.
    rewrite Z2Nat.id in Hep by lia. unfold wE.
    now replace (ep =? NEPOCH + 1) with false by (symmetry; apply Z.eqb_neq; lia).
Qed.

(** C5: when the header row and the epoch rows of a record are written,
    the epochs counted are the real epochs with the write flag set, one
    Photometry row was added for each of them and one for the end-of-event
    epoch, and [WR_SNFITSIO_UPDATE] then aborts, in its own name, exactly
    when that count differs from NOBS; so whenever it returns, the count
    equals NOBS. *)
Theorem WR_SNFITSIO_UPDATE_epoch_count g :
  let NEPOCH := sn_int (SNDATA g) "NEPOCH" in
  let NOBS := sn_int (SNDATA g) "NOBS" in
  let NROW0 := NROW (WR_SNFITSIO_TABLEVAL g ITYPE_SNFITSIO_PHOT) in
  let rows :=
    (wr_snfitsio_update_head ;;;
     UPDATE_EOE (int_cast (NEPOCH + 1)) ;;;
     for_fold (trips 1 (int_cast (NEPOCH + 1))) 1 (UPDATE_epoch NEPOCH) 0)%monad
  in
  0 <= NEPOCH < INT_MAX ->
  0 <= NROW0 -> NROW0 + NEPOCH + 1 <= INT_MAX ->
  (forall NUSE_EPOCH g1,
     rows g = Ok NUSE_EPOCH g1 ->
     NUSE_EPOCH = NUSE_of g /\
     NROW (WR_SNFITSIO_TABLEVAL g1 ITYPE_SNFITSIO_PHOT)
       = NROW0 + NUSE_of g + 1 /\
     if NUSE_of g =? NOBS then
       SNFITSIO_SIMFLAG_SPECTROGRAPH g = false ->
       WR_SNFITSIO_UPDATE g = Ok tt g1
     else
       WR_SNFITSIO_UPDATE g =
         Fatal "WR_SNFITSIO_UPDATE"
           ("NUSE_EPOCH=" +:+ pretty (NUSE_of g) +:+ " != NOBS="
              +:+ pretty NOBS)
           ("SNDATA.NEPOCH=" +:+ pretty NEPOCH) g1) /\
  (forall g', WR_SNFITSIO_UPDATE g = Ok tt g' -> NUSE_of g = NOBS).
Proof.
  intros NEPOCH NOBS NROW0 rows HN H0 H1.
  assert (Hep : int_cast (NEPOCH + 1) = NEPOCH + 1).
  { apply int_cast_id. unfold in_int, INT_MIN, INT_MAX in *. lia. }
  assert (Hrows : forall NUSE_EPOCH g1,
    rows g = Ok NUSE_EPOCH g1 ->
    NUSE_EPOCH = NUSE_of g /\
    NROW (WR_SNFITSIO_TABLEVAL g1 ITYPE_SNFITSIO_PHOT)
      = NROW0 + NUSE_of g + 1 /\
    SNDATA g1 = EOE_SNDATA (NEPOCH + 1) (SNDATA g) /\
    SNFITSIO_SIMFLAG_SPECTROGRAPH g1 = SNFITSIO_SIMFLAG_SPECTROGRAPH g /\
    WR_SNFITSIO_UPDATE g =
      (NOBS' <- gets (fun g => sn_int (SNDATA g) "NOBS") ;;
       when (negb (NUSE_EPOCH =? NOBS'))
         (errmsg_FATAL "WR_SNFITSIO_UPDATE"
            ("NUSE_EPOCH=" +:+ pretty NUSE_EPOCH +:+ " != NOBS="
               +:+ pretty NOBS')
            ("SNDATA.NEPOCH=" +:+ pretty NEPOCH)) ;;;
       SPECTROGRAPH <- gets SNFITSIO_SIMFLAG_SPECTROGRAPH ;;
       if SPECTROGRAPH then
         NMJD_TOT <- gets (fun g => gs_int (GENSPEC g) "NMJD_TOT") ;;
         for_loop (trips 0 (NMJD_TOT - 1)) 0 wr_snfitsio_update_spec
       else ret tt)%monad g1).
  { intros NUSE g1 Hr. subst rows. unfold WR_SNFITSIO_UPDATE.
    unfold bind at 1 in Hr. unfold bind at 1.
    pose proof (wr_frame_update_head g) as HF.
    destruct (wr_snfitsio_update_head g) as [[] gh|] eqn:Eh; [|discriminate].
    rewrite (run_Ok _ _ _ _ Eh) in HF.
    pose proof (wr_rest_SNDATA _ _ (proj1 HF)) as HS.
    destruct HF as (Hrest & Hoth & _).
    destruct (Hoth ITYPE_SNFITSIO_PHOT) as [_ HW]; [discriminate|].
    unfold bind at 1, gets at 1. rewrite HS. fold NEPOCH.
    unfold bind at 1 in Hr. unfold bind at 1.
    rewrite Hep in *. rewrite UPDATE_EOE_eq in *.
    set (gE := set_SNDATA _ gh) in *.
    unfold bind at 1.
    destruct (for_fold _ 1 _ 0 gE) as [a gL|] eqn:EL; [|discriminate].
    injection Hr as -> ->.
    apply UPDATE_epoch_loop in EL.
    - destruct EL as (Ha & Hn & HFL).
      pose proof (count_write_EOE
                    (sn_bool_arr (SNDATA g) "OBSFLAG_WRITE") NEPOCH
                    (proj1 HN)) as [Hc1 Hc2].
      unfold trips in Ha, Hn.
      replace (NEPOCH + 1 - 1 + 1) with (NEPOCH + 1) in Ha, Hn by lia.
      assert (HgE : SNDATA gE = EOE_SNDATA (NEPOCH + 1) (SNDATA g)).
      { subst gE. cbn. now rewrite HS. }
      rewrite HgE in Ha, Hn.
      assert (Hw : forall e,
        sn_bool_arr (EOE_SNDATA (NEPOCH + 1) (SNDATA g)) "OBSFLAG_WRITE" e
        = (fun e => if e =? NEPOCH + 1 then true
                    else sn_bool_arr (SNDATA g) "OBSFLAG_WRITE" e) e)
        by (intros; apply EOE_SNDATA_flag).
      rewrite (count_write_ext _ _ _ _
                 (fun ep _ => f_equal (fun b => b && (ep <=? NEPOCH)) (Hw ep)))
        in Ha.
      rewrite (count_write_ext _ _ _ _ (fun ep _ => Hw ep)) in Hn.
      rewrite Hc1 in Ha. rewrite Hc2 in Hn.
      fold NEPOCH in Ha, Hn. change (count_write _ 1 (Z.to_nat NEPOCH))
        with (NUSE_of g) in Ha, Hn.
      split; [lia|]. split.
      { rewrite Hn. subst gE. cbn. rewrite HW. subst NROW0. lia. }
      pose proof (wr_rest_SNDATA _ _ (proj1 HFL)) as HSL.
      split; [congruence|]. split; [|reflexivity].
      destruct (wr_rest_flags _ _ (proj1 HFL)) as (-> & _).
      subst gE. cbn. apply (wr_rest_flags _ _ Hrest).
    - lia.
    - unfold trips. lia.
    - subst gE. cbn. rewrite HW. fold NROW0. lia.
    - subst gE. cbn. rewrite HW. fold NROW0. unfold trips. lia. }
  split.
  - intros NUSE g1 Hr. destruct (Hrows _ _ Hr) as (-> & Hn & HS & HP & HU).
    split; [reflexivity|]. split; [exact Hn|].
    rewrite HU.
    destruct (EOE_SNDATA_scalars (NEPOCH + 1) (SNDATA g)) as (Hi & _).
    destruct (NUSE_of g =? NOBS) eqn:E; [intros Hsp|];
      unfold bind at 1, gets at 1; rewrite HS, Hi; fold NOBS; rewrite E;
      unfold when, errmsg_FATAL; cbn [negb]; unfold bind at 1;
      [|reflexivity].
    unfold ret at 1, bind at 1, gets at 1. now rewrite HP, Hsp.
  - intros g' HU.
    destruct (rows g) as [NUSE g1|] eqn:Er.
    + destruct (Hrows _ _ eq_refl) as (-> & Hn & HS & HP & HU').
      rewrite HU' in HU. unfold bind at 1, gets at 1 in HU. rewrite HS in HU.
      destruct (EOE_SNDATA_scalars (NEPOCH + 1) (SNDATA g)) as (Hi & _).
      rewrite Hi in HU. fold NOBS in HU. unfold bind at 1 in HU.
      destruct (NUSE_of g =? NOBS) eqn:E; [now apply Z.eqb_eq in E|].
      unfold when, errmsg_FATAL in HU. cbn [negb] in HU. discriminate.
    + exfalso. subst rows. unfold WR_SNFITSIO_UPDATE in HU.
      unfold bind at 1 in Er. unfold bind at 1 in HU.
      pose proof (wr_frame_update_head g) as HF.
      destruct (wr_snfitsio_update_head g) as [[] gh|] eqn:Eh; [|discriminate].
      rewrite (run_Ok _ _ _ _ Eh) in HF.
      pose proof (wr_rest_SNDATA _ _ (proj1 HF)) as HS.
      unfold bind at 1, gets at 1 in HU. rewrite HS in HU. fold NEPOCH in HU.
      unfold bind at 1 in Er. unfold bind at 1 in HU.
      rewrite UPDATE_EOE_eq in *.
      unfold bind at 1 in HU. rewrite Er in HU. discriminate.
Qed.

End Update.

(** The sample record has three epochs and the second is not written:
    two epochs are counted, as its NOBS says, and the update returns. *)
Lemma WR_SNFITSIO_UPDATE_epoch_count_witness :
  is_Ok (WR_SNFITSIO_UPDATE (K := sample_constants) sample_writer) = true /\
  NUSE_of sample_writer = 2.
Proof.
  assert (H : is_Ok (WR_SNFITSIO_UPDATE (K := sample_constants) sample_writer)
              = true) by (vm_compute; reflexivity).
  split; [exact H|].
  destruct (is_Ok_inv _ H) as ([] & g' & E).
  refine (proj2 (WR_SNFITSIO_UPDATE_epoch_count (K := sample_constants)
                   sample_writer _ _ _) g' E);
    vm_compute; repeat split; congruence.
Defined.

Section Rows.
Context {K : constants}.

Lemma fill_cells_other_row g itype row fs c r : forall m,
  r <> row -> fill_cells g itype row fs m !! (c, r) = m !! (c, r).
Proof.
  induction fs as [|f fs IH]; intros m Hr; [reflexivity|].
  cbn [fill_cells]. rewrite IH by assumption.
  destruct (column_of g itype f.1); [|reflexivity].
  apply lookup_insert_ne. congruence.
Qed.

Lemma fill_cells_notin g itype row fs c : forall m,
  (forall f, In f fs -> column_of g itype (fst f) <> Some c) ->
  fill_cells g itype row fs m !! (c, row) = m !! (c, row).
Proof.
  induction fs as [|f fs IH]; intros m H; [reflexivity|].
  cbn [fill_cells]. rewrite IH by (intros f' Hf'; apply H; now right).
  destruct (column_of g itype f.1) as [c'|] eqn:E; [|reflexivity].
  apply lookup_insert_ne. intros [= ->]. apply (H f); [now left | exact E].
Qed.

Lemma existsb_strcmp0_false x l :
  existsb (strcmp0 x) l = false -> forall y, In y l -> y <> x.
Proof.
  induction l as [|z l IH]; intros H y Hy; [destruct Hy|].
  cbn [existsb] in H. apply orb_false_iff in H as [H1 H2].
  destruct Hy as [<-|Hy]; [|now apply IH].
  apply strcmp0_false in H1. congruence.
Qed.

(** In a row whose names are all different, the cell under a field's
    column is that field's value. *)
Lemma fill_cells_lookup g itype row fs n v c : forall m,
  nodupb (map fst fs) = true -> In (n, v) fs ->
  column_of g itype n = Some c ->
  fill_cells g itype row fs m !! (c, row) = Some (cell_of v).
Proof.
  induction fs as [|f fs IH]; intros m Hnd Hin Hc; [destruct Hin|].
  cbn [map nodupb] in Hnd. apply andb_true_iff in Hnd as [Hn1 Hn2].
  apply negb_true_iff in Hn1. cbn [fill_cells].
  destruct Hin as [->|Hin]; [|now apply IH].
  cbn [fst snd] in *. rewrite Hc. rewrite fill_cells_notin.
  - apply lookup_insert_eq.
  - intros f' Hf' Hc'.
    apply column_of_range in Hc as [_ Hc], Hc' as [_ Hc'].
    apply (existsb_strcmp0_false _ _ Hn1 (fst f')); [|congruence].
    now apply in_map.
Qed.

Lemma same_shape_names fs fs' : same_shape fs fs' -> map fst fs = map fst fs'.
Proof. induction 1 as [|f f' fs fs' [H _] _ IH]; cbn; congruence. Qed.

Lemma same_shape_length fs fs' : same_shape fs fs' -> length fs = length fs'.
Proof. induction 1; cbn; congruence. Qed.

Lemma same_shape_schema g itype fs fs' :
  same_shape fs fs' -> schema_ok g itype fs = schema_ok g itype fs'.
Proof.
  induction 1 as [|f f' fs fs' [H1 H2] _ IH]; [reflexivity|].
  cbn [schema_ok forallb]. unfold schema_ok in IH. rewrite IH. f_equal.
  unfold field_ok. rewrite H1. destruct (column_of _ _ _); [apply H2|reflexivity].
Qed.

Lemma same_shape_row_ok g itype fs fs' :
  same_shape fs fs' -> row_ok g itype fs = row_ok g itype fs'.
Proof.
  intros H. unfold row_ok.
  now rewrite (same_shape_names _ _ H), (same_shape_length _ _ H),
    (same_shape_schema _ _ _ _ H).
Qed.

Lemma Forall2_Forall_r_shape (P : string -> Prop) fs fs' :
  same_shape fs fs' ->
  Forall (fun f => P (fst f)) fs -> Forall (fun f => P (fst f)) fs'.
Proof.
  induction 1 as [|f f' fs fs' [H _] _ IH]; intros HF; [constructor|].
  inversion_clear HF. constructor; [congruence | auto].
Qed.

Lemma same_shape_app a a' b b' :
  same_shape a a' -> same_shape b b' -> same_shape (a ++ b) (a' ++ b').
Proof. apply Forall2_app. Qed.

Lemma phot_fields_shape g g' ep ep' :
  same_config g g' -> same_shape (phot_fields g ep) (phot_fields g' ep').
Proof.
  intros (H1 & H2 & H3 & H4 & H5 & H6). unfold phot_fields. cbv zeta.
  rewrite H1, H2, H3, H4, H5, H6.
  repeat apply same_shape_app;
    repeat match goal with
           | |- context [if ?b then _ else _] => destruct b
           end;
    repeat (constructor; [split; [reflexivity | intros; reflexivity]|]);
    constructor.
Qed.

Lemma same_config_refl g : same_config g g.
Proof. repeat split. Qed.

Lemma wr_rest_config g g' : wr_rest g' = wr_rest g -> same_config g g'.
Proof.
  intros H. pose proof (wr_rest_SNDATA _ _ H) as HS. unfold same_config.
  rewrite HS. repeat split.
  - exact (f_equal SNFITSIO_COMPACT_FLAG H).
  - exact (f_equal SNFITSIO_SIMFLAG_SNANA H).
  - exact (f_equal SNFITSIO_SIMFLAG_MAGOBS H).
  - exact (f_equal SNFITSIO_SIMFLAG_SNRMON H).
Qed.

Lemma phot_fields_ext g g' ep :
  wr_rest g' = wr_rest g -> phot_fields g' ep = phot_fields g ep.
Proof.
  intros H. pose proof (wr_rest_SNDATA _ _ H) as HS.
  destruct (wr_rest_config _ _ H) as (H1 & H2 & H3 & H4 & _).
  unfold phot_fields. now rewrite HS, H1, H2, H3, H4.
Qed.

Lemma phot_rows_ext g g' eps : forall row m,
  wr_rest g' = wr_rest g -> phot_rows g' row eps m = phot_rows g row eps m.
Proof.
  induction eps as [|ep eps IH]; intros row m H; [reflexivity|].
  cbn [phot_rows]. rewrite (phot_fields_ext g g') by assumption.
  rewrite (fill_cells_ext g g') by now apply wr_rest_tables. now apply IH.
Qed.

Lemma row_ok_ext g g' itype fs :
  same_tables g g' ->
  COLNUM_LOOKUP (WR_SNFITSIO_TABLEVAL g' itype)
    = COLNUM_LOOKUP (WR_SNFITSIO_TABLEVAL g itype) ->
  row_ok g' itype fs = row_ok g itype fs.
Proof.
  intros Ht Hc. unfold row_ok.
  rewrite (cache_ok_ext g g') by (try assumption; intros; now rewrite Hc).
  now rewrite (schema_ok_ext g g').
Qed.

Lemma row_ok_inv g itype fs :
  row_ok g itype fs = true ->
  cache_ok g itype 0 (map fst fs) = true /\ schema_ok g itype fs = true /\
  nodupb (map fst fs) = true /\ Z.of_nat (length fs) <= INT_MAX.
Proof.
  unfold row_ok. intros H.
  apply andb_true_iff in H as [H H4]. apply andb_true_iff in H as [H H3].
  apply andb_true_iff in H as [H1 H2]. apply Z.leb_le in H4. auto.
Qed.

(** One Photometry row, when [wr_snfitsio_update_phot] returns. *)
Lemma update_phot_Ok ep g g' :
  wr_snfitsio_update_phot ep g = Ok tt g' ->
  0 <= NROW (WR_SNFITSIO_TABLEVAL g ITYPE_SNFITSIO_PHOT) < INT_MAX ->
  row_ok g ITYPE_SNFITSIO_PHOT (phot_fields g ep) = true ->
  let row := NROW (WR_SNFITSIO_TABLEVAL g ITYPE_SNFITSIO_PHOT) + 1 in
  let fp := fp_snfitsFile g ITYPE_SNFITSIO_PHOT in
  NROW (WR_SNFITSIO_TABLEVAL g' ITYPE_SNFITSIO_PHOT) = row /\
  CELLS (fp_snfitsFile g' ITYPE_SNFITSIO_PHOT)
    = fill_cells g ITYPE_SNFITSIO_PHOT row (phot_fields g ep) (CELLS fp) /\
  NAXIS2 (fp_snfitsFile g' ITYPE_SNFITSIO_PHOT) = Z.max (NAXIS2 fp) row /\
  row_ok g' ITYPE_SNFITSIO_PHOT (phot_fields g' ep) = true /\
  Forall (fun f => exists c, column_of g ITYPE_SNFITSIO_PHOT (fst f) = Some c)
    (phot_fields g ep) /\
  wr_frame ITYPE_SNFITSIO_PHOT g g'.
Proof.
  intros H Hr Hok row fp.
  pose proof (wr_frame_update_phot ep g) as HF.
  pose proof (NROW_update_phot ep g) as HN.
  rewrite (run_Ok _ _ _ _ H) in HF, HN.
  rewrite int_cast_id in HN by (unfold in_int, INT_MIN, INT_MAX in *; lia).
  unfold wr_snfitsio_update_phot in H. cbv zeta in H.
  unfold bind at 1 in H.
  pose proof (wr_frame_NROW_incr ITYPE_SNFITSIO_PHOT g) as HF0.
  pose proof (NROW_NROW_incr ITYPE_SNFITSIO_PHOT g) as HN0.
  change (NROW_incr ITYPE_SNFITSIO_PHOT g)
    with (Ok tt (run (NROW_incr ITYPE_SNFITSIO_PHOT) g)) in H.
  set (g0 := run (NROW_incr ITYPE_SNFITSIO_PHOT) g) in *.
  rewrite int_cast_id in HN0 by (unfold in_int, INT_MIN, INT_MAX in *; lia).
  assert (HC0 : COLNUM_LOOKUP (WR_SNFITSIO_TABLEVAL g0 ITYPE_SNFITSIO_PHOT)
                = COLNUM_LOOKUP (WR_SNFITSIO_TABLEVAL g ITYPE_SNFITSIO_PHOT))
    by reflexivity.
  unfold bind at 1, gets at 1 in H.
  rewrite (phot_fields_ext g g0) in H by apply HF0.
  unfold bind at 1 in H.
  destruct (fill_fields _ 0 _ g0) as [LOC g1|] eqn:E; [|discriminate].
  injection H as <-.
  destruct (row_ok_inv _ _ _ Hok) as (Hc & Hs & Hnd & Hlen).
  pose proof (wr_rest_tables _ _ (proj1 HF0)) as Ht0.
  apply fill_fields_Ok in E; try lia.
  - cbv zeta in E. rewrite HN0 in E.
    destruct E as (_ & Hcells & Hnax & Hcache & Hok' & Hex & HF1).
    split; [exact HN|]. split.
    { rewrite Hcells. now apply fill_cells_ext. }
    split.
    { rewrite Hnax. unfold phot_fields. cbv zeta. cbn [app]. reflexivity. }
    split; [|split; [|exact HF]].
    { rewrite (phot_fields_ext g g1) by apply HF.
      unfold row_ok. rewrite Hok'.
      rewrite (schema_ok_ext g g1) by apply (wr_rest_tables _ _ (proj1 HF)).
      rewrite Hs, Hnd. cbn [andb]. now apply Z.leb_le. }
    eapply Forall_impl; [exact Hex|]. intros f [c Hc'].
    exists c. now rewrite <- (column_of_same g g0).
  - rewrite <- Hc. apply cache_ok_ext; [assumption|]. intros. now rewrite HC0.
  - rewrite <- Hs. now apply schema_ok_ext.
Qed.

Lemma phot_rows_app g eps1 eps2 : forall row m,
  phot_rows g row (eps1 ++ eps2) m
  = phot_rows g (row + Z.of_nat (length eps1)) eps2 (phot_rows g row eps1 m).
Proof.
  induction eps1 as [|ep eps1 IH]; intros row m.
  - cbn. now rewrite Z.add_0_r.
  - cbn [app phot_rows length]. rewrite IH. f_equal. lia.
Qed.

Lemma written_length w n : forall lo,
  Z.of_nat (length (written w lo n)) = count_write w lo n.
Proof.
  induction n as [|n IH]; intros lo; [reflexivity|].
  cbn [written count_write]. specialize (IH (lo + 1)).
  destruct (w lo); cbn [length]; lia.
Qed.

Lemma written_ext w w' n : forall lo,
  (forall ep, lo <= ep < lo + Z.of_nat n -> w ep = w' ep) ->
  written w lo n = written w' lo n.
Proof.
  induction n as [|n IH]; intros lo H; [reflexivity|].
  cbn [written]. rewrite (H lo) by lia. rewrite (IH (lo + 1)); [reflexivity|].
  intros ep Hep. apply H. lia.
Qed.

Lemma written_snoc w n : forall lo,
  written w lo (S n)
  = written w lo n ++ (if w (lo + Z.of_nat n) then [lo + Z.of_nat n] else []).
Proof.
  induction n as [|n IH]; intros lo.
  - cbn [written app]. replace (lo + Z.of_nat 0) with lo by (cbn; lia).
    destruct (w lo); reflexivity.
  - change (written w lo (S (S n)))
      with (if w lo then lo :: written w (lo + 1) (S n)
            else written w (lo + 1) (S n)).
    rewrite IH. cbn [written].
    replace (lo + 1 + Z.of_nat n) with (lo + Z.of_nat (S n)) by lia.
    destruct (w lo); reflexivity.
Qed.

Lemma written_range w n : forall lo ep,
  In ep (written w lo n) -> lo <= ep < lo + Z.of_nat n /\ w ep = true.
Proof.
  induction n as [|n IH]; intros lo ep H; [destruct H|].
  cbn [written] in H. destruct (w lo) eqn:E.
  - destruct H as [<-|H]; [split; [lia | exact E]|].
    apply IH in H. split; [lia | apply H].
  - apply IH in H. split; [lia | apply H].
Qed.

(** The epoch loop of [WR_SNFITSIO_UPDATE], when it returns: one row per
    flagged epoch, in order, below the rows that were there. *)
Lemma UPDATE_epoch_rows NEPOCH n : forall lo a g a' g',
  0 <= NROW (WR_SNFITSIO_TABLEVAL g ITYPE_SNFITSIO_PHOT) ->
  NROW (WR_SNFITSIO_TABLEVAL g ITYPE_SNFITSIO_PHOT) + Z.of_nat n <= INT_MAX ->
  (forall ep, row_ok g ITYPE_SNFITSIO_PHOT (phot_fields g ep) = true) ->
  for_fold n lo (UPDATE_epoch NEPOCH) a g = Ok a' g' ->
  let eps := written (sn_bool_arr (SNDATA g) "OBSFLAG_WRITE") lo n in
  let fp := fp_snfitsFile g ITYPE_SNFITSIO_PHOT in
  let row := NROW (WR_SNFITSIO_TABLEVAL g ITYPE_SNFITSIO_PHOT) in
  NROW (WR_SNFITSIO_TABLEVAL g' ITYPE_SNFITSIO_PHOT)
    = row + Z.of_nat (length eps) /\
  CELLS (fp_snfitsFile g' ITYPE_SNFITSIO_PHOT)
    = phot_rows g row eps (CELLS fp) /\
  NAXIS2 (fp_snfitsFile g' ITYPE_SNFITSIO_PHOT)
    = match eps with
      | [] => NAXIS2 fp
      | _ :: _ => Z.max (NAXIS2 fp) (row + Z.of_nat (length eps))
      end /\
  (forall ep, row_ok g' ITYPE_SNFITSIO_PHOT (phot_fields g' ep) = true) /\
  (eps <> [] ->
   Forall (fun f => exists c,
             column_of g ITYPE_SNFITSIO_PHOT (fst f) = Some c)
     (phot_fields g lo)) /\
  wr_frame ITYPE_SNFITSIO_PHOT g g'.
Proof.
  induction n as [|n IH]; intros lo a g a' g' Hr Hrn Hok H eps fp row.
  - injection H as <- <-. subst eps. cbn [written length phot_rows].
    repeat split; try lia; auto. intros []. reflexivity.
  - cbn [for_fold] in H. unfold bind at 1 in H.
    unfold UPDATE_epoch at 1 in H. unfold bind at 1, gets at 1 in H.
    subst eps. cbn [written].
    destruct (sn_bool_arr (SNDATA g) "OBSFLAG_WRITE" lo) eqn:Ew;
      cbn [negb] in H.
    + unfold bind at 1 in H.
      destruct (wr_snfitsio_update_phot lo g) as [[] g1|] eqn:E1;
        [|discriminate].
      apply update_phot_Ok in E1; [|unfold INT_MAX in *; lia | apply Hok].
      cbv zeta in E1. destruct E1 as (HN1 & HC1 & HX1 & Hok1 & Hex1 & HF1).
      unfold ret at 1 in H.
      pose proof (wr_rest_SNDATA _ _ (proj1 HF1)) as HS.
      assert (Hok1' : forall ep,
        row_ok g1 ITYPE_SNFITSIO_PHOT (phot_fields g1 ep) = true).
      { intros ep. rewrite <- Hok1. apply same_shape_row_ok.
        apply phot_fields_shape, same_config_refl. }
      apply IH in H; try lia; try assumption.
      cbv zeta in H. rewrite HS, HN1 in H.
      destruct H as (HN & HC & HX & Hok' & _ & HF).
      fold row in HN, HC, HX, HN1, HC1, HX1 |- *. fold fp in HC1, HX1 |- *.
      cbn [length phot_rows]. split; [lia|]. split.
      { rewrite HC, HC1. now apply phot_rows_ext, HF1. }
      split.
      { rewrite HX, HX1.
        destruct (written _ (lo + 1) n); cbn [length]; lia. }
      split; [exact Hok'|]. split; [intros _; exact Hex1|].
      eapply wr_frame_trans; eauto.
    + unfold ret at 1 in H. apply IH in H; try lia; try assumption.
      cbv zeta in H. destruct H as (HN & HC & HX & Hok' & Hex & HF).
      split; [exact HN|]. split; [exact HC|]. split; [exact HX|].
      split; [exact Hok'|]. split; [|exact HF].
      intros Hne. specialize (Hex Hne).
      exact (Forall2_Forall_r_shape
               (fun n => exists c, column_of g ITYPE_SNFITSIO_PHOT n = Some c)
               _ _ (phot_fields_shape g g (lo + 1) lo (same_config_refl g))
               Hex).
Qed.

Lemma keeps_update_spec t imjd :
  t <> ITYPE_SNFITSIO_SPEC -> t <> ITYPE_SNFITSIO_SPECTMP ->
  follows (keeps t) (wr_snfitsio_update_spec imjd).
Proof.
  intros H1 H2. unfold wr_snfitsio_update_spec. cbv zeta.
  follows_go ltac:(idtac; lazymatch goal with
    | |- follows _ (NROW_incr ?i) =>
        apply (follows_weaken (wr_frame i));
          [intros ? ?; apply (wr_frame_keeps i); assumption
          | apply wr_frame_NROW_incr]
    | |- follows _ (fill_fields ?i _ _) =>
        apply (follows_weaken (row_frame i));
          [intros ? ? [? _]; apply (wr_frame_keeps i); assumption
          | apply row_frame_fill_fields]
    end).
Qed.

Lemma cache_ok_app g itype a b : forall LOC,
  cache_ok g itype LOC (a ++ b)
  = cache_ok g itype LOC a && cache_ok g itype (LOC + Z.of_nat (length a)) b.
Proof.
  induction a as [|n a IH]; intros LOC.
  - cbn. now rewrite Z.add_0_r.
  - cbn [app cache_ok length]. rewrite IH, andb_assoc.
    replace (LOC + 1 + Z.of_nat (length a))
      with (LOC + Z.of_nat (S (length a))) by lia. reflexivity.
Qed.

Lemma fill_cells_app g itype row a b m :
  fill_cells g itype row (a ++ b) m
  = fill_cells g itype row b (fill_cells g itype row a m).
Proof. revert m. induction a as [|f a IH]; intros m; [reflexivity|]. apply IH. Qed.

Lemma head_fields_ext g g' a b :
  wr_rest g' = wr_rest g -> head_fields g' a b = head_fields g a b.
Proof.
  intros H. change (head_fields (wr_rest g') a b = head_fields (wr_rest g) a b).
  now rewrite H.
Qed.

Lemma head_fields_sim_ext g g' :
  wr_rest g' = wr_rest g -> head_fields_sim g' = head_fields_sim g.
Proof.
  intros H. change (head_fields_sim (wr_rest g') = head_fields_sim (wr_rest g)).
  now rewrite H.
Qed.

(** [check_required_headkeys] writes no row and stages nothing. *)
Lemma check_required_headkeys_tables :
  follows (fun g g' =>
             fp_snfitsFile g' = fp_snfitsFile g /\
             WR_SNFITSIO_TABLEVAL g' = WR_SNFITSIO_TABLEVAL g)
    check_required_headkeys.
Proof.
  assert (Hr : forall g : globals,
    fp_snfitsFile g = fp_snfitsFile g /\
    WR_SNFITSIO_TABLEVAL g = WR_SNFITSIO_TABLEVAL g) by (split; reflexivity).
  assert (Ht : forall a b c : globals,
    fp_snfitsFile b = fp_snfitsFile a /\
    WR_SNFITSIO_TABLEVAL b = WR_SNFITSIO_TABLEVAL a ->
    fp_snfitsFile c = fp_snfitsFile b /\
    WR_SNFITSIO_TABLEVAL c = WR_SNFITSIO_TABLEVAL b ->
    fp_snfitsFile c = fp_snfitsFile a /\
    WR_SNFITSIO_TABLEVAL c = WR_SNFITSIO_TABLEVAL a)
    by (intros a b c [? ?] [? ?]; split; congruence).
  unfold check_required_headkeys, required_report, printf. cbv zeta.
  repeat
    lazymatch goal with
    | |- follows _ (ret _) => apply follows_ret; exact Hr
    | |- follows _ (gets _) => apply follows_gets; exact Hr
    | |- follows _ (errmsg_FATAL _ _ _) => apply follows_errmsg; exact Hr
    | |- follows _ (bind _ _) => apply follows_bind; [exact Ht | | intros ?]
    | |- follows _ (when _ _) => apply follows_when; [exact Hr |]
    | |- follows _ (if _ then _ else _) => apply follows_if
    | |- follows _ (for_fold _ _ _ _) =>
        apply follows_for_fold; [exact Hr | exact Ht | intros ? ?]
    | |- follows _ (IPAR_SNFITSIO _ _ _) =>
        apply follows_IPAR_SNFITSIO; [exact Hr | exact Ht | intros; split; reflexivity]
    | |- follows _ (modify _) =>
        apply follows_modify; intros; split; reflexivity
    end.
Qed.

(** One Header row, when [wr_snfitsio_update_head] returns. *)
Lemma update_head_Ok g g' :
  let h0 := NROW (WR_SNFITSIO_TABLEVAL g ITYPE_SNFITSIO_HEAD) in
  let r0 := NROW (WR_SNFITSIO_TABLEVAL g ITYPE_SNFITSIO_PHOT) in
  let NOBS := sn_int (SNDATA g) "NOBS" in
  let fs := head_row g (r0 + 1) (r0 + NOBS) in
  wr_snfitsio_update_head g = Ok tt g' ->
  0 <= h0 < INT_MAX -> 0 <= r0 -> 0 <= NOBS -> r0 + NOBS + 1 <= INT_MAX ->
  row_ok g ITYPE_SNFITSIO_HEAD fs = true ->
  NROW (WR_SNFITSIO_TABLEVAL g' ITYPE_SNFITSIO_HEAD) = h0 + 1 /\
  CELLS (fp_snfitsFile g' ITYPE_SNFITSIO_HEAD)
    = fill_cells g ITYPE_SNFITSIO_HEAD (h0 + 1) fs
        (CELLS (fp_snfitsFile g ITYPE_SNFITSIO_HEAD)) /\
  Forall (fun f => exists c, column_of g ITYPE_SNFITSIO_HEAD (fst f) = Some c)
    fs /\
  wr_frame ITYPE_SNFITSIO_HEAD g g'.
Proof.
  intros h0 r0 NOBS fs H Hh Hr HN Hmax Hok.
  pose proof (wr_frame_update_head g) as HF.
  rewrite (run_Ok _ _ _ _ H) in HF.
  unfold wr_snfitsio_update_head in H. cbv zeta in H.
  unfold bind at 1 in H.
  pose proof (wr_frame_NROW_incr ITYPE_SNFITSIO_HEAD g) as HF0.
  pose proof (NROW_NROW_incr ITYPE_SNFITSIO_HEAD g) as HN0.
  change (NROW_incr ITYPE_SNFITSIO_HEAD g)
    with (Ok tt (run (NROW_incr ITYPE_SNFITSIO_HEAD) g)) in H.
  set (g0 := run (NROW_incr ITYPE_SNFITSIO_HEAD) g) in *.
  fold h0 in HN0.
  rewrite int_cast_id in HN0 by (unfold in_int, INT_MIN, INT_MAX in *; lia).
  assert (HC0 : COLNUM_LOOKUP (WR_SNFITSIO_TABLEVAL g0 ITYPE_SNFITSIO_HEAD)
                = COLNUM_LOOKUP (WR_SNFITSIO_TABLEVAL g ITYPE_SNFITSIO_HEAD))
    by reflexivity.
  unfold bind at 1, gets at 1 in H.
  change (NROW (WR_SNFITSIO_TABLEVAL g0 ITYPE_SNFITSIO_PHOT)) with r0 in H.
  unfold bind at 1, gets at 1 in H.
  change (sn_int (SNDATA g0) "NOBS") with NOBS in H.
  rewrite (int_cast_id (r0 + 1)) in H
    by (unfold in_int, INT_MIN, INT_MAX in *; lia).
  replace (r0 + 1 - 1) with r0 in H by lia.
  rewrite (int_cast_id r0) in H by (unfold in_int, INT_MIN, INT_MAX in *; lia).
  rewrite (int_cast_id (r0 + NOBS)) in H
    by (unfold in_int, INT_MIN, INT_MAX in *; lia).
  unfold bind at 1, gets at 1 in H.
  rewrite (head_fields_ext g g0) in H by apply HF0.
  set (fs1 := head_fields g (r0 + 1) (r0 + NOBS)) in *.
  destruct (row_ok_inv _ _ _ Hok) as (Hc & Hs & Hnd & Hlen).
  subst fs. unfold head_row in Hc, Hs, Hlen |- *. fold fs1 in Hc, Hs, Hlen |- *.
  rewrite map_app, cache_ok_app in Hc. apply andb_true_iff in Hc as [Hc1 Hc2].
  unfold schema_ok in Hs. rewrite forallb_app in Hs.
  apply andb_true_iff in Hs as [Hs1 Hs2].
  rewrite length_app, Nat2Z.inj_add in Hlen. rewrite length_map in Hc2.
  pose proof (wr_rest_tables _ _ (proj1 HF0)) as Ht0.
  unfold bind at 1 in H.
  destruct (fill_fields _ 0 fs1 g0) as [LOC g1|] eqn:E1; [|discriminate].
  apply fill_fields_Ok in E1; try lia;
    [|rewrite <- Hc1; apply cache_ok_ext; [assumption | intros; now rewrite HC0]
     |rewrite <- Hs1; now apply schema_ok_ext].
  cbv zeta in E1. rewrite HN0 in E1.
  destruct E1 as (-> & Hcells1 & _ & Hcache1 & _ & Hex1 & HF1).
  assert (Hex1' : Forall (fun f => exists c,
                    column_of g ITYPE_SNFITSIO_HEAD (fst f) = Some c) fs1).
  { eapply Forall_impl; [exact Hex1|]. intros f [c Hc'].
    exists c. now rewrite <- (column_of_same g g0). }
  rewrite (fill_cells_ext g g0) in Hcells1 by assumption.
  change (fp_snfitsFile g0 ITYPE_SNFITSIO_HEAD)
    with (fp_snfitsFile g ITYPE_SNFITSIO_HEAD) in Hcells1.
  assert (Hrest1 : wr_rest g1 = wr_rest g).
  { destruct HF1 as [[Hx _] _]. rewrite Hx. apply HF0. }
  unfold bind at 1, gets at 1 in H.
  destruct (wr_rest_flags _ _ Hrest1) as (_ & Hsim & _). rewrite Hsim in H.
  rewrite fill_cells_app.
  destruct (SNFITSIO_SIMFLAG_SNANA g) eqn:Esim; cbn [negb] in H.
  - unfold bind at 1, gets at 1 in H.
    rewrite (head_fields_sim_ext g g1) in H by assumption.
    set (fs2 := head_fields_sim g) in *.
    unfold bind at 1 in H.
    destruct (fill_fields _ _ fs2 g1) as [LOC2 g2|] eqn:E2; [|discriminate].
    pose proof (check_required_headkeys_tables g2) as HT.
    rewrite (run_Ok _ _ _ _ H) in HT. destruct HT as [HT1 HT2].
    pose proof (wr_rest_tables _ _ Hrest1) as Ht1.
    apply fill_fields_Ok in E2; try lia.
    + cbv zeta in E2.
      destruct E2 as (_ & Hcells2 & _ & _ & _ & Hex2 & HF2).
      destruct HF1 as [_ HN1]. rewrite HN1, HN0 in Hcells2.
      destruct HF2 as [_ HN2].
      rewrite HT1, HT2. split; [congruence|].
      split; [|split; [|exact HF]].
      { rewrite Hcells2, Hcells1. now apply fill_cells_ext. }
      apply Forall_app. split; [exact Hex1'|].
      eapply Forall_impl; [exact Hex2|]. intros f [c Hc'].
      exists c. now rewrite <- (column_of_same g g1).
    + rewrite <- Hc2. rewrite Z.add_0_l. apply cache_ok_ext; [assumption|].
      intros j Hj. rewrite Hcache1 by lia. now rewrite HC0.
    + rewrite <- Hs2. now apply schema_ok_ext.
  - injection H as <-. destruct HF1 as [_ HN1].
    split; [congruence|]. split; [|split; [|exact HF]].
    + cbn [fill_cells]. exact Hcells1.
    + rewrite app_nil_r. exact Hex1'.
Qed.

(** [WR_SNFITSIO_UPDATE], when it returns, went through the Header row, the
    epoch loop on the SNDATA with the end-of-event epoch, the count check
    and the spectra, which leave the Header and Photometry tables alone. *)
Lemma WR_SNFITSIO_UPDATE_inv g g' :
  let NEPOCH := sn_int (SNDATA g) "NEPOCH" in
  0 <= NEPOCH < INT_MAX ->
  WR_SNFITSIO_UPDATE g = Ok tt g' ->
  exists gh gL,
    wr_snfitsio_update_head g = Ok tt gh /\
    for_fold (Z.to_nat (NEPOCH + 1)) 1 (UPDATE_epoch NEPOCH) 0
      (set_SNDATA (EOE_SNDATA (NEPOCH + 1) (SNDATA g)) gh)
      = Ok (sn_int (SNDATA g) "NOBS") gL /\
    keeps ITYPE_SNFITSIO_HEAD gL g' /\ keeps ITYPE_SNFITSIO_PHOT gL g'.
Proof.
  intros NEPOCH HN H.
  assert (Hep : int_cast (NEPOCH + 1) = NEPOCH + 1).
  { apply int_cast_id. unfold in_int, INT_MIN, INT_MAX in *. lia. }
  unfold WR_SNFITSIO_UPDATE in H. unfold bind at 1 in H.
  pose proof (wr_frame_update_head g) as HF.
  destruct (wr_snfitsio_update_head g) as [[] gh|] eqn:Eh; [|discriminate].
  rewrite (run_Ok _ _ _ _ Eh) in HF.
  pose proof (wr_rest_SNDATA _ _ (proj1 HF)) as HS.
  unfold bind at 1, gets at 1 in H. rewrite HS in H. fold NEPOCH in H.
  unfold bind at 1 in H. rewrite Hep in H. rewrite UPDATE_EOE_eq in H.
  rewrite HS in H.
  set (gE := set_SNDATA _ gh) in *.
  unfold trips in H. replace (NEPOCH + 1 - 1 + 1) with (NEPOCH + 1) in H by lia.
  unfold bind at 1 in H.
  pose proof (follows_for_fold (wr_frame ITYPE_SNFITSIO_PHOT)
                (wr_frame_refl _) (wr_frame_trans _)
                (Z.to_nat (NEPOCH + 1)) (UPDATE_epoch NEPOCH)) as HFL.
  destruct (for_fold _ 1 _ 0 gE) as [NUSE gL|] eqn:EL; [|discriminate].
  exists gh, gL.
  assert (HSL : SNDATA gL = EOE_SNDATA (NEPOCH + 1) (SNDATA g)).
  { specialize (HFL (fun i a =>
      ltac:(unfold UPDATE_epoch;
            follows_go ltac:(apply wr_frame_update_phot))) 1 0 gE).
    rewrite (run_Ok _ _ _ _ EL) in HFL.
    now rewrite (wr_rest_SNDATA _ _ (proj1 HFL)). }
  unfold bind at 1, gets at 1 in H. rewrite HSL in H.
  destruct (EOE_SNDATA_scalars (NEPOCH + 1) (SNDATA g)) as (Hi & _).
  rewrite Hi in H. unfold bind at 1 in H.
  destruct (NUSE =? sn_int (SNDATA g) "NOBS") eqn:E;
    unfold when, errmsg_FATAL in H; cbn [negb] in H; [|discriminate].
  apply Z.eqb_eq in E. subst NUSE.
  split; [reflexivity|]. split; [exact EL|].
  unfold ret at 1, bind at 1, gets at 1 in H.
  destruct (SNFITSIO_SIMFLAG_SPECTROGRAPH gL).
  - unfold bind at 1, gets at 1 in H.
    split.
    + pose proof (follows_for_loop (keeps ITYPE_SNFITSIO_HEAD)
                    (keeps_refl _) (keeps_trans _)
                    (Z.to_nat (gs_int (GENSPEC gL) "NMJD_TOT" - 1 - 0 + 1))
                    wr_snfitsio_update_spec
                    (fun i => keeps_update_spec ITYPE_SNFITSIO_HEAD i
                                ltac:(discriminate) ltac:(discriminate))
                    0 gL) as HK.
      now rewrite (run_Ok _ _ _ _ H) in HK.
    + pose proof (follows_for_loop (keeps ITYPE_SNFITSIO_PHOT)
                    (keeps_refl _) (keeps_trans _)
                    (Z.to_nat (gs_int (GENSPEC gL) "NMJD_TOT" - 1 - 0 + 1))
                    wr_snfitsio_update_spec
                    (fun i => keeps_update_spec ITYPE_SNFITSIO_PHOT i
                                ltac:(discriminate) ltac:(discriminate))
                    0 gL) as HK.
      now rewrite (run_Ok _ _ _ _ H) in HK.
  - injection H as <-. split; apply keeps_refl.
Qed.

Lemma written_EOE (w : Z -> bool) NEPOCH :
  0 <= NEPOCH ->
  written (fun e => if e =? NEPOCH + 1 then true else w e) 1
    (Z.to_nat (NEPOCH + 1))
  = written w 1 (Z.to_nat NEPOCH) ++ [NEPOCH + 1].
Proof.
  intros H. replace (Z.to_nat (NEPOCH + 1)) with (S (Z.to_nat NEPOCH)) by lia.
  rewrite written_snoc, Z2Nat.id by lia.
  replace (1 + NEPOCH =? NEPOCH + 1) with true by (symmetry; apply Z.eqb_eq; lia).
  replace (1 + NEPOCH) with (NEPOCH + 1) by lia. f_equal.
  apply written_ext. intros ep Hep. rewrite Z2Nat.id in Hep by lia.
  now replace (ep =? NEPOCH + 1) with false by (symmetry; apply Z.eqb_neq; lia).
Qed.

Lemma wr_rest_set_SNDATA x h :
  wr_rest (set_SNDATA x h) = set_SNDATA x (wr_rest h).
Proof. reflexivity. Qed.

(** A Header row written is one more row counted. *)
Lemma NROW_update_head g :
  NROW (WR_SNFITSIO_TABLEVAL (run wr_snfitsio_update_head g)
          ITYPE_SNFITSIO_HEAD)
  = int_cast (NROW (WR_SNFITSIO_TABLEVAL g ITYPE_SNFITSIO_HEAD) + 1).
Proof.
  unfold wr_snfitsio_update_head. cbv zeta. rewrite run_bind.
  change (NROW_incr ITYPE_SNFITSIO_HEAD g)
    with (Ok tt (run (NROW_incr ITYPE_SNFITSIO_HEAD) g)).
  set (g1 := run (NROW_incr ITYPE_SNFITSIO_HEAD) g).
  rewrite <- (NROW_NROW_incr ITYPE_SNFITSIO_HEAD g). fold g1.
  match goal with
  | |- NROW (WR_SNFITSIO_TABLEVAL (run ?m g1) _) = _ =>
      assert (H : follows (row_frame ITYPE_SNFITSIO_HEAD) m)
  end.
  { follows_go ltac:(idtac; lazymatch goal with
      | |- follows _ (fill_fields _ _ _) => apply row_frame_fill_fields
      | |- follows _ check_required_headkeys =>
          apply row_frame_check_required_headkeys
      end). }
  apply (H g1).
Qed.

(** What one record adds to the two tables, when [WR_SNFITSIO_UPDATE]
    returns: one Header row, and in Photometry one row per flagged epoch
    followed by the row of the end-of-event epoch. *)
Lemma WR_SNFITSIO_UPDATE_Ok g g' :
  let NEPOCH := sn_int (SNDATA g) "NEPOCH" in
  let NOBS := sn_int (SNDATA g) "NOBS" in
  let h0 := NROW (WR_SNFITSIO_TABLEVAL g ITYPE_SNFITSIO_HEAD) in
  let r0 := NROW (WR_SNFITSIO_TABLEVAL g ITYPE_SNFITSIO_PHOT) in
  let gE := set_SNDATA (EOE_SNDATA (NEPOCH + 1) (SNDATA g)) g in
  let eps := written (sn_bool_arr (SNDATA g) "OBSFLAG_WRITE") 1
               (Z.to_nat NEPOCH) ++ [NEPOCH + 1] in
  0 <= NEPOCH < INT_MAX ->
  0 <= r0 -> r0 + NEPOCH + 1 <= INT_MAX ->
  WR_SNFITSIO_UPDATE g = Ok tt g' ->
  NOBS = NUSE_of g /\
  Z.of_nat (length eps) = NOBS + 1 /\
  NROW (WR_SNFITSIO_TABLEVAL g' ITYPE_SNFITSIO_PHOT) = r0 + NOBS + 1 /\
  same_tables g g' /\
  (0 <= h0 < INT_MAX ->
   row_ok g ITYPE_SNFITSIO_HEAD (head_row g (r0 + 1) (r0 + NOBS)) = true ->
   NROW (WR_SNFITSIO_TABLEVAL g' ITYPE_SNFITSIO_HEAD) = h0 + 1 /\
   CELLS (fp_snfitsFile g' ITYPE_SNFITSIO_HEAD)
     = fill_cells g ITYPE_SNFITSIO_HEAD (h0 + 1)
         (head_row g (r0 + 1) (r0 + NOBS))
         (CELLS (fp_snfitsFile g ITYPE_SNFITSIO_HEAD)) /\
   Forall (fun f => exists c,
             column_of g ITYPE_SNFITSIO_HEAD (fst f) = Some c)
     (head_row g (r0 + 1) (r0 + NOBS))) /\
  (row_ok g ITYPE_SNFITSIO_PHOT (phot_fields g 1) = true ->
   CELLS (fp_snfitsFile g' ITYPE_SNFITSIO_PHOT)
     = phot_rows gE r0 eps (CELLS (fp_snfitsFile g ITYPE_SNFITSIO_PHOT)) /\
   NAXIS2 (fp_snfitsFile g' ITYPE_SNFITSIO_PHOT)
     = Z.max (NAXIS2 (fp_snfitsFile g ITYPE_SNFITSIO_PHOT))
         (r0 + NOBS + 1) /\
   Forall (fun f => exists c,
             column_of g ITYPE_SNFITSIO_PHOT (fst f) = Some c)
     (phot_fields g 1)).
Proof.
  intros NEPOCH NOBS h0 r0 gE eps HN Hr Hmax H.
  destruct (WR_SNFITSIO_UPDATE_inv g g' HN H)
    as (gh & gL & Eh & EL & HKH & HKP).
  fold NEPOCH NOBS in EL.
  pose proof (wr_frame_update_head g) as HF.
  rewrite (run_Ok _ _ _ _ Eh) in HF.
  destruct HF as (Hresth & Hoth & _).
  destruct (Hoth ITYPE_SNFITSIO_PHOT) as [HfpP HWP]; [discriminate|].
  set (gEh := set_SNDATA (EOE_SNDATA (NEPOCH + 1) (SNDATA g)) gh) in *.
  assert (HrE : wr_rest gEh = wr_rest gE).
  { subst gEh gE. rewrite !wr_rest_set_SNDATA. f_equal. exact Hresth. }
  assert (HWE : WR_SNFITSIO_TABLEVAL gEh ITYPE_SNFITSIO_PHOT
                = WR_SNFITSIO_TABLEVAL g ITYPE_SNFITSIO_PHOT) by exact HWP.
  assert (HfE : fp_snfitsFile gEh ITYPE_SNFITSIO_PHOT
                = fp_snfitsFile g ITYPE_SNFITSIO_PHOT) by exact HfpP.
  assert (HtE : same_tables g gEh) by (apply (wr_rest_tables g gh Hresth)).
  assert (HcE : same_config g gEh).
  { destruct (wr_rest_config _ _ Hresth) as (H1 & H2 & H3 & H4 & _).
    destruct (EOE_SNDATA_scalars (NEPOCH + 1) (SNDATA g)) as (Hi & Hs & _).
    repeat split; assumption. }
  pose proof EL as EL2.
  apply UPDATE_epoch_loop in EL; rewrite ?HWE; fold r0; try lia.
  cbv zeta in EL. rewrite HWE in EL. fold r0 in EL.
  change (SNDATA gEh) with (EOE_SNDATA (NEPOCH + 1) (SNDATA g)) in EL.
  assert (Hw : forall e,
    sn_bool_arr (EOE_SNDATA (NEPOCH + 1) (SNDATA g)) "OBSFLAG_WRITE" e
    = (fun e => if e =? NEPOCH + 1 then true
                else sn_bool_arr (SNDATA g) "OBSFLAG_WRITE" e) e)
    by (intros; apply EOE_SNDATA_flag).
  destruct EL as (Ha & HNL & HFL).
  rewrite (count_write_ext _ _ _ _
             (fun ep _ => f_equal (fun b => b && (ep <=? NEPOCH)) (Hw ep)))
    in Ha.
  rewrite (count_write_ext _ _ _ _ (fun ep _ => Hw ep)) in HNL.
  destruct (count_write_EOE (sn_bool_arr (SNDATA g) "OBSFLAG_WRITE") NEPOCH
              (proj1 HN)) as [Hc1 Hc2].
  rewrite Hc1 in Ha. rewrite Hc2 in HNL.
  change (count_write _ 1 (Z.to_nat NEPOCH)) with (NUSE_of g) in Ha, HNL.
  assert (HNU : NOBS = NUSE_of g) by lia.
  pose proof (count_write_bound (sn_bool_arr (SNDATA g) "OBSFLAG_WRITE")
                (Z.to_nat NEPOCH) 1) as Hbound.
  change (count_write _ 1 (Z.to_nat NEPOCH)) with (NUSE_of g) in Hbound.
  assert (Hlen : Z.of_nat (length eps) = NOBS + 1).
  { subst eps. rewrite length_app, Nat2Z.inj_add, written_length.
    cbn [length]. change (count_write _ 1 (Z.to_nat NEPOCH)) with (NUSE_of g).
    lia. }
  destruct HFL as (HrestL & HothL & _).
  destruct (HothL ITYPE_SNFITSIO_HEAD) as [HfL HWL]; [discriminate|].
  destruct HKH as (HrK & HfK & HWK). destruct HKP as (_ & HfKP & HWKP).
  split; [exact HNU|]. split; [exact Hlen|].
  split; [rewrite HWKP, HNL; lia|].
  split.
  { apply wr_rest_tables in HrK, HrestL.
    destruct HrK as [K1 K2], HrestL as [L1 L2], HtE as [E1 E2].
    split; congruence. }
  split.
  - intros Hh HokH.
    apply update_head_Ok in Eh; fold h0 r0 NOBS; try lia; try assumption.
    cbv zeta in Eh. fold h0 r0 NOBS in Eh.
    destruct Eh as (HNh & HCh & HexH & _).
    split; [rewrite HWK, HWL; exact HNh|].
    split; [rewrite HfK, HfL; exact HCh | exact HexH].
  - intros HokP.
    assert (HokE : forall ep,
      row_ok gEh ITYPE_SNFITSIO_PHOT (phot_fields gEh ep) = true).
    { intros ep.
      rewrite (row_ok_ext g gEh) by (try assumption; now rewrite HWE).
      rewrite <- HokP. apply same_shape_row_ok.
      apply Forall2_flip.
      eapply Forall2_impl; [apply (phot_fields_shape g gEh 1 ep HcE)|].
      intros f f' [-> Hk]. split; [reflexivity|]. intros. now rewrite Hk. }
    apply UPDATE_epoch_rows in EL2; rewrite ?HWE; fold r0; try lia;
      try assumption.
    cbv zeta in EL2. rewrite HWE, HfE in EL2. fold r0 in EL2.
    change (SNDATA gEh) with (EOE_SNDATA (NEPOCH + 1) (SNDATA g)) in EL2.
    rewrite (written_ext _ _ _ _ (fun ep _ => Hw ep)) in EL2.
    rewrite written_EOE in EL2 by lia. fold eps in EL2.
    destruct EL2 as (_ & HCL & HXL & _ & HexP & _).
    split; [rewrite HfKP, HCL; now apply phot_rows_ext|].
    split.
    { rewrite HfKP, HXL, Hlen. subst eps.
      destruct (written _ 1 (Z.to_nat NEPOCH)); cbn [app]; lia. }
    assert (Hne : eps <> [])
      by (subst eps; destruct (written _ 1 (Z.to_nat NEPOCH)); discriminate).
    specialize (HexP Hne).
    apply (Forall2_Forall_r_shape
             (fun n => exists c, column_of g ITYPE_SNFITSIO_PHOT n = Some c)
             (phot_fields gEh 1)).
    + apply Forall2_flip.
      eapply Forall2_impl; [apply (phot_fields_shape g gEh 1 1 HcE)|].
      intros f f' [-> Hk]. split; [reflexivity|]. intros. now rewrite Hk.
    + eapply Forall_impl; [exact HexP|]. intros f [c Hc'].
      exists c. now rewrite <- (column_of_same g gEh).
Qed.

End Rows.

Section EndOfEvent.
Context {K : constants}.

Lemma phot_rows_below g eps : forall row m c r,
  r <= row -> phot_rows g row eps m !! (c, r) = m !! (c, r).
Proof.
  induction eps as [|ep eps IH]; intros row m c r Hr; [reflexivity|].
  cbn [phot_rows]. rewrite IH by lia. apply fill_cells_other_row. lia.
Qed.

(** Row [row + 1 + k] holds the fields of the [k]-th epoch written. *)
Lemma phot_rows_lookup g eps : forall row m k ep n v c,
  nth_error eps k = Some ep ->
  nodupb (map fst (phot_fields g ep)) = true ->
  In (n, v) (phot_fields g ep) ->
  column_of g ITYPE_SNFITSIO_PHOT n = Some c ->
  phot_rows g row eps m !! (c, row + 1 + Z.of_nat k) = Some (cell_of v).
Proof.
  induction eps as [|e eps IH]; intros row m k ep n v c Hk Hnd Hin Hc;
    [destruct k; discriminate|].
  cbn [phot_rows]. destruct k as [|k].
  - injection Hk as ->. rewrite phot_rows_below by (cbn; lia).
    replace (row + 1 + Z.of_nat 0) with (row + 1) by (cbn; lia).
    now apply (fill_cells_lookup _ _ _ _ n v c).
  - replace (row + 1 + Z.of_nat (S k)) with (row + 1 + 1 + Z.of_nat k) by lia.
    now apply (IH (row + 1) _ k ep n v c).
Qed.

Lemma EOE_double_other ep sn m e :
  e <> ep -> sn_double_arr (EOE_SNDATA ep sn) m e = sn_double_arr sn m e.
Proof. intros H. exact (proj1 (EOE_SNDATA_other ep sn m e H)). Qed.

Lemma EOE_float_other ep sn m e :
  e <> ep -> sn_float_arr (EOE_SNDATA ep sn) m e = sn_float_arr sn m e.
Proof. intros H. exact (proj1 (proj2 (EOE_SNDATA_other ep sn m e H))). Qed.

Lemma EOE_string_other ep sn m e :
  e <> ep -> sn_string_arr (EOE_SNDATA ep sn) m e = sn_string_arr sn m e.
Proof. intros H. exact (proj2 (proj2 (EOE_SNDATA_other ep sn m e H))). Qed.

(** The rows of the real epochs are written from SNDATA as the caller
    left it. *)
Lemma phot_fields_EOE g ep0 ep :
  ep <> ep0 ->
  phot_fields (set_SNDATA (EOE_SNDATA ep0 (SNDATA g)) g) ep = phot_fields g ep.
Proof.
  intros H. destruct (EOE_SNDATA_scalars ep0 (SNDATA g)) as (Hi & Hs & Hia).
  unfold phot_fields. cbv zeta.
  change (SNDATA (set_SNDATA (EOE_SNDATA ep0 (SNDATA g)) g))
    with (EOE_SNDATA ep0 (SNDATA g)).
  rewrite Hi, Hs, Hia.
  rewrite ?EOE_double_other, ?EOE_float_other, ?EOE_string_other by assumption.
  reflexivity.
Qed.

(** The first fields of the end-of-event row. *)
Lemma phot_fields_EOE_row g ep :
  let gE := set_SNDATA (EOE_SNDATA ep (SNDATA g)) g in
  let M := SNFITSIO_EOE_MARKER in
  In ("MJD"%string, st_1D M) (phot_fields gE ep) /\
  In ("BAND"%string, st_A "-") (phot_fields gE ep) /\
  In ("FIELD"%string, st_A "XXXX") (phot_fields gE ep) /\
  In ("FLUXCAL"%string, st_1E (float_of_double M)) (phot_fields gE ep) /\
  In ("FLUXCALERR"%string, st_1E (float_of_double M)) (phot_fields gE ep).
Proof.
  intros gE M.
  destruct (EOE_SNDATA_marker ep (SNDATA g)) as (H1 & H2 & H3 & H4 & H5).
  unfold phot_fields. cbv zeta.
  change (SNDATA gE) with (EOE_SNDATA ep (SNDATA g)).
  rewrite H1, H2, H3, H4, H5. cbn [app In]. fold M.
  repeat split; auto 10.
Qed.

Lemma nth_error_written w n lo k ep :
  nth_error (written w lo n) k = Some ep ->
  lo <= ep < lo + Z.of_nat n /\ (k < length (written w lo n))%nat.
Proof.
  intros H. split.
  - apply nth_error_In in H. now apply written_range in H.
  - apply nth_error_Some. congruence.
Qed.

(** C3: when [WR_SNFITSIO_UPDATE] returns, the Photometry rows that were
    there are as they were; below them the record has one row for each of
    its NOBS real epochs with the write flag set, in epoch order, holding
    the caller's values; and below those exactly one more row, the last of
    the table, which holds the reserved marker in MJD, FLUXCAL and
    FLUXCALERR and the placeholders [-] in BAND and [XXXX] in FIELD. *)
Theorem WR_SNFITSIO_UPDATE_end_of_event g g' :
  let NEPOCH := sn_int (SNDATA g) "NEPOCH" in
  let NOBS := sn_int (SNDATA g) "NOBS" in
  let r0 := NROW (WR_SNFITSIO_TABLEVAL g ITYPE_SNFITSIO_PHOT) in
  let M := SNFITSIO_EOE_MARKER in
  0 <= NEPOCH < INT_MAX -> 0 <= r0 -> r0 + NEPOCH + 1 <= INT_MAX ->
  row_ok g ITYPE_SNFITSIO_PHOT (phot_fields g 1) = true ->
  WR_SNFITSIO_UPDATE g = Ok tt g' ->
  let r := NROW (WR_SNFITSIO_TABLEVAL g' ITYPE_SNFITSIO_PHOT) in
  let cells := CELLS (fp_snfitsFile g' ITYPE_SNFITSIO_PHOT) in
  r = r0 + NOBS + 1 /\
  (forall c r', r' <= r0 ->
     cells !! (c, r') = CELLS (fp_snfitsFile g ITYPE_SNFITSIO_PHOT) !! (c, r')) /\
  (forall k ep,
     nth_error (written (sn_bool_arr (SNDATA g) "OBSFLAG_WRITE") 1
                  (Z.to_nat NEPOCH)) k = Some ep ->
     1 <= ep <= NEPOCH /\ Z.of_nat k < NOBS /\
     forall n v, In (n, v) (phot_fields g ep) ->
       exists c, column_of g ITYPE_SNFITSIO_PHOT n = Some c /\
                 cells !! (c, r0 + 1 + Z.of_nat k) = Some (cell_of v)) /\
  (forall n x,
     In (n, x) [ ("MJD", TDOUBLE M); ("FLUXCAL", TFLOAT (float_of_double M));
                 ("FLUXCALERR", TFLOAT (float_of_double M));
                 ("BAND", TSTRING "-"); ("FIELD", TSTRING "XXXX") ]%string ->
     exists c, column_of g ITYPE_SNFITSIO_PHOT n = Some c /\
               cells !! (c, r) = Some x).
Proof.
  intros NEPOCH NOBS r0 M HN Hr Hmax HokP H r cells.
  destruct (WR_SNFITSIO_UPDATE_Ok g g' HN Hr Hmax H)
    as (HNU & Hlen & HNP & _ & _ & HP).
  destruct (HP HokP) as (HCP & _ & HexP).
  fold NEPOCH NOBS r0 in HNU, Hlen, HNP, HCP. fold r in HNP. fold cells in HCP.
  set (gE := set_SNDATA (EOE_SNDATA (NEPOCH + 1) (SNDATA g)) g) in *.
  set (wr := written (sn_bool_arr (SNDATA g) "OBSFLAG_WRITE") 1
               (Z.to_nat NEPOCH)) in *.
  rewrite length_app, Nat2Z.inj_add in Hlen. cbn [length] in Hlen.
  destruct (row_ok_inv _ _ _ HokP) as (_ & _ & Hnd & _).
  assert (HcE : same_config g gE).
  { destruct (EOE_SNDATA_scalars (NEPOCH + 1) (SNDATA g)) as (Hi & Hs & _).
    repeat split; assumption. }
  assert (Hshape : forall ep, same_shape (phot_fields g 1) (phot_fields gE ep))
    by (intros; now apply phot_fields_shape).
  assert (HndE : forall ep, nodupb (map fst (phot_fields gE ep)) = true)
    by (intros ep; now rewrite <- (same_shape_names _ _ (Hshape ep))).
  assert (HexE : forall ep n v, In (n, v) (phot_fields gE ep) ->
            exists c, column_of g ITYPE_SNFITSIO_PHOT n = Some c).
  { intros ep n v Hin.
    pose proof (Forall2_Forall_r_shape
                  (fun n => exists c,
                     column_of g ITYPE_SNFITSIO_PHOT n = Some c)
                  _ _ (Hshape ep) HexP) as HF.
    exact (proj1 (List.Forall_forall _ _) HF (n, v) Hin). }
  split; [exact HNP|]. split; [|split].
  - intros c r' Hr'. rewrite HCP. now apply phot_rows_below.
  - intros k ep Hk. destruct (nth_error_written _ _ _ _ _ Hk) as [Hep Hkl].
    fold wr in Hkl. split; [lia|]. split; [lia|].
    intros n v Hin.
    rewrite <- (phot_fields_EOE g (NEPOCH + 1) ep) in Hin by lia. fold gE in Hin.
    destruct (HexE ep n v Hin) as [c Hc]. exists c. split; [exact Hc|].
    rewrite HCP. apply (phot_rows_lookup gE _ _ _ k ep n v c); auto.
    rewrite nth_error_app1 by exact Hkl. exact Hk.
  - intros n x Hin.
    destruct (phot_fields_EOE_row g (NEPOCH + 1)) as (H1 & H2 & H3 & H4 & H5).
    fold gE M in H1, H2, H3, H4, H5.
    assert (Hrow : forall v, In (n, v) (phot_fields gE (NEPOCH + 1)) ->
              exists c, column_of g ITYPE_SNFITSIO_PHOT n = Some c /\
                        cells !! (c, r) = Some (cell_of v)).
    { intros v Hv. destruct (HexE _ n v Hv) as [c Hc]. exists c.
      split; [exact Hc|]. rewrite HCP.
      replace r with (r0 + 1 + Z.of_nat (length wr)) by lia.
      apply (phot_rows_lookup gE _ _ _ (length wr) (NEPOCH + 1) n v c); auto.
      rewrite nth_error_app2 by lia. now rewrite Nat.sub_diag. }
    cbn [In] in Hin.
    destruct Hin as [E|[E|[E|[E|[E|[]]]]]]; injection E as <- <-.
    + exact (Hrow _ H1).
    + exact (Hrow _ H4).
    + exact (Hrow _ H5).
    + exact (Hrow _ H2).
    + exact (Hrow _ H3).
Qed.

End EndOfEvent.

(** The sample record: its two flagged epochs go to rows 1 and 2 and the
    end-of-event row is row 3, detectable by the marker in MJD. *)
Lemma WR_SNFITSIO_UPDATE_end_of_event_witness :
  exists g' c,
    WR_SNFITSIO_UPDATE (K := sample_constants) sample_writer = Ok tt g' /\
    NROW (WR_SNFITSIO_TABLEVAL g' ITYPE_SNFITSIO_PHOT) = 3 /\
    column_of sample_writer ITYPE_SNFITSIO_PHOT "MJD" = Some c /\
    CELLS (fp_snfitsFile g' ITYPE_SNFITSIO_PHOT) !! (c, 3)
      = Some (TDOUBLE (double_of_Z (-777))).
Proof.
  assert (H : is_Ok (WR_SNFITSIO_UPDATE (K := sample_constants) sample_writer)
              = true) by (vm_compute; reflexivity).
  destruct (is_Ok_inv _ H) as ([] & g' & E).
  destruct (WR_SNFITSIO_UPDATE_end_of_event (K := sample_constants)
              sample_writer g') as (Hr & _ & _ & Heoe);
    [vm_compute; split; congruence | vm_compute; congruence
    | vm_compute; congruence | vm_compute; reflexivity | exact E |].
  destruct (Heoe "MJD"%string (TDOUBLE (double_of_Z (-777))))
    as (c & Hc & Hcell); [left; reflexivity|].
  exists g', c. split; [exact E|]. split; [exact Hr|].
  split; [exact Hc|]. rewrite <- Hcell. now rewrite Hr.
Defined.

Section Pointers.
Context {K : constants}.

Lemma head_row_PTROBS g a b :
  In ("PTROBS_MIN"%string, st_1J a) (head_row g a b) /\
  In ("PTROBS_MAX"%string, st_1J b) (head_row g a b).
Proof.
  unfold head_row, head_fields. cbv zeta. rewrite !in_app_iff.
  split; left; do 3 right; left; cbn [In]; auto 20.
Qed.

(** C2 (as the code has it): for two records written one after the other
    to the same partition, the Header cells PTROBS_MIN and PTROBS_MAX of the
    first hold the Photometry row counter before its epochs plus one, and
    that plus NOBS minus one; those of the second start two rows after the
    first record's PTROBS_MAX, the end-of-event row lying between them; and
    for each record PTROBS_MAX - PTROBS_MIN + 1 is its NOBS. *)
Theorem PTROBS_pointers_consecutive g sn2 g1 g2 :
  let ga := set_SNDATA sn2 g1 in
  let h0 := NROW (WR_SNFITSIO_TABLEVAL g ITYPE_SNFITSIO_HEAD) in
  let r0 := NROW (WR_SNFITSIO_TABLEVAL g ITYPE_SNFITSIO_PHOT) in
  head_ready g -> WR_SNFITSIO_UPDATE g = Ok tt g1 ->
  head_ready ga -> WR_SNFITSIO_UPDATE ga = Ok tt g2 ->
  exists cmin cmax MIN1 MAX1 MIN2 MAX2,
    column_of g ITYPE_SNFITSIO_HEAD "PTROBS_MIN" = Some cmin /\
    column_of g ITYPE_SNFITSIO_HEAD "PTROBS_MAX" = Some cmax /\
    let cells := CELLS (fp_snfitsFile g2 ITYPE_SNFITSIO_HEAD) in
    cells !! (cmin, h0 + 1) = Some (TINT MIN1) /\
    cells !! (cmax, h0 + 1) = Some (TINT MAX1) /\
    cells !! (cmin, h0 + 2) = Some (TINT MIN2) /\
    cells !! (cmax, h0 + 2) = Some (TINT MAX2) /\
    MIN1 = r0 + 1 /\
    MAX1 - MIN1 + 1 = sn_int (SNDATA g) "NOBS" /\
    MAX2 - MIN2 + 1 = sn_int sn2 "NOBS" /\
    MAX1 + 2 = MIN2.
Proof.
  intros ga h0 r0 (HN & Hh & Hr & Hmax & Hok) H1 (HN' & Hh' & Hr' & Hmax' & Hok') H2.
  fold h0 r0 in Hh, Hr, Hmax, Hok.
  destruct (WR_SNFITSIO_UPDATE_Ok g g1 HN Hr Hmax H1)
    as (_ & _ & HNP1 & Ht1 & HH1 & _).
  fold r0 in HNP1. cbv zeta in HH1. fold h0 r0 in HH1.
  destruct (HH1 Hh Hok) as (HNH1 & HC1 & Hex1).
  destruct (WR_SNFITSIO_UPDATE_Ok ga g2 HN' Hr' Hmax' H2)
    as (_ & _ & _ & _ & HH2 & _).
  cbv zeta in HH2. destruct (HH2 Hh' Hok') as (_ & HC2 & _).
  change (SNDATA ga) with sn2 in *.
  change (WR_SNFITSIO_TABLEVAL ga) with (WR_SNFITSIO_TABLEVAL g1) in *.
  change (fp_snfitsFile ga) with (fp_snfitsFile g1) in *.
  rewrite HNH1, HNP1 in HC2. rewrite HNP1 in Hok'.
  set (NOBS1 := sn_int (SNDATA g) "NOBS") in *.
  set (NOBS2 := sn_int sn2 "NOBS") in *.
  set (r1 := r0 + NOBS1 + 1) in *.
  destruct (head_row_PTROBS g (r0 + 1) (r0 + NOBS1)) as [Imin1 Imax1].
  destruct (head_row_PTROBS ga (r1 + 1) (r1 + NOBS2)) as [Imin2 Imax2].
  pose proof (proj1 (List.Forall_forall _ _) Hex1) as Hcol.
  destruct (Hcol _ Imin1) as [cmin Hcmin], (Hcol _ Imax1) as [cmax Hcmax].
  cbn [fst] in Hcmin, Hcmax.
  destruct (row_ok_inv _ _ _ Hok) as (_ & _ & Hnd & _).
  destruct (row_ok_inv _ _ _ Hok') as (_ & _ & Hnd' & _).
  assert (Hta : same_tables g ga) by exact Ht1.
  exists cmin, cmax, (r0 + 1), (r0 + NOBS1), (r1 + 1), (r1 + NOBS2).
  split; [exact Hcmin|]. split; [exact Hcmax|]. cbv zeta. rewrite HC2.
  split; [|split; [|split; [|split]]].
  - rewrite fill_cells_other_row by lia. rewrite HC1.
    now apply (fill_cells_lookup _ _ _ _ "PTROBS_MIN"%string (st_1J (r0 + 1))).
  - rewrite fill_cells_other_row by lia. rewrite HC1.
    now apply (fill_cells_lookup _ _ _ _ "PTROBS_MAX"%string
                 (st_1J (r0 + NOBS1))).
  - replace (h0 + 2) with (h0 + 1 + 1) by lia.
    apply (fill_cells_lookup _ _ _ _ "PTROBS_MIN"%string (st_1J (r1 + 1)));
      [exact Hnd' | exact Imin2|].
    etransitivity; [apply (column_of_same g ga _ _ Hta) | exact Hcmin].
  - replace (h0 + 2) with (h0 + 1 + 1) by lia.
    apply (fill_cells_lookup _ _ _ _ "PTROBS_MAX"%string
             (st_1J (r1 + NOBS2))); [exact Hnd' | exact Imax2|].
    etransitivity; [apply (column_of_same g ga _ _ Hta) | exact Hcmax].
  - subst r1. repeat split; lia.
Qed.

End Pointers.

(** The sample record written twice: the first record's PTROBS_MAX is 2,
    the second's PTROBS_MIN is 4. *)
Lemma PTROBS_pointers_consecutive_witness :
  exists cmin cmax,
    column_of sample_writer ITYPE_SNFITSIO_HEAD "PTROBS_MIN" = Some cmin /\
    column_of sample_writer ITYPE_SNFITSIO_HEAD "PTROBS_MAX" = Some cmax /\
    CELLS (fp_snfitsFile sample_written_2 ITYPE_SNFITSIO_HEAD) !! (cmax, 1)
      = Some (TINT 2) /\
    CELLS (fp_snfitsFile sample_written_2 ITYPE_SNFITSIO_HEAD) !! (cmin, 2)
      = Some (TINT 4).
Proof.
  assert (E1 : WR_SNFITSIO_UPDATE (K := sample_constants) sample_writer
               = Ok tt sample_written_1)
    by (apply is_Ok_run; vm_compute; reflexivity).
  assert (E2 : WR_SNFITSIO_UPDATE (K := sample_constants)
                 (set_SNDATA sample_SNDATA sample_written_1)
               = Ok tt sample_written_2)
    by (apply is_Ok_run; vm_compute; reflexivity).
  destruct (PTROBS_pointers_consecutive (K := sample_constants)
              sample_writer sample_SNDATA sample_written_1 sample_written_2)
    as (cmin & cmax & MIN1 & MAX1 & MIN2 & MAX2 & Hcmin & Hcmax & Hcells);
    [repeat split; vm_compute; congruence | exact E1
    | repeat split; vm_compute; congruence | exact E2 |].
  cbv zeta in Hcells.
  destruct Hcells as (_ & Hmax1 & Hmin2 & _ & HMIN1 & HNOBS1 & _ & Hnext).
  exists cmin, cmax. split; [exact Hcmin|]. split; [exact Hcmax|].
  assert (Hn : sn_int (SNDATA sample_writer) "NOBS" = 2)
    by (vm_compute; reflexivity).
  assert (Hr : NROW (WR_SNFITSIO_TABLEVAL sample_writer ITYPE_SNFITSIO_PHOT)
               = 0) by (vm_compute; reflexivity).
  assert (Hh : NROW (WR_SNFITSIO_TABLEVAL sample_writer ITYPE_SNFITSIO_HEAD)
               = 0) by (vm_compute; reflexivity).
  rewrite Hn in HNOBS1. rewrite Hr in HMIN1. rewrite Hh in Hmax1, Hmin2.
  assert (HM1 : MAX1 = 2) by lia.
  assert (HM2 : MIN2 = 4) by lia.
  rewrite HM1 in Hmax1. rewrite HM2 in Hmin2.
  split; [exact Hmax1 | exact Hmin2].
Defined.

(** C2, counterexample: after the sample record is written twice, the
    first record's PTROBS_MAX is 2 and the second record's PTROBS_MIN is 4,
    not 3: row 3 is the end-of-event row of the first record. *)
Lemma PTROBS_MAX_plus_1_is_not_next_MIN :
  exists cmin cmax MAX1 MIN2,
    column_of sample_writer ITYPE_SNFITSIO_HEAD "PTROBS_MIN" = Some cmin /\
    column_of sample_writer ITYPE_SNFITSIO_HEAD "PTROBS_MAX" = Some cmax /\
    CELLS (fp_snfitsFile sample_written_2 ITYPE_SNFITSIO_HEAD) !! (cmax, 1)
      = Some (TINT MAX1) /\
    CELLS (fp_snfitsFile sample_written_2 ITYPE_SNFITSIO_HEAD) !! (cmin, 2)
      = Some (TINT MIN2) /\
    MAX1 + 1 <> MIN2.
Proof.
  exists 13, 14, 2, 4. repeat split; try (vm_compute; reflexivity). lia.
Qed.

(** ** Reading *)

Section Unknown.
Context {K : constants}.

(** The search over HEAD and PHOT, in terms of the scans. *)
Lemma PARVAL_search_eq parName g :
  PARVAL_search parName g =
  match column_of g ITYPE_SNFITSIO_HEAD parName with
  | Some c =>
      Ok (Some (ITYPE_SNFITSIO_HEAD, c))
        (set_NCALL_IPAR_SNFITSIO (NCALL_IPAR_SNFITSIO g + 1) g)
  | None =>
      let g2 := set_NCALL_IPAR_SNFITSIO (NCALL_IPAR_SNFITSIO g + 1 + 1) g in
      match column_of g ITYPE_SNFITSIO_PHOT parName with
      | Some c => Ok (Some (ITYPE_SNFITSIO_PHOT, c)) g2
      | None => Ok None g2
      end
  end.
Proof.
  unfold PARVAL_search. unfold bind at 1. rewrite IPAR_SNFITSIO_eq. cbv zeta.
  change (column_of g 0 parName) with (column_of g ITYPE_SNFITSIO_HEAD parName).
  destruct (column_of g ITYPE_SNFITSIO_HEAD parName) as [c|] eqn:E.
  - apply column_of_range in E as [E _].
    replace (0 <? c) with true by (symmetry; apply Z.ltb_lt; lia). reflexivity.
  - cbn [Z.eqb Z.ltb Z.compare]. unfold bind at 1.
    rewrite IPAR_SNFITSIO_eq. cbv zeta.
    change (column_of (set_NCALL_IPAR_SNFITSIO _ g) 1 parName)
      with (column_of g ITYPE_SNFITSIO_PHOT parName).
    destruct (column_of g ITYPE_SNFITSIO_PHOT parName) as [c|] eqn:E2.
    + apply column_of_range in E2 as [E2 _].
      replace (0 <? c) with true by (symmetry; apply Z.ltb_lt; lia).
      reflexivity.
    + reflexivity.
Qed.

(** The read of a name that is no column of the open tables. *)
Lemma PARVAL_read_unknown isn parName parList parString iptr g :
  column_of g ITYPE_SNFITSIO_HEAD parName = None ->
  column_of g ITYPE_SNFITSIO_PHOT parName = None ->
  PARVAL_read isn parName parList parString iptr g =
  if (iptr =? -999) && negb (isn =? ISNFIRST_SNFITSIO g)
  then Ok (0, parList, parString, -999) g
  else Ok (0, parList, parString, -999)
         (set_NCALL_IPAR_SNFITSIO (NCALL_IPAR_SNFITSIO g + 1 + 1) g).
Proof.
  intros HH HP. unfold PARVAL_read.
  unfold bind at 1, gets at 1. unfold bind at 1, gets at 1. cbv zeta.
  destruct (isn =? ISNFIRST_SNFITSIO g); cbn [negb].
  - rewrite andb_false_r. change (-9 =? -999) with false. cbv iota.
    unfold bind. rewrite PARVAL_search_eq, HH.
    cbv zeta. rewrite HP. reflexivity.
  - rewrite andb_true_r. destruct (iptr =? -999) eqn:E.
    + apply Z.eqb_eq in E. subst iptr. reflexivity.
    + unfold bind. rewrite PARVAL_search_eq, HH. cbv zeta. rewrite HP.
      reflexivity.
Qed.

Lemma same_partition_refl g : same_partition g g.
Proof. split; reflexivity. Qed.

Lemma same_partition_trans a b c :
  same_partition a b -> same_partition b c -> same_partition a c.
Proof. intros [? ?] [? ?]. split; congruence. Qed.

(** Opening a partition assigns neither the partition index nor its first
    record. *)
Lemma same_partition_rd_snfitsio_file ifile :
  follows same_partition (rd_snfitsio_file ifile ;;; rd_snfitsio_specFile ifile).
Proof.
  pose proof same_partition_refl as Hr. pose proof same_partition_trans as Ht.
  unfold rd_snfitsio_file, rd_snfitsio_specFile, rd_snfitsio_open,
    rd_snfitsio_tblpar, rd_snfitsio_malloc, rd_snfitsio_free, rd_snfitsio_head,
    rd_snfitsio_tblcol, IPARFORM_SNFITSIO, formIndex_snfitsio,
    check_required_headkeys, required_report, printf, modify_RD,
    modify_TABLEDEF.
  cbv zeta.
  follows_go ltac:(idtac; lazymatch goal with
    | |- follows _ (IPAR_SNFITSIO _ _ _) =>
        apply follows_IPAR_SNFITSIO; [exact Hr | exact Ht|];
          intros; split; reflexivity
    | |- follows _ (modify _) =>
        apply follows_modify; intros; split; reflexivity
    end).
Qed.

(** [PARVAL_open]: nothing to do for the open partition; otherwise the
    open one is closed and the partition of [isn] is opened with [isn] as
    its first record. *)
Lemma PARVAL_open_eq isn g :
  let ifile :=
    find_ifile (NSNLC_SNFITSIO_SUM g) isn 1 (trips 1 (NFILE_SNFITSIO g)) (-9) in
  PARVAL_open isn g =
  if ifile =? IFILE_SNFITSIO g then Ok tt g
  else
    match RD_SNFITSIO_CLOSE g with
    | Ok _ gc =>
        (rd_snfitsio_file ifile ;;; rd_snfitsio_specFile ifile)%monad
          (set_ISNFIRST_SNFITSIO isn (set_IFILE_SNFITSIO ifile gc))
    | Fatal f c1 c2 gc => Fatal f c1 c2 gc
    end.
Proof.
  intros ifile. unfold PARVAL_open.
  unfold bind at 1, gets at 1. unfold bind at 1, gets at 1. fold ifile.
  destruct (ifile =? IFILE_SNFITSIO g); [reflexivity|].
  cbn [negb when]. unfold bind at 1.
  destruct (RD_SNFITSIO_CLOSE g) as [[] gc|]; reflexivity.
Qed.

Lemma RD_SNFITSIO_PARVAL_eq isn parName parList iptr g :
  RD_SNFITSIO_PARVAL isn parName parList iptr g =
  match PARVAL_open isn g with
  | Ok _ g1 =>
      PARVAL_read isn parName (upd parList 0 (double_of_Z (-9))) EmptyString
        iptr g1
  | Fatal f c1 c2 g1 => Fatal f c1 c2 g1
  end.
Proof. reflexivity. Qed.

(** C7: for a name that is no column of the Header and Photometry tables
    of the partition, [RD_SNFITSIO_PARVAL] returns 0 and hands back the
    pointer -999, on every call.  Within the open partition a call that is
    given the pointer -999 for a record other than the first one read from
    the partition returns at once, without a call of [IPAR_SNFITSIO]; every
    other call searches both tables.  A call that has to open another
    partition makes its record the first of that partition, so the search
    runs whatever the pointer. *)
Theorem RD_SNFITSIO_PARVAL_unknown isn parName parList iptr g :
  let ifile :=
    find_ifile (NSNLC_SNFITSIO_SUM g) isn 1 (trips 1 (NFILE_SNFITSIO g)) (-9) in
  let out :=
    (0, upd parList 0 (double_of_Z (-9)), EmptyString, -999) in
  let searched (g1 : globals) :=
    set_NCALL_IPAR_SNFITSIO (NCALL_IPAR_SNFITSIO g1 + 1 + 1) g1 in
  (ifile = IFILE_SNFITSIO g ->
   column_of g ITYPE_SNFITSIO_HEAD parName = None ->
   column_of g ITYPE_SNFITSIO_PHOT parName = None ->
   RD_SNFITSIO_PARVAL isn parName parList iptr g =
     if (iptr =? -999) && negb (isn =? ISNFIRST_SNFITSIO g)
     then Ok out g
     else Ok out (searched g)) /\
  (ifile <> IFILE_SNFITSIO g ->
   forall g1, PARVAL_open isn g = Ok tt g1 ->
     ISNFIRST_SNFITSIO g1 = isn /\ IFILE_SNFITSIO g1 = ifile /\
     (column_of g1 ITYPE_SNFITSIO_HEAD parName = None ->
      column_of g1 ITYPE_SNFITSIO_PHOT parName = None ->
      RD_SNFITSIO_PARVAL isn parName parList iptr g = Ok out (searched g1))).
Proof.
  intros ifile out searched. split.
  - intros Hopen HH HP. rewrite RD_SNFITSIO_PARVAL_eq, PARVAL_open_eq.
    cbv zeta. fold ifile. rewrite Hopen, Z.eqb_refl.
    now apply PARVAL_read_unknown.
  - intros Hnew g1 Hopen.
    assert (Hfirst : ISNFIRST_SNFITSIO g1 = isn /\ IFILE_SNFITSIO g1 = ifile).
    { rewrite PARVAL_open_eq in Hopen. cbv zeta in Hopen. fold ifile in Hopen.
      apply Z.eqb_neq in Hnew. rewrite Hnew in Hopen.
      destruct (RD_SNFITSIO_CLOSE g) as [[] gc|]; [|discriminate].
      pose proof (same_partition_rd_snfitsio_file ifile
                    (set_ISNFIRST_SNFITSIO isn (set_IFILE_SNFITSIO ifile gc)))
        as HF.
      rewrite (run_Ok _ _ _ _ Hopen) in HF. exact HF. }
    destruct Hfirst as [Hf1 Hf2]. split; [exact Hf1|]. split; [exact Hf2|].
    intros HH HP. rewrite RD_SNFITSIO_PARVAL_eq, Hopen.
    rewrite PARVAL_read_unknown by assumption.
    rewrite Hf1, Z.eqb_refl. cbn [negb]. now rewrite andb_false_r.
Qed.

End Unknown.

Lemma RD_SNFITSIO_PARVAL_unknown_witness :
  let g := sample_reader in
  let out := (0, upd (fun _ => d_0) 0 (double_of_Z (-9)), EmptyString, -999) in
  RD_SNFITSIO_PARVAL (K := sample_constants) 2 "NOPE" (fun _ => d_0) (-999) g
    = Ok out g /\
  RD_SNFITSIO_PARVAL (K := sample_constants) 1 "NOPE" (fun _ => d_0) (-999) g
    = Ok out (set_NCALL_IPAR_SNFITSIO (NCALL_IPAR_SNFITSIO g + 1 + 1) g).
Proof.
  intros g out.
  assert (Hfile2 : find_ifile (NSNLC_SNFITSIO_SUM g) 2 1
                     (trips 1 (NFILE_SNFITSIO g)) (-9) = IFILE_SNFITSIO g)
    by (vm_compute; reflexivity).
  assert (Hfile1 : find_ifile (NSNLC_SNFITSIO_SUM g) 1 1
                     (trips 1 (NFILE_SNFITSIO g)) (-9) = IFILE_SNFITSIO g)
    by (vm_compute; reflexivity).
  assert (HH : column_of g ITYPE_SNFITSIO_HEAD "NOPE" = None)
    by (vm_compute; reflexivity).
  assert (HP : column_of g ITYPE_SNFITSIO_PHOT "NOPE" = None)
    by (vm_compute; reflexivity).
  assert (Hfirst : ISNFIRST_SNFITSIO g = 1) by (vm_compute; reflexivity).
  pose proof (proj1 (RD_SNFITSIO_PARVAL_unknown (K := sample_constants)
                       2 "NOPE" (fun _ => d_0) (-999) g) Hfile2 HH HP) as H2.
  pose proof (proj1 (RD_SNFITSIO_PARVAL_unknown (K := sample_constants)
                       1 "NOPE" (fun _ => d_0) (-999) g) Hfile1 HH HP) as H1.
  rewrite Hfirst in H1, H2. split; [exact H2 | exact H1].
Defined.

(** ** Reading a Photometry column *)

Section ReadColumn.
Context {K : constants}.

Lemma load_cell_hit f ipar J c rd :
  cell_has_form f c = true ->
  buffer_cell (load_cell f ipar J (Some c) rd) f ipar J = c.
Proof.
  destruct f, c; try discriminate; intros _; cbn; unfold upd;
    rewrite !Z.eqb_refl; reflexivity.
Qed.

Lemma load_cell_other f ipar J J' oc rd :
  J <> J' ->
  buffer_cell (load_cell f ipar J' oc rd) f ipar J = buffer_cell rd f ipar J.
Proof.
  intros HJ. apply Z.eqb_neq in HJ.
  destruct oc as [c|]; [|destruct f; reflexivity].
  destruct f, c; try reflexivity; cbn; unfold upd;
    rewrite Z.eqb_refl, HJ; reflexivity.
Qed.

(** Entries below the first one read are left as they are. *)
Lemma fits_read_col_below fp f ipar icol firstRow n : forall k rd J,
  J <= k ->
  buffer_cell (fits_read_col fp f ipar icol firstRow k n rd) f ipar J =
  buffer_cell rd f ipar J.
Proof.
  induction n as [|n IH]; intros k rd J HJ; cbn [fits_read_col];
    [reflexivity|].
  rewrite IH by lia. apply load_cell_other. lia.
Qed.

(** Entry [J] holds the cell of row [firstRow + J - 1]. *)
Lemma fits_read_col_loads fp f ipar icol firstRow n : forall k rd J c,
  k < J <= k + Z.of_nat n ->
  fits_read_cell fp icol (firstRow + J - 1) = Some c ->
  cell_has_form f c = true ->
  buffer_cell (fits_read_col fp f ipar icol firstRow k n rd) f ipar J = c.
Proof.
  induction n as [|n IH]; intros k rd J c HJ Hc Hf; [lia|].
  cbn [fits_read_col].
  destruct (Z.eq_dec J (1 + k)) as [->|Hne].
  - rewrite fits_read_col_below by lia.
    replace (firstRow + (1 + k) - 1) with (firstRow + k) in Hc by lia.
    rewrite Hc. apply load_cell_hit, Hf.
  - apply IH; [lia | exact Hc | exact Hf].
Qed.

Lemma rd_snfitsio_tblcol_eq itype icol firstRow lastRow f g :
  iform (SNFITSIO_TABLEDEF g itype) icol = Some f ->
  rd_snfitsio_tblcol itype icol firstRow lastRow g =
  Ok tt
    (set_RD_SNFITSIO_TABLEVAL
       (upd (RD_SNFITSIO_TABLEVAL g) itype
          (fits_read_col (fp_snfitsFile g itype) f
             (IPARINV (RD_SNFITSIO_TABLEVAL g itype) f icol) icol firstRow 0
             (Z.to_nat (lastRow - firstRow + 1))
             (RD_SNFITSIO_TABLEVAL g itype))) g).
Proof.
  intros H. unfold rd_snfitsio_tblcol. unfold bind at 1, gets at 1.
  cbv zeta. unfold bind at 1, gets at 1. rewrite H. reflexivity.
Qed.

Lemma rd_keeps_refl g : rd_keeps g g.
Proof. repeat split. Qed.







End ReadColumn.
Section ReadColumn2.
Context {K : constants}.





End ReadColumn2.
Section ReadColumn3.
Context {K : constants}.





End ReadColumn3.
Section ReadParval.
Context {K : constants}.

(** The pointer test and the search, for a name that the search finds. *)
Lemma PARVAL_read_found isn parName parList parString iptr g :
  iptr <> -999 \/ isn = ISNFIRST_SNFITSIO g ->
  PARVAL_read isn parName parList parString iptr g =
  let isn_file :=
    int_cast (isn - NSNLC_SNFITSIO_SUM g (IFILE_SNFITSIO g - 1)) in
  match column_of g ITYPE_SNFITSIO_HEAD parName with
  | Some c =>
      PARVAL_column isn isn_file parName parList parString
        ITYPE_SNFITSIO_HEAD c (int_cast (c + 0 * MXPAR_SNFITSIO))
        (set_NCALL_IPAR_SNFITSIO (NCALL_IPAR_SNFITSIO g + 1) g)
  | None =>
      let g2 := set_NCALL_IPAR_SNFITSIO (NCALL_IPAR_SNFITSIO g + 1 + 1) g in
      match column_of g ITYPE_SNFITSIO_PHOT parName with
      | Some c =>
          PARVAL_column isn isn_file parName parList parString
            ITYPE_SNFITSIO_PHOT c (int_cast (c + 1 * MXPAR_SNFITSIO)) g2
      | None => Ok (0, parList, parString, -999) g2
      end
  end.
Proof.
  intros Hptr. unfold PARVAL_read.
  unfold bind at 1, gets at 1. unfold bind at 1, gets at 1. cbv zeta.
  assert (E : ((if isn =? ISNFIRST_SNFITSIO g then -9 else iptr) =? -999)
              = false).
  { destruct (isn =? ISNFIRST_SNFITSIO g) eqn:E1; [reflexivity|].
    destruct Hptr as [H|H]; [now apply Z.eqb_neq|].
    apply Z.eqb_neq in E1. contradiction. }
  rewrite E. unfold bind at 1. rewrite PARVAL_search_eq.
  destruct (column_of g ITYPE_SNFITSIO_HEAD parName); [reflexivity|].
  cbv zeta.
  destruct (column_of g ITYPE_SNFITSIO_PHOT parName); reflexivity.
Qed.



End ReadParval.
Section ReadParval2.
Context {K : constants}.


(** One trip of the output loop on a Header column: the mask is not looked
    at. *)
Lemma PARVAL_store_head parName f ipar J acc g :
  exists g',
    PARVAL_store parName ITYPE_SNFITSIO_HEAD (Some f) ipar J acc g =
      Ok (store_cell
            (buffer_cell (RD_SNFITSIO_TABLEVAL g ITYPE_SNFITSIO_HEAD)
               f ipar J) acc) g' /\
    rd_keeps g g'.
Proof.
  unfold PARVAL_store. unfold bind at 1, gets at 1. unfold id.
  change (ITYPE_SNFITSIO_HEAD =? ITYPE_SNFITSIO_PHOT) with false.
  cbn [andb].
  destruct f; cbn [buffer_cell store_cell];
    try (eexists; split; [reflexivity | apply rd_keeps_refl]).
  destruct (strcmp0 parName "FLT" || strcmp0 parName "BAND"),
    (strcmp0 parName "FIELD");
    (eexists; split; [reflexivity | repeat split]).
Qed.

(** The read of a Header column of the open partition. *)
Lemma RD_SNFITSIO_PARVAL_head_Ok isn parName parList iptr g icol f :
  let ifile :=
    find_ifile (NSNLC_SNFITSIO_SUM g) isn 1 (trips 1 (NFILE_SNFITSIO g)) (-9) in
  let isn_file :=
    int_cast (isn - NSNLC_SNFITSIO_SUM g (IFILE_SNFITSIO g - 1)) in
  let rd := RD_SNFITSIO_TABLEVAL g ITYPE_SNFITSIO_HEAD in
  let c := buffer_cell rd f (IPARINV rd f icol) isn_file in
  ifile = IFILE_SNFITSIO g ->
  iptr <> -999 \/ isn = ISNFIRST_SNFITSIO g ->
  column_of g ITYPE_SNFITSIO_HEAD parName = Some icol ->
  iform (SNFITSIO_TABLEDEF g ITYPE_SNFITSIO_HEAD) icol = Some f ->
  exists parList' parString' g',
    RD_SNFITSIO_PARVAL isn parName parList iptr g =
      Ok (1, parList', parString', int_cast (icol + 0 * MXPAR_SNFITSIO)) g' /\
    (f <> IFORM_A -> parList' 0 = cell_double c /\ parString' = EmptyString) /\
    (f = IFORM_A -> parString' = cell_string c) /\
    rd_keeps g g'.
Proof.
  intros ifile isn_file rd c Hopen Hptr HH Hf.
  rewrite RD_SNFITSIO_PARVAL_eq, PARVAL_open_eq. cbv zeta. fold ifile.
  rewrite Hopen, Z.eqb_refl.
  rewrite (PARVAL_read_found _ _ _ _ _ _ Hptr). cbv zeta. rewrite HH.
  fold isn_file.
  unfold PARVAL_column. unfold bind at 1, gets at 1.
  change (SNFITSIO_TABLEDEF (set_NCALL_IPAR_SNFITSIO _ g))
    with (SNFITSIO_TABLEDEF g).
  rewrite Hf. unfold bind at 1, gets at 1. unfold bind at 1.
  unfold PARVAL_range.
  change (ITYPE_SNFITSIO_HEAD =? ITYPE_SNFITSIO_PHOT) with false. cbv iota.
  unfold ret at 1. unfold trips.
  replace (isn_file - isn_file + 1) with 1 by lia.
  change (Z.to_nat 1) with 1%nat. cbn [for_fold].
  unfold bind at 1. unfold bind at 1.
  match goal with
  | |- context [PARVAL_store _ _ _ ?ipar _ ?acc0 ?g1] =>
      destruct (PARVAL_store_head parName f ipar isn_file acc0 g1)
        as (g' & E & Kp)
  end.
  rewrite E. clear E. unfold ret at 1.
  change (RD_SNFITSIO_TABLEVAL (set_NCALL_IPAR_SNFITSIO _ g)
            ITYPE_SNFITSIO_HEAD) with rd.
  fold c.
  assert (E1 : int_cast (0 + 1) = 1) by reflexivity.
  destruct f; cbn [store_cell c buffer_cell acc_NEP_MASK acc_NSTORE
                     acc_parList acc_parString];
    rewrite E1; change (1 =? 0) with false; cbv iota; unfold ret;
    (do 3 eexists; split; [reflexivity|]);
    (split; [|split; [|exact Kp]]);
    try (intros _; split; [apply upd_eq | reflexivity]);
    try (intros ?; contradiction); try (intros [=]); try reflexivity.
Qed.


End ReadParval2.


Section ReadTable.
Context {K : constants}.

Lemma load_cell_frame f ipar J oc rd f' ipar' J' :
  f' <> f \/ ipar' <> ipar \/ J' <> J ->
  buffer_cell (load_cell f ipar J oc rd) f' ipar' J' =
  buffer_cell rd f' ipar' J'.
Proof.
  intros H. destruct oc as [c|]; [|destruct f; reflexivity].
  destruct f, c; try reflexivity; destruct f'; try reflexivity;
    cbn; unfold upd;
    (destruct (Z.eq_dec ipar' ipar) as [->|Hne];
     [rewrite Z.eqb_refl
     | rewrite (proj2 (Z.eqb_neq _ _) Hne); reflexivity]);
    (destruct (J' =? J) eqn:E2; [|reflexivity]);
    apply Z.eqb_eq in E2; destruct H as [H|[H|H]]; contradiction.
Qed.

Lemma fits_read_col_frame fp f ipar icol firstRow n :
  forall k rd f' ipar' J',
    f' <> f \/ ipar' <> ipar \/ ~ k < J' <= k + Z.of_nat n ->
    buffer_cell (fits_read_col fp f ipar icol firstRow k n rd) f' ipar' J' =
    buffer_cell rd f' ipar' J'.
Proof.
  induction n as [|n IH]; intros k rd f' ipar' J' H; cbn [fits_read_col];
    [reflexivity|].
  rewrite IH by (destruct H as [H|[H|H]]; [auto | auto | right; right; lia]).
  apply load_cell_frame. destruct H as [H|[H|H]]; [auto | auto |].
  right; right. lia.
Qed.

(** [rd_snfitsio_tblcol] stops the run for a column without a form index.
    Otherwise the entries [1 .. lastRow - firstRow + 1] of the buffer of the
    column hold the cells of the rows [firstRow .. lastRow], and no other
    entry of any buffer is written. *)
Theorem rd_snfitsio_tblcol_loads itype icol firstRow lastRow g :
  match iform (SNFITSIO_TABLEDEF g itype) icol with
  | None =>
      fatal_in "rd_snfitsio_tblcol"
        (rd_snfitsio_tblcol itype icol firstRow lastRow g)
  | Some f =>
      let ipar := IPARINV (RD_SNFITSIO_TABLEVAL g itype) f icol in
      let NROW_ := lastRow - firstRow + 1 in
      exists g',
        rd_snfitsio_tblcol itype icol firstRow lastRow g = Ok tt g' /\
        (forall J c,
           1 <= J <= NROW_ ->
           fits_read_cell (fp_snfitsFile g itype) icol (firstRow + J - 1)
             = Some c ->
           cell_has_form f c = true ->
           buffer_cell (RD_SNFITSIO_TABLEVAL g' itype) f ipar J = c) /\
        (forall f' ipar' J',
           f' <> f \/ ipar' <> ipar \/ ~ 1 <= J' <= NROW_ ->
           buffer_cell (RD_SNFITSIO_TABLEVAL g' itype) f' ipar' J' =
           buffer_cell (RD_SNFITSIO_TABLEVAL g itype) f' ipar' J') /\
        (forall t, t <> itype ->
           RD_SNFITSIO_TABLEVAL g' t = RD_SNFITSIO_TABLEVAL g t) /\
        fp_snfitsFile g' = fp_snfitsFile g /\
        SNFITSIO_TABLEDEF g' = SNFITSIO_TABLEDEF g
  end.
Proof.
  destruct (iform (SNFITSIO_TABLEDEF g itype) icol) as [f|] eqn:Hf.
  - intros ipar NROW_. eexists. split.
    + apply (rd_snfitsio_tblcol_eq _ _ _ _ f), Hf.
    + change (RD_SNFITSIO_TABLEVAL (set_RD_SNFITSIO_TABLEVAL ?x g)) with x.
      rewrite upd_eq. fold ipar NROW_.
      split; [|split; [|split; [|split; reflexivity]]].
      * intros J c HJ Hc Hform.
        apply fits_read_col_loads; [lia | exact Hc | exact Hform].
      * intros f' ipar' J' H. apply fits_read_col_frame.
        destruct H as [H|[H|H]]; [auto | auto | right; right; lia].
      * intros t Ht. apply upd_ne, Ht.
  - unfold rd_snfitsio_tblcol. unfold bind at 1, gets at 1. cbv zeta.
    unfold bind at 1, gets at 1. rewrite Hf. reflexivity.
Qed.

End ReadTable.
Section Columns.
Context {K : constants}.

(** [IPAR_SNFITSIO] returns the first column, counted from 1, whose name
    is [parName].  When no column has the name it returns [-9] for
    [OPT = 0] and stops the run otherwise.  The tables are not touched. *)
Theorem IPAR_SNFITSIO_first_match OPT parName itype g :
  let names := name (SNFITSIO_TABLEDEF g itype) in
  let NPAR := NPAR_SNFITSIO g itype in
  let g1 := set_NCALL_IPAR_SNFITSIO (NCALL_IPAR_SNFITSIO g + 1) g in
  (forall c,
     1 <= c <= NPAR -> names c = parName ->
     (forall j, 1 <= j < c -> names j <> parName) ->
     IPAR_SNFITSIO OPT parName itype g = Ok c g1) /\
  ((forall j, 1 <= j <= NPAR -> names j <> parName) ->
   (OPT = 0 -> IPAR_SNFITSIO OPT parName itype g = Ok (-9) g1) /\
   (OPT <> 0 ->
    fatal_in "IPAR_SNFITSIO" (IPAR_SNFITSIO OPT parName itype g))).
Proof.
  intros names NPAR g1. rewrite IPAR_SNFITSIO_eq. cbv zeta. fold g1.
  unfold column_of, trips. fold names NPAR. split.
  - intros c Hc Hn Hmin.
    destruct (IPAR_scan_complete names parName (Z.to_nat (NPAR - 1 + 1)) 1 c)
      as (c' & E & Hle); [lia | exact Hn |].
    rewrite E. apply IPAR_scan_Some in E as (Hr & Hn' & _).
    destruct (Z.eq_dec c' c) as [->|Hne]; [reflexivity|].
    exfalso. apply (Hmin c'); [lia | exact Hn'].
  - intros Hnone.
    destruct (IPAR_scan names parName 1 (Z.to_nat (NPAR - 1 + 1))) as [c|]
      eqn:E.
    + apply IPAR_scan_Some in E as (Hr & Hn & _).
      exfalso. apply (Hnone c); [lia | exact Hn].
    + split.
      * intros ->. reflexivity.
      * intros H. apply Z.eqb_neq in H. rewrite H. reflexivity.
Qed.

Lemma IPAR_scan_ext names names' parName n : forall lo,
  (forall j, lo <= j < lo + Z.of_nat n -> names j = names' j) ->
  IPAR_scan names parName lo n = IPAR_scan names' parName lo n.
Proof.
  induction n as [|n IH]; intros lo H; cbn [IPAR_scan]; [reflexivity|].
  rewrite <- (H lo) by lia. rewrite (IH (lo + 1)); [reflexivity|].
  intros j Hj. apply H. lia.
Qed.

Lemma IPAR_scan_snoc names parName n : forall lo,
  IPAR_scan names parName lo (S n) =
  match IPAR_scan names parName lo n with
  | Some c => Some c
  | None =>
      if strcmp0 (names (lo + Z.of_nat n)) parName
      then Some (lo + Z.of_nat n) else None
  end.
Proof.
  induction n as [|n IH]; intros lo.
  - cbn [IPAR_scan]. replace (lo + Z.of_nat 0) with lo by lia.
    destruct (strcmp0 (names lo) parName); reflexivity.
  - change (IPAR_scan names parName lo (S (S n)))
      with (if strcmp0 (names lo) parName then Some lo
            else IPAR_scan names parName (lo + 1) (S n)).
    rewrite IH. cbn [IPAR_scan].
    replace (lo + 1 + Z.of_nat n) with (lo + Z.of_nat (S n)) by lia.
    destruct (strcmp0 (names lo) parName); reflexivity.
Qed.

Lemma wr_snfitsio_addCol_eq tform name_ itype g :
  wr_snfitsio_addCol tform name_ itype g =
  let n := int_cast (NPAR_SNFITSIO g itype + 1) in
  let g1 := set_NPAR_SNFITSIO (upd (NPAR_SNFITSIO g) itype n) g in
  if MXPAR_SNFITSIO <=? n then
    Fatal "wr_snfitsio_addCol"
      ("NPAR_SNFITSIO[" +:+ snfitsType itype +:+ "] = " +:+ pretty n
         +:+ " exceeds bound")
      ("Current table par-name=" +:+ name_ +:+ "  and  tform=" +:+ tform) g1
  else
    Ok tt
      (set_SNFITSIO_TABLEDEF
         (upd (SNFITSIO_TABLEDEF g) itype
            (set_form (upd (form (SNFITSIO_TABLEDEF g itype)) n tform)
               (set_name (upd (name (SNFITSIO_TABLEDEF g itype)) n name_)
                  (SNFITSIO_TABLEDEF g itype)))) g1).
Proof.
  unfold wr_snfitsio_addCol. unfold bind at 1, modify at 1.
  unfold bind at 1, gets at 1.
  change (NPAR_SNFITSIO (set_NPAR_SNFITSIO ?x g)) with x. rewrite upd_eq.
  cbv zeta. unfold bind at 1.
  destruct (MXPAR_SNFITSIO <=? int_cast (NPAR_SNFITSIO g itype + 1));
    reflexivity.
Qed.

(** The lookup after a declaration. *)
Lemma column_of_addCol tform name_ itype g g' :
  0 <= NPAR_SNFITSIO g itype < INT_MAX ->
  wr_snfitsio_addCol tform name_ itype g = Ok tt g' ->
  NPAR_SNFITSIO g' itype = NPAR_SNFITSIO g itype + 1 /\
  NPAR_SNFITSIO g itype + 1 < MXPAR_SNFITSIO /\
  fp_snfitsFile g' = fp_snfitsFile g /\
  (forall t, t <> itype ->
     NPAR_SNFITSIO g' t = NPAR_SNFITSIO g t /\
     SNFITSIO_TABLEDEF g' t = SNFITSIO_TABLEDEF g t) /\
  forall nm,
    column_of g' itype nm =
    match column_of g itype nm with
    | Some c => Some c
    | None =>
        if strcmp0 name_ nm then Some (NPAR_SNFITSIO g itype + 1) else None
    end.
Proof.
  intros HN. rewrite wr_snfitsio_addCol_eq. cbv zeta.
  rewrite (int_cast_id (NPAR_SNFITSIO g itype + 1))
    by (unfold in_int, INT_MIN, INT_MAX in *; lia).
  destruct (MXPAR_SNFITSIO <=? NPAR_SNFITSIO g itype + 1) eqn:EM;
    [discriminate|].
  apply Z.leb_gt in EM.
  intros [= <-]. split; [|split; [exact EM|split; [reflexivity|split]]].
  - cbn. apply upd_eq.
  - intros t Ht. cbn. rewrite !upd_ne by exact Ht. split; reflexivity.
  - intros nm. unfold column_of, trips. cbn.
    rewrite !upd_eq. cbn.
    replace (Z.to_nat (NPAR_SNFITSIO g itype + 1 - 1 + 1))
      with (S (Z.to_nat (NPAR_SNFITSIO g itype - 1 + 1))) by lia.
    rewrite IPAR_scan_snoc.
    rewrite <- (IPAR_scan_ext (name (SNFITSIO_TABLEDEF g itype))).
    + destruct (IPAR_scan _ nm 1 _); [reflexivity|].
      replace (1 + Z.of_nat (Z.to_nat (NPAR_SNFITSIO g itype - 1 + 1)))
        with (NPAR_SNFITSIO g itype + 1) by lia.
      rewrite upd_eq. reflexivity.
    + intros j Hj. symmetry. apply upd_ne. lia.
Qed.

(** After a declaration, [IPAR_SNFITSIO] finds every name that was
    declared before at its old column, and the new name at the next column
    of the table, unless an earlier column carries the same name: then the
    earlier column is returned and the new one is never found by name. *)
Theorem addCol_then_IPAR tform name_ itype g g' :
  0 <= NPAR_SNFITSIO g itype < INT_MAX ->
  wr_snfitsio_addCol tform name_ itype g = Ok tt g' ->
  (forall nm c OPT,
     value (IPAR_SNFITSIO OPT nm itype) g = Some c -> 0 < c ->
     value (IPAR_SNFITSIO OPT nm itype) g' = Some c) /\
  (forall OPT,
     value (IPAR_SNFITSIO 0 name_ itype) g = Some (-9) ->
     value (IPAR_SNFITSIO OPT name_ itype) g'
       = Some (NPAR_SNFITSIO g itype + 1)) /\
  (forall nm OPT,
     nm <> name_ ->
     value (IPAR_SNFITSIO OPT nm itype) g'
       = value (IPAR_SNFITSIO OPT nm itype) g).
Proof.
  intros HN HA.
  destruct (column_of_addCol _ _ _ _ _ HN HA) as (_ & _ & _ & _ & Hcol).
  unfold value. split; [|split].
  - intros nm c OPT. rewrite !IPAR_SNFITSIO_eq. cbv zeta. rewrite Hcol.
    destruct (column_of g itype nm) as [c0|]; [auto|].
    destruct (OPT =? 0); [|discriminate]. intros [= <-]. lia.
  - intros OPT. rewrite !IPAR_SNFITSIO_eq. cbv zeta. rewrite Hcol.
    destruct (column_of g itype name_) as [c0|] eqn:E.
    + intros [= ->]. apply column_of_range in E. lia.
    + intros _. rewrite strcmp0_refl. reflexivity.
  - intros nm OPT Hne. rewrite !IPAR_SNFITSIO_eq. cbv zeta. rewrite Hcol.
    destruct (column_of g itype nm) as [c0|]; [reflexivity|].
    replace (strcmp0 name_ nm) with false
      by (symmetry; apply strcmp0_false; congruence).
    destruct (OPT =? 0); reflexivity.
Qed.

End Columns.

Lemma IPAR_SNFITSIO_first_match_witness :
  IPAR_SNFITSIO 1 "MJD" ITYPE_SNFITSIO_PHOT
    sample_writer
  = Ok 1 (set_NCALL_IPAR_SNFITSIO (NCALL_IPAR_SNFITSIO sample_writer + 1)
            sample_writer).
Proof.
  apply (proj1 (IPAR_SNFITSIO_first_match
                  1 "MJD" ITYPE_SNFITSIO_PHOT sample_writer)).
  - vm_compute. split; discriminate.
  - vm_compute; reflexivity.
  - intros j Hj. lia.
Defined.

Lemma addCol_then_IPAR_witness :
  let g' := run (wr_snfitsio_addCol (K := sample_constants) "1J" "EXTRA"
                   ITYPE_SNFITSIO_PHOT) sample_writer in
  value (IPAR_SNFITSIO 1 "EXTRA" ITYPE_SNFITSIO_PHOT)
    g' = Some (NPAR_SNFITSIO sample_writer ITYPE_SNFITSIO_PHOT + 1).
Proof.
  intros g'.
  assert (HA : wr_snfitsio_addCol (K := sample_constants) "1J" "EXTRA"
                 ITYPE_SNFITSIO_PHOT sample_writer = Ok tt g').
  { apply is_Ok_run. vm_compute; reflexivity. }
  assert (HN : 0 <= NPAR_SNFITSIO sample_writer ITYPE_SNFITSIO_PHOT < INT_MAX).
  { vm_compute. split; [discriminate | reflexivity]. }
  destruct (addCol_then_IPAR (K := sample_constants) _ _ _ _ _ HN HA)
    as (_ & H & _).
  apply H. vm_compute; reflexivity.
Defined.
Section FillRead.
Context {K : constants}.

(** The writer and the reader select on the column form in the same way:
    the datatype written for a form is the one the reader's form index
    takes. *)
Lemma formIndex_of_cell_by_form tform tv x :
  cell_by_form tform tv = Some x ->
  exists f,
    (forall g, formIndex_snfitsio tform g = Ok f g) /\
    cell_has_form f x = true.
Proof.
  unfold cell_by_form, formIndex_snfitsio. cbv zeta.
  destruct (strcmp0 (lastchar tform) "A").
  { intros [= <-]. exists IFORM_A. split; reflexivity. }
  destruct (strcmp0 tform "1D") eqn:ED.
  { intros [= <-]. apply strcmp0_true in ED. subst tform.
    exists IFORM_1D. split; reflexivity. }
  destruct (strcmp0 tform "1E") eqn:EE.
  { intros [= <-]. apply strcmp0_true in EE. subst tform.
    exists IFORM_1E. split; reflexivity. }
  destruct (strcmp0 tform "1J") eqn:EJ.
  { intros [= <-]. exists IFORM_1J. split; reflexivity. }
  destruct (strcmp0 tform "1I") eqn:EI.
  { intros [= <-]. exists IFORM_1I. split; reflexivity. }
  destruct (strcmp0 tform "1K") eqn:EK.
  { intros [= <-]. apply strcmp0_true in EK. subst tform.
    exists IFORM_1K. split; reflexivity. }
  discriminate.
Qed.

Lemma formIndex_None_cell_by_form tform tv :
  cell_by_form tform tv = None ->
  forall g, fatal_in "formIndex_snfitsio" (formIndex_snfitsio tform g).
Proof.
  unfold cell_by_form, formIndex_snfitsio. cbv zeta.
  destruct (strcmp0 (lastchar tform) "A"); [discriminate|].
  destruct (strcmp0 tform "1D"); [discriminate|].
  destruct (strcmp0 tform "1E"); [discriminate|].
  destruct (strcmp0 tform "1J"); [discriminate|].
  destruct (strcmp0 tform "1I"); [discriminate|].
  destruct (strcmp0 tform "1K"); [discriminate|].
  intros _ g. reflexivity.
Qed.


(** A call of [wr_snfitsio_fillTable] stops the run in [IPAR_SNFITSIO]
    when the cache is unresolved and no column has the name, and in
    [wr_snfitsio_fillTable] when the form of the resolved column is one
    that [formIndex_snfitsio] refuses. *)
Theorem wr_snfitsio_fillTable_refuses COLNUM parName itype g :
  let r := wr_snfitsio_fillTable COLNUM parName itype g in
  (resolve g COLNUM parName itype = None -> fatal_in "IPAR_SNFITSIO" r) /\
  (forall c,
     resolve g COLNUM parName itype = Some c ->
     fatal_in "formIndex_snfitsio"
       (formIndex_snfitsio (form (SNFITSIO_TABLEDEF g itype) c) g) ->
     fatal_in "wr_snfitsio_fillTable" r).
Proof.
  intros r. subst r. rewrite wr_snfitsio_fillTable_eq. unfold resolve.
  destruct (deref_COLNUM COLNUM g <? 0); cbv zeta.
  - destruct (column_of g itype parName) as [c0|]; split.
    + discriminate.
    + intros c [= <-] H. rewrite fillTable_colnum_eq. cbv zeta.
      rewrite cell_by_form_assign.
      change (WR_SNFITSIO_TABLEVAL (set_NCALL_IPAR_SNFITSIO _ g))
        with (WR_SNFITSIO_TABLEVAL g).
      change (SNFITSIO_TABLEDEF (assign_COLNUM _ _ _))
        with (SNFITSIO_TABLEDEF g).
      destruct (cell_by_form (form (SNFITSIO_TABLEDEF g itype) c0)
                  (WR_SNFITSIO_TABLEVAL g itype)) as [x|] eqn:Ex;
        [|reflexivity].
      destruct (formIndex_of_cell_by_form _ _ _ Ex) as (f & Hf & _).
      rewrite Hf in H. destruct H.
    + intros _. reflexivity.
    + discriminate.
  - split; [discriminate|]. intros c [= <-] H.
    rewrite fillTable_colnum_eq. cbv zeta.
    destruct (cell_by_form _ (WR_SNFITSIO_TABLEVAL g itype)) as [x|] eqn:Ex;
      [|reflexivity].
    destruct (formIndex_of_cell_by_form _ _ _ Ex) as (f & Hf & _).
    rewrite Hf in H. destruct H.
Qed.

End FillRead.


Lemma wr_snfitsio_fillTable_refuses_witness :
  fatal_in "IPAR_SNFITSIO"
    (wr_snfitsio_fillTable (K := sample_constants) (ITYPE_SNFITSIO_HEAD, 2)
       "NOPE" ITYPE_SNFITSIO_HEAD sample_writer_row1).
Proof.
  apply (proj1 (wr_snfitsio_fillTable_refuses (K := sample_constants)
                  (ITYPE_SNFITSIO_HEAD, 2) "NOPE" ITYPE_SNFITSIO_HEAD
                  sample_writer_row1)).
  vm_compute; reflexivity.
Defined.
Section HeaderRow.
Context {K : constants}.

(** [WR_SNFITSIO_UPDATE] adds one row to the Header table: every field of
    the record is in its column of the new row, in the datatype of the
    column; no other row of the table is written. *)
Theorem WR_SNFITSIO_UPDATE_header_row g g' :
  let NOBS := sn_int (SNDATA g) "NOBS" in
  let h0 := NROW (WR_SNFITSIO_TABLEVAL g ITYPE_SNFITSIO_HEAD) in
  let r0 := NROW (WR_SNFITSIO_TABLEVAL g ITYPE_SNFITSIO_PHOT) in
  let cells := CELLS (fp_snfitsFile g' ITYPE_SNFITSIO_HEAD) in
  head_ready g ->
  WR_SNFITSIO_UPDATE g = Ok tt g' ->
  NROW (WR_SNFITSIO_TABLEVAL g' ITYPE_SNFITSIO_HEAD) = h0 + 1 /\
  (forall n v,
     In (n, v) (head_row g (r0 + 1) (r0 + NOBS)) ->
     exists c,
       column_of g ITYPE_SNFITSIO_HEAD n = Some c /\
       cells !! (c, h0 + 1) = Some (cell_of v)) /\
  (forall c r,
     r <> h0 + 1 ->
     cells !! (c, r) = CELLS (fp_snfitsFile g ITYPE_SNFITSIO_HEAD) !! (c, r)).
Proof.
  intros NOBS h0 r0 cells (HE & Hh & Hr & Hb & Hrow) HU.
  destruct (WR_SNFITSIO_UPDATE_Ok g g' HE Hr Hb HU)
    as (_ & _ & _ & _ & Hhead & _).
  destruct (Hhead Hh Hrow) as (HN & Hcells & Hcols).
  split; [exact HN|].
  unfold row_ok in Hrow.
  apply andb_true_iff in Hrow as [Hrow _].
  apply andb_true_iff in Hrow as [_ Hnodup].
  split.
  - intros n v Hin.
    rewrite List.Forall_forall in Hcols.
    destruct (Hcols _ Hin) as (c & Hc). cbn [fst] in Hc.
    exists c. split; [exact Hc|].
    unfold cells. rewrite Hcells.
    apply (fill_cells_lookup _ _ _ _ n v c); assumption.
  - intros c r Hne. unfold cells. rewrite Hcells.
    apply fill_cells_other_row. exact Hne.
Qed.

End HeaderRow.

(** The first sample record: its identifier is in row 1 of the SNID column,
    and its FAKE value 70000 is there as the 16-bit value 4464. *)
Lemma WR_SNFITSIO_UPDATE_header_row_witness :
  exists c1 c2,
    column_of sample_writer ITYPE_SNFITSIO_HEAD "SNID" = Some c1 /\
    CELLS (fp_snfitsFile sample_written_1 ITYPE_SNFITSIO_HEAD) !! (c1, 1)
      = Some (TSTRING "SN01") /\
    column_of sample_writer ITYPE_SNFITSIO_HEAD "FAKE" = Some c2 /\
    CELLS (fp_snfitsFile sample_written_1 ITYPE_SNFITSIO_HEAD) !! (c2, 1)
      = Some (TSHORT 4464).
Proof.
  assert (E1 : WR_SNFITSIO_UPDATE (K := sample_constants) sample_writer
               = Ok tt sample_written_1)
    by (apply is_Ok_run; vm_compute; reflexivity).
  destruct (WR_SNFITSIO_UPDATE_header_row (K := sample_constants)
              sample_writer sample_written_1) as (_ & Hf & _);
    [repeat split; vm_compute; congruence | exact E1 |].
  assert (Hh : NROW (WR_SNFITSIO_TABLEVAL sample_writer ITYPE_SNFITSIO_HEAD)
               = 0) by (vm_compute; reflexivity).
  rewrite Hh in Hf.
  destruct (Hf "SNID" (st_A "SN01")) as (c1 & Hc1 & Hx1);
    [vm_compute; tauto|].
  destruct (Hf "FAKE" (st_1I 70000)) as (c2 & Hc2 & Hx2);
    [vm_compute; tauto|].
  exists c1, c2. repeat split; assumption.
Defined.
Section Doubles.










End Doubles.
Section Floats.





End Floats.
Section Typed.
Context {K : constants}.




End Typed.
Section TypedExact.
Context {K : constants}.





End TypedExact.


Section Partition.

Lemma find_ifile_step SUM isn n : forall itmp ifile,
  let r := find_ifile SUM isn itmp n ifile in
  (r = ifile /\
   forall i, itmp <= i < itmp + Z.of_nat n ->
     ~ (SUM (i - 1) < isn <= SUM i)) \/
  (itmp <= r < itmp + Z.of_nat n /\ SUM (r - 1) < isn <= SUM r /\
   forall i, r < i < itmp + Z.of_nat n -> ~ (SUM (i - 1) < isn <= SUM i)).
Proof.
  induction n as [|n IH]; intros itmp ifile; cbn [find_ifile].
  - left. split; [reflexivity | intros i Hi; lia].
  - cbv zeta.
    destruct ((SUM (itmp - 1) <? isn) && (isn <=? SUM itmp)) eqn:E.
    + apply andb_true_iff in E as [E1 E2].
      apply Z.ltb_lt in E1. apply Z.leb_le in E2.
      destruct (IH (itmp + 1) itmp) as [[Hr Hn]|(Hr & Hin & Hn)].
      * right. cbv zeta in Hr. rewrite Hr. split; [lia|]. split; [lia|].
        intros i Hi. apply Hn. lia.
      * right. split; [lia|]. split; [exact Hin|].
        intros i Hi. apply Hn. lia.
    + assert (Hno : ~ (SUM (itmp - 1) < isn <= SUM itmp)).
      { intros [H1 H2]. apply Z.ltb_lt in H1. apply Z.leb_le in H2.
        rewrite H1, H2 in E. discriminate. }
      destruct (IH (itmp + 1) ifile) as [[Hr Hn]|(Hr & Hin & Hn)].
      * left. split; [exact Hr|]. intros i Hi.
        destruct (Z.eq_dec i itmp) as [->|]; [exact Hno | apply Hn; lia].
      * right. split; [lia|]. split; [exact Hin|].
        intros i Hi. apply Hn. lia.
Qed.

(** A record number between the cumulative counts lies in the range of
    some partition. *)
Lemma partition_exists SUM isn n : forall lo,
  (forall i, lo < i <= lo + Z.of_nat n -> SUM (i - 1) <= SUM i) ->
  SUM lo < isn <= SUM (lo + Z.of_nat n) ->
  exists i, lo < i <= lo + Z.of_nat n /\ SUM (i - 1) < isn <= SUM i.
Proof.
  induction n as [|n IH]; intros lo Hmono Hr.
  - replace (lo + Z.of_nat 0) with lo in Hr by lia. lia.
  - destruct (Z_le_gt_dec isn (SUM (lo + 1))) as [Hle|Hgt].
    + exists (lo + 1). split; [lia|].
      replace (lo + 1 - 1) with lo by lia. lia.
    + destruct (IH (lo + 1)) as (i & Hi & Hin).
      * intros i Hi. apply Hmono. lia.
      * replace (lo + 1 + Z.of_nat n) with (lo + Z.of_nat (S n)) by lia. lia.
      * exists i. split; [lia | exact Hin].
Qed.

Lemma find_ifile_range SUM isn NFILE :
  let ifile := find_ifile SUM isn 1 (trips 1 NFILE) (-9) in
  0 <= NFILE ->
  (forall i, 1 <= i <= NFILE -> SUM (i - 1) <= SUM i) ->
  (SUM 0 < isn <= SUM NFILE ->
   1 <= ifile <= NFILE /\ SUM (ifile - 1) < isn <= SUM ifile /\
   forall i, 1 <= i <= NFILE -> SUM (i - 1) < isn <= SUM i -> i = ifile) /\
  (~ SUM 0 < isn <= SUM NFILE -> ifile = -9).
Proof.
  intros ifile HN Hmono. unfold trips in ifile.
  assert (En : Z.of_nat (Z.to_nat (NFILE - 1 + 1)) = NFILE) by lia.
  assert (Hchain : forall a b, 0 <= a <= b -> b <= NFILE -> SUM a <= SUM b).
  { intros a b Hab Hb. replace b with (a + Z.of_nat (Z.to_nat (b - a))) by lia.
    induction (Z.to_nat (b - a)) as [|k IHk] eqn:Ek in b, Hab, Hb |- *.
    - replace (a + Z.of_nat 0) with a by lia. lia.
    - assert (H1 : SUM a <= SUM (a + Z.of_nat k)).
      { apply (IHk (b - 1)); lia. }
      assert (H2 : SUM (a + Z.of_nat (S k) - 1) <= SUM (a + Z.of_nat (S k)))
        by (apply Hmono; lia).
      replace (a + Z.of_nat (S k) - 1) with (a + Z.of_nat k) in H2 by lia.
      lia. }
  destruct (find_ifile_step SUM isn (Z.to_nat (NFILE - 1 + 1)) 1 (-9))
    as [[Hr Hn]|(Hr & Hin & Hn)]; fold ifile in Hr; rewrite En in *.
  - split.
    + intros Hrange. exfalso.
      destruct (partition_exists SUM isn (Z.to_nat NFILE) 0)
        as (i & Hi & Hin).
      * intros i Hi. apply Hmono. lia.
      * replace (0 + Z.of_nat (Z.to_nat NFILE)) with NFILE by lia.
        exact Hrange.
      * apply (Hn i); [lia | exact Hin].
    + intros _. exact Hr.
  - fold ifile in Hin, Hn. split.
    + intros _. split; [lia|]. split; [exact Hin|].
      intros i Hi Hi2.
      destruct (Z.lt_trichotomy i ifile) as [Hlt|[->|Hgt]];
        [| reflexivity | exfalso; apply (Hn i); [lia | exact Hi2]].
      exfalso.
      assert (SUM i <= SUM (ifile - 1)) by (apply Hchain; lia).
      lia.
    + intros Hout. exfalso. apply Hout.
      assert (SUM 0 <= SUM (ifile - 1)) by (apply Hchain; lia).
      assert (SUM ifile <= SUM NFILE) by (apply Hchain; lia).
      lia.
Qed.

(** The partition search of [RD_SNFITSIO_PARVAL]: for cumulative counts
    that never decrease, a record number in [1 .. SUM NFILE] is given the
    one partition whose range holds it; any other record number is given
    [-9]. *)
Theorem find_ifile_partition SUM isn NFILE :
  let ifile := find_ifile SUM isn 1 (trips 1 NFILE) (-9) in
  0 <= NFILE ->
  (forall i, 1 <= i <= NFILE -> SUM (i - 1) <= SUM i) ->
  (SUM 0 < isn <= SUM NFILE ->
   1 <= ifile <= NFILE /\ SUM (ifile - 1) < isn <= SUM ifile /\
   forall i, 1 <= i <= NFILE -> SUM (i - 1) < isn <= SUM i -> i = ifile) /\
  (~ SUM 0 < isn <= SUM NFILE -> ifile = -9).
Proof. exact (find_ifile_range SUM isn NFILE). Qed.

End Partition.

Lemma find_ifile_partition_witness :
  find_ifile (NSNLC_SNFITSIO_SUM sample_reader) 3 1
    (trips 1 (NFILE_SNFITSIO sample_reader)) (-9) = 1.
Proof.
  destruct (find_ifile_partition (NSNLC_SNFITSIO_SUM sample_reader) 3
              (NFILE_SNFITSIO sample_reader)) as [H _].
  - vm_compute; discriminate.
  - intros i Hi.
    assert (E : NFILE_SNFITSIO sample_reader = 1) by (vm_compute; reflexivity).
    rewrite E in Hi. assert (i = 1) by lia. subst i.
    vm_compute; discriminate.
  - destruct H as (Hr & _).
    + vm_compute. split; [reflexivity | discriminate].
    + assert (E : NFILE_SNFITSIO sample_reader = 1)
        by (vm_compute; reflexivity).
      rewrite E in Hr. cbv zeta in Hr. rewrite E. lia.
Defined.
Section RequiredColumns.
Context {K : constants}.

Lemma IPAR_SNFITSIO_0 key itype g :
  IPAR_SNFITSIO 0 key itype g =
  Ok (IPAR_of g itype key)
    (set_NCALL_IPAR_SNFITSIO (NCALL_IPAR_SNFITSIO g + 1) g).
Proof.
  rewrite IPAR_SNFITSIO_eq. cbv zeta. unfold IPAR_of.
  destruct (column_of g itype key); reflexivity.
Qed.

Lemma required_report_fields REQ n : forall lo NERR g0,
  exists NERR' g1,
    for_fold n lo (required_report REQ) NERR g0 = Ok NERR' g1 /\
    keeps_required g0 g1 /\
    NCALL_IPAR_SNFITSIO g1 = NCALL_IPAR_SNFITSIO g0 + Z.of_nat n.
Proof.
  induction n as [|n IH]; intros lo NERR g0; cbn [for_fold].
  - exists NERR, g0. split; [reflexivity|]. split; [repeat split | lia].
  - unfold bind at 1. unfold required_report at 1. cbv zeta.
    unfold bind at 1. rewrite IPAR_SNFITSIO_0.
    destruct (IPAR_of g0 ITYPE_SNFITSIO_HEAD (REQ lo) <? 0).
    + unfold printf, bind, modify, ret.
      match goal with
      | |- context [for_fold n (lo + 1) _ ?N ?g1] =>
          destruct (IH (lo + 1) N g1) as (N' & g2 & E & Hk & Hc)
      end.
      exists N', g2. split; [exact E|]. split; [exact Hk|].
      rewrite Hc. cbn. lia.
    + unfold ret at 1.
      match goal with
      | |- context [for_fold n (lo + 1) _ ?N ?g1] =>
          destruct (IH (lo + 1) N g1) as (N' & g2 & E & Hk & Hc)
      end.
      exists N', g2. split; [exact E|]. split; [exact Hk|].
      rewrite Hc. cbn. lia.
Qed.

Lemma required_store_eq g key (setter : Z -> globals -> globals) g0 :
  same_tables g g0 ->
  bind (IPAR_SNFITSIO 0 key ITYPE_SNFITSIO_HEAD)
    (fun i => modify (setter i)) g0
  = Ok tt (setter (IPAR_of g ITYPE_SNFITSIO_HEAD key)
             (set_NCALL_IPAR_SNFITSIO (NCALL_IPAR_SNFITSIO g0 + 1) g0)).
Proof.
  intros Hs. unfold bind. rewrite IPAR_SNFITSIO_0. unfold modify, IPAR_of.
  rewrite (column_of_same g g0) by assumption. reflexivity.
Qed.

(** One lookup-and-store step, taken on the goal, with the value stored:
    [Hc] gives the cached columns before the step. *)
Ltac store_value g Hs Hc Hn :=
  match goal with
  | |- context [bind (IPAR_SNFITSIO 0 ?key _)
                  (fun i => bind (modify (?setter i)) ?k) ?g0] =>
      rewrite <- (bind_assoc (IPAR_SNFITSIO 0 key ITYPE_SNFITSIO_HEAD)
                    (fun i => modify (setter i)) k g0);
      rewrite (bind_Ok _ _ _ _ _ (required_store_eq g key setter g0 Hs));
      let g1 := fresh "g" in
      let Hs1 := fresh "Hs" in
      let Hc1 := fresh "Hc" in
      let Hn1 := fresh "Hn" in
      set (g1 := setter (IPAR_of g ITYPE_SNFITSIO_HEAD key)
                   (set_NCALL_IPAR_SNFITSIO (NCALL_IPAR_SNFITSIO g0 + 1) g0));
      assert (Hs1 : same_tables g g1) by (destruct Hs; split; assumption);
      pose proof (eq_refl : required_cols g1 = required_cols g1) as Hc1;
      unfold required_cols at 2 in Hc1; cbn in Hc1;
      let E1 := fresh "E" in
      let E2 := fresh "E" in
      let E3 := fresh "E" in
      let E4 := fresh "E" in
      let E5 := fresh "E" in
      pose proof (f_equal (fun t => fst (fst (fst (fst t)))) Hc) as E1;
      pose proof (f_equal (fun t => snd (fst (fst (fst t)))) Hc) as E2;
      pose proof (f_equal (fun t => snd (fst (fst t))) Hc) as E3;
      pose proof (f_equal (fun t => snd (fst t)) Hc) as E4;
      pose proof (f_equal (fun t => snd t) Hc) as E5;
      unfold required_cols in E1, E2, E3, E4, E5;
      cbn [fst snd] in E1, E2, E3, E4, E5;
      try rewrite E1 in Hc1; try rewrite E2 in Hc1; try rewrite E3 in Hc1;
      try rewrite E4 in Hc1; try rewrite E5 in Hc1;
      clear E1 E2 E3 E4 E5;
      cbn [fst snd] in Hc1;
      assert (Hn1 : NCALL_IPAR_SNFITSIO g1 = NCALL_IPAR_SNFITSIO g0 + 1)
        by reflexivity;
      rewrite Hn in Hn1;
      clearbody g1; clear Hs Hc Hn
  end.

Lemma check_required_headkeys_stores g :
  let col := IPAR_of g ITYPE_SNFITSIO_HEAD in
  exists g5 REQ,
    map REQ (seqZ 1 (Z.of_nat 5)) = REQUIRED /\
    same_tables g g5 /\
    required_cols g5
      = (col "SNID", col "FAKE", col "NOBS", col "PTROBS_MIN",
         col "PTROBS_MAX") /\
    NCALL_IPAR_SNFITSIO g5 = NCALL_IPAR_SNFITSIO g + 0 + 1 + 1 + 1 + 1 + 1 /\
    check_required_headkeys g =
    bind (for_fold 5 1 (required_report REQ) 0)
      (fun NERR =>
         when (0 <? NERR)
           (errmsg_FATAL "check_required_headkeys"
              ("Missing " +:+ pretty NERR +:+ " required headers keys.")
              "See list printed avove.")) g5.
Proof.
  intros col. unfold check_required_headkeys. cbv zeta.
  change (upd _ (0 + 1) "SNID" (0 + 1)) with "SNID".
  change (upd _ (0 + 1 + 1) "FAKE" (0 + 1 + 1)) with "FAKE".
  change (upd _ (0 + 1 + 1 + 1) "NOBS" (0 + 1 + 1 + 1)) with "NOBS".
  change (upd _ (0 + 1 + 1 + 1 + 1) "PTROBS_MIN" (0 + 1 + 1 + 1 + 1))
    with "PTROBS_MIN".
  change (upd _ (0 + 1 + 1 + 1 + 1 + 1) "PTROBS_MAX" (0 + 1 + 1 + 1 + 1 + 1))
    with "PTROBS_MAX".
  assert (Hs0 : same_tables g g) by (split; reflexivity).
  assert (Hc0 : required_cols g = required_cols g) by reflexivity.
  unfold required_cols at 2 in Hc0.
  assert (Hn0 : NCALL_IPAR_SNFITSIO g = NCALL_IPAR_SNFITSIO g + 0) by lia.
  store_value g Hs0 Hc0 Hn0.
  store_value g Hs Hc Hn.
  store_value g Hs0 Hc0 Hn0.
  store_value g Hs Hc Hn.
  store_value g Hs0 Hc0 Hn0.
  change (MXPARREQ_SNFITSIO <=? 0 + 1 + 1 + 1 + 1 + 1) with false.
  unfold when at 1. unfold bind at 1, ret at 1.
  change (trips 1 (0 + 1 + 1 + 1 + 1 + 1)) with 5%nat.
  eexists _, _. split; [|split; [exact Hs|split; [exact Hc|split;
    [exact Hn|reflexivity]]]].
  reflexivity.
Qed.

Lemma missing_keys_nil g :
  missing_keys g = [] ->
  forall key, In key REQUIRED ->
    exists c, column_of g ITYPE_SNFITSIO_HEAD key = Some c /\
              IPAR_of g ITYPE_SNFITSIO_HEAD key = c.
Proof.
  unfold missing_keys. intros H key Hin.
  assert (Hm : is_missing g key = false).
  { destruct (is_missing g key) eqn:E; [|reflexivity].
    assert (Hf : In key (List.filter (is_missing g) REQUIRED))
      by (apply List.filter_In; split; assumption).
    rewrite H in Hf. destruct Hf. }
  unfold is_missing in Hm. unfold IPAR_of.
  destruct (column_of g ITYPE_SNFITSIO_HEAD key) as [c|]; [|discriminate].
  exists c. split; reflexivity.
Qed.

(** [check_required_headkeys] returns only when no required key is
    missing, and then the cached columns are the columns of the keys. *)
Lemma check_required_headkeys_columns g g' :
  check_required_headkeys g = Ok tt g' ->
  let col := IPAR_of g ITYPE_SNFITSIO_HEAD in
  required_cols g'
    = (col "SNID", col "FAKE", col "NOBS", col "PTROBS_MIN",
       col "PTROBS_MAX") /\
  NCALL_IPAR_SNFITSIO g' = NCALL_IPAR_SNFITSIO g + 10 /\
  missing_keys g = [].
Proof.
  intros H col.
  destruct (check_required_headkeys_stores g)
    as (g5 & REQ & HREQ & Hs & Hc & Hn & E).
  rewrite E in H. clear E.
  destruct (required_report_fields REQ 5 1 0 g5) as (N & g6 & E & Hk & Hc6).
  destruct (required_report_loop g REQ 5 1 0 g5 Hs) as (g7 & E7 & _ & _).
  rewrite HREQ in E7. fold (missing_keys g) in E7.
  rewrite E in E7. injection E7 as HN _.
  unfold bind in H. rewrite E in H. unfold when, errmsg_FATAL, ret in H.
  destruct (0 <? N) eqn:EN; [discriminate|]. injection H as <-.
  destruct Hk as (H1 & H2 & H3 & H4 & H5).
  split; [|split].
  - unfold required_cols. rewrite H1, H2, H3, H4, H5. exact Hc.
  - rewrite Hc6, Hn. lia.
  - apply Z.ltb_ge in EN. destruct (missing_keys g); [reflexivity|].
    cbn [length] in HN. lia.
Qed.

(** When [check_required_headkeys] returns, each of the five required keys
    is a column of the Header table, and the globals [IPAR_SNFITSIO_SNID],
    [.._FAKE], [.._NOBS], [.._PTROBS_MIN] and [.._PTROBS_MAX] hold their
    column numbers; the tables are as before. *)
Theorem check_required_headkeys_caches g g' :
  check_required_headkeys g = Ok tt g' ->
  exists cSNID cFAKE cNOBS cMIN cMAX,
    column_of g ITYPE_SNFITSIO_HEAD "SNID" = Some cSNID /\
    column_of g ITYPE_SNFITSIO_HEAD "FAKE" = Some cFAKE /\
    column_of g ITYPE_SNFITSIO_HEAD "NOBS" = Some cNOBS /\
    column_of g ITYPE_SNFITSIO_HEAD "PTROBS_MIN" = Some cMIN /\
    column_of g ITYPE_SNFITSIO_HEAD "PTROBS_MAX" = Some cMAX /\
    IPAR_SNFITSIO_SNID g' = cSNID /\
    IPAR_SNFITSIO_FAKE g' = cFAKE /\
    IPAR_SNFITSIO_NOBS g' = cNOBS /\
    IPAR_SNFITSIO_PTROBS_MIN g' = cMIN /\
    IPAR_SNFITSIO_PTROBS_MAX g' = cMAX /\
    same_tables g g' /\
    fp_snfitsFile g' = fp_snfitsFile g.
Proof.
  intros H.
  destruct (check_required_headkeys_columns g g' H) as (Hc & _ & Hm).
  pose proof (missing_keys_nil g Hm) as Hall.
  destruct (Hall "SNID") as (c1 & C1 & I1); [cbn; tauto|].
  destruct (Hall "FAKE") as (c2 & C2 & I2); [cbn; tauto|].
  destruct (Hall "NOBS") as (c3 & C3 & I3); [cbn; tauto|].
  destruct (Hall "PTROBS_MIN") as (c4 & C4 & I4); [cbn; tauto|].
  destruct (Hall "PTROBS_MAX") as (c5 & C5 & I5); [cbn; tauto|].
  rewrite I1, I2, I3, I4, I5 in Hc. unfold required_cols in Hc.
  injection Hc as E1 E2 E3 E4 E5.
  exists c1, c2, c3, c4, c5.
  repeat (split; [assumption|]).
  pose proof (row_frame_check_required_headkeys g) as Hf.
  pose proof (check_required_headkeys_tables g) as Ht.
  rewrite (run_Ok _ _ _ _ H) in Hf, Ht.
  split; [|apply Ht].
  apply wr_rest_tables, Hf.
Qed.

End RequiredColumns.

Lemma check_required_headkeys_caches_witness :
  exists g',
    check_required_headkeys sample_writer = Ok tt g' /\
    IPAR_SNFITSIO_PTROBS_MIN g' = 13 /\
    IPAR_SNFITSIO_PTROBS_MAX g' = 14.
Proof.
  assert (E : check_required_headkeys sample_writer
              = Ok tt (run check_required_headkeys sample_writer))
    by (apply is_Ok_run; vm_compute; reflexivity).
  destruct (check_required_headkeys_caches _ _ E)
    as (c1 & c2 & c3 & c4 & c5 & _ & _ & _ & C4 & C5 & _ & _ & _ & I4 & I5 & _).
  exists (run check_required_headkeys sample_writer).
  split; [exact E|].
  assert (H4 : column_of sample_writer ITYPE_SNFITSIO_HEAD "PTROBS_MIN"
               = Some 13) by (vm_compute; reflexivity).
  assert (H5 : column_of sample_writer ITYPE_SNFITSIO_HEAD "PTROBS_MAX"
               = Some 14) by (vm_compute; reflexivity).
  split; congruence.
Defined.
Section Schema.
Context {K : constants}.

(** A run of declarations: every declared name is found afterwards, and
    the names found before keep their columns. *)
Lemma addCols_columns itype cols : forall g g',
  MXPAR_SNFITSIO <= INT_MAX ->
  0 <= NPAR_SNFITSIO g itype < INT_MAX ->
  addCols itype cols g = Ok tt g' ->
  NPAR_SNFITSIO g' itype = NPAR_SNFITSIO g itype + Z.of_nat (length cols) /\
  NPAR_SNFITSIO g' itype < INT_MAX /\
  fp_snfitsFile g' = fp_snfitsFile g /\
  (forall t, t <> itype ->
     NPAR_SNFITSIO g' t = NPAR_SNFITSIO g t /\
     SNFITSIO_TABLEDEF g' t = SNFITSIO_TABLEDEF g t) /\
  (forall nm c,
     column_of g itype nm = Some c -> column_of g' itype nm = Some c) /\
  (forall tf nm,
     In (tf, nm) cols -> exists c, column_of g' itype nm = Some c).
Proof.
  induction cols as [|[tf nm0] cols IH]; intros g g' HM HN; cbn [addCols].
  - intros [= <-]. rewrite Z.add_0_r.
    repeat split; try lia; try tauto. intros tf nm [].
  - unfold bind at 1.
    destruct (wr_snfitsio_addCol tf nm0 itype g) as [[] g1|] eqn:E1;
      [|discriminate].
    intros H.
    destruct (column_of_addCol _ _ _ _ _ HN E1)
      as (N1 & B1 & F1 & T1 & C1).
    destruct (IH g1 g' HM ltac:(lia) H) as (N2 & B2 & F2 & T2 & C2 & D2).
    cbn [length]. rewrite Nat2Z.inj_succ.
    split; [lia|]. split; [exact B2|]. split; [congruence|]. split.
    { intros t Ht. destruct (T1 t Ht), (T2 t Ht). split; congruence. }
    split.
    { intros nm c Hc. apply C2. rewrite C1, Hc. reflexivity. }
    intros tf' nm [Heq|Hin].
    + injection Heq as -> ->.
      destruct (column_of g itype nm) as [c|] eqn:Ec.
      * exists c. apply C2. rewrite C1, Ec. reflexivity.
      * exists (NPAR_SNFITSIO g itype + 1). apply C2.
        rewrite C1, Ec, strcmp0_refl. reflexivity.
    + apply (D2 tf' nm Hin).
Qed.

Lemma check_required_headkeys_passes g :
  missing_keys g = [] -> exists g', check_required_headkeys g = Ok tt g'.
Proof.
  intros Hm.
  destruct (check_required_headkeys_stores g)
    as (g5 & REQ & HREQ & Hs & _ & _ & E).
  rewrite E. clear E.
  destruct (required_report_loop g REQ 5 1 0 g5 Hs) as (g7 & E7 & _ & _).
  rewrite HREQ in E7. fold (missing_keys g) in E7. rewrite Hm in E7.
  unfold bind. rewrite E7. exists g7. reflexivity.
Qed.

Lemma create_tbl_eq itype TBLname g :
  create_tbl itype TBLname g =
  Ok tt
    (set_fp_snfitsFile
       (upd (fp_snfitsFile g) itype
          (fits_create_tbl (NPAR_SNFITSIO g itype)
             (name (SNFITSIO_TABLEDEF g itype))
             (form (SNFITSIO_TABLEDEF g itype)))) g).
Proof. reflexivity. Qed.

(** The Header table that [wr_snfitsio_init_head] creates carries the
    declared names and forms, holds no row, and has the five required
    columns: the reader's [check_required_headkeys] accepts it. *)
Theorem wr_snfitsio_init_head_required g g' :
  MXPAR_SNFITSIO <= INT_MAX ->
  0 <= NPAR_SNFITSIO g ITYPE_SNFITSIO_HEAD < INT_MAX ->
  wr_snfitsio_init_head g = Ok tt g' ->
  let fp := fp_snfitsFile g' ITYPE_SNFITSIO_HEAD in
  let t := SNFITSIO_TABLEDEF g' ITYPE_SNFITSIO_HEAD in
  TFIELDS fp = NPAR_SNFITSIO g' ITYPE_SNFITSIO_HEAD /\
  TTYPE fp = name t /\ TFORM fp = form t /\
  NAXIS2 fp = 0 /\ CELLS fp = ∅ /\
  missing_keys g' = [] /\
  exists g'', check_required_headkeys g' = Ok tt g''.
Proof.
  intros HM HN. unfold wr_snfitsio_init_head. cbv zeta.
  unfold bind at 1, gets at 1. unfold bind at 1.
  destruct (addCols ITYPE_SNFITSIO_HEAD (head_cols_1 g) g) as [[] g1|] eqn:E1;
    [|discriminate].
  destruct (addCols_columns _ _ _ _ HM HN E1) as (N1 & B1 & _ & _ & _ & D1).
  unfold bind at 1, modify at 1. unfold bind at 1, gets at 1.
  unfold bind at 1.
  assert (HN1 : 0 <= NPAR_SNFITSIO g1 ITYPE_SNFITSIO_HEAD < INT_MAX) by lia.
  match goal with
  | |- context [addCols _ ?cols ?g2] =>
      destruct (addCols ITYPE_SNFITSIO_HEAD cols g2) as [[] g3|] eqn:E3;
        [|discriminate];
      destruct (addCols_columns _ _ g2 g3 HM HN1 E3)
        as (_ & _ & _ & _ & C3 & _)
  end.
  rewrite create_tbl_eq. intros [= <-].
  assert (Hreq : forall key, In key REQUIRED ->
            exists c, column_of g3 ITYPE_SNFITSIO_HEAD key = Some c).
  { intros key Hin.
    assert (Hd : exists tf, In (tf, key) (head_cols_1 g)).
    { unfold head_cols_1. cbv zeta.
      cbn in Hin. destruct Hin as [<-|[<-|[<-|[<-|[<-|[]]]]]];
        eexists; rewrite !in_app_iff; cbn; tauto. }
    destruct Hd as (tf & Hd). destruct (D1 tf key Hd) as (c & Hc).
    exists c. apply C3. exact Hc. }
  assert (Hm : missing_keys
                 (set_fp_snfitsFile
                    (upd (fp_snfitsFile g3) ITYPE_SNFITSIO_HEAD
                       (fits_create_tbl
                          (NPAR_SNFITSIO g3 ITYPE_SNFITSIO_HEAD)
                          (name (SNFITSIO_TABLEDEF g3 ITYPE_SNFITSIO_HEAD))
                          (form (SNFITSIO_TABLEDEF g3 ITYPE_SNFITSIO_HEAD))))
                    g3) = []).
  { unfold missing_keys, is_missing.
    change (column_of (set_fp_snfitsFile _ g3)) with (column_of g3).
    unfold REQUIRED. cbn [List.filter].
    destruct (Hreq "SNID") as (c1 & ->); [cbn; tauto|].
    destruct (Hreq "FAKE") as (c2 & ->); [cbn; tauto|].
    destruct (Hreq "NOBS") as (c3 & ->); [cbn; tauto|].
    destruct (Hreq "PTROBS_MIN") as (c4 & ->); [cbn; tauto|].
    destruct (Hreq "PTROBS_MAX") as (c5 & ->); [cbn; tauto|].
    reflexivity. }
  cbn [fp_snfitsFile set_fp_snfitsFile]. rewrite upd_eq.
  repeat (split; [reflexivity|]).
  split; [exact Hm|]. apply check_required_headkeys_passes, Hm.
Qed.

End Schema.

Lemma wr_snfitsio_init_head_required_witness :
  exists g' g'',
    wr_snfitsio_init_head (K := sample_constants)
      (set_SNDATA sample_SNDATA globals_init) = Ok tt g' /\
    check_required_headkeys g' = Ok tt g''.
Proof.
  assert (E : wr_snfitsio_init_head (K := sample_constants)
                (set_SNDATA sample_SNDATA globals_init)
              = Ok tt (run (wr_snfitsio_init_head (K := sample_constants))
                         (set_SNDATA sample_SNDATA globals_init)))
    by (apply is_Ok_run; vm_compute; reflexivity).
  assert (HM : MXPAR_SNFITSIO (constants := sample_constants) <= INT_MAX)
    by (vm_compute; discriminate).
  assert (HN : 0 <= NPAR_SNFITSIO (set_SNDATA sample_SNDATA globals_init)
                      ITYPE_SNFITSIO_HEAD < INT_MAX)
    by (vm_compute; split; [discriminate | reflexivity]).
  destruct (wr_snfitsio_init_head_required (K := sample_constants) _ _
              HM HN E)
    as (_ & _ & _ & _ & _ & _ & g'' & Hc).
  eexists _, g''. split; [exact E | exact Hc].
Defined.
(** ** The Photometry table declared and the rows written to it *)

Section InitPhot.
Context {K : constants}.












End InitPhot.

(** ** The registry of the columns read *)

Section Index.
Lemma IFORM_eqb_eq a b : IFORM_eqb a b = true <-> a = b.
Proof. destruct a, b; cbn; split; intros H; try discriminate; reflexivity. Qed.

Lemma IFORM_eq_dec (a b : IFORM) : {a = b} + {a <> b}.
Proof. decide equality. Qed.

Lemma updF_eq {A} (a : IFORM -> A) f v : updF a f v f = v.
Proof. unfold updF. now rewrite (proj2 (IFORM_eqb_eq f f) eq_refl). Qed.

Lemma updF_ne {A} (a : IFORM -> A) f f' v : f' <> f -> updF a f v f' = a f'.
Proof.
  unfold updF. intros H. destruct (IFORM_eqb f' f) eqn:E; [|reflexivity].
  apply IFORM_eqb_eq in E. contradiction.
Qed.

Lemma formIndex_snfitsio_eq tform g :
  formIndex_snfitsio tform g =
  match form_index tform with
  | Some f => Ok f g
  | None =>
      Fatal "formIndex_snfitsio"
        ("Unrecognized fits-form '" +:+ tform +:+ "'") "Check fits table." g
  end.
Proof.
  unfold formIndex_snfitsio, form_index. cbv zeta.
  repeat match goal with
         | |- context [if ?b then _ else _] => destruct b; [reflexivity|]
         end.
  reflexivity.
Qed.

Lemma tblpar_column_Ok itype icol g g' :
  tblpar_column itype icol g = Ok tt g' ->
  let fp := fp_snfitsFile g itype in
  let t := SNFITSIO_TABLEDEF g itype in
  let t' := SNFITSIO_TABLEDEF g' itype in
  let rd := RD_SNFITSIO_TABLEVAL g itype in
  let rd' := RD_SNFITSIO_TABLEVAL g' itype in
  exists f,
    form_index (TFORM fp icol) = Some f /\
    index_frame itype g g' /\
    name t' = upd (name t) icol (TTYPE fp icol) /\
    form t' = upd (form t) icol (TFORM fp icol) /\
    iform t' = upd (iform t) icol (Some f) /\
    let n' := int_cast (NPAR rd f + 1) in
    NPAR rd' = updF (NPAR rd) f n' /\
    IPAR rd' = updF (IPAR rd) f (upd (IPAR rd f) n' icol) /\
    IPARINV rd' = updF (IPARINV rd) f (upd (IPARINV rd f) icol n') /\
    (forall f0 ipar J, buffer_cell rd' f0 ipar J = buffer_cell rd f0 ipar J).
Proof.
  unfold tblpar_column. unfold bind at 1, gets at 1.
  unfold bind at 1, modify_TABLEDEF at 1, modify at 1.
  unfold bind at 1, modify_TABLEDEF at 1, modify at 1.
  unfold bind at 1. rewrite formIndex_snfitsio_eq.
  cbn [fp_snfitsFile set_SNFITSIO_TABLEDEF].
  destruct (form_index (TFORM (fp_snfitsFile g itype) icol)) as [f|];
    [|discriminate].
  unfold bind, modify_TABLEDEF, modify_RD, modify.
  intros [= <-]. cbv zeta. exists f. split; [reflexivity|]. split.
  { split; [destruct g; reflexivity|]. intros t Ht. cbn.
    rewrite !upd_ne by exact Ht. split; reflexivity. }
  cbn. rewrite ?upd_eq. cbn. rewrite ?upd_eq. cbn. rewrite ?upd_eq. cbn.
  rewrite ?updF_eq.
  repeat (split; [reflexivity|]).
  intros f0 ipar J. destruct f0; reflexivity.
Qed.


Lemma index_frame_refl itype g : index_frame itype g g.
Proof. split; [destruct g; reflexivity|]. intros t _. split; reflexivity. Qed.

Lemma index_frame_trans itype a b c :
  index_frame itype a b -> index_frame itype b c -> index_frame itype a c.
Proof.
  intros [H1 H1'] [H2 H2']. split.
  - rewrite <- H2 in H1. exact H1.
  - intros t Ht. destruct (H1' t Ht) as [<- <-]. exact (H2' t Ht).
Qed.

Lemma index_frame_fp itype g g' :
  index_frame itype g g' -> fp_snfitsFile g' = fp_snfitsFile g.
Proof. intros [H _]. exact (f_equal fp_snfitsFile H). Qed.

Lemma indexed_step fp itype k g g' :
  0 <= k -> k + 1 <= INT_MAX ->
  fp_snfitsFile g itype = fp ->
  indexed fp g itype k ->
  tblpar_column itype (k + 1) g = Ok tt g' ->
  indexed fp g' itype (k + 1) /\ index_frame itype g g' /\
  forall f ipar J,
    buffer_cell (RD_SNFITSIO_TABLEVAL g' itype) f ipar J =
    buffer_cell (RD_SNFITSIO_TABLEVAL g itype) f ipar J.
Proof.
  intros Hk Hmax Hfp (Hn & Hc & Hs & Hm) Hrun.
  apply tblpar_column_Ok in Hrun. cbv zeta in Hrun. rewrite Hfp in Hrun.
  destruct Hrun as (f & Hf & Hfr & Hname & Hform & Hif & HN & HI & HV & Hb).
  split; [|split; [exact Hfr | exact Hb]].
  assert (Hn' : int_cast (NPAR (RD_SNFITSIO_TABLEVAL g itype) f + 1) =
                NPAR (RD_SNFITSIO_TABLEVAL g itype) f + 1).
  { apply int_cast_id. unfold in_int, INT_MIN. unfold INT_MAX in *.
    specialize (Hn f). lia. }
  rewrite Hn' in HN, HI, HV. clear Hn'.
  unfold indexed. cbv zeta. rewrite Hname, Hform, Hif, HN, HI, HV.
  split; [|split; [|split]].
  - intros f0. specialize (Hn f0). destruct (IFORM_eq_dec f0 f) as [->|Hne].
    + rewrite updF_eq. lia.
    + rewrite updF_ne by exact Hne. lia.
  - intros icol Hi. destruct (Z.eq_dec icol (k + 1)) as [->|Hne].
    + rewrite !upd_eq. split; [reflexivity|]. split; [reflexivity|].
      exists f. rewrite !updF_eq, !upd_eq. specialize (Hn f).
      repeat split; try assumption; lia.
    + rewrite !upd_ne by exact Hne.
      destruct (Hc icol ltac:(lia)) as (H1 & H2 & f0 & H3 & H4 & H5 & H6).
      split; [exact H1|]. split; [exact H2|]. exists f0.
      split; [exact H3|]. split; [exact H4|].
      destruct (IFORM_eq_dec f0 f) as [->|Hnf].
      * rewrite !updF_eq. rewrite (upd_ne _ _ icol) by exact Hne.
        rewrite upd_ne by lia. split; [lia | exact H6].
      * rewrite !updF_ne by exact Hnf. split; [lia | exact H6].
  - intros f0 ipar Hi. destruct (IFORM_eq_dec f0 f) as [->|Hnf].
    + rewrite !updF_eq in *.
      destruct (Z.eq_dec ipar (NPAR (RD_SNFITSIO_TABLEVAL g itype) f + 1))
        as [->|Hne].
      * rewrite !upd_eq. split; [lia|]. split; [reflexivity|reflexivity].
      * rewrite (upd_ne _ _ ipar) by exact Hne.
        destruct (Hs f ipar ltac:(lia)) as (H1 & H2 & H3).
        rewrite !upd_ne by lia. split; [lia|]. split; assumption.
    + rewrite !updF_ne in * by exact Hnf.
      destruct (Hs f0 ipar Hi) as (H1 & H2 & H3).
      rewrite !upd_ne by lia. split; [lia|]. split; assumption.
  - intros f0 i j Hi Hij Hj. destruct (IFORM_eq_dec f0 f) as [->|Hnf].
    + rewrite !updF_eq in *. rewrite (upd_ne _ _ i) by lia.
      destruct (Z.eq_dec j (NPAR (RD_SNFITSIO_TABLEVAL g itype) f + 1))
        as [->|Hne].
      * rewrite upd_eq. destruct (Hs f i ltac:(lia)) as (H1 & _). lia.
      * rewrite upd_ne by exact Hne. apply Hm; lia.
    + rewrite !updF_ne in * by exact Hnf. apply Hm; lia.
Qed.


Lemma indexed_loop fp itype n :
  forall k g g',
    0 <= k -> k + Z.of_nat n <= INT_MAX ->
    fp_snfitsFile g itype = fp ->
    indexed fp g itype k ->
    for_loop n (k + 1) (tblpar_column itype) g = Ok tt g' ->
    indexed fp g' itype (k + Z.of_nat n) /\ index_frame itype g g' /\
    forall f ipar J,
      buffer_cell (RD_SNFITSIO_TABLEVAL g' itype) f ipar J =
      buffer_cell (RD_SNFITSIO_TABLEVAL g itype) f ipar J.
Proof.
  induction n as [|n IH]; intros k g g' Hk Hmax Hfp Hix Hrun.
  - cbn in Hrun. injection Hrun as <-. rewrite Z.add_0_r.
    split; [exact Hix|]. split; [apply index_frame_refl | reflexivity].
  - cbn [for_loop] in Hrun. unfold bind at 1 in Hrun.
    destruct (tblpar_column itype (k + 1) g) as [[] g1|] eqn:E1;
      [|discriminate].
    destruct (indexed_step fp itype k g g1) as (Hix1 & Hfr1 & Hb1);
      try assumption; [lia|].
    destruct (IH (k + 1) g1 g') as (Hix2 & Hfr2 & Hb2);
      try assumption; [lia | lia | |].
    { rewrite (index_frame_fp _ _ _ Hfr1). exact Hfp. }
    replace (k + Z.of_nat (S n)) with (k + 1 + Z.of_nat n) by lia.
    split; [exact Hix2|]. split.
    + eapply index_frame_trans; eassumption.
    + intros f ipar J. rewrite Hb2. apply Hb1.
Qed.

Lemma tblpar_column_fatal itype icol g :
  form_index (TFORM (fp_snfitsFile g itype) icol) = None ->
  fatal_in "formIndex_snfitsio" (tblpar_column itype icol g).
Proof.
  intros H. unfold tblpar_column. unfold bind at 1, gets at 1.
  unfold bind at 1, modify_TABLEDEF at 1, modify at 1.
  unfold bind at 1, modify_TABLEDEF at 1, modify at 1.
  unfold bind at 1. rewrite formIndex_snfitsio_eq.
  cbn [fp_snfitsFile set_SNFITSIO_TABLEDEF]. rewrite H. reflexivity.
Qed.

Lemma tblpar_column_runs itype icol g f :
  form_index (TFORM (fp_snfitsFile g itype) icol) = Some f ->
  exists g', tblpar_column itype icol g = Ok tt g'.
Proof.
  intros H. unfold tblpar_column. unfold bind at 1, gets at 1.
  unfold bind at 1, modify_TABLEDEF at 1, modify at 1.
  unfold bind at 1, modify_TABLEDEF at 1, modify at 1.
  unfold bind at 1. rewrite formIndex_snfitsio_eq.
  cbn [fp_snfitsFile set_SNFITSIO_TABLEDEF]. rewrite H.
  unfold bind, modify_TABLEDEF, modify_RD, modify. eexists. reflexivity.
Qed.

Lemma tblpar_loop_fatal fp itype n :
  forall k g bad,
    0 <= k -> k + Z.of_nat n <= INT_MAX ->
    fp_snfitsFile g itype = fp ->
    indexed fp g itype k ->
    k < bad <= k + Z.of_nat n ->
    form_index (TFORM fp bad) = None ->
    fatal_in "formIndex_snfitsio"
      (for_loop n (k + 1) (tblpar_column itype) g).
Proof.
  induction n as [|n IH]; intros k g bad Hk Hmax Hfp Hix Hbad Hnone;
    [lia|].
  cbn [for_loop]. unfold bind at 1.
  destruct (form_index (TFORM fp (k + 1))) as [f|] eqn:Ef.
  - destruct (tblpar_column_runs itype (k + 1) g f) as [g1 E1];
      [now rewrite Hfp|].
    rewrite E1.
    destruct (indexed_step fp itype k g g1) as (Hix1 & Hfr1 & _);
      try assumption; [lia|].
    apply (IH (k + 1) g1 bad); try assumption; try lia.
    + rewrite (index_frame_fp _ _ _ Hfr1). exact Hfp.
    + destruct (Z.eq_dec bad (k + 1)) as [->|]; [congruence | lia].
  - pose proof (tblpar_column_fatal itype (k + 1) g) as Hf.
    rewrite Hfp in Hf. specialize (Hf Ef).
    destruct (tblpar_column itype (k + 1) g); [contradiction | exact Hf].
Qed.


Lemma rd_snfitsio_tblpar_eq ifile itype g :
  rd_snfitsio_tblpar ifile itype g =
  bind (for_loop (trips 1 (TFIELDS (fp_snfitsFile g itype))) 1
          (tblpar_column itype))
    (fun _ => when (itype =? ITYPE_SNFITSIO_HEAD) check_required_headkeys)
    (run (modify_RD itype (set_NPAR (fun _ => 0)))
       (set_NPAR_SNFITSIO
          (upd (NPAR_SNFITSIO g) itype
             (int_cast (TFIELDS (fp_snfitsFile g itype)))) g)).
Proof. reflexivity. Qed.

Lemma indexed_reset fp itype N g :
  let g0 :=
    run (modify_RD itype (set_NPAR (fun _ => 0)))
      (set_NPAR_SNFITSIO (upd (NPAR_SNFITSIO g) itype N) g) in
  indexed fp g0 itype 0 /\
  fp_snfitsFile g0 = fp_snfitsFile g /\
  NPAR_SNFITSIO g0 = upd (NPAR_SNFITSIO g) itype N /\
  SNFITSIO_TABLEDEF g0 = SNFITSIO_TABLEDEF g /\
  (forall t, t <> itype ->
     RD_SNFITSIO_TABLEVAL g0 t = RD_SNFITSIO_TABLEVAL g t) /\
  forall f ipar J,
    buffer_cell (RD_SNFITSIO_TABLEVAL g0 itype) f ipar J =
    buffer_cell (RD_SNFITSIO_TABLEVAL g itype) f ipar J.
Proof.
  cbv zeta. cbn. split; [|repeat split].
  - unfold indexed. cbn. rewrite upd_eq. cbn.
    split; [intros _; lia|]. repeat split; intros; lia.
  - intros t Ht. now rewrite upd_ne.
  - intros f ipar J. rewrite upd_eq. destruct f; reflexivity.
Qed.

Lemma check_required_headkeys_index g g' :
  check_required_headkeys g = Ok tt g' ->
  NPAR_SNFITSIO g' = NPAR_SNFITSIO g /\
  SNFITSIO_TABLEDEF g' = SNFITSIO_TABLEDEF g /\
  RD_SNFITSIO_TABLEVAL g' = RD_SNFITSIO_TABLEVAL g /\
  fp_snfitsFile g' = fp_snfitsFile g /\
  NSNLC_SNFITSIO g' = NSNLC_SNFITSIO g.
Proof.
  intros H.
  pose proof (row_frame_check_required_headkeys g) as Hf.
  pose proof (check_required_headkeys_tables g) as Ht.
  rewrite (run_Ok _ _ _ _ H) in Hf, Ht.
  destruct Hf as [[Hrest _] _].
  split; [exact (f_equal NPAR_SNFITSIO Hrest)|].
  split; [exact (f_equal SNFITSIO_TABLEDEF Hrest)|].
  split; [exact (f_equal RD_SNFITSIO_TABLEVAL Hrest)|].
  split; [apply Ht | exact (f_equal NSNLC_SNFITSIO Hrest)].
Qed.

Lemma indexed_column_of fp g itype :
  0 <= TFIELDS fp ->
  NPAR_SNFITSIO g itype = TFIELDS fp ->
  indexed fp g itype (TFIELDS fp) ->
  forall parName, column_of g itype parName = table_column fp parName.
Proof.
  intros H0 HN (_ & Hc & _) parName.
  unfold column_of, table_column, trips. rewrite HN.
  replace (TFIELDS fp - 1 + 1) with (TFIELDS fp) by lia.
  apply IPAR_scan_ext. intros j Hj. apply Hc. lia.
Qed.

Lemma rd_snfitsio_tblpar_Ok ifile itype g g' :
  let fp := fp_snfitsFile g itype in
  0 <= TFIELDS fp <= INT_MAX ->
  rd_snfitsio_tblpar ifile itype g = Ok tt g' ->
  NPAR_SNFITSIO g' itype = TFIELDS fp /\
  indexed fp g' itype (TFIELDS fp) /\
  (forall parName,
     column_of g' itype parName = table_column fp parName) /\
  fp_snfitsFile g' = fp_snfitsFile g /\
  (forall t, t <> itype ->
     NPAR_SNFITSIO g' t = NPAR_SNFITSIO g t /\
     SNFITSIO_TABLEDEF g' t = SNFITSIO_TABLEDEF g t /\
     RD_SNFITSIO_TABLEVAL g' t = RD_SNFITSIO_TABLEVAL g t) /\
  (forall f ipar J,
     buffer_cell (RD_SNFITSIO_TABLEVAL g' itype) f ipar J =
     buffer_cell (RD_SNFITSIO_TABLEVAL g itype) f ipar J) /\
  NSNLC_SNFITSIO g' = NSNLC_SNFITSIO g /\
  (itype <> ITYPE_SNFITSIO_HEAD -> required_cols g' = required_cols g) /\
  (itype = ITYPE_SNFITSIO_HEAD ->
   let col := IPAR_of g' ITYPE_SNFITSIO_HEAD in
   missing_keys g' = [] /\
   required_cols g'
   = (col "SNID", col "FAKE", col "NOBS", col "PTROBS_MIN",
      col "PTROBS_MAX")).
Proof.
  intros fp Hb Hrun. rewrite rd_snfitsio_tblpar_eq in Hrun. fold fp in Hrun.
  destruct (indexed_reset fp itype (int_cast (TFIELDS fp)) g)
    as (Hix0 & Hfp0 & HN0 & HT0 & HR0 & HB0).
  cbv zeta in Hix0, Hfp0, HN0, HT0, HR0, HB0.
  assert (HS0 : NSNLC_SNFITSIO
                  (run (modify_RD itype (set_NPAR (fun _ => 0)))
                     (set_NPAR_SNFITSIO
                        (upd (NPAR_SNFITSIO g) itype (int_cast (TFIELDS fp)))
                        g)) = NSNLC_SNFITSIO g) by reflexivity.
  assert (HQ0 : required_cols
                  (run (modify_RD itype (set_NPAR (fun _ => 0)))
                     (set_NPAR_SNFITSIO
                        (upd (NPAR_SNFITSIO g) itype (int_cast (TFIELDS fp)))
                        g)) = required_cols g) by reflexivity.
  set (g0 := run _ _) in *. clearbody g0.
  unfold bind at 1 in Hrun.
  destruct (for_loop _ 1 (tblpar_column itype) g0) as [[] g1|] eqn:E1;
    [|discriminate].
  destruct (indexed_loop fp itype (trips 1 (TFIELDS fp)) 0 g0 g1)
    as (Hix1 & Hfr1 & HB1); try assumption; try lia.
  { unfold trips. rewrite Z2Nat.id; lia. }
  { now rewrite Hfp0. }
  assert (Hk : 0 + Z.of_nat (trips 1 (TFIELDS fp)) = TFIELDS fp).
  { unfold trips. rewrite Z2Nat.id; lia. }
  rewrite Hk in Hix1. clear Hk E1.
  assert (HN1 : NPAR_SNFITSIO g1 = NPAR_SNFITSIO g0)
    by (destruct Hfr1 as [H _]; exact (f_equal NPAR_SNFITSIO H)).
  assert (HS1 : NSNLC_SNFITSIO g1 = NSNLC_SNFITSIO g0)
    by (destruct Hfr1 as [H _]; exact (f_equal NSNLC_SNFITSIO H)).
  assert (HQ1 : required_cols g1 = required_cols g0)
    by (destruct Hfr1 as [H _]; exact (f_equal required_cols H)).
  assert (HNP1 : NPAR_SNFITSIO g1 itype = TFIELDS fp).
  { rewrite HN1, HN0, upd_eq. apply int_cast_id.
    unfold in_int, INT_MIN. unfold INT_MAX in *. lia. }
  assert (Hcol1 : forall parName,
             column_of g1 itype parName = table_column fp parName)
    by (apply indexed_column_of; [lia | exact HNP1 | exact Hix1]).
  assert (Hrel : NPAR_SNFITSIO g' = NPAR_SNFITSIO g1 /\
                 SNFITSIO_TABLEDEF g' = SNFITSIO_TABLEDEF g1 /\
                 RD_SNFITSIO_TABLEVAL g' = RD_SNFITSIO_TABLEVAL g1 /\
                 fp_snfitsFile g' = fp_snfitsFile g1 /\
                 NSNLC_SNFITSIO g' = NSNLC_SNFITSIO g1).
  { destruct (itype =? ITYPE_SNFITSIO_HEAD); cbn [when] in Hrun.
    - apply check_required_headkeys_index, Hrun.
    - injection Hrun as <-. repeat split. }
  destruct Hrel as (EN & ET & ER & EF & ES).
  assert (Hsame : same_tables g1 g') by (split; assumption).
  split; [now rewrite EN|].
  split; [unfold indexed in *; rewrite ET, ER; exact Hix1|].
  split; [intros parName; rewrite (column_of_same _ _ _ _ Hsame); apply Hcol1|].
  split; [rewrite EF, (index_frame_fp _ _ _ Hfr1); exact Hfp0|].
  split.
  { intros t Ht. destruct Hfr1 as [_ Hfr1]. destruct (Hfr1 t Ht) as [H1 H2].
    rewrite EN, ET, ER, HN1, HN0, H1, H2, HT0, (HR0 t Ht).
    rewrite upd_ne by exact Ht. repeat split. }
  split; [intros f ipar J; rewrite ER, HB1; apply HB0|].
  split; [congruence|].
  split.
  - intros Hne. apply Z.eqb_neq in Hne. rewrite Hne in Hrun.
    cbn [when] in Hrun. injection Hrun as <-. congruence.
  - intros ->. rewrite Z.eqb_refl in Hrun. cbn [when] in Hrun.
    destruct (check_required_headkeys_columns g1 g' Hrun) as (Hc & _ & Hm).
    cbv zeta in Hc |- *. split.
    + unfold missing_keys in *. rewrite <- Hm. apply filter_ext.
      intros key. unfold is_missing.
      now rewrite (column_of_same _ _ _ _ Hsame).
    + rewrite Hc. unfold IPAR_of.
      now rewrite !(column_of_same _ _ _ _ Hsame).
Qed.

(** [rd_snfitsio_tblpar], when it returns, has registered the columns of the
    open table: their count, and for each column its name, its form and a
    slot among the columns of its form, the slot-to-column and
    column-to-slot arrays being inverse to each other; a column is then
    found by name where the table has it.  The table file, the registry of
    the other tables and the read buffers are left as they were. *)
Theorem rd_snfitsio_tblpar_indexes ifile itype g g' :
  let fp := fp_snfitsFile g itype in
  0 <= TFIELDS fp <= INT_MAX ->
  rd_snfitsio_tblpar ifile itype g = Ok tt g' ->
  NPAR_SNFITSIO g' itype = TFIELDS fp /\
  indexed fp g' itype (TFIELDS fp) /\
  (forall parName,
     column_of g' itype parName = table_column fp parName) /\
  fp_snfitsFile g' = fp_snfitsFile g /\
  (forall t, t <> itype ->
     NPAR_SNFITSIO g' t = NPAR_SNFITSIO g t /\
     SNFITSIO_TABLEDEF g' t = SNFITSIO_TABLEDEF g t /\
     RD_SNFITSIO_TABLEVAL g' t = RD_SNFITSIO_TABLEVAL g t) /\
  forall f ipar J,
    buffer_cell (RD_SNFITSIO_TABLEVAL g' itype) f ipar J =
    buffer_cell (RD_SNFITSIO_TABLEVAL g itype) f ipar J.
Proof.
  intros fp Hb Hrun.
  destruct (rd_snfitsio_tblpar_Ok ifile itype g g' Hb Hrun)
    as (H1 & H2 & H3 & H4 & H5 & H6 & _).
  repeat (split; [assumption|]). exact H6.
Qed.

Lemma forms_known_spec fp :
  forms_known fp = true ->
  0 <= TFIELDS fp <= INT_MAX /\
  forall icol, 1 <= icol <= TFIELDS fp ->
    exists f, form_index (TFORM fp icol) = Some f.
Proof.
  unfold forms_known. rewrite !andb_true_iff, forallb_forall.
  intros [[H0 H1] Hall]. apply Z.leb_le in H0, H1. split; [lia|].
  intros icol Hi. specialize (Hall icol).
  destruct (form_index (TFORM fp icol)) as [f|]; [now exists f|].
  discriminate Hall. apply list_elem_of_In, elem_of_seqZ. lia.
Qed.

Lemma tblpar_loop_runs fp itype n :
  forall k g,
    0 <= k -> k + Z.of_nat n <= INT_MAX ->
    fp_snfitsFile g itype = fp ->
    indexed fp g itype k ->
    (forall icol, k < icol <= k + Z.of_nat n ->
       exists f, form_index (TFORM fp icol) = Some f) ->
    exists g', for_loop n (k + 1) (tblpar_column itype) g = Ok tt g'.
Proof.
  induction n as [|n IH]; intros k g Hk Hmax Hfp Hix Hall.
  - exists g. reflexivity.
  - destruct (Hall (k + 1) ltac:(lia)) as [f Hf].
    destruct (tblpar_column_runs itype (k + 1) g f) as [g1 E1];
      [now rewrite Hfp|].
    destruct (indexed_step fp itype k g g1) as (Hix1 & Hfr1 & _);
      try assumption; [lia|].
    destruct (IH (k + 1) g1) as [g2 E2]; try assumption; try lia.
    + rewrite (index_frame_fp _ _ _ Hfr1). exact Hfp.
    + intros icol Hi. apply Hall. lia.
    + exists g2. cbn [for_loop]. unfold bind at 1. rewrite E1. exact E2.
Qed.

Lemma rd_snfitsio_tblpar_runs ifile itype g :
  let fp := fp_snfitsFile g itype in
  forms_known fp = true ->
  (itype = ITYPE_SNFITSIO_HEAD ->
   forall key, In key REQUIRED -> table_column fp key <> None) ->
  exists g', rd_snfitsio_tblpar ifile itype g = Ok tt g'.
Proof.
  intros fp Hk Hreq. apply forms_known_spec in Hk as [Hb Hall].
  rewrite rd_snfitsio_tblpar_eq. fold fp.
  destruct (indexed_reset fp itype (int_cast (TFIELDS fp)) g)
    as (Hix0 & Hfp0 & HN0 & _).
  cbv zeta in Hix0, Hfp0, HN0.
  set (g0 := run _ _) in *. clearbody g0.
  assert (Hlen : 0 + Z.of_nat (trips 1 (TFIELDS fp)) = TFIELDS fp).
  { unfold trips. rewrite Z2Nat.id; lia. }
  destruct (tblpar_loop_runs fp itype (trips 1 (TFIELDS fp)) 0 g0)
    as [g1 E1]; try assumption; try lia.
  { now rewrite Hfp0. }
  { intros icol Hi. apply Hall. lia. }
  change (0 + 1) with 1 in E1. unfold bind at 1. rewrite E1.
  destruct (itype =? ITYPE_SNFITSIO_HEAD) eqn:E; cbn [when];
    [|exists g1; reflexivity].
  apply Z.eqb_eq in E. subst itype. specialize (Hreq eq_refl).
  apply check_required_headkeys_passes.
  destruct (indexed_loop fp ITYPE_SNFITSIO_HEAD (trips 1 (TFIELDS fp)) 0 g0
              g1) as (Hix1 & Hfr1 & _); try assumption; try lia.
  { now rewrite Hfp0. }
  rewrite Hlen in Hix1.
  assert (HNP1 : NPAR_SNFITSIO g1 ITYPE_SNFITSIO_HEAD = TFIELDS fp).
  { destruct Hfr1 as [H _].
    assert (HN1 : NPAR_SNFITSIO g1 = NPAR_SNFITSIO g0)
      by exact (f_equal NPAR_SNFITSIO H).
    rewrite HN1, HN0, upd_eq.
    apply int_cast_id. unfold in_int, INT_MIN. unfold INT_MAX in *. lia. }
  pose proof (indexed_column_of fp g1 ITYPE_SNFITSIO_HEAD ltac:(lia) HNP1
                Hix1) as Hcol.
  unfold missing_keys.
  assert (Hnone : forall key, In key REQUIRED -> is_missing g1 key = false).
  { intros key Hin. unfold is_missing. rewrite Hcol.
    destruct (table_column fp key) eqn:Ek; [reflexivity|].
    now destruct (Hreq key Hin). }
  clear Hreq. revert Hnone. generalize REQUIRED as l.
  induction l as [|key rest IHr]; intros Hnone; [reflexivity|].
  cbn [List.filter]. rewrite (Hnone key) by (left; reflexivity).
  apply IHr. intros key' Hin. apply Hnone. right. exact Hin.
Qed.

(** A column whose form is none of the six forms stops
    [rd_snfitsio_tblpar] in [formIndex_snfitsio]. *)
Theorem rd_snfitsio_tblpar_bad_form ifile itype g icol :
  let fp := fp_snfitsFile g itype in
  0 <= TFIELDS fp <= INT_MAX ->
  1 <= icol <= TFIELDS fp ->
  form_index (TFORM fp icol) = None ->
  fatal_in "formIndex_snfitsio" (rd_snfitsio_tblpar ifile itype g).
Proof.
  intros fp Hb Hi Hnone. rewrite rd_snfitsio_tblpar_eq. fold fp.
  destruct (indexed_reset fp itype (int_cast (TFIELDS fp)) g)
    as (Hix0 & Hfp0 & _).
  cbv zeta in Hix0, Hfp0.
  set (g0 := run _ _) in *. clearbody g0.
  unfold bind at 1.
  pose proof (tblpar_loop_fatal fp itype (trips 1 (TFIELDS fp)) 0 g0 icol)
    as Hf.
  assert (Hk : 0 + Z.of_nat (trips 1 (TFIELDS fp)) = TFIELDS fp).
  { unfold trips. rewrite Z2Nat.id; lia. }
  rewrite Hk in Hf.
  specialize (Hf ltac:(lia) ltac:(lia)). rewrite Hfp0 in Hf.
  specialize (Hf eq_refl Hix0 ltac:(lia) Hnone).
  change (0 + 1) with 1 in Hf.
  destruct (for_loop _ 1 (tblpar_column itype) g0);
    [contradiction | exact Hf].
Qed.

End Index.
Lemma rd_snfitsio_tblpar_indexes_witness :
  exists g',
    rd_snfitsio_tblpar 1 ITYPE_SNFITSIO_PHOT
      sample_reader = Ok tt g' /\
    NPAR_SNFITSIO g' ITYPE_SNFITSIO_PHOT = 17 /\
    column_of g' ITYPE_SNFITSIO_PHOT "FLUXCAL" = Some 7.
Proof.
  assert (E : rd_snfitsio_tblpar 1
                ITYPE_SNFITSIO_PHOT sample_reader
              = Ok tt (run (rd_snfitsio_tblpar 1
                              ITYPE_SNFITSIO_PHOT) sample_reader))
    by (apply is_Ok_run; vm_compute; reflexivity).
  assert (Hb : 0 <= TFIELDS (fp_snfitsFile sample_reader ITYPE_SNFITSIO_PHOT)
               <= INT_MAX) by (vm_compute; split; discriminate).
  destruct (rd_snfitsio_tblpar_indexes 1
              ITYPE_SNFITSIO_PHOT sample_reader _ Hb E)
    as (HN & _ & Hc & _).
  eexists. split; [exact E|]. split.
  - rewrite HN. vm_compute. reflexivity.
  - rewrite Hc. vm_compute. reflexivity.
Defined.

Lemma rd_snfitsio_tblpar_bad_form_witness :
  fatal_in "formIndex_snfitsio"
    (rd_snfitsio_tblpar 1 ITYPE_SNFITSIO_PHOT
       sample_reader_1B).
Proof.
  apply (rd_snfitsio_tblpar_bad_form 1
           ITYPE_SNFITSIO_PHOT sample_reader_1B 3).
  - vm_compute. split; discriminate.
  - vm_compute. split; discriminate.
  - vm_compute. reflexivity.
Defined.
(** ** Reading the Header table *)

Section Head.

Lemma load_cell_index f ipar J oc rd :
  NPAR (load_cell f ipar J oc rd) = NPAR rd /\
  IPAR (load_cell f ipar J oc rd) = IPAR rd /\
  IPARINV (load_cell f ipar J oc rd) = IPARINV rd.
Proof. destruct f, oc as [[]|]; repeat split. Qed.

Lemma fits_read_col_index fp f ipar icol firstRow n : forall k rd,
  NPAR (fits_read_col fp f ipar icol firstRow k n rd) = NPAR rd /\
  IPAR (fits_read_col fp f ipar icol firstRow k n rd) = IPAR rd /\
  IPARINV (fits_read_col fp f ipar icol firstRow k n rd) = IPARINV rd.
Proof.
  induction n as [|n IH]; intros k rd; cbn [fits_read_col];
    [repeat split|].
  destruct (IH (k + 1)
              (load_cell f ipar (1 + k)
                 (fits_read_cell fp icol (firstRow + k)) rd))
    as (-> & -> & ->).
  apply load_cell_index.
Qed.

Lemma buffers_frame_refl itype g : buffers_frame itype g g.
Proof. split; [destruct g; reflexivity|]. repeat split. Qed.

Lemma buffers_frame_trans itype a b c :
  buffers_frame itype a b -> buffers_frame itype b c ->
  buffers_frame itype a c.
Proof.
  intros (H1 & H1' & N1 & I1 & V1) (H2 & H2' & N2 & I2 & V2).
  split; [rewrite <- H2 in H1; exact H1|].
  split; [intros t Ht; rewrite (H2' t Ht); exact (H1' t Ht)|].
  repeat split; congruence.
Qed.

Lemma buffers_frame_tables itype g g' :
  buffers_frame itype g g' ->
  SNFITSIO_TABLEDEF g' = SNFITSIO_TABLEDEF g /\
  fp_snfitsFile g' = fp_snfitsFile g /\
  NPAR_SNFITSIO g' = NPAR_SNFITSIO g /\
  NSNLC_SNFITSIO g' = NSNLC_SNFITSIO g.
Proof.
  intros [H _].
  split; [exact (f_equal SNFITSIO_TABLEDEF H)|].
  split; [exact (f_equal fp_snfitsFile H)|].
  split; [exact (f_equal NPAR_SNFITSIO H) | exact (f_equal NSNLC_SNFITSIO H)].
Qed.

Lemma indexed_buffers_frame fp itype k g g' :
  buffers_frame itype g g' -> indexed fp g itype k -> indexed fp g' itype k.
Proof.
  intros Hf Hix. destruct (buffers_frame_tables _ _ _ Hf) as (ET & _).
  destruct Hf as (_ & _ & EN & EI & EV).
  unfold indexed in *. rewrite ET, EN, EI, EV. exact Hix.
Qed.

Lemma tblcol_step fp itype K n k g :
  fp_snfitsFile g itype = fp ->
  indexed fp g itype K ->
  0 <= k < K ->
  buffered fp g itype k n ->
  exists g',
    rd_snfitsio_tblcol itype (k + 1) 1 n g = Ok tt g' /\
    buffers_frame itype g g' /\
    buffered fp g' itype (k + 1) n.
Proof.
  intros Hfp Hix Hk Hbuf.
  pose proof Hix as (_ & Hc & _).
  destruct (Hc (k + 1) ltac:(lia)) as (_ & _ & f & _ & Hif & Hslot & Hinv).
  rewrite (rd_snfitsio_tblcol_eq itype (k + 1) 1 n f g Hif). rewrite Hfp.
  eexists. split; [reflexivity|].
  set (ipar := IPARINV (RD_SNFITSIO_TABLEVAL g itype) f (k + 1)) in *.
  set (rd := RD_SNFITSIO_TABLEVAL g itype) in *.
  destruct (fits_read_col_index fp f ipar (k + 1) 1 (Z.to_nat (n - 1 + 1)) 0
              rd) as (EN & EI & EV).
  split.
  { split; [destruct g; reflexivity|]. cbn.
    split; [intros t Ht; now rewrite upd_ne|].
    rewrite upd_eq. repeat split; assumption. }
  unfold buffered. cbn. rewrite upd_eq. rewrite EV. fold rd.
  intros icol f' J c Hi Hif' HJ Hcell Hform.
  destruct (Z.eq_dec icol (k + 1)) as [->|Hne].
  - assert (f' = f) by congruence. subst f'. fold ipar.
    apply fits_read_col_loads; [| |exact Hform].
    + rewrite Z2Nat.id by lia. lia.
    + replace (1 + J - 1) with J by lia. exact Hcell.
  - rewrite fits_read_col_frame.
    + apply (Hbuf icol f' J c); try assumption. lia.
    + destruct (IFORM_eq_dec f' f) as [->|Hnf]; [|left; exact Hnf].
      right. left. intros Heq.
      destruct (Hc icol ltac:(lia)) as (_ & _ & f0 & _ & Hif0 & _ & Hinv0).
      assert (f0 = f) by congruence. subst f0. fold rd in Hinv0, Hinv.
      rewrite Heq in Hinv0. congruence.
Qed.

Lemma tblcol_loop fp itype K n m :
  forall k g,
    fp_snfitsFile g itype = fp ->
    indexed fp g itype K ->
    0 <= k -> k + Z.of_nat m <= K ->
    buffered fp g itype k n ->
    exists g',
      for_loop m (k + 1) (fun icol => rd_snfitsio_tblcol itype icol 1 n) g
      = Ok tt g' /\
      buffers_frame itype g g' /\
      buffered fp g' itype (k + Z.of_nat m) n.
Proof.
  induction m as [|m IH]; intros k g Hfp Hix Hk HK Hbuf.
  - cbn [for_loop]. exists g. rewrite Z.add_0_r.
    split; [reflexivity|]. split; [apply buffers_frame_refl | exact Hbuf].
  - destruct (tblcol_step fp itype K n k g Hfp Hix ltac:(lia) Hbuf)
      as (g1 & E1 & Hf1 & Hb1).
    destruct (IH (k + 1) g1) as (g2 & E2 & Hf2 & Hb2); try assumption;
      try lia.
    + destruct (buffers_frame_tables _ _ _ Hf1) as (_ & -> & _). exact Hfp.
    + apply (indexed_buffers_frame _ _ _ _ _ Hf1), Hix.
    + exists g2. cbn [for_loop]. unfold bind at 1. rewrite E1.
      split; [exact E2|].
      split; [eapply buffers_frame_trans; eassumption|].
      replace (k + Z.of_nat (S m)) with (k + 1 + Z.of_nat m) by lia.
      exact Hb2.
Qed.


Lemma IPARFORM_scan_first names IP parName n : forall lo s,
  lo <= s < lo + Z.of_nat n ->
  names (IP s) = parName ->
  (forall j, lo <= j < s -> names (IP j) <> parName) ->
  IPARFORM_scan names IP parName lo n = Some s.
Proof.
  induction n as [|n IH]; intros lo s Hs Hn Hf; [lia|].
  cbn [IPARFORM_scan]. cbv zeta.
  destruct (Z.eq_dec s lo) as [->|Hne].
  - rewrite Hn, strcmp0_refl. reflexivity.
  - destruct (strcmp0 (names (IP lo)) parName) eqn:E.
    + apply strcmp0_true in E. exfalso. apply (Hf lo); [lia | exact E].
    + apply IH; [lia | exact Hn |]. intros j Hj. apply Hf. lia.
Qed.

Lemma IPARFORM_scan_none names IP parName n : forall lo,
  (forall j, lo <= j < lo + Z.of_nat n -> names (IP j) <> parName) ->
  IPARFORM_scan names IP parName lo n = None.
Proof.
  induction n as [|n IH]; intros lo Hf; [reflexivity|].
  cbn [IPARFORM_scan]. cbv zeta.
  destruct (strcmp0 (names (IP lo)) parName) eqn:E.
  - apply strcmp0_true in E. exfalso. apply (Hf lo); [lia | exact E].
  - apply IH. intros j Hj. apply Hf. lia.
Qed.

(** The slot of a column found by name: [IPARFORM_SNFITSIO] returns the
    slot that the column's own form gives it. *)
Lemma IPARFORM_scan_slot fp g itype parName c f :
  let t := SNFITSIO_TABLEDEF g itype in
  let rd := RD_SNFITSIO_TABLEVAL g itype in
  indexed fp g itype (NPAR_SNFITSIO g itype) ->
  column_of g itype parName = Some c ->
  iform t c = Some f ->
  IPARFORM_scan (name t) (IPAR rd f) parName 1 (trips 1 (NPAR rd f))
  = Some (IPARINV rd f c).
Proof.
  cbv zeta. intros (Hn & Hc & Hs & Hm) Hcol Hif.
  unfold column_of in Hcol. apply IPAR_scan_Some in Hcol.
  destruct Hcol as (Hr & Hname & Hfirst). unfold trips in Hr.
  destruct (Hc c ltac:(lia)) as (_ & _ & f0 & _ & Hif0 & Hslot & Hinv).
  assert (f0 = f) by congruence. subst f0.
  apply IPARFORM_scan_first.
  - unfold trips. specialize (Hn f). lia.
  - rewrite Hinv. exact Hname.
  - intros j Hj.
    pose proof (Hm f j _ ltac:(lia) (proj2 Hj) (proj2 Hslot)) as Hlt.
    rewrite Hinv in Hlt.
    destruct (Hs f j ltac:(lia)) as (Hjr & _).
    apply Hfirst. lia.
Qed.

Lemma IPARFORM_SNFITSIO_eq OPT f parName itype g :
  IPARFORM_SNFITSIO OPT f parName itype g =
  let rd := RD_SNFITSIO_TABLEVAL g itype in
  match IPARFORM_scan (name (SNFITSIO_TABLEDEF g itype)) (IPAR rd f) parName
          1 (trips 1 (NPAR rd f)) with
  | Some ipar => Ok ipar g
  | None =>
      if OPT =? 0 then Ok (-9) g
      else Fatal "IPARFORM_SNFITSIO"
             ("Could not find IPAR(iform) for parName='" +:+ parName +:+ "'")
             ("Check parameter names in "
                +:+ snfitsFile g (IFILE_SNFITSIO g) itype +:+ " ") g
  end.
Proof.
  unfold IPARFORM_SNFITSIO, bind, gets, ret, errmsg_FATAL. cbv zeta.
  destruct (IPARFORM_scan _ _ _ _ _); [reflexivity|].
  destruct (OPT =? 0); reflexivity.
Qed.

(** The loop of [rd_snfitsio_head] over the records leaves in
    [MXOBS_SNFITSIO] the largest of its start value and the entries
    [b lo .. b (lo + m - 1)]. *)
Lemma MXOBS_loop itype ipar m : forall lo g,
  let b := TABLEVAL_1J (RD_SNFITSIO_TABLEVAL g itype) ipar in
  exists g',
    for_loop m lo (fun isn =>
      NOBS <- gets (fun g =>
                TABLEVAL_1J (RD_SNFITSIO_TABLEVAL g itype) ipar isn) ;;
      MXOBS <- gets MXOBS_SNFITSIO ;;
      when (MXOBS <? NOBS) (modify (set_MXOBS_SNFITSIO NOBS))) g
    = Ok tt g' /\
    set_MXOBS_SNFITSIO (MXOBS_SNFITSIO g) g' = g /\
    MXOBS_SNFITSIO g <= MXOBS_SNFITSIO g' /\
    (forall isn, lo <= isn < lo + Z.of_nat m -> b isn <= MXOBS_SNFITSIO g') /\
    (MXOBS_SNFITSIO g' = MXOBS_SNFITSIO g \/
     exists isn, lo <= isn < lo + Z.of_nat m /\ MXOBS_SNFITSIO g' = b isn).
Proof.
  induction m as [|m IH]; intros lo g b.
  - exists g. cbn [for_loop]. split; [reflexivity|].
    split; [destruct g; reflexivity|]. split; [lia|].
    split; [intros; lia | left; reflexivity].
  - cbn [for_loop]. unfold bind at 1. unfold bind at 1, gets at 1.
    unfold bind at 1, gets at 1. fold (b lo).
    destruct (MXOBS_SNFITSIO g <? b lo) eqn:E; cbn [when].
    + unfold modify at 1.
      destruct (IH (lo + 1) (set_MXOBS_SNFITSIO (b lo) g))
        as (g' & E' & Hfr & Hle & Hall & Hex).
      cbv zeta in Hall, Hex. cbn in Hle, Hall, Hex. fold b in Hall, Hex.
      exists g'. split; [exact E'|]. apply Z.ltb_lt in E.
      split.
      { transitivity (set_MXOBS_SNFITSIO (MXOBS_SNFITSIO g)
                        (set_MXOBS_SNFITSIO (b lo) g));
          [exact (f_equal (set_MXOBS_SNFITSIO (MXOBS_SNFITSIO g)) Hfr)
          | destruct g; reflexivity]. }
      split; [lia|]. split.
      * intros isn Hi. destruct (Z.eq_dec isn lo) as [->|]; [lia|].
        apply Hall. lia.
      * right. destruct Hex as [Hex|(isn & Hi & Hex)].
        -- exists lo. split; [lia | exact Hex].
        -- exists isn. split; [lia | exact Hex].
    + unfold ret at 1.
      destruct (IH (lo + 1) g) as (g' & E' & Hfr & Hle & Hall & Hex).
      cbv zeta in Hall, Hex. fold b in Hall, Hex.
      exists g'. split; [exact E'|]. apply Z.ltb_ge in E.
      split; [exact Hfr|]. split; [lia|]. split.
      * intros isn Hi. destruct (Z.eq_dec isn lo) as [->|]; [lia|].
        apply Hall. lia.
      * destruct Hex as [Hex|(isn & Hi & Hex)]; [left; exact Hex|].
        right. exists isn. split; [lia | exact Hex].
Qed.


Lemma rd_snfitsio_head_eq ifile g :
  rd_snfitsio_head ifile g =
  bind (for_loop (trips 1 (NPAR_SNFITSIO g ITYPE_SNFITSIO_HEAD)) 1
          (fun icol =>
             rd_snfitsio_tblcol ITYPE_SNFITSIO_HEAD icol 1
               (NSNLC_SNFITSIO g ifile)))
    (fun _ =>
       ipar <- IPARFORM_SNFITSIO 1 IFORM_1J "NOBS" ITYPE_SNFITSIO_HEAD ;;
       modify (set_MXOBS_SNFITSIO 0) ;;;
       for_loop (trips 1 (NSNLC_SNFITSIO g ifile)) 1 (fun isn =>
         NOBS <- gets (fun g =>
                   TABLEVAL_1J (RD_SNFITSIO_TABLEVAL g ITYPE_SNFITSIO_HEAD)
                     ipar isn) ;;
         MXOBS <- gets MXOBS_SNFITSIO ;;
         when (MXOBS <? NOBS) (modify (set_MXOBS_SNFITSIO NOBS)))) g.
Proof. reflexivity. Qed.

Lemma indexed_nonneg fp g itype k : indexed fp g itype k -> 0 <= k.
Proof. intros (Hn & _). specialize (Hn IFORM_A). lia. Qed.

Lemma rd_snfitsio_head_Ok ifile g cNOBS :
  let fp := fp_snfitsFile g ITYPE_SNFITSIO_HEAD in
  let K := NPAR_SNFITSIO g ITYPE_SNFITSIO_HEAD in
  let n := NSNLC_SNFITSIO g ifile in
  indexed fp g ITYPE_SNFITSIO_HEAD K ->
  column_of g ITYPE_SNFITSIO_HEAD "NOBS" = Some cNOBS ->
  iform (SNFITSIO_TABLEDEF g ITYPE_SNFITSIO_HEAD) cNOBS = Some IFORM_1J ->
  exists g',
    rd_snfitsio_head ifile g = Ok tt g' /\
    buffers_frame ITYPE_SNFITSIO_HEAD g g' /\
    buffered fp g' ITYPE_SNFITSIO_HEAD K n /\
    let rd := RD_SNFITSIO_TABLEVAL g' ITYPE_SNFITSIO_HEAD in
    let NOBS := TABLEVAL_1J rd (IPARINV rd IFORM_1J cNOBS) in
    0 <= MXOBS_SNFITSIO g' /\
    (forall isn, 1 <= isn <= n -> NOBS isn <= MXOBS_SNFITSIO g') /\
    (MXOBS_SNFITSIO g' = 0 \/
     exists isn, 1 <= isn <= n /\ MXOBS_SNFITSIO g' = NOBS isn).
Proof.
  intros fp K n Hix Hcol Hif. rewrite rd_snfitsio_head_eq. fold K n.
  pose proof (indexed_nonneg _ _ _ _ Hix) as HK.
  destruct (tblcol_loop fp ITYPE_SNFITSIO_HEAD K n (trips 1 K) 0 g)
    as (g1 & E1 & Hf1 & Hb1); try assumption; try reflexivity; try lia.
  { unfold trips. rewrite Z2Nat.id; lia. }
  { intros icol f J c Hi. lia. }
  replace (0 + Z.of_nat (trips 1 K)) with K in Hb1
    by (unfold trips; rewrite Z2Nat.id; lia).
  change (0 + 1) with 1 in E1. unfold bind at 1. rewrite E1. clear E1.
  destruct (buffers_frame_tables _ _ _ Hf1) as (ET & EF & ENP & ENS).
  pose proof (indexed_buffers_frame _ _ _ _ _ Hf1 Hix) as Hix1.
  assert (Hcol1 : column_of g1 ITYPE_SNFITSIO_HEAD "NOBS" = Some cNOBS).
  { rewrite <- Hcol. apply column_of_same. split; assumption. }
  unfold bind at 1. rewrite IPARFORM_SNFITSIO_eq. cbv zeta.
  unfold K in Hix1. rewrite <- ENP in Hix1.
  rewrite (IPARFORM_scan_slot fp g1 ITYPE_SNFITSIO_HEAD "NOBS" cNOBS IFORM_1J
             Hix1 Hcol1) by (rewrite ET; exact Hif).
  unfold bind at 1, modify at 1.
  set (s := IPARINV (RD_SNFITSIO_TABLEVAL g1 ITYPE_SNFITSIO_HEAD) IFORM_1J
              cNOBS).
  destruct (MXOBS_loop ITYPE_SNFITSIO_HEAD s (trips 1 n) 1
              (set_MXOBS_SNFITSIO 0 g1))
    as (g2 & E2 & Hfr2 & Hle & Hall & Hex).
  cbv zeta in Hall, Hex. cbn in Hle, Hall, Hex.
  exists g2. split; [exact E2|].
  assert (ER : RD_SNFITSIO_TABLEVAL g2 = RD_SNFITSIO_TABLEVAL g1)
    by exact (f_equal RD_SNFITSIO_TABLEVAL Hfr2).
  assert (ET2 : SNFITSIO_TABLEDEF g2 = SNFITSIO_TABLEDEF g1)
    by exact (f_equal SNFITSIO_TABLEDEF Hfr2).
  assert (Hf2 : buffers_frame ITYPE_SNFITSIO_HEAD g1 g2).
  { split.
    - rewrite <- ER.
      transitivity (set_MXOBS_SNFITSIO (MXOBS_SNFITSIO g1) g2);
        [destruct g2; reflexivity|].
      transitivity (set_MXOBS_SNFITSIO (MXOBS_SNFITSIO g1)
                      (set_MXOBS_SNFITSIO 0 g1));
        [exact (f_equal (set_MXOBS_SNFITSIO (MXOBS_SNFITSIO g1)) Hfr2)
        | destruct g1; reflexivity].
    - rewrite ER. repeat split. }
  split; [eapply buffers_frame_trans; eassumption|].
  split.
  { unfold buffered in *. rewrite ER, ET2. exact Hb1. }
  cbv zeta. rewrite ER. fold s.
  split; [lia|]. split.
  - intros isn Hi. apply Hall. unfold trips.
    rewrite Z2Nat.id by lia. lia.
  - destruct Hex as [Hex|(isn & Hi & Hex)]; [left; exact Hex|].
    right. exists isn. split; [|exact Hex].
    unfold trips in Hi. lia.
Qed.

End Head.
(** ** Opening a partition *)

Section OpenFile.

Lemma kept_by_open_refl g : kept_by_open g g.
Proof. repeat split. Qed.

Lemma kept_by_open_trans a b c :
  kept_by_open a b -> kept_by_open b c -> kept_by_open a c.
Proof.
  intros (A1 & A2 & A3 & A4 & A5 & A6 & A7) (B1 & B2 & B3 & B4 & B5 & B6 & B7).
  repeat split; congruence.
Qed.

Lemma kept_by_open_rd_snfitsio_file ifile :
  follows kept_by_open (rd_snfitsio_file ifile).
Proof.
  pose proof kept_by_open_refl as Hr. pose proof kept_by_open_trans as Ht.
  unfold rd_snfitsio_file, rd_snfitsio_open, rd_snfitsio_tblpar,
    rd_snfitsio_malloc, rd_snfitsio_free, rd_snfitsio_head,
    rd_snfitsio_tblcol, IPARFORM_SNFITSIO, formIndex_snfitsio,
    check_required_headkeys, required_report, printf, modify_RD,
    modify_TABLEDEF.
  cbv zeta.
  follows_go ltac:(idtac; lazymatch goal with
    | |- follows _ (IPAR_SNFITSIO _ _ _) =>
        apply follows_IPAR_SNFITSIO; [exact Hr | exact Ht|];
          intros; repeat split
    | |- follows _ (modify _) =>
        apply follows_modify; intros; repeat split
    end).
Qed.

Lemma rd_snfitsio_malloc_eq ifile itype LEN g :
  exists v,
    rd_snfitsio_malloc ifile itype LEN g
    = Ok tt (set_MALLOC_LEN_SNFITSIO v g).
Proof.
  unfold rd_snfitsio_malloc, rd_snfitsio_free, bind, gets, modify, when, ret.
  cbv zeta.
  destruct (0 <? MALLOC_LEN_SNFITSIO g itype) eqn:E.
  - apply Z.ltb_lt in E.
    destruct (MALLOC_LEN_SNFITSIO g itype <=? 0) eqn:E'.
    + apply Z.leb_le in E'. lia.
    + eexists. reflexivity.
  - eexists. reflexivity.
Qed.


Lemma head_table_ok_spec H :
  head_table_ok H = true ->
  forms_known H = true /\
  (forall key, In key REQUIRED -> table_column H key <> None) /\
  exists c,
    table_column H "NOBS" = Some c /\
    form_index (TFORM H c) = Some IFORM_1J.
Proof.
  unfold head_table_ok. rewrite !andb_true_iff, forallb_forall.
  intros [[Hk Hreq] Hn]. split; [exact Hk|]. split.
  - intros key Hin Hnone. specialize (Hreq key Hin).
    rewrite Hnone in Hreq. discriminate.
  - destruct (table_column H "NOBS") as [c|]; [|discriminate].
    exists c. split; [reflexivity|].
    destruct (form_index (TFORM H c)) as [[]|]; try discriminate.
    reflexivity.
Qed.

Lemma rd_snfitsio_open_facts ifile g :
  let g1 := run (rd_snfitsio_open ifile true) g in
  rd_snfitsio_open ifile true g = Ok tt g1 /\
  fp_snfitsFile g1 ITYPE_SNFITSIO_HEAD = FILES g ifile ITYPE_SNFITSIO_HEAD /\
  fp_snfitsFile g1 ITYPE_SNFITSIO_PHOT = FILES g ifile ITYPE_SNFITSIO_PHOT /\
  NSNLC_SNFITSIO g1 ifile = NAXIS2 (FILES g ifile ITYPE_SNFITSIO_HEAD).
Proof.
  cbv zeta. split; [reflexivity|]. split; [reflexivity|].
  split; [reflexivity|]. cbn. apply upd_eq.
Qed.

Lemma indexed_same fp itype k g g' :
  SNFITSIO_TABLEDEF g' itype = SNFITSIO_TABLEDEF g itype ->
  RD_SNFITSIO_TABLEVAL g' itype = RD_SNFITSIO_TABLEVAL g itype ->
  indexed fp g itype k -> indexed fp g' itype k.
Proof. unfold indexed. intros -> ->. exact (fun H => H). Qed.

Lemma rd_snfitsio_file_loaded ifile g :
  let H := FILES g ifile ITYPE_SNFITSIO_HEAD in
  let P := FILES g ifile ITYPE_SNFITSIO_PHOT in
  head_table_ok H = true ->
  forms_known P = true ->
  exists g' cNOBS,
    rd_snfitsio_file ifile g = Ok tt g' /\
    loaded g' ifile H P /\
    table_column H "NOBS" = Some cNOBS /\
    let rd := RD_SNFITSIO_TABLEVAL g' ITYPE_SNFITSIO_HEAD in
    let NOBS := TABLEVAL_1J rd (IPARINV rd IFORM_1J cNOBS) in
    0 <= MXOBS_SNFITSIO g' /\
    (forall isn, 1 <= isn <= NAXIS2 H -> NOBS isn <= MXOBS_SNFITSIO g') /\
    (MXOBS_SNFITSIO g' = 0 \/
     exists isn, 1 <= isn <= NAXIS2 H /\ MXOBS_SNFITSIO g' = NOBS isn).
Proof.
  intros H P HH HP.
  destruct (head_table_ok_spec H HH) as (HkH & Hreq & cNOBS & HcN & HfN).
  pose proof (forms_known_spec H HkH) as [HbH _].
  pose proof (forms_known_spec P HP) as [HbP _].
  unfold rd_snfitsio_file.
  (* open *)
  unfold bind at 1, modify at 1.
  destruct (rd_snfitsio_open_facts ifile (set_MXOBS_SNFITSIO 0 g))
    as (E1 & F1H & F1P & S1).
  cbv zeta in E1, F1H, F1P, S1.
  change (FILES (set_MXOBS_SNFITSIO 0 g)) with (FILES g) in F1H, F1P, S1.
  fold H in F1H, S1. fold P in F1P.
  set (g1 := run (rd_snfitsio_open ifile true) (set_MXOBS_SNFITSIO 0 g)) in *.
  clearbody g1.
  unfold bind at 1. rewrite E1.
  (* Header columns *)
  destruct (rd_snfitsio_tblpar_runs ifile ITYPE_SNFITSIO_HEAD g1) as [g2 E2].
  { rewrite F1H. exact HkH. }
  { intros _. rewrite F1H. exact Hreq. }
  unfold bind at 1. rewrite E2.
  destruct (rd_snfitsio_tblpar_Ok ifile ITYPE_SNFITSIO_HEAD g1 g2)
    as (N2 & I2 & C2 & F2 & _ & _ & S2 & _ & Q2);
    [rewrite F1H; exact HbH | exact E2 |].
  rewrite F1H in N2, I2, C2. specialize (Q2 eq_refl). cbv zeta in Q2.
  destruct Q2 as [_ Q2].
  (* Photometry columns *)
  destruct (rd_snfitsio_tblpar_runs ifile ITYPE_SNFITSIO_PHOT g2) as [g3 E3].
  { rewrite F2, F1P. exact HP. }
  { intros Habs. discriminate Habs. }
  unfold bind at 1. rewrite E3.
  destruct (rd_snfitsio_tblpar_Ok ifile ITYPE_SNFITSIO_PHOT g2 g3)
    as (N3 & I3 & _ & F3 & O3 & _ & S3 & Q3 & _);
    [rewrite F2, F1P; exact HbP | exact E3 |].
  rewrite F2, F1P in N3, I3.
  destruct (O3 ITYPE_SNFITSIO_HEAD ltac:(discriminate)) as (ON & OT & OR).
  specialize (Q3 ltac:(discriminate)).
  assert (I3H : indexed H g3 ITYPE_SNFITSIO_HEAD (TFIELDS H))
    by (apply (indexed_same _ _ _ g2); assumption).
  assert (Hsame : forall key,
            column_of g3 ITYPE_SNFITSIO_HEAD key = table_column H key).
  { intros key. rewrite <- C2. unfold column_of. now rewrite ON, OT. }
  (* Header buffers *)
  unfold bind at 1, gets at 1.
  destruct (rd_snfitsio_malloc_eq ifile ITYPE_SNFITSIO_HEAD
              (NSNLC_SNFITSIO g3 ifile) g3) as [v4 E4].
  unfold bind at 1. rewrite E4.
  set (g4 := set_MALLOC_LEN_SNFITSIO v4 g3) in *.
  destruct (rd_snfitsio_head_Ok ifile g4 cNOBS) as (g5 & E5 & B5 & L5 & M5).
  { change (indexed (fp_snfitsFile g3 ITYPE_SNFITSIO_HEAD) g3
              ITYPE_SNFITSIO_HEAD (NPAR_SNFITSIO g3 ITYPE_SNFITSIO_HEAD)).
    rewrite F3, F2, F1H, ON, N2. exact I3H. }
  { change (column_of g3 ITYPE_SNFITSIO_HEAD "NOBS" = Some cNOBS).
    rewrite Hsame. exact HcN. }
  { change (iform (SNFITSIO_TABLEDEF g3 ITYPE_SNFITSIO_HEAD) cNOBS
            = Some IFORM_1J).
    apply IPAR_scan_Some in HcN as (Hr & _).
    destruct I3H as (_ & Hc & _).
    destruct (Hc cNOBS ltac:(lia)) as (_ & _ & f & Hf & Hif & _).
    congruence. }
  cbv zeta in L5, M5.
  change (fp_snfitsFile g4) with (fp_snfitsFile g3) in L5.
  change (NPAR_SNFITSIO g4) with (NPAR_SNFITSIO g3) in L5.
  change (NSNLC_SNFITSIO g4) with (NSNLC_SNFITSIO g3) in L5, M5.
  rewrite F3, F2, F1H, ON, N2, S3, S2, S1 in L5.
  rewrite S3, S2, S1 in M5.
  unfold bind at 1. rewrite E5.
  destruct (buffers_frame_tables _ _ _ B5) as (T5 & F5 & N5 & S5).
  change (SNFITSIO_TABLEDEF g4) with (SNFITSIO_TABLEDEF g3) in T5.
  change (fp_snfitsFile g4) with (fp_snfitsFile g3) in F5.
  change (NPAR_SNFITSIO g4) with (NPAR_SNFITSIO g3) in N5.
  change (NSNLC_SNFITSIO g4) with (NSNLC_SNFITSIO g3) in S5.
  assert (Q5 : required_cols g5 = required_cols g3)
    by (destruct B5 as [B5 _]; exact (f_equal required_cols B5)).
  assert (I5H : indexed H g5 ITYPE_SNFITSIO_HEAD (TFIELDS H)).
  { apply (indexed_buffers_frame _ _ _ _ _ B5). exact I3H. }
  assert (I5P : indexed P g5 ITYPE_SNFITSIO_PHOT (TFIELDS P)).
  { destruct B5 as (_ & B5 & _).
    apply (indexed_same _ _ _ g3); [now rewrite T5 | | exact I3].
    exact (B5 ITYPE_SNFITSIO_PHOT ltac:(discriminate)). }
  (* Photometry buffers *)
  unfold bind at 1, gets at 1.
  destruct (rd_snfitsio_malloc_eq ifile ITYPE_SNFITSIO_PHOT
              (MXOBS_SNFITSIO g5) g5) as [v6 E6].
  rewrite E6.
  exists (set_MALLOC_LEN_SNFITSIO v6 g5), cNOBS.
  split; [reflexivity|].
  split.
  { unfold loaded. cbv zeta.
    change (column_of (set_MALLOC_LEN_SNFITSIO v6 g5)) with (column_of g5).
    split; [change (fp_snfitsFile g5 ITYPE_SNFITSIO_HEAD = H);
            now rewrite F5, F3, F2|].
    split; [change (fp_snfitsFile g5 ITYPE_SNFITSIO_PHOT = P);
            now rewrite F5, F3, F2|].
    split; [change (NSNLC_SNFITSIO g5 ifile = NAXIS2 H);
            now rewrite S5, S3, S2|].
    split; [change (NPAR_SNFITSIO g5 ITYPE_SNFITSIO_HEAD = TFIELDS H);
            now rewrite N5, ON|].
    split; [change (NPAR_SNFITSIO g5 ITYPE_SNFITSIO_PHOT = TFIELDS P);
            now rewrite N5|].
    split; [exact I5H|]. split; [exact I5P|]. split; [exact L5|].
    change (required_cols (set_MALLOC_LEN_SNFITSIO v6 g5))
      with (required_cols g5).
    rewrite Q5, Q3, Q2. unfold IPAR_of, column_of.
    change (NPAR_SNFITSIO (set_MALLOC_LEN_SNFITSIO v6 g5))
      with (NPAR_SNFITSIO g5).
    change (SNFITSIO_TABLEDEF (set_MALLOC_LEN_SNFITSIO v6 g5))
      with (SNFITSIO_TABLEDEF g5).
    now rewrite N5, T5, ON, OT. }
  split; [exact HcN|]. exact M5.
Qed.

Lemma rd_snfitsio_file_Ok ifile g :
  let H := FILES g ifile ITYPE_SNFITSIO_HEAD in
  let P := FILES g ifile ITYPE_SNFITSIO_PHOT in
  head_table_ok H = true ->
  forms_known P = true ->
  exists g' cNOBS,
    rd_snfitsio_file ifile g = Ok tt g' /\
    loaded g' ifile H P /\
    kept_by_open g g' /\
    table_column H "NOBS" = Some cNOBS /\
    let rd := RD_SNFITSIO_TABLEVAL g' ITYPE_SNFITSIO_HEAD in
    let NOBS := TABLEVAL_1J rd (IPARINV rd IFORM_1J cNOBS) in
    0 <= MXOBS_SNFITSIO g' /\
    (forall isn, 1 <= isn <= NAXIS2 H -> NOBS isn <= MXOBS_SNFITSIO g') /\
    (MXOBS_SNFITSIO g' = 0 \/
     exists isn, 1 <= isn <= NAXIS2 H /\ MXOBS_SNFITSIO g' = NOBS isn).
Proof.
  intros H P HH HP.
  destruct (rd_snfitsio_file_loaded ifile g HH HP)
    as (g' & cNOBS & E & HL & HM).
  exists g', cNOBS. split; [exact E|]. split; [exact HL|].
  split; [|exact HM].
  pose proof (kept_by_open_rd_snfitsio_file ifile g) as Hkept.
  now rewrite (run_Ok _ _ _ _ E) in Hkept.
Qed.

End OpenFile.
(** ** Counting the records of the partitions *)

Section Prep.

Lemma NSNLC_sum_snoc F n : forall lo,
  NSNLC_sum F lo (S n) =
  NSNLC_sum F lo n + NAXIS2 (F (lo + Z.of_nat n) ITYPE_SNFITSIO_HEAD).
Proof.
  induction n as [|n IH]; intros lo.
  - cbn [NSNLC_sum Z.of_nat]. rewrite !Z.add_0_r. lia.
  - change (NSNLC_sum F lo (S (S n)))
      with (NAXIS2 (F lo ITYPE_SNFITSIO_HEAD) + NSNLC_sum F (lo + 1) (S n)).
    rewrite IH. cbn [NSNLC_sum].
    replace (lo + 1 + Z.of_nat n) with (lo + Z.of_nat (S n)) by lia. lia.
Qed.

Lemma NSNLC_upto_succ F k :
  0 <= k ->
  NSNLC_upto F (k + 1) = NSNLC_upto F k + NAXIS2 (F (k + 1) ITYPE_SNFITSIO_HEAD).
Proof.
  intros Hk. unfold NSNLC_upto.
  replace (Z.to_nat (k + 1)) with (S (Z.to_nat k)) by lia.
  rewrite NSNLC_sum_snoc. rewrite Z2Nat.id by lia.
  now replace (1 + k) with (k + 1) by lia.
Qed.

Lemma NSNLC_upto_mono F N :
  (forall k, 1 <= k <= N -> 0 <= NAXIS2 (F k ITYPE_SNFITSIO_HEAD)) ->
  forall a b, 0 <= a -> a <= b -> b <= N ->
    0 <= NSNLC_upto F a <= NSNLC_upto F b.
Proof.
  intros Hpos a b Ha Hab HbN.
  assert (H0 : forall k, 0 <= k <= N -> 0 <= NSNLC_upto F k).
  { intros k [Hk HkN]. revert HkN. pattern k. apply natlike_ind; [| |exact Hk].
    - intros _. unfold NSNLC_upto. rewrite Z2Nat.inj_0. cbn [NSNLC_sum]. lia.
    - intros x Hx IH HxN. unfold Z.succ. rewrite NSNLC_upto_succ by lia.
      specialize (Hpos (x + 1) ltac:(lia)). lia. }
  split; [apply H0; lia|].
  replace b with (a + (b - a)) in * by lia.
  assert (Hd : 0 <= b - a) by lia. revert HbN.
  generalize dependent (b - a). intros d _ Hd. pattern d.
  apply natlike_ind; [| |exact Hd].
  - intros _. rewrite Z.add_0_r. lia.
  - intros x Hx IH HxN. unfold Z.succ.
    replace (a + (x + 1)) with (a + x + 1) by lia.
    rewrite NSNLC_upto_succ by lia.
    specialize (Hpos (a + x + 1) ltac:(lia)). lia.
Qed.


Lemma PREP_count_eq ifile TOT g :
  exists g1,
    PREP_count ifile TOT g
    = Ok (int_cast (TOT + NAXIS2 (FILES g ifile ITYPE_SNFITSIO_HEAD))) g1 /\
    prep_rest g1 = prep_rest g /\
    NSNLC_SNFITSIO_SUM g1
    = upd (NSNLC_SNFITSIO_SUM g) ifile
        (int_cast (TOT + NAXIS2 (FILES g ifile ITYPE_SNFITSIO_HEAD))).
Proof.
  unfold PREP_count, rd_snfitsio_open, bind, modify, gets, when, ret.
  cbn. rewrite !upd_eq. eexists. split; [reflexivity|].
  split; reflexivity.
Qed.

Lemma PREP_loop F N n : forall lo g,
  FILES g = F ->
  (forall k, 1 <= k <= N -> 0 <= NAXIS2 (F k ITYPE_SNFITSIO_HEAD)) ->
  NSNLC_upto F N <= INT_MAX ->
  1 <= lo -> lo + Z.of_nat n - 1 <= N ->
  exists g',
    for_fold n lo PREP_count (NSNLC_upto F (lo - 1)) g
    = Ok (NSNLC_upto F (lo + Z.of_nat n - 1)) g' /\
    prep_rest g' = prep_rest g /\
    (forall k, lo <= k < lo + Z.of_nat n ->
       NSNLC_SNFITSIO_SUM g' k = NSNLC_upto F k) /\
    (forall k, ~ lo <= k < lo + Z.of_nat n ->
       NSNLC_SNFITSIO_SUM g' k = NSNLC_SNFITSIO_SUM g k).
Proof.
  induction n as [|n IH]; intros lo g HF Hpos Hmax Hlo HN.
  - exists g. cbn [for_fold]. unfold ret.
    replace (lo + Z.of_nat 0 - 1) with (lo - 1) by lia.
    split; [reflexivity|]. split; [reflexivity|].
    split; [intros; lia | reflexivity].
  - destruct (PREP_count_eq lo (NSNLC_upto F (lo - 1)) g)
      as (g1 & E1 & R1 & S1).
    rewrite HF in E1, S1.
    assert (Hsum : NSNLC_upto F (lo - 1)
                   + NAXIS2 (F lo ITYPE_SNFITSIO_HEAD) = NSNLC_upto F lo).
    { replace lo with (lo - 1 + 1) at 2 3 by lia.
      now rewrite NSNLC_upto_succ by lia. }
    rewrite Hsum in E1, S1.
    assert (Hc : int_cast (NSNLC_upto F lo) = NSNLC_upto F lo).
    { apply int_cast_id. unfold in_int, INT_MIN.
      pose proof (NSNLC_upto_mono F N Hpos lo N ltac:(lia) ltac:(lia)
                    ltac:(lia)).
      unfold INT_MAX in *. lia. }
    rewrite Hc in E1, S1.
    destruct (IH (lo + 1) g1) as (g2 & E2 & R2 & S2 & O2); try assumption;
      try lia.
    { rewrite <- HF. exact (f_equal FILES R1). }
    replace (lo + 1 - 1) with lo in E2 by lia.
    replace (lo + 1 + Z.of_nat n - 1) with (lo + Z.of_nat (S n) - 1) in E2
      by lia.
    exists g2. cbn [for_fold]. unfold bind at 1. rewrite E1.
    split; [exact E2|]. split; [congruence|]. split.
    + intros k Hk. destruct (Z.eq_dec k lo) as [->|Hne].
      * rewrite O2 by lia. rewrite S1. apply upd_eq.
      * apply S2. lia.
    + intros k Hk. rewrite O2 by lia. rewrite S1. apply upd_ne. lia.
Qed.


Lemma bind_modify_eq {B} (h : globals -> globals) (k : unit -> M globals B) g :
  bind (modify h) k g = k tt (h g).
Proof. reflexivity. Qed.

Lemma bind_gets_eq {A B} (h : globals -> A) (k : A -> M globals B) g :
  bind (gets h) k g = k (h g) g.
Proof. reflexivity. Qed.

Lemma RD_SNFITSIO_PREP_eq g :
  RD_SNFITSIO_PREP g =
  bind (for_fold (trips 1 (NFILE_SNFITSIO g)) 1 PREP_count 0)
    (fun TOT =>
       modify (set_IFILE_SNFITSIO 1) ;;;
       modify (set_ISNFIRST_SNFITSIO 1) ;;;
       rd_snfitsio_file 1 ;;;
       rd_snfitsio_specFile 1 ;;;
       ret TOT)
    (set_RDMASK_SNFITSIO_PARVAL (fun _ => 1)
       (set_NEP_RDMASK_SNFITSIO_PARVAL 0
          (set_NSNLC_SNFITSIO_SUM (fun _ => 0)
             (set_NSNLC_SNFITSIO (fun _ => 0) (set_IFILE_SNFITSIO 0 g))))).
Proof.
  unfold RD_SNFITSIO_PREP.
  do 5 (rewrite bind_modify_eq; cbv beta).
  rewrite bind_gets_eq; cbv beta.
  reflexivity.
Qed.

Lemma RD_SNFITSIO_PREP_Ok g :
  let F := FILES g in
  let N := NFILE_SNFITSIO g in
  0 <= N ->
  (forall k, 1 <= k <= N -> 0 <= NAXIS2 (F k ITYPE_SNFITSIO_HEAD)) ->
  NSNLC_upto F N <= INT_MAX ->
  head_table_ok (F 1 ITYPE_SNFITSIO_HEAD) = true ->
  forms_known (F 1 ITYPE_SNFITSIO_PHOT) = true ->
  exists g',
    RD_SNFITSIO_PREP g = Ok (NSNLC_upto F N) g' /\
    loaded g' 1 (F 1 ITYPE_SNFITSIO_HEAD) (F 1 ITYPE_SNFITSIO_PHOT) /\
    IFILE_SNFITSIO g' = 1 /\
    ISNFIRST_SNFITSIO g' = 1 /\
    (forall k, 0 <= k <= N -> NSNLC_SNFITSIO_SUM g' k = NSNLC_upto F k) /\
    NEP_RDMASK_SNFITSIO_PARVAL g' = 0 /\
    (forall ep, RDMASK_SNFITSIO_PARVAL g' ep = 1) /\
    FILES g' = F /\
    NFILE_SNFITSIO g' = N.
Proof.
  intros F N HN Hpos Hmax HH HP. rewrite RD_SNFITSIO_PREP_eq. fold N.
  set (g0 := set_RDMASK_SNFITSIO_PARVAL _ _).
  destruct (PREP_loop F N (trips 1 N) 1 g0) as (g1 & E1 & R1 & S1 & O1);
    try assumption; try reflexivity; try lia.
  { unfold trips. lia. }
  replace (1 + Z.of_nat (trips 1 N) - 1) with N in E1 by (unfold trips; lia).
  change (NSNLC_upto F (1 - 1)) with 0 in E1.
  unfold bind at 1. rewrite E1.
  unfold bind at 1, modify at 1. unfold bind at 1, modify at 1.
  set (g2 := set_ISNFIRST_SNFITSIO 1 (set_IFILE_SNFITSIO 1 g1)).
  assert (HF1 : FILES g1 = F) by exact (f_equal FILES R1).
  destruct (rd_snfitsio_file_Ok 1 g2) as (g3 & c & E3 & L3 & K3 & _).
  { change (FILES g2) with (FILES g1). rewrite HF1. exact HH. }
  { change (FILES g2) with (FILES g1). rewrite HF1. exact HP. }
  change (FILES g2) with (FILES g1) in L3. rewrite HF1 in L3.
  unfold bind at 1. rewrite E3. unfold bind, rd_snfitsio_specFile, ret.
  exists g3. split; [reflexivity|]. split; [exact L3|].
  destruct K3 as (K1 & K2 & K4 & K5 & K6 & K7 & K8).
  split; [rewrite K5; reflexivity|]. split; [rewrite K6; reflexivity|].
  split.
  { intros k Hk. rewrite K4. change (NSNLC_SNFITSIO_SUM g2 k)
      with (NSNLC_SNFITSIO_SUM g1 k).
    destruct (Z.eq_dec k 0) as [->|Hne].
    - rewrite O1 by lia. reflexivity.
    - apply S1. unfold trips. lia. }
  split; [rewrite K7; exact (f_equal NEP_RDMASK_SNFITSIO_PARVAL R1)|].
  split.
  { intros ep. rewrite K8.
    exact (f_equal (fun h => RDMASK_SNFITSIO_PARVAL h ep) R1). }
  split; [rewrite K1; exact HF1|].
  rewrite K2. exact (f_equal NFILE_SNFITSIO R1).
Qed.

End Prep.
(** ** Reading from an open partition *)

Section ReadLoaded.
Context {K : constants}.

Lemma loaded_column g ifile H P :
  loaded g ifile H P ->
  (forall parName,
     column_of g ITYPE_SNFITSIO_HEAD parName = table_column H parName) /\
  (forall parName,
     column_of g ITYPE_SNFITSIO_PHOT parName = table_column P parName).
Proof.
  intros (_ & _ & _ & NH & NP & IH & IP & _).
  split; apply indexed_column_of; try assumption;
    eapply indexed_nonneg; eassumption.
Qed.

Lemma indexed_iform fp g itype k icol f :
  indexed fp g itype k ->
  1 <= icol <= k ->
  form_index (TFORM fp icol) = Some f ->
  iform (SNFITSIO_TABLEDEF g itype) icol = Some f.
Proof.
  intros (_ & Hc & _) Hi Hf.
  destruct (Hc icol Hi) as (_ & _ & f0 & Hf0 & Hif & _). congruence.
Qed.

Lemma table_column_range fp parName c :
  table_column fp parName = Some c -> 1 <= c <= TFIELDS fp.
Proof.
  unfold table_column. intros H. apply IPAR_scan_Some in H as (Hr & _). lia.
Qed.




Lemma PARVAL_header_loaded isn parName parList iptr g H P icol f
  c :
  let ifile :=
    find_ifile (NSNLC_SNFITSIO_SUM g) isn 1 (trips 1 (NFILE_SNFITSIO g)) (-9) in
  let isn_file :=
    int_cast (isn - NSNLC_SNFITSIO_SUM g (IFILE_SNFITSIO g - 1)) in
  loaded g (IFILE_SNFITSIO g) H P ->
  ifile = IFILE_SNFITSIO g ->
  iptr <> -999 \/ isn = ISNFIRST_SNFITSIO g ->
  table_column H parName = Some icol ->
  form_index (TFORM H icol) = Some f ->
  1 <= isn_file <= NAXIS2 H ->
  fits_read_cell H icol isn_file = Some c ->
  cell_has_form f c = true ->
  exists parList' parString' g',
    RD_SNFITSIO_PARVAL isn parName parList iptr g =
      Ok (1, parList', parString', int_cast (icol + 0 * MXPAR_SNFITSIO)) g' /\
    (f <> IFORM_A -> parList' 0 = cell_double c /\ parString' = EmptyString) /\
    (f = IFORM_A -> parString' = cell_string c) /\
    rd_keeps g g'.
Proof.
  intros ifile isn_file HL Hopen Hptr Hcol Hf HJ Hcell Hform.
  destruct (loaded_column _ _ _ _ HL) as [CH _].
  pose proof (table_column_range _ _ _ Hcol) as Hr.
  pose proof HL as (_ & _ & _ & _ & _ & IH & _ & BH & _).
  pose proof (indexed_iform _ _ _ _ _ _ IH Hr Hf) as Hif.
  pose proof (BH icol f isn_file c Hr Hif HJ Hcell Hform) as Hb.
  destruct (RD_SNFITSIO_PARVAL_head_Ok isn parName parList iptr g icol f
              Hopen Hptr) as (pl & ps & g' & E & H1 & H2 & H3);
    [rewrite CH; exact Hcol | exact Hif |].
  cbv zeta in H1, H2. fold isn_file in H1, H2. rewrite Hb in H1, H2.
  exists pl, ps, g'. split; [exact E|]. split; [exact H1|].
  split; [exact H2 | exact H3].
Qed.




End ReadLoaded.
(** ** Opening and preparing: the statements *)

Section OpenTheorems.

(** [rd_snfitsio_head] on an indexed Header table whose [NOBS] column has
    the form [1J]: every column is read into the buffer of its form, at the
    slot of the column, for the rows [1 .. NSNLC]; the registry and the
    numbering of the columns are kept; and [MXOBS_SNFITSIO] is left at the
    largest [NOBS] read, or at 0 when none is positive. *)
Theorem rd_snfitsio_head_loads ifile g cNOBS :
  let fp := fp_snfitsFile g ITYPE_SNFITSIO_HEAD in
  let K := NPAR_SNFITSIO g ITYPE_SNFITSIO_HEAD in
  let n := NSNLC_SNFITSIO g ifile in
  indexed fp g ITYPE_SNFITSIO_HEAD K ->
  column_of g ITYPE_SNFITSIO_HEAD "NOBS" = Some cNOBS ->
  iform (SNFITSIO_TABLEDEF g ITYPE_SNFITSIO_HEAD) cNOBS = Some IFORM_1J ->
  exists g',
    rd_snfitsio_head ifile g = Ok tt g' /\
    buffers_frame ITYPE_SNFITSIO_HEAD g g' /\
    buffered fp g' ITYPE_SNFITSIO_HEAD K n /\
    let rd := RD_SNFITSIO_TABLEVAL g' ITYPE_SNFITSIO_HEAD in
    let NOBS := TABLEVAL_1J rd (IPARINV rd IFORM_1J cNOBS) in
    0 <= MXOBS_SNFITSIO g' /\
    (forall isn, 1 <= isn <= n -> NOBS isn <= MXOBS_SNFITSIO g') /\
    (MXOBS_SNFITSIO g' = 0 \/
     exists isn, 1 <= isn <= n /\ MXOBS_SNFITSIO g' = NOBS isn).
Proof. exact (rd_snfitsio_head_Ok ifile g cNOBS). Qed.

(** [rd_snfitsio_file] on a partition whose Header table has known forms,
    the required keys and [NOBS] of the form [1J], and whose Photometry
    table has known forms: the partition is opened and read, that is both
    tables are registered and indexed, the rows of the Header table are in
    the read buffers and the required columns are cached; the store, the
    partition table, the open partition's index and first record and the
    mask are kept; [MXOBS_SNFITSIO] is the largest [NOBS] of the
    partition. *)
Theorem rd_snfitsio_file_loads ifile g :
  let H := FILES g ifile ITYPE_SNFITSIO_HEAD in
  let P := FILES g ifile ITYPE_SNFITSIO_PHOT in
  head_table_ok H = true ->
  forms_known P = true ->
  exists g' cNOBS,
    rd_snfitsio_file ifile g = Ok tt g' /\
    loaded g' ifile H P /\
    kept_by_open g g' /\
    table_column H "NOBS" = Some cNOBS /\
    let rd := RD_SNFITSIO_TABLEVAL g' ITYPE_SNFITSIO_HEAD in
    let NOBS := TABLEVAL_1J rd (IPARINV rd IFORM_1J cNOBS) in
    0 <= MXOBS_SNFITSIO g' /\
    (forall isn, 1 <= isn <= NAXIS2 H -> NOBS isn <= MXOBS_SNFITSIO g') /\
    (MXOBS_SNFITSIO g' = 0 \/
     exists isn, 1 <= isn <= NAXIS2 H /\ MXOBS_SNFITSIO g' = NOBS isn).
Proof. exact (rd_snfitsio_file_Ok ifile g). Qed.

(** [RD_SNFITSIO_PREP] (read everything, from the reset of the partition
    index on) returns the number of records of all partitions; it leaves
    in [NSNLC_SNFITSIO_SUM] the running totals of the rows of the Header
    tables, partition 1 open and read with record 1 as its first record,
    and the mask reset to read every epoch. *)
Theorem RD_SNFITSIO_PREP_totals g :
  let F := FILES g in
  let N := NFILE_SNFITSIO g in
  0 <= N ->
  (forall k, 1 <= k <= N -> 0 <= NAXIS2 (F k ITYPE_SNFITSIO_HEAD)) ->
  NSNLC_upto F N <= INT_MAX ->
  head_table_ok (F 1 ITYPE_SNFITSIO_HEAD) = true ->
  forms_known (F 1 ITYPE_SNFITSIO_PHOT) = true ->
  exists g',
    RD_SNFITSIO_PREP g = Ok (NSNLC_upto F N) g' /\
    loaded g' 1 (F 1 ITYPE_SNFITSIO_HEAD) (F 1 ITYPE_SNFITSIO_PHOT) /\
    IFILE_SNFITSIO g' = 1 /\
    ISNFIRST_SNFITSIO g' = 1 /\
    (forall k, 0 <= k <= N -> NSNLC_SNFITSIO_SUM g' k = NSNLC_upto F k) /\
    NEP_RDMASK_SNFITSIO_PARVAL g' = 0 /\
    (forall ep, RDMASK_SNFITSIO_PARVAL g' ep = 1) /\
    FILES g' = F /\
    NFILE_SNFITSIO g' = N.
Proof. exact (RD_SNFITSIO_PREP_Ok g). Qed.

End OpenTheorems.

Lemma sample_store_ok :
  let g := set_FILES sample_disk (set_NFILE_SNFITSIO 1 globals_init) in
  0 <= NFILE_SNFITSIO g /\
  (forall k, 1 <= k <= NFILE_SNFITSIO g ->
     0 <= NAXIS2 (FILES g k ITYPE_SNFITSIO_HEAD)) /\
  NSNLC_upto (FILES g) (NFILE_SNFITSIO g) <= INT_MAX /\
  head_table_ok (FILES g 1 ITYPE_SNFITSIO_HEAD) = true /\
  forms_known (FILES g 1 ITYPE_SNFITSIO_PHOT) = true.
Proof.
  cbv zeta. split; [vm_compute; discriminate|]. split.
  - intros k Hk. change (NFILE_SNFITSIO _) with 1 in Hk.
    assert (k = 1) as -> by lia. vm_compute. discriminate.
  - split; [vm_compute; discriminate|].
    split; vm_compute; reflexivity.
Qed.

Lemma sample_store_FILES :
  FILES (set_FILES sample_disk (set_NFILE_SNFITSIO 1 globals_init))
  = sample_disk.
Proof. reflexivity. Qed.

Lemma sample_reader_loaded :
  loaded sample_reader 1 (sample_disk 1 ITYPE_SNFITSIO_HEAD)
    (sample_disk 1 ITYPE_SNFITSIO_PHOT).
Proof.
  destruct sample_store_ok as (H0 & H1 & H2 & H3 & H4).
  destruct (RD_SNFITSIO_PREP_Ok
              (set_FILES sample_disk (set_NFILE_SNFITSIO 1 globals_init)) H0 H1 H2 H3 H4) as (g' & E & L & _).
  rewrite sample_store_FILES in L.
  apply run_Ok in E. unfold sample_reader. rewrite E. exact L.
Qed.

Lemma RD_SNFITSIO_PREP_totals_witness :
  exists g',
    RD_SNFITSIO_PREP
      (set_FILES sample_disk (set_NFILE_SNFITSIO 1 globals_init))
    = Ok 3 g' /\
    NSNLC_SNFITSIO_SUM g' 1 = 3 /\ IFILE_SNFITSIO g' = 1.
Proof.
  destruct sample_store_ok as (H0 & H1 & H2 & H3 & H4).
  destruct (RD_SNFITSIO_PREP_totals
              (set_FILES sample_disk (set_NFILE_SNFITSIO 1 globals_init)) H0 H1 H2 H3 H4)
    as (g' & E & _ & I & _ & S & _).
  exists g'. split; [exact E|]. split; [|exact I].
  apply S. vm_compute. split; discriminate.
Defined.

Lemma rd_snfitsio_file_loads_witness :
  exists g',
    rd_snfitsio_file 1
      (set_FILES sample_disk (set_NFILE_SNFITSIO 1 globals_init))
    = Ok tt g' /\
    NSNLC_SNFITSIO g' 1 = 3 /\
    NPAR_SNFITSIO g' ITYPE_SNFITSIO_PHOT = 17.
Proof.
  destruct sample_store_ok as (_ & _ & _ & H3 & H4).
  destruct (rd_snfitsio_file_loads 1
              (set_FILES sample_disk (set_NFILE_SNFITSIO 1 globals_init)) H3 H4)
    as (g' & c & E & (_ & _ & S & _ & N & _) & _).
  exists g'. split; [exact E|]. split; [exact S | exact N].
Defined.

Lemma rd_snfitsio_head_loads_witness :
  exists g',
    rd_snfitsio_head 1 sample_reader = Ok tt g' /\
    0 <= MXOBS_SNFITSIO g'.
Proof.
  pose proof sample_reader_loaded as (F & _ & _ & N & _ & I & _).
  assert (Hc : column_of sample_reader ITYPE_SNFITSIO_HEAD "NOBS" = Some 12)
    by (vm_compute; reflexivity).
  assert (Hf : iform (SNFITSIO_TABLEDEF sample_reader ITYPE_SNFITSIO_HEAD) 12
               = Some IFORM_1J) by (vm_compute; reflexivity).
  destruct (rd_snfitsio_head_loads 1 sample_reader 12)
    as (g' & E & _ & _ & M & _); [|exact Hc | exact Hf |].
  - rewrite F, N. exact I.
  - exists g'. split; [exact E | exact M].
Defined.
Section HeadFatal.

(** [rd_snfitsio_head] on an indexed Header table that has no column named
    [NOBS] of the form [1J]: the columns are read, and the search for
    [NOBS] among the [1J] columns stops the run in [IPARFORM_SNFITSIO]. *)
Theorem rd_snfitsio_head_needs_NOBS ifile g :
  let fp := fp_snfitsFile g ITYPE_SNFITSIO_HEAD in
  let K := NPAR_SNFITSIO g ITYPE_SNFITSIO_HEAD in
  let t := SNFITSIO_TABLEDEF g ITYPE_SNFITSIO_HEAD in
  indexed fp g ITYPE_SNFITSIO_HEAD K ->
  (forall c, 1 <= c <= K -> name t c = "NOBS"%string ->
     iform t c <> Some IFORM_1J) ->
  fatal_in "IPARFORM_SNFITSIO" (rd_snfitsio_head ifile g).
Proof.
  intros fp K t Hix Hno. rewrite rd_snfitsio_head_eq. fold K.
  pose proof (indexed_nonneg _ _ _ _ Hix) as HK.
  destruct (tblcol_loop fp ITYPE_SNFITSIO_HEAD K (NSNLC_SNFITSIO g ifile)
              (trips 1 K) 0 g)
    as (g1 & E1 & Hf1 & _); try assumption; try reflexivity; try lia.
  { unfold trips. rewrite Z2Nat.id; lia. }
  { intros icol f J c Hi. lia. }
  change (0 + 1) with 1 in E1. unfold bind at 1. rewrite E1. clear E1.
  destruct (buffers_frame_tables _ _ _ Hf1) as (ET & _).
  pose proof (indexed_buffers_frame _ _ _ _ _ Hf1 Hix) as (Hn & _ & Hs & _).
  unfold bind at 1. rewrite IPARFORM_SNFITSIO_eq. cbv zeta.
  rewrite IPARFORM_scan_none; [reflexivity|].
  intros j Hj. unfold trips in Hj.
  specialize (Hn IFORM_1J).
  destruct (Hs IFORM_1J j ltac:(lia)) as (Hr & Hif & _).
  rewrite ET in Hif |- *. fold t in Hif |- *.
  intros Hname. exact (Hno _ Hr Hname Hif).
Qed.

End HeadFatal.

Lemma rd_snfitsio_head_needs_NOBS_witness :
  fatal_in "IPARFORM_SNFITSIO" (rd_snfitsio_head 1 sample_reader_NOBS_1I).
Proof.
  set (g0 := set_fp_snfitsFile
       (upd (fp_snfitsFile sample_reader) ITYPE_SNFITSIO_HEAD
          (Build_fitsfile
             (TFIELDS (fp_snfitsFile sample_reader ITYPE_SNFITSIO_HEAD))
             (TTYPE (fp_snfitsFile sample_reader ITYPE_SNFITSIO_HEAD))
             (upd (TFORM (fp_snfitsFile sample_reader ITYPE_SNFITSIO_HEAD))
                12 "1I")
             (NAXIS2 (fp_snfitsFile sample_reader ITYPE_SNFITSIO_HEAD))
             (CELLS (fp_snfitsFile sample_reader ITYPE_SNFITSIO_HEAD))))
       sample_reader).
  assert (E : rd_snfitsio_tblpar 1 ITYPE_SNFITSIO_HEAD g0
              = Ok tt sample_reader_NOBS_1I)
    by (apply is_Ok_run; vm_compute; reflexivity).
  assert (Hb : 0 <= TFIELDS (fp_snfitsFile g0 ITYPE_SNFITSIO_HEAD) <= INT_MAX)
    by (vm_compute; split; discriminate).
  destruct (rd_snfitsio_tblpar_Ok 1 ITYPE_SNFITSIO_HEAD g0
              sample_reader_NOBS_1I Hb E) as (HN & Hix & _ & HF & _).
  apply rd_snfitsio_head_needs_NOBS.
  - rewrite HF, HN. exact Hix.
  - intros c Hc Hname Hif.
    assert (Hall : forallb
              (fun c =>
                 negb (strcmp0
                         (name (SNFITSIO_TABLEDEF sample_reader_NOBS_1I
                                  ITYPE_SNFITSIO_HEAD) c) "NOBS")
                 || match iform (SNFITSIO_TABLEDEF sample_reader_NOBS_1I
                                   ITYPE_SNFITSIO_HEAD) c with
                    | Some IFORM_1J => false
                    | _ => true
                    end)
              (seqZ 1 (NPAR_SNFITSIO sample_reader_NOBS_1I
                         ITYPE_SNFITSIO_HEAD)) = true)
      by (vm_compute; reflexivity).
    set (N := NPAR_SNFITSIO sample_reader_NOBS_1I ITYPE_SNFITSIO_HEAD) in *.
    assert (Hin : In c (seqZ 1 N))
      by (clear - Hc; clearbody N; apply list_elem_of_In, elem_of_seqZ; lia).
    pose proof (proj1 (forallb_forall _ _) Hall c Hin) as Hc'.
    cbv beta in Hc'. rewrite Hname, Hif, strcmp0_refl in Hc'.
    discriminate Hc'.
Defined.
(** ** The partitions after the preparation *)

Section PrepPartitions.

(** After [RD_SNFITSIO_PREP] every record number from 1 to the total is
    given, by the partition search of [RD_SNFITSIO_PARVAL], the one
    partition whose rows hold it; any other number is given [-9]. *)
Theorem RD_SNFITSIO_PREP_partitions g isn :
  let F := FILES g in
  let N := NFILE_SNFITSIO g in
  0 <= N ->
  (forall k, 1 <= k <= N -> 0 <= NAXIS2 (F k ITYPE_SNFITSIO_HEAD)) ->
  NSNLC_upto F N <= INT_MAX ->
  head_table_ok (F 1 ITYPE_SNFITSIO_HEAD) = true ->
  forms_known (F 1 ITYPE_SNFITSIO_PHOT) = true ->
  exists g',
    RD_SNFITSIO_PREP g = Ok (NSNLC_upto F N) g' /\
    let ifile :=
      find_ifile (NSNLC_SNFITSIO_SUM g') isn 1 (trips 1 (NFILE_SNFITSIO g'))
        (-9) in
    (1 <= isn <= NSNLC_upto F N ->
     1 <= ifile <= N /\
     NSNLC_upto F (ifile - 1) < isn <= NSNLC_upto F ifile) /\
    (~ 1 <= isn <= NSNLC_upto F N -> ifile = -9).
Proof.
  intros F N HN Hpos Hmax HH HP.
  destruct (RD_SNFITSIO_PREP_Ok g HN Hpos Hmax HH HP)
    as (g' & E & _ & _ & _ & S & _ & _ & _ & EN).
  fold F N in S, EN. exists g'. split; [exact E|]. cbv zeta. rewrite EN.
  assert (S0 : NSNLC_SNFITSIO_SUM g' 0 = 0) by (rewrite S by lia; reflexivity).
  destruct (find_ifile_range (NSNLC_SNFITSIO_SUM g') isn N HN) as [Hin Hout].
  { intros i Hi. rewrite !S by lia.
    apply (NSNLC_upto_mono F N Hpos (i - 1) i); lia. }
  cbv zeta in Hin, Hout. rewrite S0, (S N) in Hin, Hout by lia.
  split.
  - intros Hr. destruct (Hin ltac:(lia)) as (H1 & H2 & _).
    split; [exact H1|]. rewrite !S in H2 by lia. exact H2.
  - intros Hr. apply Hout. lia.
Qed.

End PrepPartitions.

Lemma sample_store_2_ok :
  let g := set_FILES sample_disk_2 (set_NFILE_SNFITSIO 2 globals_init) in
  0 <= NFILE_SNFITSIO g /\
  (forall k, 1 <= k <= NFILE_SNFITSIO g ->
     0 <= NAXIS2 (FILES g k ITYPE_SNFITSIO_HEAD)) /\
  NSNLC_upto (FILES g) (NFILE_SNFITSIO g) <= INT_MAX /\
  head_table_ok (FILES g 1 ITYPE_SNFITSIO_HEAD) = true /\
  forms_known (FILES g 1 ITYPE_SNFITSIO_PHOT) = true.
Proof.
  cbv zeta. split; [vm_compute; discriminate|]. split.
  - intros k Hk. change (NFILE_SNFITSIO _) with 2 in Hk.
    assert (k = 1 \/ k = 2) as [-> | ->] by lia; vm_compute; discriminate.
  - split; [vm_compute; discriminate|].
    split; vm_compute; reflexivity.
Qed.

Lemma RD_SNFITSIO_PREP_partitions_witness :
  exists g',
    RD_SNFITSIO_PREP
      (set_FILES sample_disk_2 (set_NFILE_SNFITSIO 2 globals_init))
    = Ok 4 g' /\
    find_ifile (NSNLC_SNFITSIO_SUM g') 3 1 (trips 1 (NFILE_SNFITSIO g')) (-9)
    = 2.
Proof.
  destruct sample_store_2_ok as (H0 & H1 & H2 & H3 & H4).
  destruct (RD_SNFITSIO_PREP_partitions
              (set_FILES sample_disk_2 (set_NFILE_SNFITSIO 2 globals_init)) 3
              H0 H1 H2 H3 H4)
    as (g' & E & Hin & _).
  exists g'. split; [exact E|].
  destruct Hin as (Ha & Hc); [vm_compute; split; discriminate|].
  revert Ha Hc.
  generalize (find_ifile (NSNLC_SNFITSIO_SUM g') 3 1
                (trips 1 (NFILE_SNFITSIO g')) (-9)).
  intros ifile Ha Hc. clear - Ha Hc.
  change (NFILE_SNFITSIO _) with 2 in Ha.
  assert (ifile = 1 \/ ifile = 2) as [-> | ->] by lia; [|reflexivity].
  exfalso. destruct Hc as [_ Hc]. revert Hc. vm_compute.
  intros Hc. apply Hc. reflexivity.
Defined.

(** ** Reading from another partition *)

Section Switch.
Context {K : constants}.

Lemma RD_SNFITSIO_CLOSE_eq g :
  exists v, RD_SNFITSIO_CLOSE g = Ok tt (set_MALLOC_LEN_SNFITSIO v g).
Proof.
  unfold RD_SNFITSIO_CLOSE, rd_snfitsio_free, bind, gets, modify, ret.
  destruct (MALLOC_LEN_SNFITSIO g ITYPE_SNFITSIO_HEAD <=? 0).
  - destruct (MALLOC_LEN_SNFITSIO g ITYPE_SNFITSIO_PHOT <=? 0).
    + exists (MALLOC_LEN_SNFITSIO g). f_equal. destruct g; reflexivity.
    + eexists. reflexivity.
  - cbn [MALLOC_LEN_SNFITSIO set_MALLOC_LEN_SNFITSIO].
    match goal with
    | |- context [if ?b then _ else _] => destruct b
    end; eexists; reflexivity.
Qed.

(** A record of a partition that is not the open one: [PARVAL_open] closes
    the open partition and opens and reads the record's, with the record as
    its first. *)
Lemma PARVAL_open_switch isn g :
  let ifile :=
    find_ifile (NSNLC_SNFITSIO_SUM g) isn 1 (trips 1 (NFILE_SNFITSIO g)) (-9) in
  let H := FILES g ifile ITYPE_SNFITSIO_HEAD in
  let P := FILES g ifile ITYPE_SNFITSIO_PHOT in
  ifile <> IFILE_SNFITSIO g ->
  head_table_ok H = true ->
  forms_known P = true ->
  exists g1,
    PARVAL_open isn g = Ok tt g1 /\
    loaded g1 ifile H P /\
    IFILE_SNFITSIO g1 = ifile /\
    ISNFIRST_SNFITSIO g1 = isn /\
    NSNLC_SNFITSIO_SUM g1 = NSNLC_SNFITSIO_SUM g /\
    NFILE_SNFITSIO g1 = NFILE_SNFITSIO g /\
    FILES g1 = FILES g /\
    NEP_RDMASK_SNFITSIO_PARVAL g1 = NEP_RDMASK_SNFITSIO_PARVAL g /\
    RDMASK_SNFITSIO_PARVAL g1 = RDMASK_SNFITSIO_PARVAL g.
Proof.
  intros ifile H P Hne HH HP. rewrite PARVAL_open_eq. cbv zeta. fold ifile.
  apply Z.eqb_neq in Hne. rewrite Hne.
  destruct (RD_SNFITSIO_CLOSE_eq g) as [v ->].
  set (g2 := set_ISNFIRST_SNFITSIO isn
               (set_IFILE_SNFITSIO ifile (set_MALLOC_LEN_SNFITSIO v g))).
  destruct (rd_snfitsio_file_Ok ifile g2) as (g1 & c & E & L & Kp & _).
  { exact HH. }
  { exact HP. }
  change (FILES g2) with (FILES g) in L. fold H P in L.
  exists g1. unfold bind at 1. rewrite E.
  split; [reflexivity|]. split; [exact L|].
  destruct Kp as (K1 & K2 & K3 & K4 & K5 & K6 & K7).
  repeat split; assumption.
Qed.

(** A Header column of a record of a partition that is not the open one:
    [RD_SNFITSIO_PARVAL] opens the record's partition and returns the cell
    that its Header table holds for the record, at the row counted from the
    end of the partitions before it. *)
Theorem RD_SNFITSIO_PARVAL_other_partition isn parName parList iptr g icol f
  c :
  let ifile :=
    find_ifile (NSNLC_SNFITSIO_SUM g) isn 1 (trips 1 (NFILE_SNFITSIO g)) (-9) in
  let H := FILES g ifile ITYPE_SNFITSIO_HEAD in
  let P := FILES g ifile ITYPE_SNFITSIO_PHOT in
  let row := int_cast (isn - NSNLC_SNFITSIO_SUM g (ifile - 1)) in
  ifile <> IFILE_SNFITSIO g ->
  head_table_ok H = true ->
  forms_known P = true ->
  table_column H parName = Some icol ->
  form_index (TFORM H icol) = Some f ->
  1 <= row <= NAXIS2 H ->
  fits_read_cell H icol row = Some c ->
  cell_has_form f c = true ->
  exists parList' parString' g',
    RD_SNFITSIO_PARVAL isn parName parList iptr g =
      Ok (1, parList', parString', int_cast (icol + 0 * MXPAR_SNFITSIO)) g' /\
    (f <> IFORM_A -> parList' 0 = cell_double c /\ parString' = EmptyString) /\
    (f = IFORM_A -> parString' = cell_string c).
Proof.
  intros ifile H P row Hne HH HP Hcol Hf Hrow Hcell Hform.
  destruct (PARVAL_open_switch isn g Hne HH HP)
    as (g1 & E1 & L & I1 & F1 & S1 & N1 & _).
  fold ifile H P in L, I1.
  assert (Hopen1 : find_ifile (NSNLC_SNFITSIO_SUM g1) isn 1
                     (trips 1 (NFILE_SNFITSIO g1)) (-9) = IFILE_SNFITSIO g1).
  { rewrite S1, N1, I1. reflexivity. }
  assert (Esame : RD_SNFITSIO_PARVAL isn parName parList iptr g
                  = RD_SNFITSIO_PARVAL isn parName parList iptr g1).
  { rewrite !RD_SNFITSIO_PARVAL_eq, E1, (PARVAL_open_eq isn g1). cbv zeta.
    rewrite Hopen1, Z.eqb_refl. reflexivity. }
  rewrite Esame.
  destruct (PARVAL_header_loaded isn parName parList iptr g1 H P icol f c)
    as (pl & ps & g' & E & Hnum & Hstr & _); try assumption.
  - rewrite I1. exact L.
  - right. symmetry. exact F1.
  - rewrite S1, I1. exact Hrow.
  - rewrite S1, I1. exact Hcell.
  - exists pl, ps, g'. split; [exact E|]. split; assumption.
Qed.

End Switch.
Lemma RD_SNFITSIO_PARVAL_other_partition_witness :
  IFILE_SNFITSIO sample_reader_2 = 1 /\
  exists parList' parString' g',
    RD_SNFITSIO_PARVAL (K := sample_constants) 3 "NOBS" (fun _ => d_0) (-9)
      sample_reader_2 = Ok (1, parList', parString', 12) g' /\
    parList' 0 = double_of_Z 2.
Proof.
  split; [vm_compute; reflexivity|].
  destruct (RD_SNFITSIO_PARVAL_other_partition (K := sample_constants)
              3 "NOBS" (fun _ => d_0) (-9) sample_reader_2 12 IFORM_1J
              (TINT 2))
    as (l & s & g' & E & Hn & _).
  - vm_compute; discriminate.
  - vm_compute; reflexivity.
  - vm_compute; reflexivity.
  - vm_compute; reflexivity.
  - vm_compute; reflexivity.
  - vm_compute. split; discriminate.
  - vm_compute; reflexivity.
  - reflexivity.
  - exists l, s, g'. split; [exact E|].
    destruct (Hn ltac:(discriminate)) as [-> _]. vm_compute; reflexivity.
Defined.
(** ** Writing a record and reading it back *)

Section RoundTrip.
Context {K : constants}.












End RoundTrip.


